(** * Kunyu: lexer, parser, object model and tree-walking interpreter

    A shallow embedding of the C sources of the Kunyu scripting language
    (kunyu.h, ast.h, ast.c, parser.c, lexer.c, object.c, builtins.c,
    interpreter.c) and the properties of its specification that were
    checked against it.

    Modelling conventions, used throughout:
    - a C string is a [string] (a sequence of bytes); Chinese keywords and
      messages are the UTF-8 bytes of the literals of the source;
    - a pointer that may be NULL is an [option]; the heap of [PyObject]s is
      a list of cells indexed by address, a freed cell is [None];
    - [malloc], [realloc] and [strdup] always succeed: the branches of the
      source that handle a failed allocation are not part of the model;
    - [free] of AST nodes and of C strings has no counterpart (the values of
      the model are immutable), [free] of a [PyObject] empties its cell;
    - what C leaves undefined (a NULL or dangling pointer dereferenced, an
      integer division by zero, a double that does not fit in an int) is
      the outcome [Undefined];
    - recursion and unbounded loops take a [fuel] argument and answer
      [OutOfFuel] when it is used up;
    - C [double]s are the primitive binary64 floats of the kernel, C [int]
      counters are [Z] or [nat] (their overflow is out of reach). *)

From Stdlib Require Import ZArith Ascii String List Bool Lia.
From Stdlib Require Import PrimFloat SpecFloat FloatOps DecimalString.
From stdpp Require Import base tactics option list strings.

Local Open Scope string_scope.
Local Open Scope Z_scope.

(* ================================================================== *)
(** ** Outcomes and the state monad of the three passes *)

Inductive outcome (S A : Type) : Type :=
| Done (a : A) (s : S)
| Undefined
| OutOfFuel.
Arguments Done {S A} a s.
Arguments Undefined {S A}.
Arguments OutOfFuel {S A}.

Definition M (S A : Type) : Type := S -> outcome S A.

Definition ret {S A} (a : A) : M S A := fun s => Done a s.

Definition bind {S A B} (m : M S A) (f : A -> M S B) : M S B :=
  fun s => match m s with
           | Done a s' => f a s'
           | Undefined => Undefined
           | OutOfFuel => OutOfFuel
           end.

Definition get {S} : M S S := fun s => Done s s.
Definition put {S} (s : S) : M S unit := fun _ => Done tt s.
Definition modify {S} (f : S -> S) : M S unit := fun s => Done tt (f s).
Definition undefined {S A} : M S A := fun _ => Undefined.
Definition out_of_fuel {S A} : M S A := fun _ => OutOfFuel.

Notation "'let*' x ':=' m 'in' f" := (bind m (fun x => f))
  (at level 10, x name, m at level 100, f at level 200).
Notation "m ';;;' f" := (bind m (fun _ => f))
  (at level 100, f at level 200, right associativity).

(** Running a computation of a component inside a larger state. *)
Definition lift {S T A} (proj : S -> T) (upd : T -> S -> S) (m : M T A) : M S A :=
  fun s => match m (proj s) with
           | Done a t => Done a (upd t s)
           | Undefined => Undefined
           | OutOfFuel => OutOfFuel
           end.

(* ================================================================== *)
(** ** The C library, as far as the sources use it *)

Module Libc.

(** [strlen]-bounded view of a buffer: the bytes before the first NUL. *)
Fixpoint c_str (s : string) : string :=
  match s with
  | EmptyString => EmptyString
  | String c r => if Ascii.eqb c "000"%char then EmptyString else String c (c_str r)
  end.

Fixpoint take (n : nat) (s : string) : string :=
  match n, s with
  | O, _ => EmptyString
  | _, EmptyString => EmptyString
  | S n', String c r => String c (take n' r)
  end.

(** [snprintf(buf, 256, ...)]: at most 255 bytes of the text are kept. *)
Definition snprintf256 (text : string) : string := take 255 text.

Definition code (c : ascii) : Z := Z.of_nat (nat_of_ascii c).

(** [isdigit], [isalpha], [isalnum] in the "C" locale; a byte above 127
    (a negative [char]) is in none of the classes. *)
Definition isdigit (c : ascii) : bool := (48 <=? code c) && (code c <=? 57).
Definition isalpha (c : ascii) : bool :=
  ((65 <=? code c) && (code c <=? 90)) || ((97 <=? code c) && (code c <=? 122)).
Definition isalnum (c : ascii) : bool := isalpha c || isdigit c.

(** ["%d"] of an integer. *)
Definition string_of_Z (z : Z) : string := NilZero.string_of_int (Z.to_int z).

(** *** Doubles *)

Definition double := float.

(** The value [m * 2^e] of a finite double as a fraction [num / den]. *)
Definition frac_of (m : positive) (e : Z) : Z * Z :=
  if 0 <=? e then (Z.pos m * 2 ^ e, 1) else (Z.pos m, 2 ^ (- e)).

(** Rounding of the non-negative fraction [num / den] to an integer, ties to even. *)
Definition round_half_even (num den : Z) : Z :=
  let q := num / den in
  let r := num mod den in
  match 2 * r ?= den with
  | Lt => q
  | Gt => q + 1
  | Eq => if Z.even q then q else q + 1
  end.

(** [atof] on the text of a number token: a run of decimal digits with at
    most one ['.'] (what [read_number] produces).  The longest such prefix
    is converted, correctly rounded; no digit at all gives [0].  Signs,
    exponents and the [inf]/[nan]/hexadecimal forms never reach [atof] from
    the lexer and are not modelled. *)
Fixpoint scan_digits (s : string) (acc : Z) (count : Z) : Z * Z * string :=
  match s with
  | String c r =>
      if isdigit c then scan_digits r (10 * acc + (code c - 48)) (count + 1)
      else (acc, count, s)
  | EmptyString => (acc, count, s)
  end.

Definition atof (s : string) : double :=
  let '(ip, _, rest) := scan_digits s 0 0 in
  let '(n, k) :=
    match rest with
    | String "." r => let '(n, k, _) := scan_digits r ip 0 in (n, k)
    | _ => (ip, 0)
    end in
  match n with
  | Z0 => PrimFloat.zero
  | _ =>
      let '(mz, ez, lz) := SFdiv_core_binary prec emax n 0 (10 ^ k) 0 in
      SF2Prim (binary_round_aux prec emax false mz ez lz)
  end.

(** [(double)i] for an [int] [i]: exact. *)
Definition double_of_int (i : Z) : double :=
  match i with
  | Z0 => PrimFloat.zero
  | Zpos p => SF2Prim (binary_round prec emax false p 0)
  | Zneg p => SF2Prim (binary_round prec emax true p 0)
  end.

Definition INT_MAX : Z := 2147483647.
Definition INT_MIN : Z := -2147483648.

(** [(int)x]: truncation toward zero; undefined ([None]) when the
    truncated value is not an [int] (C99 6.3.1.4), NaN and infinities
    included. *)
Definition int_of_double (x : double) : option Z :=
  match Prim2SF x with
  | S754_zero _ => Some 0
  | S754_finite s m e =>
      let '(num, den) := frac_of m e in
      let t := if s then - (num / den) else num / den in
      if (INT_MIN <=? t) && (t <=? INT_MAX) then Some t else None
  | _ => None
  end.

(** [(size_t)x]: truncation toward zero, undefined outside [0, 2^64). *)
Definition size_of_double (x : double) : option nat :=
  match Prim2SF x with
  | S754_zero _ => Some 0%nat
  | S754_finite s m e =>
      let '(num, den) := frac_of m e in
      let t := if s then - (num / den) else num / den in
      if (0 <=? t) && (t <? 2 ^ 64) then Some (Z.to_nat t) else None
  | _ => None
  end.

(** [a % b] on [int]s: undefined for a zero divisor and when the quotient
    overflows (C99 6.5.5); otherwise the remainder of the truncating division. *)
Definition int_rem (a b : Z) : option Z :=
  if b =? 0 then None
  else if (a =? INT_MIN) && (b =? -1) then None
  else Some (Z.rem a b).

(** The value returned by [modf(x, &intpart)]: the fractional part of [x],
    with the sign of [x]. *)
Definition modf (x : double) : double :=
  match Prim2SF x with
  | S754_nan => x
  | S754_zero _ => x
  | S754_infinity s => SF2Prim (S754_zero s)
  | S754_finite s m e =>
      if 0 <=? e then SF2Prim (S754_zero s)
      else match Z.pos m mod 2 ^ (- e) with
           | Zpos f => SF2Prim (S754_finite s f e)
           | _ => SF2Prim (S754_zero s)
           end
  end.

Definition sign_text (s : bool) : string := if s then "-" else "".

(** [printf("%.0f", x)]. *)
Definition fmt_f0 (x : double) : string :=
  match Prim2SF x with
  | S754_nan => "nan"
  | S754_infinity s => sign_text s ++ "inf"
  | S754_zero s => sign_text s ++ "0"
  | S754_finite s m e =>
      let '(num, den) := frac_of m e in
      sign_text s ++ string_of_Z (round_half_even num den)
  end.

(** *** ["%g"] *)

Definition digits10 (n : Z) : Z := Z.of_nat (String.length (string_of_Z n)).

(** The decimal exponent of the positive fraction [num / den]:
    the [x] with [10^x <= num/den < 10^(x+1)]. *)
Definition exp10 (num den : Z) : Z :=
  let x := digits10 num - digits10 den in
  if (0 <=? x) && (den * 10 ^ x <=? num) then x
  else if (x <? 0) && (den <=? num * 10 ^ (- x)) then x
  else x - 1.

(** [num / den] scaled by [10^(-k)] and rounded to an integer. *)
Definition round_scaled (num den k : Z) : Z :=
  if 0 <=? k then round_half_even num (den * 10 ^ k)
  else round_half_even (num * 10 ^ (- k)) den.

(** The six significant digits [d] and the exponent [x] of style [e]. *)
Definition sig6 (num den : Z) : Z * Z :=
  let x := exp10 num den in
  let d := round_scaled num den (x - 5) in
  if d =? 1000000 then (100000, x + 1) else (d, x).

Fixpoint strip_zeros_rev (s : list ascii) : list ascii :=
  match s with
  | "0"%char :: r => strip_zeros_rev r
  | _ => s
  end.

(** Removal of the trailing zeros of a fraction, as ["%g"] does. *)
Definition strip_trailing_zeros (s : string) : string :=
  string_of_list_ascii (rev (strip_zeros_rev (rev (list_ascii_of_string s)))).

Definition with_fraction (ip fp : string) : string :=
  match strip_trailing_zeros fp with
  | EmptyString => ip
  | f => ip ++ "." ++ f
  end.

Fixpoint zeros (n : nat) : string :=
  match n with O => "" | S n' => String "0" (zeros n') end.

Definition pad2 (s : string) : string :=
  match s with
  | String c EmptyString => String "0" s
  | _ => s
  end.

Definition drop (n : nat) (s : string) : string :=
  String.substring n (String.length s - n) s.

(** [printf("%g", x)]: precision 6, style [f] when the exponent [x] of
    style [e] satisfies [-4 <= x < 6], style [e] otherwise, trailing zeros
    removed (C99 7.19.6.1).  The sign bit of a NaN is not visible in the
    model: glibc prints [-nan] when it is set. *)
Definition fmt_g (v : double) : string :=
  match Prim2SF v with
  | S754_nan => "nan"
  | S754_infinity s => sign_text s ++ "inf"
  | S754_zero s => sign_text s ++ "0"
  | S754_finite s m e =>
      let '(num, den) := frac_of m e in
      let '(d, x) := sig6 num den in
      let ds := string_of_Z d in
      sign_text s ++
      (if (-4 <=? x) && (x <? 6) then
         if 0 <=? x then
           with_fraction (take (Z.to_nat (x + 1)) ds) (drop (Z.to_nat (x + 1)) ds)
         else
           with_fraction "0" (zeros (Z.to_nat (- x - 1)) ++ ds)
       else
         with_fraction (take 1 ds) (drop 1 ds) ++ "e" ++
         (if x <? 0 then "-" else "+") ++ pad2 (string_of_Z (Z.abs x)))
  end.

End Libc.

(* ================================================================== *)
(** ** kunyu.h: error codes, tokens, node and object tags *)

Inductive KunyuErrorCode : Set :=
| KUNYU_OK | KUNYU_ERROR_LEXER | KUNYU_ERROR_PARSER | KUNYU_ERROR_COMPILER
| KUNYU_ERROR_RUNTIME | KUNYU_ERROR_IO | KUNYU_ERROR_MEMORY.

Inductive KunyuTokenType : Set :=
| KUNYU_TOKEN_EOF | KUNYU_TOKEN_IDENTIFIER | KUNYU_TOKEN_KEYWORD | KUNYU_TOKEN_STRING
| KUNYU_TOKEN_NUMBER | KUNYU_TOKEN_OPERATOR | KUNYU_TOKEN_DELIMITER | KUNYU_TOKEN_NEWLINE.

Definition KunyuTokenType_eqb (a b : KunyuTokenType) : bool :=
  match a, b with
  | KUNYU_TOKEN_EOF, KUNYU_TOKEN_EOF | KUNYU_TOKEN_IDENTIFIER, KUNYU_TOKEN_IDENTIFIER
  | KUNYU_TOKEN_KEYWORD, KUNYU_TOKEN_KEYWORD | KUNYU_TOKEN_STRING, KUNYU_TOKEN_STRING
  | KUNYU_TOKEN_NUMBER, KUNYU_TOKEN_NUMBER | KUNYU_TOKEN_OPERATOR, KUNYU_TOKEN_OPERATOR
  | KUNYU_TOKEN_DELIMITER, KUNYU_TOKEN_DELIMITER | KUNYU_TOKEN_NEWLINE, KUNYU_TOKEN_NEWLINE => true
  | _, _ => false
  end.

(** [Token]: the fields [type], [value], [line], [column] of the struct. *)
Record Token : Set := mkToken {
  tk_type : KunyuTokenType;
  tk_value : string;
  tk_line : Z;
  tk_column : Z
}.

(** [KunyuError]: the fields [code], [message] (a 256-byte buffer), [line], [column]. *)
Record KunyuError : Set := mkError {
  err_code : KunyuErrorCode;
  err_message : string;
  err_line : Z;
  err_column : Z
}.

Definition no_error : KunyuError := mkError KUNYU_OK "" 0 0.

Inductive NodeType : Set :=
| NODE_PROGRAM | NODE_BLOCK | NODE_VARDECL | NODE_FUNCDECL | NODE_IF | NODE_LOOP
| NODE_CALL | NODE_RETURN | NODE_PRINT | NODE_BINARY | NODE_UNARY | NODE_LITERAL
| NODE_IDENTIFIER | NODE_GROUPING | NODE_ASSIGN.

Inductive ObjectType : Set :=
| TYPE_NULL | TYPE_NUMBER | TYPE_STRING | TYPE_LIST | TYPE_DICT | TYPE_FUNCTION.

(* ================================================================== *)
(** ** ast.h, ast.c: the syntax tree *)

Inductive BinaryOpType : Set :=
| OP_ADD | OP_SUB | OP_MUL | OP_DIV | OP_MOD | OP_EQ | OP_NE
| OP_LT | OP_LE | OP_GT | OP_GE | OP_AND | OP_OR.

Inductive UnaryOpType : Set := OP_NEG | OP_NOT.

(** One constructor per node struct, built by the [create_*] function of
    the same kind.  [else_branch] and the value of a return may be NULL;
    the children that [create_*] refuses when NULL are plain nodes.  The
    [line] and [column] of a node are written by [create_*] and read by
    nothing else; they are left out. *)
#[warnings="-register-all"]
Inductive AstNode : Type :=
| Program (statements : list AstNode)
| ExpressionStmt (expr : AstNode)
| VarDeclStmt (name : string) (initializer : AstNode) (is_constant : bool)
| BlockStmt (statements : list AstNode)
| IfStmt (condition then_branch : AstNode) (else_branch : option AstNode)
| LoopStmt (condition body : AstNode)
| FunctionStmt (name : string) (params : list string) (body : AstNode)
| ReturnStmt (value : option AstNode)
| PrintStmt (value : AstNode)
| LiteralExpr (token_type : KunyuTokenType) (value : string)
| VariableExpr (name : string)
| BinaryExpr (op : BinaryOpType) (left right : AstNode)
| UnaryExpr (op : UnaryOpType) (operand : AstNode)
| CallExpr (name : string) (args : list AstNode)
| GroupingExpr (expr : AstNode)
| AssignExpr (name : string) (value : AstNode).

(** The [type] tag that [create_*] stores: [create_expression_stmt] stores
    [NODE_PROGRAM], like [create_program]. *)
Definition node_type (n : AstNode) : NodeType :=
  match n with
  | Program _ => NODE_PROGRAM
  | ExpressionStmt _ => NODE_PROGRAM
  | VarDeclStmt _ _ _ => NODE_VARDECL
  | BlockStmt _ => NODE_BLOCK
  | IfStmt _ _ _ => NODE_IF
  | LoopStmt _ _ => NODE_LOOP
  | FunctionStmt _ _ _ => NODE_FUNCDECL
  | ReturnStmt _ => NODE_RETURN
  | PrintStmt _ => NODE_PRINT
  | LiteralExpr _ _ => NODE_LITERAL
  | VariableExpr _ => NODE_IDENTIFIER
  | BinaryExpr _ _ _ => NODE_BINARY
  | UnaryExpr _ _ => NODE_UNARY
  | CallExpr _ _ => NODE_CALL
  | GroupingExpr _ => NODE_GROUPING
  | AssignExpr _ _ => NODE_ASSIGN
  end.

(* ================================================================== *)
(** ** lexer.c *)

Module Lexer.
Import Libc.

Definition keywords : list string :=
  ["变量"; "常量"; "如果"; "否则"; "循环"; "函数"; "返回"; "输出"].

(** [LexerContext]; [token_capacity] only drives [realloc] and is left out. *)
Record LexerContext : Set := mkLexer {
  source : string;
  pos : nat;
  line : Z;
  column : Z;
  tokens : list Token;
  error : KunyuError
}.

Definition Lx := M LexerContext.

Definition lexer_init (src : string) : LexerContext :=
  mkLexer (c_str src) 0 1 1 [] no_error.

Definition source_len (lx : LexerContext) : nat := String.length (source lx).

Definition char_at (lx : LexerContext) (i : nat) : ascii :=
  match String.get i (source lx) with Some c => c | None => "000"%char end.

Definition is_eof (lx : LexerContext) : bool := (source_len lx <=? pos lx)%nat.

Definition current_char (lx : LexerContext) : ascii :=
  if is_eof lx then "000"%char else char_at lx (pos lx).

Definition peek_char (lx : LexerContext) : ascii :=
  if (source_len lx <=? pos lx + 1)%nat then "000"%char else char_at lx (pos lx + 1).

Definition advance : Lx unit := fun lx =>
  if is_eof lx then Done tt lx
  else
    let c := char_at lx (pos lx) in
    if Ascii.eqb c "010"%char
    then Done tt (mkLexer (source lx) (S (pos lx)) (line lx + 1) 1 (tokens lx) (error lx))
    else Done tt (mkLexer (source lx) (S (pos lx)) (line lx) (column lx + 1) (tokens lx) (error lx)).

Definition add_token (type : KunyuTokenType) (value : string) (l c : Z) : Lx bool := fun lx =>
  Done true (mkLexer (source lx) (pos lx) (line lx) (column lx)
               ((tokens lx ++ [mkToken type value l c])%list) (error lx)).

Definition set_error (code : KunyuErrorCode) (msg : string) (l c : Z) : Lx unit := fun lx =>
  Done tt (mkLexer (source lx) (pos lx) (line lx) (column lx) (tokens lx)
             (mkError code (snprintf256 msg) l c)).

Fixpoint skip_whitespace (fuel : nat) : Lx unit :=
  match fuel with
  | O => out_of_fuel
  | S f =>
      let* lx := get in
      if is_eof lx then ret tt
      else
        let c := current_char lx in
        if Ascii.eqb c " "%char || Ascii.eqb c "009"%char || Ascii.eqb c "013"%char
        then advance ;;; skip_whitespace f
        else ret tt
  end.

Fixpoint skip_comment_loop (fuel : nat) : Lx unit :=
  match fuel with
  | O => out_of_fuel
  | S f =>
      let* lx := get in
      if is_eof lx then ret tt
      else if Ascii.eqb (current_char lx) "010"%char then ret tt
      else advance ;;; skip_comment_loop f
  end.

Definition skip_comment (fuel : nat) : Lx unit :=
  advance ;;; skip_comment_loop fuel.

Definition is_alpha (c : ascii) : bool := isalpha c || Ascii.eqb c "_"%char.
Definition is_digit (c : ascii) : bool := isdigit c.
Definition is_alnum (c : ascii) : bool := isalnum c || Ascii.eqb c "_"%char.

Definition is_utf8_start (c : ascii) : bool := Z.land (code c) 192 =? 192.
Definition is_utf8_continuation (c : ascii) : bool := Z.land (code c) 192 =? 128.

Definition utf8_char_length (c : ascii) : nat :=
  if Z.land (code c) 128 =? 0 then 1%nat
  else if Z.land (code c) 224 =? 192 then 2%nat
  else if Z.land (code c) 240 =? 224 then 3%nat
  else if Z.land (code c) 248 =? 240 then 4%nat
  else 1%nat.

Fixpoint advance_n (n : nat) : Lx unit :=
  match n with
  | O => ret tt
  | S n' => advance ;;; advance_n n'
  end.

(** [read_utf8_char]: NULL at the end of the input or when the sequence
    is cut short, otherwise the bytes of the character. *)
Definition read_utf8_char : Lx (option string) :=
  let* lx := get in
  if is_eof lx then ret None
  else
    let c := current_char lx in
    let len := utf8_char_length c in
    if (source_len lx <? pos lx + len)%nat then ret None
    else
      let ch := String.substring (pos lx) len (source lx) in
      advance_n len ;;; ret (Some ch).

Fixpoint find_keyword (str : string) (ks : list string) (i : Z) : Z :=
  match ks with
  | [] => -1
  | k :: r => if String.eqb str k then i else find_keyword str r (i + 1)
  end.

Definition is_keyword (str : string) : Z := find_keyword str keywords 0.

Fixpoint read_identifier_loop (fuel : nat) : Lx unit :=
  match fuel with
  | O => out_of_fuel
  | S f =>
      let* lx := get in
      if is_eof lx then ret tt
      else
        let c := current_char lx in
        if negb (is_utf8_start c) then
          if negb (is_alnum c) then ret tt
          else advance ;;; read_identifier_loop f
        else
          let* u := read_utf8_char in
          match u with
          | None => ret tt
          | Some _ => read_identifier_loop f
          end
  end.

Definition read_identifier (fuel : nat) : Lx (option string) :=
  let* lx0 := get in
  let start_pos := pos lx0 in
  let* first_char := read_utf8_char in
  match first_char with
  | None => ret None
  | Some _ =>
      read_identifier_loop fuel ;;;
      let* lx := get in
      ret (Some (String.substring start_pos (pos lx - start_pos) (source lx)))
  end.

Fixpoint read_number_loop (fuel : nat) (has_dot : bool) : Lx unit :=
  match fuel with
  | O => out_of_fuel
  | S f =>
      let* lx := get in
      if is_eof lx then ret tt
      else
        let c := current_char lx in
        if is_digit c then advance ;;; read_number_loop f has_dot
        else if Ascii.eqb c "."%char && negb has_dot then advance ;;; read_number_loop f true
        else ret tt
  end.

Definition read_number (fuel : nat) : Lx (option string) :=
  let* lx0 := get in
  let start_pos := pos lx0 in
  read_number_loop fuel false ;;;
  let* lx := get in
  ret (Some (String.substring start_pos (pos lx - start_pos) (source lx))).

Fixpoint read_string_loop (fuel : nat) : Lx unit :=
  match fuel with
  | O => out_of_fuel
  | S f =>
      let* lx := get in
      if is_eof lx || Ascii.eqb (current_char lx) "034"%char then ret tt
      else if Ascii.eqb (current_char lx) "\"%char then
        advance ;;;
        let* lx1 := get in
        if is_eof lx1 then ret tt
        else advance ;;; read_string_loop f
      else advance ;;; read_string_loop f
  end.

Definition read_string (fuel : nat) : Lx (option string) :=
  advance ;;;
  let* lx0 := get in
  let start_pos := pos lx0 in
  read_string_loop fuel ;;;
  let* lx := get in
  let str := String.substring start_pos (pos lx - start_pos) (source lx) in
  (if negb (is_eof lx) && Ascii.eqb (current_char lx) "034"%char then advance else ret tt) ;;;
  ret (Some str).

(** An operator that may be followed by a second character. *)
Definition two_char (second : ascii) (long short : string) (l c : Z) : Lx bool :=
  advance ;;;
  let* lx := get in
  if Ascii.eqb (current_char lx) second
  then advance ;;; add_token KUNYU_TOKEN_OPERATOR long l c
  else add_token KUNYU_TOKEN_OPERATOR short l c.

Definition one_char (type : KunyuTokenType) (text : string) (l c : Z) : Lx bool :=
  advance ;;; add_token type text l c.

Definition read_next_token (fuel : nat) : Lx bool :=
  skip_whitespace fuel ;;;
  let* lx := get in
  if is_eof lx then add_token KUNYU_TOKEN_EOF "" (line lx) (column lx)
  else
    let c := current_char lx in
    let l := line lx in
    let col := column lx in
    if Ascii.eqb c "#"%char then skip_comment fuel ;;; ret true
    else if Ascii.eqb c "010"%char then
      advance ;;; add_token KUNYU_TOKEN_NEWLINE (String "010"%char "") l col
    else if is_alpha c || is_utf8_start c then
      let* identifier := read_identifier fuel in
      match identifier with
      | None => set_error KUNYU_ERROR_LEXER "读取标识符时发生错误" l col ;;; ret false
      | Some id =>
          if 0 <=? is_keyword id
          then add_token KUNYU_TOKEN_KEYWORD id l col
          else add_token KUNYU_TOKEN_IDENTIFIER id l col
      end
    else if is_digit c then
      let* number := read_number fuel in
      match number with
      | None => set_error KUNYU_ERROR_LEXER "读取数字时发生错误" l col ;;; ret false
      | Some n => add_token KUNYU_TOKEN_NUMBER n l col
      end
    else if Ascii.eqb c "034"%char then
      let* str := read_string fuel in
      match str with
      | None => set_error KUNYU_ERROR_LEXER "读取字符串时发生错误" l col ;;; ret false
      | Some s => add_token KUNYU_TOKEN_STRING s l col
      end
    else if Ascii.eqb c "="%char then two_char "="%char "==" "=" l col
    else if Ascii.eqb c "+"%char then one_char KUNYU_TOKEN_OPERATOR "+" l col
    else if Ascii.eqb c "-"%char then one_char KUNYU_TOKEN_OPERATOR "-" l col
    else if Ascii.eqb c "*"%char then one_char KUNYU_TOKEN_OPERATOR "*" l col
    else if Ascii.eqb c "/"%char then one_char KUNYU_TOKEN_OPERATOR "/" l col
    else if Ascii.eqb c "%"%char then one_char KUNYU_TOKEN_OPERATOR "%" l col
    else if Ascii.eqb c "<"%char then two_char "="%char "<=" "<" l col
    else if Ascii.eqb c ">"%char then two_char "="%char ">=" ">" l col
    else if Ascii.eqb c "!"%char then two_char "="%char "!=" "!" l col
    else if Ascii.eqb c "&"%char then two_char "&"%char "&&" "&" l col
    else if Ascii.eqb c "|"%char then two_char "|"%char "||" "|" l col
    else if Ascii.eqb c "("%char then one_char KUNYU_TOKEN_DELIMITER "(" l col
    else if Ascii.eqb c ")"%char then one_char KUNYU_TOKEN_DELIMITER ")" l col
    else if Ascii.eqb c "{"%char then one_char KUNYU_TOKEN_DELIMITER "{" l col
    else if Ascii.eqb c "}"%char then one_char KUNYU_TOKEN_DELIMITER "}" l col
    else if Ascii.eqb c "["%char then one_char KUNYU_TOKEN_DELIMITER "[" l col
    else if Ascii.eqb c "]"%char then one_char KUNYU_TOKEN_DELIMITER "]" l col
    else if Ascii.eqb c ","%char then one_char KUNYU_TOKEN_DELIMITER "," l col
    else if Ascii.eqb c "."%char then one_char KUNYU_TOKEN_DELIMITER "." l col
    else if Ascii.eqb c ";"%char then one_char KUNYU_TOKEN_DELIMITER ";" l col
    else
      set_error KUNYU_ERROR_LEXER ("未知字符: " ++ String c "") l col ;;;
      advance ;;; ret false.

Fixpoint lexer_tokenize_loop (fuel inner : nat) : Lx Z :=
  match fuel with
  | O => out_of_fuel
  | S f =>
      let* ok := read_next_token inner in
      if negb ok then ret (-1)
      else
        let* lx := get in
        match last (tokens lx) with
        | Some t =>
            if KunyuTokenType_eqb (tk_type t) KUNYU_TOKEN_EOF
            then ret (Z.of_nat (length (tokens lx)))
            else lexer_tokenize_loop f inner
        | None => lexer_tokenize_loop f inner
        end
  end.

(** [lexer_tokenize]: the token count, or [-1].  Every turn of a loop of
    the lexer consumes a byte or ends the loop, so the length of the
    source bounds them all. *)
Definition lexer_tokenize : Lx Z := fun lx =>
  lexer_tokenize_loop (S (S (source_len lx))) (S (source_len lx))
    (mkLexer (source lx) (pos lx) (line lx) (column lx) [] (error lx)).

(** [lexer_init] followed by [lexer_tokenize], as [main] runs them: the
    tokens, or the lexical error. *)
Definition tokenize (src : string) : option (list Token + KunyuError) :=
  match lexer_tokenize (lexer_init src) with
  | Done n lx => Some (if n <? 0 then inr (error lx) else inl (tokens lx))
  | _ => None
  end.

End Lexer.

(* ================================================================== *)
(** ** parser.c *)

Module Parser.
Import Libc.

Record ParserContext : Set := mkParser {
  tokens : list Token;
  current : nat;
  error : KunyuError
}.

Definition Ps := M ParserContext.

Definition token_count (ps : ParserContext) : nat := length (tokens ps).

Definition current_token (ps : ParserContext) : option Token :=
  if (token_count ps <=? current ps)%nat then None else tokens ps !! current ps.

Definition peek_token (ps : ParserContext) : option Token :=
  if (token_count ps <=? current ps + 1)%nat then None else tokens ps !! (current ps + 1)%nat.

Definition advance : Ps (option Token) := fun ps =>
  match current_token ps with
  | Some t => Done (Some t) (mkParser (tokens ps) (S (current ps)) (error ps))
  | None => Done None ps
  end.

Definition check (type : KunyuTokenType) (ps : ParserContext) : bool :=
  match current_token ps with
  | None => false
  | Some t => KunyuTokenType_eqb (tk_type t) type
  end.

Definition check_keyword (keyword : string) (ps : ParserContext) : bool :=
  match current_token ps with
  | None => false
  | Some t =>
      if negb (KunyuTokenType_eqb (tk_type t) KUNYU_TOKEN_KEYWORD) then false
      else String.eqb (tk_value t) keyword
  end.

Definition match_ (type : KunyuTokenType) : Ps bool :=
  let* ps := get in
  if check type ps then advance ;;; ret true else ret false.

Definition match_keyword (keyword : string) : Ps bool :=
  let* ps := get in
  if check_keyword keyword ps then advance ;;; ret true else ret false.

(** The error record of [expect]: code, position of the current token
    (0 when there is none), message. *)
Definition set_error_here (code : KunyuErrorCode) (msg : string) : Ps unit := fun ps =>
  let token := current_token ps in
  Done tt (mkParser (tokens ps) (current ps)
             (mkError code (snprintf256 msg)
                (match token with Some t => tk_line t | None => 0 end)
                (match token with Some t => tk_column t | None => 0 end))).

(** An error site that writes the code and the message only. *)
Definition set_error_code (code : KunyuErrorCode) (msg : string) : Ps unit := fun ps =>
  Done tt (mkParser (tokens ps) (current ps)
             (mkError code (snprintf256 msg) (err_line (error ps)) (err_column (error ps)))).

Definition set_error_at (code : KunyuErrorCode) (msg : string) (l c : Z) : Ps unit := fun ps =>
  Done tt (mkParser (tokens ps) (current ps) (mkError code (snprintf256 msg) l c)).

Definition expect (type : KunyuTokenType) (message : string) : Ps (option Token) :=
  let* ps := get in
  if check type ps then advance
  else set_error_here KUNYU_ERROR_PARSER message ;;; ret None.

Definition expect_keyword (keyword : string) (message : string) : Ps (option Token) :=
  let* ps := get in
  if check_keyword keyword ps then advance
  else set_error_here KUNYU_ERROR_PARSER message ;;; ret None.

(** [current_token()->value]: the dereference is undefined past the end. *)
Definition current_value : Ps string := fun ps =>
  match current_token ps with
  | Some t => Done (tk_value t) ps
  | None => Undefined
  end.

(** [check(KUNYU_TOKEN_DELIMITER) && strcmp(current_token()->value, text) == 0]. *)
Definition check_delimiter (text : string) (ps : ParserContext) : bool :=
  match current_token ps with
  | None => false
  | Some t => KunyuTokenType_eqb (tk_type t) KUNYU_TOKEN_DELIMITER && String.eqb (tk_value t) text
  end.

(** [tok == NULL || strcmp(tok->value, text) != 0]. *)
Definition missing (tok : option Token) (text : string) : bool :=
  match tok with
  | None => true
  | Some t => negb (String.eqb (tk_value t) text)
  end.

(** [while (match(KUNYU_TOKEN_NEWLINE)) {}]. *)
Fixpoint skip_newlines_loop (n : nat) : Ps unit :=
  match n with
  | O => ret tt
  | S n' =>
      let* m := match_ KUNYU_TOKEN_NEWLINE in
      if m then skip_newlines_loop n' else ret tt
  end.

Definition skip_newlines : Ps unit := fun ps => skip_newlines_loop (S (token_count ps)) ps.

(** The operator table of [parse_binary_expr]. *)
Definition binary_op_of (text : string) : option BinaryOpType :=
  if String.eqb text "+" then Some OP_ADD
  else if String.eqb text "-" then Some OP_SUB
  else if String.eqb text "*" then Some OP_MUL
  else if String.eqb text "/" then Some OP_DIV
  else if String.eqb text "%" then Some OP_MOD
  else if String.eqb text "==" then Some OP_EQ
  else if String.eqb text "!=" then Some OP_NE
  else if String.eqb text "<" then Some OP_LT
  else if String.eqb text "<=" then Some OP_LE
  else if String.eqb text ">" then Some OP_GT
  else if String.eqb text ">=" then Some OP_GE
  else if String.eqb text "&&" then Some OP_AND
  else if String.eqb text "||" then Some OP_OR
  else None.

Definition is_operator (tok : option Token) : bool :=
  match tok with
  | Some t => KunyuTokenType_eqb (tk_type t) KUNYU_TOKEN_OPERATOR
  | None => false
  end.

(** *** Expressions *)

Fixpoint parse_expression (fuel : nat) : Ps (option AstNode) :=
  match fuel with
  | O => out_of_fuel
  | S f =>
      let* ps := get in
      let assignment :=
        if check KUNYU_TOKEN_IDENTIFIER ps then
          match current_token ps, peek_token ps with
          | Some name, Some next =>
              if KunyuTokenType_eqb (tk_type next) KUNYU_TOKEN_OPERATOR
                 && String.eqb (tk_value next) "="
              then Some name else None
          | _, _ => None
          end
        else None in
      match assignment with
      | Some name =>
          advance ;;; advance ;;;
          let* value := parse_expression f in
          match value with
          | None => ret None
          | Some v => ret (Some (AssignExpr (tk_value name) v))
          end
      | None =>
          let* expr := parse_primary f in
          match expr with
          | None => ret None
          | Some e =>
              let* ps1 := get in
              if is_operator (current_token ps1) then parse_binary_expr f e
              else ret (Some e)
          end
      end
  end

with parse_binary_expr (fuel : nat) (left : AstNode) : Ps (option AstNode) :=
  match fuel with
  | O => out_of_fuel
  | S f =>
      let* op := advance in
      match op with
      | None => undefined
      | Some op =>
          match binary_op_of (tk_value op) with
          | None =>
              set_error_at KUNYU_ERROR_PARSER ("不支持的运算符: " ++ tk_value op)
                (tk_line op) (tk_column op) ;;;
              ret None
          | Some op_type =>
              let* right := parse_primary f in
              match right with
              | None => ret None
              | Some r =>
                  let binary := BinaryExpr op_type left r in
                  let* ps := get in
                  if is_operator (current_token ps) then parse_binary_expr f binary
                  else ret (Some binary)
              end
          end
      end
  end

with parse_function_call (fuel : nat) (name : string) : Ps (option AstNode) :=
  match fuel with
  | O => out_of_fuel
  | S f =>
      let* lparen := expect KUNYU_TOKEN_DELIMITER "预期'('开始函数调用" in
      if missing lparen "(" then ret None
      else
        let* ps := get in
        let* args :=
          if negb (check_delimiter ")" ps) then parse_call_args f [] else ret (Some []) in
        match args with
        | None => ret None
        | Some args =>
            let* rparen := expect KUNYU_TOKEN_DELIMITER "预期')'结束参数列表" in
            if missing rparen ")" then ret None
            else ret (Some (CallExpr name args))
        end
  end

(** The [while (true)] loop of [parse_function_call]: [None] where the
    source returns NULL from inside the loop. *)
with parse_call_args (fuel : nat) (args : list AstNode) : Ps (option (list AstNode)) :=
  match fuel with
  | O => out_of_fuel
  | S f =>
      let* arg := parse_expression f in
      match arg with
      | None => ret None
      | Some a =>
          let args := (args ++ [a])%list in
          let* ps := get in
          if check_delimiter ")" ps then ret (Some args)
          else
            let* comma := expect KUNYU_TOKEN_DELIMITER "预期','分隔参数" in
            if missing comma "," then ret None
            else parse_call_args f args
      end
  end

with parse_primary (fuel : nat) : Ps (option AstNode) :=
  match fuel with
  | O => out_of_fuel
  | S f =>
      let* ps := get in
      match current_token ps with
      | None =>
          set_error_code KUNYU_ERROR_PARSER "预期表达式但遇到了文件结束" ;;; ret None
      | Some token =>
          if KunyuTokenType_eqb (tk_type token) KUNYU_TOKEN_NUMBER
             || KunyuTokenType_eqb (tk_type token) KUNYU_TOKEN_STRING
          then advance ;;; ret (Some (LiteralExpr (tk_type token) (tk_value token)))
          else if KunyuTokenType_eqb (tk_type token) KUNYU_TOKEN_IDENTIFIER then
            advance ;;;
            let* ps1 := get in
            if check_delimiter "(" ps1 then parse_function_call f (tk_value token)
            else ret (Some (VariableExpr (tk_value token)))
          else if KunyuTokenType_eqb (tk_type token) KUNYU_TOKEN_DELIMITER
                  && String.eqb (tk_value token) "("
          then
            advance ;;;
            let* expr := parse_expression f in
            match expr with
            | None => ret None
            | Some e =>
                let* rparen := expect KUNYU_TOKEN_DELIMITER "预期')'来闭合分组表达式" in
                if missing rparen ")" then ret None
                else ret (Some (GroupingExpr e))
            end
          else
            set_error_at KUNYU_ERROR_PARSER ("预期表达式但遇到了: " ++ tk_value token)
              (tk_line token) (tk_column token) ;;;
            ret None
      end
  end.

(** *** Statements *)

Definition parse_print_stmt (fuel : nat) : Ps (option AstNode) :=
  let* keyword := expect_keyword "输出" "预期'输出'关键字" in
  match keyword with
  | None => ret None
  | Some _ =>
      let* expr := parse_expression fuel in
      match expr with
      | None => ret None
      | Some e =>
          let* semicolon := expect KUNYU_TOKEN_DELIMITER "预期';'作为输出语句的结束" in
          if missing semicolon ";" then ret None
          else ret (Some (PrintStmt e))
      end
  end.

Definition parse_var_decl (fuel : nat) : Ps (option AstNode) :=
  let* ps := get in
  let is_constant := check_keyword "常量" ps in
  advance ;;;
  let* name := expect KUNYU_TOKEN_IDENTIFIER "预期变量名标识符" in
  match name with
  | None => ret None
  | Some name =>
      let* equals := expect KUNYU_TOKEN_OPERATOR "预期'='赋值运算符" in
      if missing equals "=" then ret None
      else
        let* initializer := parse_expression fuel in
        match initializer with
        | None => ret None
        | Some init =>
            let* semicolon := expect KUNYU_TOKEN_DELIMITER "预期';'作为变量声明的结束" in
            if missing semicolon ";" then ret None
            else ret (Some (VarDeclStmt (tk_value name) init is_constant))
        end
  end.

Definition parse_return_stmt (fuel : nat) : Ps (option AstNode) :=
  let* keyword := expect_keyword "返回" "预期'返回'关键字" in
  match keyword with
  | None => ret None
  | Some _ =>
      let* value := parse_expression fuel in
      match value with
      | None => ret None
      | Some v =>
          let* semicolon := expect KUNYU_TOKEN_DELIMITER "预期';'作为返回语句的结束" in
          if missing semicolon ";" then ret None
          else ret (Some (ReturnStmt (Some v)))
      end
  end.

(** The parameter loop of [parse_function_decl]. *)
Fixpoint parse_params (fuel : nat) (params : list string) : Ps (option (list string)) :=
  match fuel with
  | O => out_of_fuel
  | S f =>
      let* param := expect KUNYU_TOKEN_IDENTIFIER "预期参数名标识符" in
      match param with
      | None => ret None
      | Some p =>
          let params := (params ++ [tk_value p])%list in
          let* ps := get in
          if check_delimiter ")" ps then ret (Some params)
          else
            let* comma := expect KUNYU_TOKEN_DELIMITER "预期','分隔参数" in
            if missing comma "," then ret None
            else parse_params f params
      end
  end.

(** The expression statement of [parse_statement]: [match] consumes the
    delimiter, and the text compared with [";"] is that of the token
    after it. *)
Definition parse_expression_stmt (fuel : nat) : Ps (option AstNode) :=
  let* expr := parse_expression fuel in
  match expr with
  | None => ret None
  | Some e =>
      let* m := match_ KUNYU_TOKEN_DELIMITER in
      let* bad :=
        if negb m then ret true
        else let* v := current_value in ret (negb (String.eqb v ";")) in
      if bad then
        set_error_here KUNYU_ERROR_PARSER "预期';'作为表达式语句的结束" ;;; ret None
      else
        advance ;;; ret (Some (ExpressionStmt e))
  end.

Fixpoint parse_statement (fuel : nat) : Ps (option AstNode) :=
  match fuel with
  | O => out_of_fuel
  | S f =>
      let* ps := get in
      if check_keyword "输出" ps then parse_print_stmt f
      else if check_keyword "变量" ps || check_keyword "常量" ps then parse_var_decl f
      else if check_keyword "如果" ps then parse_if_stmt f
      else if check_keyword "循环" ps then parse_loop_stmt f
      else if check_keyword "函数" ps then parse_function_decl f
      else if check_keyword "返回" ps then parse_return_stmt f
      else parse_expression_stmt f
  end

with parse_if_stmt (fuel : nat) : Ps (option AstNode) :=
  match fuel with
  | O => out_of_fuel
  | S f =>
      let* if_keyword := expect_keyword "如果" "预期'如果'关键字" in
      match if_keyword with
      | None => ret None
      | Some _ =>
      let* lparen := expect KUNYU_TOKEN_DELIMITER "预期'('开始条件表达式" in
      if missing lparen "(" then ret None else
      let* condition := parse_expression f in
      match condition with
      | None => ret None
      | Some cond =>
      let* rparen := expect KUNYU_TOKEN_DELIMITER "预期')'结束条件表达式" in
      if missing rparen ")" then ret None else
      let* lbrace := expect KUNYU_TOKEN_DELIMITER "预期'{'开始条件分支代码块" in
      if missing lbrace "{" then ret None else
      let* then_branch := parse_block f in
      match then_branch with
      | None => ret None
      | Some thn =>
          let* has_else := match_keyword "否则" in
          if has_else then
            let* ps := get in
            if check_keyword "如果" ps then
              let* else_branch := parse_if_stmt f in
              match else_branch with
              | None => ret None
              | Some els => ret (Some (IfStmt cond thn (Some els)))
              end
            else
              let* else_lbrace := expect KUNYU_TOKEN_DELIMITER "预期'{'开始否则分支代码块" in
              if missing else_lbrace "{" then ret None else
              let* else_branch := parse_block f in
              match else_branch with
              | None => ret None
              | Some els => ret (Some (IfStmt cond thn (Some els)))
              end
          else ret (Some (IfStmt cond thn None))
      end end end
  end

with parse_loop_stmt (fuel : nat) : Ps (option AstNode) :=
  match fuel with
  | O => out_of_fuel
  | S f =>
      let* loop_keyword := expect_keyword "循环" "预期'循环'关键字" in
      match loop_keyword with
      | None => ret None
      | Some _ =>
      let* lparen := expect KUNYU_TOKEN_DELIMITER "预期'('开始循环条件" in
      if missing lparen "(" then ret None else
      let* condition := parse_expression f in
      match condition with
      | None => ret None
      | Some cond =>
      let* rparen := expect KUNYU_TOKEN_DELIMITER "预期')'结束循环条件" in
      if missing rparen ")" then ret None else
      let* lbrace := expect KUNYU_TOKEN_DELIMITER "预期'{'开始循环体" in
      if missing lbrace "{" then ret None else
      let* body := parse_block f in
      match body with
      | None => ret None
      | Some b => ret (Some (LoopStmt cond b))
      end end end
  end

with parse_block (fuel : nat) : Ps (option AstNode) :=
  match fuel with
  | O => out_of_fuel
  | S f =>
      skip_newlines ;;;
      let* statements := parse_block_loop f [] in
      match statements with
      | None => ret None
      | Some stmts =>
          let* rbrace := expect KUNYU_TOKEN_DELIMITER "预期'}'结束代码块" in
          if missing rbrace "}" then ret None
          else ret (Some (BlockStmt stmts))
      end
  end

(** The [while] loop of [parse_block]. *)
with parse_block_loop (fuel : nat) (statements : list AstNode) : Ps (option (list AstNode)) :=
  match fuel with
  | O => out_of_fuel
  | S f =>
      let* ps := get in
      if check_delimiter "}" ps then ret (Some statements)
      else
        let* stmt := parse_statement f in
        match stmt with
        | None => ret None
        | Some s =>
            let statements := (statements ++ [s])%list in
            skip_newlines ;;;
            let* ps1 := get in
            if check KUNYU_TOKEN_EOF ps1 then
              set_error_code KUNYU_ERROR_PARSER "代码块未闭合，预期'}'" ;;; ret None
            else parse_block_loop f statements
        end
  end

with parse_function_decl (fuel : nat) : Ps (option AstNode) :=
  match fuel with
  | O => out_of_fuel
  | S f =>
      let* func_keyword := expect_keyword "函数" "预期'函数'关键字" in
      match func_keyword with
      | None => ret None
      | Some _ =>
      let* name := expect KUNYU_TOKEN_IDENTIFIER "预期函数名标识符" in
      match name with
      | None => ret None
      | Some name =>
      let* lparen := expect KUNYU_TOKEN_DELIMITER "预期'('开始参数列表" in
      if missing lparen "(" then ret None else
      let* ps := get in
      let* params :=
        if negb (check_delimiter ")" ps) then parse_params f [] else ret (Some []) in
      match params with
      | None => ret None
      | Some params =>
      let* rparen := expect KUNYU_TOKEN_DELIMITER "预期')'结束参数列表" in
      if missing rparen ")" then ret None else
      let* lbrace := expect KUNYU_TOKEN_DELIMITER "预期'{'开始函数体" in
      if missing lbrace "{" then ret None else
      let* body := parse_block f in
      match body with
      | None => ret None
      | Some b => ret (Some (FunctionStmt (tk_value name) params b))
      end end end end
  end.

(** The statement loop of [parse_program]: a NULL statement without an
    error code is skipped. *)
Fixpoint parse_program_loop (fuel : nat) (statements : list AstNode) : Ps (option AstNode) :=
  match fuel with
  | O => out_of_fuel
  | S f =>
      let* ps := get in
      if (current ps <? token_count ps)%nat && negb (check KUNYU_TOKEN_EOF ps) then
        let* stmt := parse_statement f in
        let* ps1 := get in
        match stmt with
        | Some s =>
            skip_newlines ;;; parse_program_loop f (statements ++ [s])%list
        | None =>
            match err_code (error ps1) with
            | KUNYU_OK => skip_newlines ;;; parse_program_loop f statements
            | _ => ret None
            end
        end
      else ret (Some (Program statements))
  end.

Definition parse_program (fuel : nat) : Ps (option AstNode) :=
  skip_newlines ;;; parse_program_loop fuel [].

Definition parser_init (toks : list Token) : ParserContext :=
  mkParser toks 0 no_error.

(** [parser_parse]: the root (NULL on failure) and the parser context left behind. *)
Definition parser_parse (fuel : nat) (toks : list Token)
  : outcome ParserContext (option AstNode) :=
  match toks with
  | [] => Done None (mkParser [] 0 no_error)
  | _ => parse_program fuel (parser_init toks)
  end.

End Parser.

(** Lexing then parsing a source text, as [main] does; [inl] is the lexical
    error.  [main] hands [parser_parse] the pointer that [lexer_init]
    returned, to an array of 1024 tokens.  [add_token] moves the array with
    [realloc] when the 1025th token arrives and [main] keeps the old
    pointer: reading the tokens through it is undefined. *)
Definition parse_source (fuel : nat) (src : string)
  : option (KunyuError + outcome Parser.ParserContext (option AstNode)) :=
  match Lexer.tokenize src with
  | Some (inl toks) =>
      if (1024 <? length toks)%nat then Some (inr Undefined)
      else Some (inr (Parser.parser_parse fuel toks))
  | Some (inr e) => Some (inl e)
  | None => None
  end.

(* ================================================================== *)
(** ** object.c: reference-counted values *)

(** The address of a [PyObject]; a [PyObject*] that may be NULL is an [option addr]. *)
Definition addr := nat.

(** The fields of the four object structs after the common header.  The
    [length] of a string is that of [value], the [length] of a list and the
    [size] of a dictionary are those of [items]. *)
Inductive ObjectData : Set :=
| NumberData (value : float)
| StringData (value : string)
| ListData (items : list addr) (capacity : nat)
| DictData (items : list (addr * addr)) (capacity : nat).

(** [PyObject]: [ref_count] and, for [type] and [destructor], the kind of [data]. *)
Record PyObject : Set := mkObject {
  ref_count : Z;
  data : ObjectData
}.

Definition object_type (o : PyObject) : ObjectType :=
  match data o with
  | NumberData _ => TYPE_NUMBER
  | StringData _ => TYPE_STRING
  | ListData _ _ => TYPE_LIST
  | DictData _ _ => TYPE_DICT
  end.

Abbreviation Heap := (list (option PyObject)).

Module Object.

Definition Hp := M Heap.

(** A read through a pointer: undefined when the object was freed. *)
Definition load (a : addr) : Hp PyObject := fun h =>
  match h !! a with
  | Some (Some o) => Done o h
  | _ => Undefined
  end.

Definition store (a : addr) (o : PyObject) : Hp unit := fun h =>
  match h !! a with
  | Some (Some _) => Done tt (<[a := Some o]> h)
  | _ => Undefined
  end.

(** [malloc] of an object: a fresh address. *)
Definition alloc (o : PyObject) : Hp addr := fun h =>
  Done (length h) (h ++ [Some o])%list.

(** [free(obj)]. *)
Definition free (a : addr) : Hp unit := fun h =>
  match h !! a with
  | Some (Some _) => Done tt (<[a := None]> h)
  | _ => Undefined
  end.

Definition py_incref (obj : option addr) : Hp unit :=
  match obj with
  | None => ret tt
  | Some a =>
      let* o := load a in
      store a (mkObject (ref_count o + 1) (data o))
  end.

(** [py_decref] with the four destructors.  [list_destructor] and
    [dict_destructor] read the length and the item from the object at
    every turn of their loop, as the source does. *)
Fixpoint py_decref (fuel : nat) (obj : option addr) : Hp unit :=
  match obj with
  | None => ret tt
  | Some a =>
      match fuel with
      | O => out_of_fuel
      | S f =>
          let* o := load a in
          store a (mkObject (ref_count o - 1) (data o)) ;;;
          if ref_count o - 1 <=? 0 then
            match data o with
            | NumberData _ => ret tt
            | StringData _ => ret tt
            | ListData _ _ => list_destructor f a 0
            | DictData _ _ => dict_destructor f a 0
            end ;;;
            free a
          else ret tt
      end
  end

with list_destructor (fuel : nat) (a : addr) (i : nat) : Hp unit :=
  match fuel with
  | O => out_of_fuel
  | S f =>
      let* o := load a in
      match data o with
      | ListData items _ =>
          match items !! i with
          | Some item => py_decref f (Some item) ;;; list_destructor f a (S i)
          | None => ret tt
          end
      | _ => undefined
      end
  end

with dict_destructor (fuel : nat) (a : addr) (i : nat) : Hp unit :=
  match fuel with
  | O => out_of_fuel
  | S f =>
      let* o := load a in
      match data o with
      | DictData items _ =>
          match items !! i with
          | Some (key, value) =>
              py_decref f (Some key) ;;; py_decref f (Some value) ;;;
              dict_destructor f a (S i)
          | None => ret tt
          end
      | _ => undefined
      end
  end.

Definition py_number_new (value : float) : Hp (option addr) :=
  let* a := alloc (mkObject 1 (NumberData value)) in ret (Some a).

Definition py_string_new (value : string) : Hp (option addr) :=
  let* a := alloc (mkObject 1 (StringData value)) in ret (Some a).

Definition py_list_new : Hp (option addr) :=
  let* a := alloc (mkObject 1 (ListData [] 8)) in ret (Some a).

Definition py_list_append (list item : option addr) : Hp bool :=
  match list with
  | None => ret false
  | Some l =>
      let* o := load l in
      match data o, item with
      | ListData items capacity, Some it =>
          let capacity := if (capacity <=? length items)%nat then (capacity * 2)%nat else capacity in
          store l (mkObject (ref_count o) (ListData (items ++ [it])%list capacity)) ;;;
          py_incref (Some it) ;;;
          ret true
      | _, _ => ret false
      end
  end.

Definition py_list_length (list : option addr) : Hp nat :=
  match list with
  | Some l =>
      let* o := load l in
      match data o with
      | ListData items _ => ret (length items)
      | _ => ret 0%nat
      end
  | None => ret 0%nat
  end.

Definition py_list_get (list : option addr) (index : nat) : Hp (option addr) :=
  match list with
  | Some l =>
      let* o := load l in
      match data o with
      | ListData items _ =>
          match items !! index with
          | Some item => py_incref (Some item) ;;; ret (Some item)
          | None => ret None
          end
      | _ => ret None
      end
  | None => ret None
  end.

Definition py_list_set (fuel : nat) (list : option addr) (index : nat) (item : option addr)
  : Hp bool :=
  match list with
  | None => ret false
  | Some l =>
      let* o := load l in
      match data o, item with
      | ListData items _, Some it =>
          match items !! index with
          | Some old =>
              py_decref fuel (Some old) ;;;
              let* o1 := load l in
              match data o1 with
              | ListData items1 capacity1 =>
                  store l (mkObject (ref_count o1) (ListData (<[index := it]> items1) capacity1)) ;;;
                  py_incref (Some it) ;;;
                  ret true
              | _ => undefined
              end
          | None => ret false
          end
      | _, _ => ret false
      end
  end.

Definition py_dict_new : Hp (option addr) :=
  let* a := alloc (mkObject 1 (DictData [] 8)) in ret (Some a).

(** The loop of [py_dict_find_index] over the items from index [i] on:
    the index of the first string key equal to the string [key], or [-1]. *)
Fixpoint py_dict_find_from (key : PyObject) (items : list (addr * addr)) (i : Z) : Hp Z :=
  match items with
  | [] => ret (-1)
  | (k, _) :: rest =>
      match data key with
      | StringData str_key =>
          let* ko := load k in
          match data ko with
          | StringData dict_key =>
              if String.eqb str_key dict_key then ret i
              else py_dict_find_from key rest (i + 1)
          | _ => py_dict_find_from key rest (i + 1)
          end
      | _ => py_dict_find_from key rest (i + 1)
      end
  end.

Definition py_dict_find_index (dict : addr) (key : addr) : Hp Z :=
  let* d := load dict in
  match data d with
  | DictData items _ =>
      match items with
      | [] => ret (-1)
      | _ => let* ko := load key in py_dict_find_from ko items 0
      end
  | _ => undefined
  end.

Definition py_dict_set (fuel : nat) (dict key value : option addr) : Hp bool :=
  match dict with
  | None => ret false
  | Some d =>
      let* o := load d in
      match data o, key, value with
      | DictData items capacity, Some k, Some v =>
          let* index := py_dict_find_index d k in
          if 0 <=? index then
            let i := Z.to_nat index in
            match items !! i with
            | Some (_, old) =>
                py_decref fuel (Some old) ;;;
                let* o1 := load d in
                match data o1 with
                | DictData items1 capacity1 =>
                    match items1 !! i with
                    | Some (k1, _) =>
                        store d (mkObject (ref_count o1)
                                   (DictData (<[i := (k1, v)]> items1) capacity1)) ;;;
                        py_incref (Some v) ;;;
                        ret true
                    | None => undefined
                    end
                | _ => undefined
                end
            | None => undefined
            end
          else
            let capacity :=
              if (capacity <=? length items)%nat then (capacity * 2)%nat else capacity in
            store d (mkObject (ref_count o) (DictData (items ++ [(k, v)])%list capacity)) ;;;
            py_incref (Some k) ;;;
            py_incref (Some v) ;;;
            ret true
      | _, _, _ => ret false
      end
  end.

Definition py_dict_get (dict key : option addr) : Hp (option addr) :=
  match dict with
  | None => ret None
  | Some d =>
      let* o := load d in
      match data o, key with
      | DictData items _, Some k =>
          let* index := py_dict_find_index d k in
          if 0 <=? index then
            match items !! Z.to_nat index with
            | Some (_, value) => py_incref (Some value) ;;; ret (Some value)
            | None => undefined
            end
          else ret None
      | _, _ => ret None
      end
  end.

Definition py_dict_size (dict : option addr) : Hp nat :=
  match dict with
  | Some d =>
      let* o := load d in
      match data o with
      | DictData items _ => ret (length items)
      | _ => ret 0%nat
      end
  | None => ret 0%nat
  end.

End Object.

(* ================================================================== *)
(** ** builtins.c *)

Module Builtins.
Import Libc Object.

(** [BuiltinFunc]: a node of the registry; the list is the chain of [next]. *)
Record BuiltinFunc : Type := mkBuiltin {
  name : string;
  func : nat -> list (option addr) -> Hp (option addr);
  arg_count : Z
}.

Definition arg (args : list (option addr)) (i : nat) : option addr :=
  match args !! i with Some a => a | None => None end.

Definition count (args : list (option addr)) : Z := Z.of_nat (length args).

Definition number_of_bool (b : bool) : float := if b then 1%float else 0%float.

Definition builtin_create_list (fuel : nat) (args : list (option addr)) : Hp (option addr) :=
  py_list_new.

Definition builtin_list_append (fuel : nat) (args : list (option addr)) : Hp (option addr) :=
  match count args =? 2, arg args 0, arg args 1 with
  | true, Some list, Some item =>
      let* lo := load list in
      match object_type lo with
      | TYPE_LIST =>
          let* result := py_list_append (Some list) (Some item) in
          py_number_new (number_of_bool result)
      | _ => ret None
      end
  | _, _, _ => ret None
  end.

Definition builtin_list_length (fuel : nat) (args : list (option addr)) : Hp (option addr) :=
  match count args =? 1, arg args 0 with
  | true, Some list =>
      let* lo := load list in
      match object_type lo with
      | TYPE_LIST =>
          let* n := py_list_length (Some list) in
          py_number_new (double_of_int (Z.of_nat n))
      | _ => ret None
      end
  | _, _ => ret None
  end.

(** [(size_t)index_num->value] then the list operation. *)
Definition with_index (index_obj : PyObject) (k : nat -> Hp (option addr)) : Hp (option addr) :=
  match data index_obj with
  | NumberData v =>
      match size_of_double v with
      | Some i => k i
      | None => undefined
      end
  | _ => ret None
  end.

Definition builtin_list_get (fuel : nat) (args : list (option addr)) : Hp (option addr) :=
  match count args =? 2, arg args 0, arg args 1 with
  | true, Some list, Some index_obj =>
      let* lo := load list in
      match object_type lo with
      | TYPE_LIST =>
          let* io := load index_obj in
          with_index io (fun index => py_list_get (Some list) index)
      | _ => ret None
      end
  | _, _, _ => ret None
  end.

Definition builtin_list_set (fuel : nat) (args : list (option addr)) : Hp (option addr) :=
  match count args =? 3, arg args 0, arg args 1, arg args 2 with
  | true, Some list, Some index_obj, Some value =>
      let* lo := load list in
      match object_type lo with
      | TYPE_LIST =>
          let* io := load index_obj in
          with_index io (fun index =>
            let* result := py_list_set fuel (Some list) index (Some value) in
            py_number_new (number_of_bool result))
      | _ => ret None
      end
  | _, _, _, _ => ret None
  end.

Definition builtin_create_dict (fuel : nat) (args : list (option addr)) : Hp (option addr) :=
  py_dict_new.

Definition builtin_dict_set (fuel : nat) (args : list (option addr)) : Hp (option addr) :=
  match count args =? 3, arg args 0, arg args 1, arg args 2 with
  | true, Some dict, Some key, Some value =>
      let* d := load dict in
      match object_type d with
      | TYPE_DICT =>
          let* result := py_dict_set fuel (Some dict) (Some key) (Some value) in
          py_number_new (number_of_bool result)
      | _ => ret None
      end
  | _, _, _, _ => ret None
  end.

Definition builtin_dict_get (fuel : nat) (args : list (option addr)) : Hp (option addr) :=
  match count args =? 2, arg args 0, arg args 1 with
  | true, Some dict, Some key =>
      let* d := load dict in
      match object_type d with
      | TYPE_DICT => py_dict_get (Some dict) (Some key)
      | _ => ret None
      end
  | _, _, _ => ret None
  end.

Definition builtin_dict_size (fuel : nat) (args : list (option addr)) : Hp (option addr) :=
  match count args =? 1, arg args 0 with
  | true, Some dict =>
      let* d := load dict in
      match object_type d with
      | TYPE_DICT =>
          let* n := py_dict_size (Some dict) in
          py_number_new (double_of_int (Z.of_nat n))
      | _ => ret None
      end
  | _, _ => ret None
  end.

Abbreviation Registry := (list BuiltinFunc).

Definition register_builtin (nm : string) (f : nat -> list (option addr) -> Hp (option addr))
    (n : Z) (reg : Registry) : Registry :=
  mkBuiltin nm f n :: reg.

Fixpoint find_builtin (nm : string) (reg : Registry) : option BuiltinFunc :=
  match reg with
  | [] => None
  | b :: rest => if String.eqb (name b) nm then Some b else find_builtin nm rest
  end.

Definition builtins_cleanup (reg : Registry) : Registry := [].

Definition builtins_call (reg : Registry) (fuel : nat) (nm : string)
    (args : list (option addr)) : Hp (option addr) :=
  match find_builtin nm reg with
  | None => ret None
  | Some f =>
      if (0 <=? arg_count f) && negb (arg_count f =? count args) then ret None
      else func f fuel args
  end.

Definition builtins_init (reg : Registry) : Registry :=
  register_builtin "字典大小" builtin_dict_size 1
    (register_builtin "字典获取" builtin_dict_get 2
      (register_builtin "字典设置" builtin_dict_set 3
        (register_builtin "创建字典" builtin_create_dict 0
          (register_builtin "列表设置" builtin_list_set 3
            (register_builtin "列表获取" builtin_list_get 2
              (register_builtin "列表长度" builtin_list_length 1
                (register_builtin "列表添加" builtin_list_append 2
                  (register_builtin "创建列表" builtin_create_list 0 reg)))))))).

Definition builtins_is_builtin (reg : Registry) (nm : string) : bool :=
  match find_builtin nm reg with Some _ => true | None => false end.

End Builtins.

(* ================================================================== *)
(** ** interpreter.c *)

Module Interpreter.
Import Libc Object.

Record VariableEntry : Set := mkVariable {
  var_name : string;
  var_is_constant : bool;
  var_value : option addr
}.

(** A [Scope] is the chain of its [VariableEntry]s, newest first; the
    chain of scopes through [parent] is a list, innermost first, and the
    NULL scope pointer is the empty list. *)
Abbreviation Scope := (list VariableEntry).

Record FunctionEntry : Type := mkFunction {
  fn_name : string;
  fn_params : list string;
  fn_body : AstNode
}.

(** The globals of interpreter.c ([interpreter], [current_scope],
    [function_table]), the registry of builtins.c, the heap of objects and
    the text written to the standard output. *)
Record State : Type := mkState {
  heap : Heap;
  error : KunyuError;
  has_return : bool;
  return_value : option addr;
  current_scope : list Scope;
  function_table : list FunctionEntry;
  builtin_funcs : Builtins.Registry;
  stdout : string
}.

Definition set_heap (h : Heap) (s : State) : State :=
  mkState h (error s) (has_return s) (return_value s) (current_scope s)
    (function_table s) (builtin_funcs s) (stdout s).
Definition set_error_record (e : KunyuError) (s : State) : State :=
  mkState (heap s) e (has_return s) (return_value s) (current_scope s)
    (function_table s) (builtin_funcs s) (stdout s).
Definition set_has_return (b : bool) (s : State) : State :=
  mkState (heap s) (error s) b (return_value s) (current_scope s)
    (function_table s) (builtin_funcs s) (stdout s).
Definition set_return_value (v : option addr) (s : State) : State :=
  mkState (heap s) (error s) (has_return s) v (current_scope s)
    (function_table s) (builtin_funcs s) (stdout s).
Definition set_current_scope (sc : list Scope) (s : State) : State :=
  mkState (heap s) (error s) (has_return s) (return_value s) sc
    (function_table s) (builtin_funcs s) (stdout s).
Definition set_function_table (t : list FunctionEntry) (s : State) : State :=
  mkState (heap s) (error s) (has_return s) (return_value s) (current_scope s)
    t (builtin_funcs s) (stdout s).
Definition set_builtin_funcs (r : Builtins.Registry) (s : State) : State :=
  mkState (heap s) (error s) (has_return s) (return_value s) (current_scope s)
    (function_table s) r (stdout s).
Definition set_stdout (o : string) (s : State) : State :=
  mkState (heap s) (error s) (has_return s) (return_value s) (current_scope s)
    (function_table s) (builtin_funcs s) o.

Definition In := M State.

Definition on_heap {A} (m : Hp A) : In A := lift heap set_heap m.

(** An error site of the interpreter: [interpreter.error.code = code] and
    [snprintf] into [interpreter.error.message]. *)
Definition set_error (code : KunyuErrorCode) (msg : string) : In unit :=
  modify (fun s =>
    set_error_record
      (mkError code (snprintf256 msg) (err_line (error s)) (err_column (error s))) s).

Definition printf (text : string) : In unit :=
  modify (fun s => set_stdout (stdout s ++ text) s).

(** The loop that releases the variables of a scope. *)
Fixpoint release_variables (fuel : nat) (vars : Scope) : In unit :=
  match vars with
  | [] => ret tt
  | var :: next => on_heap (py_decref fuel (var_value var)) ;;; release_variables fuel next
  end.

Fixpoint release_scopes (fuel : nat) (scopes : list Scope) : In unit :=
  match scopes with
  | [] => ret tt
  | scope :: parent => release_variables fuel scope ;;; release_scopes fuel parent
  end.

Definition interpreter_init (fuel : nat) : In unit :=
  modify (set_error_record (mkError KUNYU_OK "" 0 0)) ;;;
  modify (set_has_return false) ;;;
  modify (set_return_value None) ;;;
  let* s := get in
  release_scopes fuel (current_scope s) ;;;
  modify (set_current_scope [[]]) ;;;
  modify (set_function_table []) ;;;
  modify (fun s => set_builtin_funcs (Builtins.builtins_init (builtin_funcs s)) s).

Definition push_scope : In bool :=
  modify (fun s => set_current_scope ([] :: current_scope s) s) ;;; ret true.

Definition pop_scope (fuel : nat) : In unit :=
  let* s := get in
  match current_scope s with
  | [] => ret tt
  | scope :: parent =>
      release_variables fuel scope ;;;
      modify (set_current_scope parent)
  end.

Definition create_number_object (value : float) : In (option addr) :=
  on_heap (py_number_new value).

Definition create_string_object (value : string) : In (option addr) :=
  on_heap (py_string_new value).

Fixpoint find_variable_in_scope (name : string) (scope : Scope) : option VariableEntry :=
  match scope with
  | [] => None
  | entry :: next =>
      if String.eqb (var_name entry) name then Some entry
      else find_variable_in_scope name next
  end.

Fixpoint find_variable (name : string) (scopes : list Scope) : option VariableEntry :=
  match scopes with
  | [] => None
  | scope :: parent =>
      match find_variable_in_scope name scope with
      | Some entry => Some entry
      | None => find_variable name parent
      end
  end.

Fixpoint find_function (name : string) (table : list FunctionEntry) : option FunctionEntry :=
  match table with
  | [] => None
  | entry :: next =>
      if String.eqb (fn_name entry) name then Some entry else find_function name next
  end.

Definition define_variable (name : string) (value : option addr) (is_constant : bool)
  : In bool :=
  let* s := get in
  match current_scope s with
  | [] => undefined
  | scope :: parent =>
      match find_variable_in_scope name scope with
      | Some _ =>
          set_error KUNYU_ERROR_RUNTIME ("变量'" ++ name ++ "'已经在当前作用域中定义") ;;;
          ret false
      | None =>
          on_heap (py_incref value) ;;;
          modify (set_current_scope ((mkVariable name is_constant value :: scope) :: parent)) ;;;
          ret true
      end
  end.

Definition define_function (name : string) (params : list string) (body : AstNode)
  : In bool :=
  let* s := get in
  match find_function name (function_table s) with
  | Some _ =>
      set_error KUNYU_ERROR_RUNTIME ("函数'" ++ name ++ "'已经定义") ;;; ret false
  | None =>
      modify (set_function_table (mkFunction name params body :: function_table s)) ;;;
      ret true
  end.

Definition get_variable (name : string) : In (option addr) :=
  let* s := get in
  match find_variable name (current_scope s) with
  | None => set_error KUNYU_ERROR_RUNTIME ("未定义的变量: " ++ name) ;;; ret None
  | Some entry => ret (var_value entry)
  end.

(** [entry->value = value] on the entry that [find_variable] returns. *)
Fixpoint assign_in_scope (name : string) (value : option addr) (scope : Scope) : Scope :=
  match scope with
  | [] => []
  | entry :: next =>
      if String.eqb (var_name entry) name
      then mkVariable (var_name entry) (var_is_constant entry) value :: next
      else entry :: assign_in_scope name value next
  end.

Fixpoint assign_variable (name : string) (value : option addr) (scopes : list Scope)
  : list Scope :=
  match scopes with
  | [] => []
  | scope :: parent =>
      match find_variable_in_scope name scope with
      | Some _ => assign_in_scope name value scope :: parent
      | None => scope :: assign_variable name value parent
      end
  end.

Definition set_variable (fuel : nat) (name : string) (value : option addr) : In bool :=
  let* s := get in
  match find_variable name (current_scope s) with
  | None => set_error KUNYU_ERROR_RUNTIME ("未定义的变量: " ++ name) ;;; ret false
  | Some entry =>
      if var_is_constant entry then
        set_error KUNYU_ERROR_RUNTIME ("不能修改常量: " ++ name) ;;; ret false
      else
        on_heap (py_decref fuel (var_value entry)) ;;;
        modify (fun s => set_current_scope (assign_variable name value (current_scope s)) s) ;;;
        on_heap (py_incref value) ;;;
        ret true
  end.

Definition is_truthy (obj : option addr) : In bool :=
  match obj with
  | None => ret false
  | Some a =>
      let* o := on_heap (load a) in
      match data o with
      | NumberData value => ret (negb (PrimFloat.eqb value 0%float))
      | StringData value => ret (0 <? String.length value)%nat
      | _ => ret true
      end
  end.

(** The text of a number: ["%.0f"] when [modf] finds no fraction, ["%g"]
    otherwise, through a 256-byte buffer. *)
Definition number_to_string (value : float) : string :=
  if PrimFloat.eqb (modf value) 0%float
  then snprintf256 (fmt_f0 value)
  else snprintf256 (fmt_g value).

Definition object_to_string (obj : option addr) : In string :=
  match obj with
  | None => ret "null"
  | Some a =>
      let* o := on_heap (load a) in
      match data o with
      | NumberData value => ret (number_to_string value)
      | StringData value => ret value
      | _ => ret "[对象]"
      end
  end.

(** The numeric [switch] of [eval_binary_expr]. *)
Inductive arith_result : Set :=
| Value (v : float)
| Failure (msg : string)
| UndefinedValue.

Definition number_of_bool (b : bool) : float := if b then 1%float else 0%float.

Definition arith (op : BinaryOpType) (l r : float) : arith_result :=
  match op with
  | OP_ADD => Value (l + r)%float
  | OP_SUB => Value (l - r)%float
  | OP_MUL => Value (l * r)%float
  | OP_DIV =>
      if PrimFloat.eqb r 0%float then Failure "除数不能为零"
      else Value (l / r)%float
  | OP_MOD =>
      if PrimFloat.eqb r 0%float then Failure "模运算的除数不能为零"
      else
        match int_of_double l, int_of_double r with
        | Some a, Some b =>
            match int_rem a b with
            | Some m => Value (double_of_int m)
            | None => UndefinedValue
            end
        | _, _ => UndefinedValue
        end
  | OP_EQ => Value (number_of_bool (PrimFloat.eqb l r))
  | OP_NE => Value (number_of_bool (negb (PrimFloat.eqb l r)))
  | OP_LT => Value (number_of_bool (PrimFloat.ltb l r))
  | OP_LE => Value (number_of_bool (PrimFloat.leb l r))
  | OP_GT => Value (number_of_bool (PrimFloat.ltb r l))
  | OP_GE => Value (number_of_bool (PrimFloat.leb r l))
  | OP_AND | OP_OR => Failure "不支持的运算符"
  end.

Definition is_add (op : BinaryOpType) : bool :=
  match op with OP_ADD => true | _ => false end.

Definition is_string (o : PyObject) : bool :=
  match data o with StringData _ => true | _ => false end.

(** [eval_binary_expr] once both operands are evaluated. *)
Definition apply_binary (fuel : nat) (op : BinaryOpType) (left right : addr)
  : In (option addr) :=
  let* lo := on_heap (load left) in
  let* ro := on_heap (load right) in
  if is_add op && (is_string lo || is_string ro) then
    let* left_str := object_to_string (Some left) in
    let* right_str := object_to_string (Some right) in
    let* result := create_string_object (left_str ++ right_str) in
    on_heap (py_decref fuel (Some left)) ;;;
    on_heap (py_decref fuel (Some right)) ;;;
    ret result
  else
    match data lo, data ro with
    | NumberData l, NumberData r =>
        match arith op l r with
        | Value v =>
            let* result := create_number_object v in
            on_heap (py_decref fuel (Some left)) ;;;
            on_heap (py_decref fuel (Some right)) ;;;
            ret result
        | Failure msg =>
            set_error KUNYU_ERROR_RUNTIME msg ;;;
            on_heap (py_decref fuel (Some left)) ;;;
            on_heap (py_decref fuel (Some right)) ;;;
            ret None
        | UndefinedValue => undefined
        end
    | _, _ =>
        set_error KUNYU_ERROR_RUNTIME "类型不匹配的运算" ;;;
        on_heap (py_decref fuel (Some left)) ;;;
        on_heap (py_decref fuel (Some right)) ;;;
        ret None
    end.

Fixpoint release_all (fuel : nat) (objs : list (option addr)) : In unit :=
  match objs with
  | [] => ret tt
  | o :: rest => on_heap (py_decref fuel o) ;;; release_all fuel rest
  end.

Section Bodies.
(** The functions behind the forward declarations of the source, and
    the fuel handed to [py_decref]. *)
Variable fuel : nat.
Variable eval_expression : AstNode -> In (option addr).
Variable execute_statement : AstNode -> In bool.
(** The next turn of the [while (true)] of [exec_loop_stmt]. *)
Variable next_turn : AstNode -> In bool.

Definition exec_print_stmt (node : AstNode) : In bool :=
  match node with
  | PrintStmt v =>
      let* value := eval_expression v in
      match value with
      | None => ret false
      | Some _ =>
          let* str := object_to_string value in
          printf (str ++ String "010"%char "") ;;;
          on_heap (py_decref fuel value) ;;;
          ret true
      end
  | _ => set_error KUNYU_ERROR_RUNTIME "预期输出语句节点" ;;; ret false
  end.

Definition exec_var_decl (node : AstNode) : In bool :=
  match node with
  | VarDeclStmt name initializer is_constant =>
      let* value := eval_expression initializer in
      match value with
      | None => ret false
      | Some _ =>
          let* result := define_variable name value is_constant in
          on_heap (py_decref fuel value) ;;;
          ret result
      end
  | _ => set_error KUNYU_ERROR_RUNTIME "预期变量声明节点" ;;; ret false
  end.

Definition exec_if_stmt (node : AstNode) : In bool :=
  match node with
  | IfStmt cond then_branch else_branch =>
      let* condition := eval_expression cond in
      match condition with
      | None => ret false
      | Some _ =>
          let* condition_result := is_truthy condition in
          on_heap (py_decref fuel condition) ;;;
          if condition_result then execute_statement then_branch
          else match else_branch with
               | Some e => execute_statement e
               | None => ret true
               end
      end
  | _ => set_error KUNYU_ERROR_RUNTIME "预期条件语句节点" ;;; ret false
  end.

Definition exec_loop_stmt (node : AstNode) : In bool :=
  match node with
  | LoopStmt cond body =>
      let* condition := eval_expression cond in
      match condition with
      | None => ret false
      | Some _ =>
          let* condition_result := is_truthy condition in
          on_heap (py_decref fuel condition) ;;;
          if negb condition_result then ret true
          else
            let* result := execute_statement body in
            if negb result then ret false
            else
              let* s := get in
              if has_return s then ret true else next_turn node
      end
  | _ => set_error KUNYU_ERROR_RUNTIME "预期循环语句节点" ;;; ret false
  end.

Definition exec_function_decl (node : AstNode) : In bool :=
  match node with
  | FunctionStmt name params body => define_function name params body
  | _ => set_error KUNYU_ERROR_RUNTIME "预期函数声明节点" ;;; ret false
  end.

(** The statement loop of [execute_block]: [false] when a statement failed. *)
Fixpoint execute_block_loop (statements : list AstNode) : In bool :=
  match statements with
  | [] => ret true
  | stmt :: rest =>
      let* ok := execute_statement stmt in
      if negb ok then ret false
      else
        let* s := get in
        if has_return s then ret true else execute_block_loop rest
  end.

Definition execute_block (block : AstNode) : In bool :=
  match block with
  | BlockStmt statements =>
      let* pushed := push_scope in
      if negb pushed then ret false
      else
        let* ok := execute_block_loop statements in
        pop_scope fuel ;;;
        ret ok
  | _ => set_error KUNYU_ERROR_RUNTIME "预期代码块节点" ;;; ret false
  end.

Definition exec_return_stmt (node : AstNode) : In bool :=
  match node with
  | ReturnStmt value =>
      let* s := get in
      match return_value s with
      | Some _ =>
          on_heap (py_decref fuel (return_value s)) ;;;
          modify (set_return_value None)
      | None => ret tt
      end ;;;
      let* evaluated :=
        match value with
        | Some v =>
            let* r := eval_expression v in
            match r with
            | None => ret false
            | Some _ => modify (set_return_value r) ;;; ret true
            end
        | None => ret true
        end in
      if negb evaluated then ret false
      else modify (set_has_return true) ;;; ret true
  | _ => set_error KUNYU_ERROR_RUNTIME "预期返回语句节点" ;;; ret false
  end.

Definition exec_expression_stmt (node : AstNode) : In bool :=
  match node with
  | ExpressionStmt expr =>
      let* result := eval_expression expr in
      match result with
      | None => ret false
      | Some _ => on_heap (py_decref fuel result) ;;; ret true
      end
  | _ => set_error KUNYU_ERROR_RUNTIME "预期表达式语句节点" ;;; ret false
  end.

Definition eval_binary_expr (op : BinaryOpType) (l r : AstNode) : In (option addr) :=
  let* left := eval_expression l in
  match left with
  | None => ret None
  | Some la =>
      let* right := eval_expression r in
      match right with
      | None => on_heap (py_decref fuel left) ;;; ret None
      | Some ra => apply_binary fuel op la ra
      end
  end.

(** The argument loop of the builtin branch of [eval_call_expr]:
    [None] when an argument failed (the ones before it are released). *)
Fixpoint eval_builtin_args (args : list AstNode) (evaluated : list (option addr))
  : In (option (list (option addr))) :=
  match args with
  | [] => ret (Some evaluated)
  | a :: rest =>
      let* v := eval_expression a in
      match v with
      | None => release_all fuel evaluated ;;; ret None
      | Some _ => eval_builtin_args rest (evaluated ++ [v])%list
      end
  end.

(** The parameter loop of [eval_call_expr]: [false] when it left the
    function (the new scope is popped first). *)
Fixpoint bind_parameters (params : list string) (args : list AstNode) : In bool :=
  match params, args with
  | p :: params', a :: args' =>
      let* arg_value := eval_expression a in
      match arg_value with
      | None => pop_scope fuel ;;; ret false
      | Some _ =>
          let* result := define_variable p arg_value false in
          on_heap (py_decref fuel arg_value) ;;;
          if negb result then pop_scope fuel ;;; ret false
          else bind_parameters params' args'
      end
  | _, _ => ret true
  end.

(** [interpreter.has_return = false] and the release of
    [interpreter.return_value], done before and after the body. *)
Definition clear_return : In unit :=
  modify (set_has_return false) ;;;
  let* s := get in
  match return_value s with
  | Some _ =>
      on_heap (py_decref fuel (return_value s)) ;;;
      modify (set_return_value None)
  | None => ret tt
  end.

Definition eval_call_expr (name : string) (args : list AstNode) : In (option addr) :=
  let* s := get in
  if Builtins.builtins_is_builtin (builtin_funcs s) name then
    let* evaluated := eval_builtin_args args [] in
    match evaluated with
    | None => ret None
    | Some values =>
        let* s1 := get in
        let* result := on_heap (Builtins.builtins_call (builtin_funcs s1) fuel name values) in
        release_all fuel values ;;;
        match result with
        | None =>
            set_error KUNYU_ERROR_RUNTIME ("调用内置函数'" ++ name ++ "'失败") ;;;
            ret None
        | Some _ => ret result
        end
    end
  else
    match find_function name (function_table s) with
    | None => set_error KUNYU_ERROR_RUNTIME ("未定义的函数: " ++ name) ;;; ret None
    | Some func =>
        if negb (length args =? length (fn_params func))%nat then
          set_error KUNYU_ERROR_RUNTIME
            ("函数'" ++ name ++ "'需要" ++ string_of_Z (Z.of_nat (length (fn_params func)))
             ++ "个参数，但接收到" ++ string_of_Z (Z.of_nat (length args)) ++ "个") ;;;
          ret None
        else
          let* pushed := push_scope in
          if negb pushed then ret None
          else
            let* bound := bind_parameters (fn_params func) args in
            if negb bound then ret None
            else
              clear_return ;;;
              let* success := execute_statement (fn_body func) in
              let* s2 := get in
              let* returned :=
                if success && has_return s2 then
                  match return_value s2 with
                  | Some _ => on_heap (py_incref (return_value s2)) ;;; ret (return_value s2)
                  | None => ret None
                  end
                else ret None in
              pop_scope fuel ;;;
              clear_return ;;;
              if negb success then ret None else ret returned
    end.

Definition eval_grouping_expr (expr : AstNode) : In (option addr) :=
  eval_expression expr.

Definition eval_variable_expr (name : string) : In (option addr) :=
  let* value := get_variable name in
  on_heap (py_incref value) ;;;
  ret value.

Definition eval_literal_expr (token_type : KunyuTokenType) (value : string)
  : In (option addr) :=
  match token_type with
  | KUNYU_TOKEN_NUMBER => create_number_object (atof value)
  | KUNYU_TOKEN_STRING => create_string_object value
  | _ => set_error KUNYU_ERROR_RUNTIME "不支持的字面量类型" ;;; ret None
  end.

Definition eval_assign_expr (name : string) (v : AstNode) : In (option addr) :=
  let* value := eval_expression v in
  match value with
  | None => ret None
  | Some _ =>
      let* ok := set_variable fuel name value in
      if negb ok then on_heap (py_decref fuel value) ;;; ret None
      else ret value
  end.

Definition eval_expression_body (node : AstNode) : In (option addr) :=
  match node with
  | LiteralExpr token_type value => eval_literal_expr token_type value
  | VariableExpr name => eval_variable_expr name
  | BinaryExpr op l r => eval_binary_expr op l r
  | GroupingExpr e => eval_grouping_expr e
  | CallExpr name args => eval_call_expr name args
  | AssignExpr name v => eval_assign_expr name v
  | _ => set_error KUNYU_ERROR_RUNTIME "不支持的表达式类型" ;;; ret None
  end.

(** [execute_statement].  On a [Program] node the source reads the
    [stmt_type] field of a struct that has none: undefined. *)
Definition execute_statement_body (node : AstNode) : In bool :=
  match node with
  | PrintStmt _ => exec_print_stmt node
  | VarDeclStmt _ _ _ => exec_var_decl node
  | IfStmt _ _ _ => exec_if_stmt node
  | LoopStmt _ _ => exec_loop_stmt node
  | FunctionStmt _ _ _ => exec_function_decl node
  | BlockStmt _ => execute_block node
  | ReturnStmt _ => exec_return_stmt node
  | ExpressionStmt _ => exec_expression_stmt node
  | Program _ => undefined
  | _ => set_error KUNYU_ERROR_RUNTIME "不支持的语句类型" ;;; ret false
  end.

End Bodies.

Fixpoint eval_expression (fuel : nat) (node : AstNode) : In (option addr) :=
  match fuel with
  | O => out_of_fuel
  | S f => eval_expression_body f (eval_expression f) (execute_statement f) node
  end

with execute_statement (fuel : nat) (node : AstNode) : In bool :=
  match fuel with
  | O => out_of_fuel
  | S f =>
      execute_statement_body f (eval_expression f) (execute_statement f) (loop_turn f) node
  end

with loop_turn (fuel : nat) (node : AstNode) : In bool :=
  match fuel with
  | O => out_of_fuel
  | S f => exec_loop_stmt f (eval_expression f) (execute_statement f) (loop_turn f) node
  end.

(** The statement loop of [execute_program]. *)
Fixpoint execute_program_loop (fuel : nat) (statements : list AstNode) : In bool :=
  match statements with
  | [] => ret true
  | stmt :: rest =>
      let* ok := execute_statement fuel stmt in
      if negb ok then ret false
      else
        let* s := get in
        if has_return s then ret true else execute_program_loop fuel rest
  end.

(** [execute_program]; a NULL root is [None].  A node that carries the
    tag [NODE_PROGRAM] without being a [Program] is read through the
    wrong struct: undefined. *)
Definition execute_program (fuel : nat) (program : option AstNode) : In bool :=
  match program with
  | Some (Program statements) => execute_program_loop fuel statements
  | Some (ExpressionStmt _) => undefined
  | _ => set_error KUNYU_ERROR_RUNTIME "预期程序节点" ;;; ret false
  end.

Definition interpreter_execute (fuel : nat) (root : option AstNode) : In bool :=
  match root with
  | None => ret false
  | Some _ => interpreter_init fuel ;;; execute_program fuel root
  end.

Definition interpreter_cleanup : In unit :=
  modify (fun s => set_builtin_funcs (Builtins.builtins_cleanup (builtin_funcs s)) s).

Definition interpreter_get_error (s : State) : KunyuError := error s.

(** The zero-initialised globals of a fresh process. *)
Definition initial_state : State :=
  mkState [] (mkError KUNYU_OK "" 0 0) false None [] [] [] "".

End Interpreter.

(* ================================================================== *)
(** ** repl.c: one round of the read-eval-print loop *)

Module Repl.
Import Libc.

(** The interpreter and what was written to [stderr]. *)
Record Console : Type := mkConsole {
  interpreter : Interpreter.State;
  stderr : string
}.

Definition Rp := M Console.

Definition fprintf_stderr (text : string) : Rp unit :=
  modify (fun c => mkConsole (interpreter c) (stderr c ++ text)).

(** [fprintf(stderr, "<stage>: %s (行 %d, 列 %d)\n", message, line, column)]. *)
Definition report (stage : string) (error : KunyuError) : Rp unit :=
  fprintf_stderr
    (stage ++ ": " ++ err_message error ++ " (行 " ++ string_of_Z (err_line error)
     ++ ", 列 " ++ string_of_Z (err_column error) ++ ")" ++ String "010"%char "").

Definition is_var_keyword (t : Token) : bool :=
  KunyuTokenType_eqb (tk_type t) KUNYU_TOKEN_KEYWORD
  && (String.eqb (tk_value t) "变量" || String.eqb (tk_value t) "常量").

(** The inner loop over the tokens below index [i]. *)
Definition has_var_keyword (before : list Token) : bool := existsb is_var_keyword before.

(** The loop of [execute_and_print] that decides whether the input is an
    expression, from index [i] on: [before] holds the tokens below [i],
    [rest] those from [i], and the token at [token_count - 1] is the last
    of [rest]. *)
Fixpoint is_expression_from (before rest : list Token) : bool :=
  match rest with
  | [] => false
  | token :: rest' =>
      if KunyuTokenType_eqb (tk_type token) KUNYU_TOKEN_OPERATOR
         && String.eqb (tk_value token) "="
         && negb (has_var_keyword before)
      then true
      else if match rest' with [] => true | _ => false end
              && negb (KunyuTokenType_eqb (tk_type token) KUNYU_TOKEN_DELIMITER
                       && String.eqb (tk_value token) ";")
      then true
      else is_expression_from (before ++ [token])%list rest'
  end.

Definition is_expression (tokens : list Token) : bool := is_expression_from [] tokens.

(** [lexer_init] and [lexer_tokenize], with the message of a lexical
    error.  The caller keeps the array of 1024 tokens that [lexer_init]
    hands out; once [add_token] has grown the array with [realloc] that
    pointer may dangle, and reading through it is undefined. *)
Definition tokenize_or_report (source : string) : Rp (option (list Token)) :=
  match Lexer.tokenize source with
  | Some (inl tokens) =>
      if (1024 <? length tokens)%nat then undefined else ret (Some tokens)
  | Some (inr error) => report "词法分析错误" error ;;; ret None
  | None => out_of_fuel
  end.

(** [sprintf(new_source, "输出 %s;", source)]. *)
Definition print_wrapped (source : string) : string := "输出 " ++ c_str source ++ ";".

(** The second half of [execute_and_print], from [parser_init] on: parse
    the tokens, run the tree, report what went wrong. *)
Definition parse_and_run (fuel : nat) (tokens : list Token) : Rp bool :=
  match Parser.parser_parse fuel tokens with
  | Done None ps =>
      match err_code (Parser.error ps) with
      | KUNYU_OK =>
          fprintf_stderr ("错误: 语法分析失败，无法生成AST" ++ String "010"%char "")
      | _ => report "语法分析错误" (Parser.error ps)
      end ;;;
      ret false
  | Done (Some ast) _ =>
      let* ok :=
        lift interpreter (fun i c => mkConsole i (stderr c))
          (Interpreter.interpreter_execute fuel (Some ast)) in
      if negb ok then
        let* c := get in
        report "运行时错误" (Interpreter.error (interpreter c)) ;;;
        ret false
      else ret true
  | Undefined => undefined
  | OutOfFuel => out_of_fuel
  end.

(** [execute_and_print]. *)
Definition execute_and_print (fuel : nat) (source : string) : Rp bool :=
  let* first := tokenize_or_report source in
  match first with
  | None => ret false
  | Some tokens =>
      let* tokens :=
        if is_expression tokens then tokenize_or_report (print_wrapped source)
        else ret (Some tokens) in
      match tokens with
      | None => ret false
      | Some tokens => parse_and_run fuel tokens
      end
  end.

End Repl.

(* ================================================================== *)
(** * The vocabulary of the properties *)

Local Open Scope list_scope.

(** A computation whose terminating runs are all related by [R]. *)
Definition sat {S A} (R : S -> S -> Prop) (m : M S A) : Prop :=
  forall s a s', m s = Done a s' -> R s s'.

(** ** Chains of binary operators *)

(** A token that [parse_primary] turns into a leaf: a literal or a name. *)
Definition is_operand (t : Token) : bool :=
  match tk_type t with
  | KUNYU_TOKEN_NUMBER | KUNYU_TOKEN_STRING | KUNYU_TOKEN_IDENTIFIER => true
  | _ => false
  end.

Definition operand_node (t : Token) : AstNode :=
  match tk_type t with
  | KUNYU_TOKEN_IDENTIFIER => VariableExpr (tk_value t)
  | ty => LiteralExpr ty (tk_value t)
  end.

(** An operator token whose text is one of the thirteen binary operators. *)
Definition is_binary_operator (t : Token) : bool :=
  KunyuTokenType_eqb (tk_type t) KUNYU_TOKEN_OPERATOR
  && match Parser.binary_op_of (tk_value t) with Some _ => true | None => false end.

Definition operator_of (t : Token) : BinaryOpType :=
  match Parser.binary_op_of (tk_value t) with Some op => op | None => OP_ADD end.

(** The tokens [p0 op1 p1 ... opn pn] of a chain. *)
Definition chain_tokens (first : Token) (rest : list (Token * Token)) : list Token :=
  first :: flat_map (fun p => [fst p; snd p]) rest.

Definition chain_ok (first : Token) (rest : list (Token * Token)) : bool :=
  is_operand first
  && forallb (fun p => is_binary_operator (fst p) && is_operand (snd p)) rest.

(** The tree [(((p0 op1 p1) op2 p2) ... opn pn)]: every operator takes the
    tree built so far as its left operand and one leaf as its right operand. *)
Definition chain_node (first : Token) (rest : list (Token * Token)) : AstNode :=
  fold_left (fun acc p => BinaryExpr (operator_of (fst p)) acc (operand_node (snd p)))
    rest (operand_node first).

(** What may follow a chain: anything but an operator or an opening parenthesis. *)
Definition ends_chain (tail : list Token) : bool :=
  match tail with
  | [] => true
  | t :: _ =>
      negb (KunyuTokenType_eqb (tk_type t) KUNYU_TOKEN_OPERATOR)
      && negb (KunyuTokenType_eqb (tk_type t) KUNYU_TOKEN_DELIMITER && String.eqb (tk_value t) "(")
  end.

(** The parser standing between the tokens [pre], consumed, and [post]. *)
Definition parser_at (pre post : list Token) (err : KunyuError) : Parser.ParserContext :=
  Parser.mkParser (pre ++ post) (length pre) err.

(** The expression of a source text: its tokens given to [parse_expression]. *)
Definition expression_of_source (fuel : nat) (src : string) : option AstNode :=
  match Lexer.tokenize src with
  | Some (inl toks) =>
      match Parser.parse_expression fuel (Parser.parser_init toks) with
      | Done e _ => e
      | _ => None
      end
  | _ => None
  end.

(** A fresh interpreter, after [interpreter_init]. *)
Definition fresh_interpreter : Interpreter.State :=
  match Interpreter.interpreter_init 0 Interpreter.initial_state with
  | Done _ s => s
  | _ => Interpreter.initial_state
  end.

(** The number held by the object at [p], if it is a live number. *)
Definition number_at (h : Heap) (p : option addr) : option float :=
  match p with
  | Some a =>
      match h !! a with
      | Some (Some o) => match data o with NumberData v => Some v | _ => None end
      | _ => None
      end
  | None => None
  end.

(** Lexing, parsing and executing a source text in a fresh process, as
    [main] does: nothing is executed ([None]) after a lexical or a syntax error. *)
Definition run_source (fuel : nat) (src : string) : option (outcome Interpreter.State bool) :=
  match parse_source fuel src with
  | Some (inr (Done (Some root) _)) =>
      Some (Interpreter.interpreter_execute fuel (Some root) Interpreter.initial_state)
  | _ => None
  end.

(** The number an expression text evaluates to in a fresh interpreter. *)
Definition value_of_source (fuel : nat) (src : string) : option float :=
  match expression_of_source fuel src with
  | Some e =>
      match Interpreter.eval_expression fuel e fresh_interpreter with
      | Done p st => number_at (Interpreter.heap st) p
      | _ => None
      end
  | None => None
  end.

(** What the parser answers on a source text: the root and its error record. *)
Definition parse_result (fuel : nat) (src : string) : option (option AstNode * KunyuError) :=
  match parse_source fuel src with
  | Some (inr (Done root ps)) => Some (root, Parser.error ps)
  | _ => None
  end.

(** What a run answers: the result of [interpreter_execute], the error
    record and the text printed. *)
Definition run_result (fuel : nat) (src : string) : option (bool * KunyuError * string) :=
  match run_source fuel src with
  | Some (Done ok st) => Some (ok, Interpreter.error st, Interpreter.stdout st)
  | _ => None
  end.

Definition newline : string := String "010"%char "".
Definition quote : string := String "034"%char "".

(** The value of a variable after a run, as a number. *)
Definition variable_after (fuel : nat) (src : string) (name : string) : option float :=
  match run_source fuel src with
  | Some (Done _ st) =>
      match Interpreter.find_variable name (Interpreter.current_scope st) with
      | Some e => number_at (Interpreter.heap st) (Interpreter.var_value e)
      | None => None
      end
  | _ => None
  end.

Definition is_semicolon (t : Token) : bool :=
  KunyuTokenType_eqb (tk_type t) KUNYU_TOKEN_DELIMITER && String.eqb (tk_value t) ";".

(** Numbers and strings own no other object. *)
Definition is_leaf (o : PyObject) : bool :=
  match data o with
  | NumberData _ | StringData _ => true
  | _ => false
  end.

(** The text [object_to_string] gives for an object. *)
Definition text_of (o : PyObject) : string :=
  match data o with
  | NumberData v => Interpreter.number_to_string v
  | StringData s => s
  | _ => "[对象]"
  end.

(** The object at an address, when it is live. *)
Definition live (h : Heap) (a : addr) : option PyObject :=
  match h !! a with
  | Some (Some o) => Some o
  | _ => None
  end.

(** What [eval_binary_expr] answers once its operands are evaluated: a new
    object, a runtime error, or nothing defined. *)
Inductive binary_answer : Set :=
| NewObject (d : ObjectData)
| RuntimeError (msg : string)
| NoAnswer.

Definition binary_answer_of (op : BinaryOpType) (lo ro : PyObject) : binary_answer :=
  if Interpreter.is_add op && (Interpreter.is_string lo || Interpreter.is_string ro)
  then NewObject (StringData (text_of lo ++ text_of ro)%string)
  else
    match data lo, data ro with
    | NumberData l, NumberData r =>
        match Interpreter.arith op l r with
        | Interpreter.Value v => NewObject (NumberData v)
        | Interpreter.Failure msg => RuntimeError msg
        | Interpreter.UndefinedValue => NoAnswer
        end
    | _, _ => RuntimeError "类型不匹配的运算"
    end.

Definition is_number (o : PyObject) : bool :=
  match data o with NumberData _ => true | _ => false end.

(** The two [py_decref] that end [eval_binary_expr]. *)
Definition release_both (fuel : nat) (left right : addr) : Object.Hp unit :=
  Object.py_decref fuel (Some left) ;;; Object.py_decref fuel (Some right).

(** A heap computation that, where it is defined, does the same in a heap
    with more cells behind. *)
Definition framed {A} (m : Object.Hp A) : Prop :=
  forall h a h' x, m h = Done a h' -> m (h ++ x) = Done a (h' ++ x).

(** The fractional part that [object_to_string] asks [modf] for is not zero. *)
Definition has_fraction (v : float) : bool := negb (PrimFloat.eqb (Libc.modf v) 0%float).

(** The text contains a decimal point. *)
Definition has_point (s : string) : bool :=
  existsb (Ascii.eqb "."%char) (list_ascii_of_string s).

(** The names bound in a chain of scopes, with their constant flags. *)
Definition scope_shape (scopes : list Interpreter.Scope) : list (list (string * bool)) :=
  map (map (fun e => (Interpreter.var_name e, Interpreter.var_is_constant e))) scopes.

Definition shape_of (st : Interpreter.State) : list (list (string * bool)) :=
  scope_shape (Interpreter.current_scope st).

(** The position recorded in the error of the interpreter. *)
Definition error_position (st : Interpreter.State) : Z * Z :=
  (err_line (Interpreter.error st), err_column (Interpreter.error st)).

(** The run changed neither the names in scope nor the error position. *)
Definition same_view (st st' : Interpreter.State) : Prop :=
  shape_of st' = shape_of st /\ error_position st' = error_position st.

(** The shape [s'] is [s] with more names in the innermost scope. *)
Definition extends_top (s s' : list (list (string * bool))) : Prop :=
  s' = s \/ exists extra top rest, s = top :: rest /\ s' = (extra ++ top) :: rest.

(** The run declared names in the innermost scope at most, and left the
    error position alone. *)
Definition grows (st st' : Interpreter.State) : Prop :=
  extends_top (shape_of st) (shape_of st') /\ error_position st' = error_position st.

(** The run changed the heap only. *)
Definition heap_only (st st' : Interpreter.State) : Prop :=
  st' = Interpreter.set_heap (Interpreter.heap st') st.

(** The state right after [push_scope]. *)
Definition pushed (st : Interpreter.State) : Interpreter.State :=
  Interpreter.set_current_scope ([] :: Interpreter.current_scope st) st.

Definition is_bound (name : string) (scopes : list Interpreter.Scope) : bool :=
  match Interpreter.find_variable name scopes with Some _ => true | None => false end.

(** How many slots of a list hold the object [p]. *)
Fixpoint occurrences (p : addr) (items : list addr) : Z :=
  match items with
  | [] => 0
  | q :: rest => (if Nat.eqb q p then 1 else 0) + occurrences p rest
  end.

(** What is left of an object that gives up [n] of its references: nothing,
    when they were all it had. *)
Definition released (n : Z) (o : PyObject) : option PyObject :=
  if (0 <? n) && (ref_count o <=? n) then None
  else Some (mkObject (ref_count o - n) (data o)).

(** One reference released from each of [items] in turn, from [h] to [h'],
    each with the fuel that the loop of the destructor has for it, while
    the object at [l] stays there with the data [d]. *)
Fixpoint released_in_turn (fuel : nat) (l : addr) (d : ObjectData) (items : list addr)
    (h h' : Heap) : Prop :=
  match fuel with
  | O => False
  | S f =>
      match items with
      | [] => h' = h
      | q :: rest =>
          exists h1,
            Object.py_decref f (Some q) h = Done tt h1
            /\ (exists o, live h1 l = Some o /\ data o = d)
            /\ released_in_turn f l d rest h1 h'
      end
  end.

(** The heap left by a run. *)
Definition heap_after (fuel : nat) (src : string) : option Heap :=
  match run_source fuel src with
  | Some (Done _ st) => Some (Interpreter.heap st)
  | _ => None
  end.

(** [execute_statement] made to stop ([Undefined]) unless the names in
    scope are [shape] when it is called: a probe for the scopes a function
    body runs in. *)
Definition in_scope (shape : list (list (string * bool)))
    (ex : AstNode -> Interpreter.In bool) : AstNode -> Interpreter.In bool :=
  fun node st => if decide (shape_of st = shape) then ex node st else Undefined.

(** [n] copies of a text, one after the other. *)
Fixpoint copies (n : nat) (text : string) : string :=
  match n with
  | O => EmptyString
  | S n' => (text ++ copies n' text)%string
  end.

(** Evaluating any of [args] with [ev] leaves the variables as they are. *)
Definition leaves_scopes (ev : AstNode -> Interpreter.In (option addr))
    (args : list AstNode) : Prop :=
  forall a st r st',
    a ∈ args -> ev a st = Done r st' ->
    Interpreter.current_scope st' = Interpreter.current_scope st.

(** The variables that bind [params] to [values], none constant, the last
    one first, as [define_variable] stacks them. *)
Definition bindings (params : list string) (values : list addr) : Interpreter.Scope :=
  rev (zip_with (fun p v => Interpreter.mkVariable p false (Some v)) params values).

(** The number objects that the literals of [texts] become, one reference each. *)
Definition numbers_of (texts : list string) : Heap :=
  map (fun t => Some (mkObject 1 (NumberData (Libc.atof t)))) texts.

(** The message of an arity mismatch. *)
Definition arity_message (name : string) (expected actual : nat) : string :=
  ("函数'" ++ name ++ "'需要" ++ Libc.string_of_Z (Z.of_nat expected)
   ++ "个参数，但接收到" ++ Libc.string_of_Z (Z.of_nat actual) ++ "个")%string.

(** The state an error site leaves: code and message written, the rest kept. *)
Definition with_error (code : KunyuErrorCode) (msg : string) (st : Interpreter.State)
  : Interpreter.State :=
  Interpreter.set_error_record
    (mkError code (Libc.snprintf256 msg)
       (err_line (Interpreter.error st)) (err_column (Interpreter.error st))) st.

(** What [eval_binary_expr] answers in state [st], once its operands are
    evaluated and their release leaves the heap [h']. *)
Definition binary_outcome (op : BinaryOpType) (lo ro : PyObject) (h' : Heap)
    (st : Interpreter.State) : outcome Interpreter.State (option addr) :=
  match binary_answer_of op lo ro with
  | NewObject d =>
      Done (Some (length (Interpreter.heap st)))
        (Interpreter.set_heap (h' ++ [Some (mkObject 1 d)]) st)
  | RuntimeError msg =>
      Done None (Interpreter.set_heap h' (with_error KUNYU_ERROR_RUNTIME msg st))
  | NoAnswer => Undefined
  end.

(** The state a run from a fresh process ends in. *)
Definition state_after (fuel : nat) (root : AstNode) : Interpreter.State :=
  match Interpreter.interpreter_execute fuel (Some root) Interpreter.initial_state with
  | Done _ st => st
  | _ => Interpreter.initial_state
  end.

(** A state with no error, no pending return, no builtin registered and
    nothing printed. *)
Definition quiet_state (h : Heap) (scopes : list Interpreter.Scope)
    (functions : list Interpreter.FunctionEntry) : Interpreter.State :=
  Interpreter.mkState h no_error false None scopes functions [] "".

(** The end of [eval_call_expr], from the capture of the return value on. *)
Definition finish_call (fuel : nat) (success : bool) : Interpreter.In (option addr) :=
  let* s2 := get in
  let* returned :=
    if success && Interpreter.has_return s2 then
      match Interpreter.return_value s2 with
      | Some _ =>
          Interpreter.on_heap (Object.py_incref (Interpreter.return_value s2)) ;;;
          ret (Interpreter.return_value s2)
      | None => ret None
      end
    else ret None in
  Interpreter.pop_scope fuel ;;;
  Interpreter.clear_return fuel ;;;
  if negb success then ret None else ret returned.

(** The run left the error position alone. *)
Definition same_position (st st' : Interpreter.State) : Prop :=
  error_position st' = error_position st.

(** ** Dictionaries *)

(** The text of the object at [p], when it is a live string. *)
Definition string_at (h : Heap) (p : addr) : option string :=
  match live h p with
  | Some o => match data o with StringData s => Some s | _ => None end
  | None => None
  end.

(** The index, counted from [i], of the first item whose key is a string
    of text [s]; [-1] when there is none. *)
Fixpoint first_key (h : Heap) (s : string) (items : list (addr * addr)) (i : Z) : Z :=
  match items with
  | [] => -1
  | (k, _) :: rest =>
      match string_at h k with
      | Some s' => if String.eqb s s' then i else first_key h s rest (i + 1)
      | None => first_key h s rest (i + 1)
      end
  end.

(** Every key of the items is a live object. *)
Definition keys_live (h : Heap) (items : list (addr * addr)) : Prop :=
  forall k v, (k, v) ∈ items -> exists o, live h k = Some o.

(** From [h] to [h'] every live object stays live, with the data it
    had, but for the object at [d]. *)
Definition keeps (d : addr) (h h' : Heap) : Prop :=
  forall p o, live h p = Some o ->
              exists o', live h' p = Some o' /\ (p <> d -> data o' = data o).

(** The objects that the items of a dictionary refer to: key, value, key,
    value, in the order of the items. *)
Definition dict_refs (items : list (addr * addr)) : list addr :=
  flat_map (fun item => [fst item; snd item]) items.

(** ** What a run keeps *)

(** Every function declared before the run is declared after it, with the
    parameters and the body it had, and the builtins are the same. *)
Definition functions_kept (st st' : Interpreter.State) : Prop :=
  (forall name f,
      Interpreter.find_function name (Interpreter.function_table st) = Some f ->
      Interpreter.find_function name (Interpreter.function_table st') = Some f)
  /\ Interpreter.builtin_funcs st' = Interpreter.builtin_funcs st.

(** What was printed before the run is the beginning of what is printed
    after it. *)
Definition output_grows (st st' : Interpreter.State) : Prop :=
  exists out, Interpreter.stdout st' = (Interpreter.stdout st ++ out)%string.

(** ** Built-in functions *)

(** The names that [builtins_init] registers, with the number of
    arguments of each. *)
Definition builtin_arities : list (string * Z) :=
  [("创建列表", 0); ("列表添加", 2); ("列表长度", 1); ("列表获取", 2); ("列表设置", 3);
   ("创建字典", 0); ("字典设置", 3); ("字典获取", 2); ("字典大小", 1)]%string.

(** ** The token array *)

(** The last token is the end-of-file token. *)
Definition ends_with_eof (tokens : list Token) : Prop :=
  exists t, last tokens = Some t /\ tk_type t = KUNYU_TOKEN_EOF.

Definition not_eof (t : Token) : Prop := tk_type t <> KUNYU_TOKEN_EOF.

(** An array of tokens that are not end-of-file tokens, closed by one that is. *)
Definition closed_by_eof (tokens : list Token) : Prop :=
  exists body t, tokens = body ++ [t] /\ tk_type t = KUNYU_TOKEN_EOF /\ Forall not_eof body.

(** A step of the lexer that touches neither the tokens nor the error record. *)
Definition lexer_quiet (lx lx' : Lexer.LexerContext) : Prop :=
  Lexer.tokens lx' = Lexer.tokens lx /\ Lexer.error lx' = Lexer.error lx
  /\ Lexer.source lx' = Lexer.source lx.

(** What one call of [read_next_token] does to the token array and to
    the error record: nothing or one more token when it answers true, a
    lexical error when it answers false. *)
Definition token_step (lx : Lexer.LexerContext) (ok : bool) (lx' : Lexer.LexerContext) : Prop :=
  Lexer.source lx' = Lexer.source lx /\
  if ok then
    Lexer.tokens lx' = Lexer.tokens lx \/
    exists t, Lexer.tokens lx' = Lexer.tokens lx ++ [t]
  else
    Lexer.tokens lx' = Lexer.tokens lx /\ err_code (Lexer.error lx') = KUNYU_ERROR_LEXER.

(** The lexer has kept its source and has not stepped back. *)
Definition lexer_ahead (lx lx' : Lexer.LexerContext) : Prop :=
  Lexer.source lx' = Lexer.source lx /\ (Lexer.pos lx <= Lexer.pos lx')%nat.

(** The bytes of the source that the lexer has not read yet. *)
Definition unread (lx : Lexer.LexerContext) : nat := (Lexer.source_len lx - Lexer.pos lx)%nat.

(** A branch of [read_next_token] answers, and has moved on in the
    source unless it answers false. *)
Definition token_progress (m : Lexer.Lx bool) (lx : Lexer.LexerContext) : Prop :=
  exists ok lx', m lx = Done ok lx' /\ Lexer.source lx' = Lexer.source lx
                 /\ (ok = false \/ (Lexer.pos lx < Lexer.pos lx')%nat).

(** ** The read-eval-print loop *)

(** A console that has run nothing and shown nothing. *)
Definition fresh_console : Repl.Console := Repl.mkConsole Interpreter.initial_state "".

(** What a round of the loop answers: its result, the text printed and
    the text written to [stderr]. *)
Definition repl_result (fuel : nat) (source : string) : option (bool * string * string) :=
  match Repl.execute_and_print fuel source fresh_console with
  | Done ok c => Some (ok, Interpreter.stdout (Repl.interpreter c), Repl.stderr c)
  | _ => None
  end.

(** ** The parser answers *)

(** The parser has left the token array alone and moved its cursor
    forward, not beyond the end of the array. *)
Definition parser_forward (ps ps' : Parser.ParserContext) : Prop :=
  Parser.tokens ps' = Parser.tokens ps
  /\ (Parser.current ps <= Parser.current ps')%nat
  /\ (Parser.current ps' <= Nat.max (Parser.current ps) (length (Parser.tokens ps)))%nat.

(** The tokens that the parser has not consumed. *)
Definition remaining (ps : Parser.ParserContext) : nat :=
  (length (Parser.tokens ps) - Parser.current ps)%nat.

(** What a parsing function has done when it answers: it has consumed a
    token when it answers a result; when it answers NULL it has left an
    error code or consumed a token. *)
Definition consumed {A} (r : option A) (ps ps' : Parser.ParserContext) : Prop :=
  match r with
  | Some _ => (Parser.current ps < Parser.current ps')%nat
  | None =>
      err_code (Parser.error ps') <> KUNYU_OK
      \/ (Parser.current ps < Parser.current ps')%nat
  end.

(** [m] answers from [ps], and has not moved back. *)
Definition follows_at {A} (m : Parser.Ps A) (ps : Parser.ParserContext) : Prop :=
  exists a ps', m ps = Done a ps' /\ parser_forward ps ps'.

(** [m] answers from [ps], and has consumed what it answers for. *)
Definition parses_at {A} (m : Parser.Ps (option A)) (ps : Parser.ParserContext) : Prop :=
  exists r ps', m ps = Done r ps' /\ parser_forward ps ps' /\ consumed r ps ps'.

(** The same from every state over [toks] with at most [b] tokens left. *)
Definition follows {A} (toks : list Token) (b : nat) (m : Parser.Ps A) : Prop :=
  forall ps, Parser.tokens ps = toks -> (remaining ps <= b)%nat -> follows_at m ps.

Definition parses {A} (toks : list Token) (b : nat) (m : Parser.Ps (option A)) : Prop :=
  forall ps, Parser.tokens ps = toks -> (remaining ps <= b)%nat -> parses_at m ps.

(** The fuel that is enough for the expression grammar with [b] tokens left. *)
Definition expressions_answer (toks : list Token) (fuel : nat) : Prop :=
  (forall b, (4 * b + 3 <= fuel)%nat -> parses toks b (Parser.parse_expression fuel))
  /\ (forall b left ps,
        (4 * b + 1 <= fuel)%nat -> Parser.tokens ps = toks -> (remaining ps <= b)%nat ->
        Parser.is_operator (Parser.current_token ps) = true ->
        parses_at (Parser.parse_binary_expr fuel left) ps)
  /\ (forall b name, (4 * b + 1 <= fuel)%nat ->
                     parses toks b (Parser.parse_function_call fuel name))
  /\ (forall b args, (4 * b + 4 <= fuel)%nat ->
                     parses toks b (Parser.parse_call_args fuel args))
  /\ (forall b, (4 * b + 2 <= fuel)%nat -> parses toks b (Parser.parse_primary fuel)).

(** The fuel that is enough for the statement grammar with [b] tokens left. *)
Definition statements_answer (toks : list Token) (fuel : nat) : Prop :=
  (forall b, (4 * b + 5 <= fuel)%nat -> parses toks b (Parser.parse_statement fuel))
  /\ (forall b, (4 * b + 4 <= fuel)%nat -> parses toks b (Parser.parse_if_stmt fuel))
  /\ (forall b, (4 * b + 4 <= fuel)%nat -> parses toks b (Parser.parse_loop_stmt fuel))
  /\ (forall b, (4 * b + 7 <= fuel)%nat -> follows toks b (Parser.parse_block fuel))
  /\ (forall b statements, (4 * b + 6 <= fuel)%nat ->
                           follows toks b (Parser.parse_block_loop fuel statements))
  /\ (forall b, (4 * b + 4 <= fuel)%nat -> parses toks b (Parser.parse_function_decl fuel)).

(** [parse_program] answers: a program node, or NULL with an error code. *)
Definition program_answers_at (m : Parser.Ps (option AstNode)) (ps : Parser.ParserContext) : Prop :=
  exists root ps',
    m ps = Done root ps' /\ parser_forward ps ps'
    /\ match root with
       | Some node => exists statements, node = Program statements
       | None => err_code (Parser.error ps') <> KUNYU_OK
       end.

(** ** Statements and assignments *)

(** The keyword that opens a print statement, wherever it stands. *)
Definition print_keyword (l c : Z) : Token := mkToken KUNYU_TOKEN_KEYWORD "输出" l c.

(** A delimiter that is neither the semicolon nor an opening parenthesis. *)
Definition wrong_terminator (t : Token) : bool :=
  KunyuTokenType_eqb (tk_type t) KUNYU_TOKEN_DELIMITER
  && negb (String.eqb (tk_value t) ";") && negb (String.eqb (tk_value t) "(").

(** A name followed by the assignment operator. *)
Definition is_target (p : Token * Token) : bool :=
  KunyuTokenType_eqb (tk_type (fst p)) KUNYU_TOKEN_IDENTIFIER
  && KunyuTokenType_eqb (tk_type (snd p)) KUNYU_TOKEN_OPERATOR
  && String.eqb (tk_value (snd p)) "=".

(** The tokens [x1 = x2 = ... xn =]. *)
Definition target_tokens (targets : list (Token * Token)) : list Token :=
  flat_map (fun p => [fst p; snd p]) targets.

(** The tree [x1 = (x2 = (... (xn = e)))]. *)
Definition assign_node (targets : list (Token * Token)) (e : AstNode) : AstNode :=
  fold_right (fun p value => AssignExpr (tk_value (fst p)) value) e targets.

(** ** Lexing, then parsing *)





(* ================================================================== *)
(** * Properties *)

(** ** The monad *)

Section MonadFacts.
Context {S A B : Type}.

Lemma bind_done (m : M S A) (f : A -> M S B) (s s' : S) (b : B) :
  bind m f s = Done b s' ->
  exists a s1, m s = Done a s1 /\ f a s1 = Done b s'.
Proof.
  unfold bind. destruct (m s) as [a s1| |]; intros H; try discriminate.
  exists a, s1. split; [reflexivity | exact H].
Qed.

Lemma bind_eq (m : M S A) (f : A -> M S B) (s s1 : S) (a : A) :
  m s = Done a s1 -> bind m f s = f a s1.
Proof. unfold bind. intros ->. reflexivity. Qed.

End MonadFacts.

Section SatRules.
Context {S : Type} (R : S -> S -> Prop).
Hypothesis R_refl : forall s, R s s.
Hypothesis R_trans : forall s1 s2 s3, R s1 s2 -> R s2 s3 -> R s1 s3.

Lemma sat_ret {A} (a : A) : sat R (ret a).
Proof. intros s a' s' H. inversion H; subst. apply R_refl. Qed.

Lemma sat_get : sat R get.
Proof. intros s a' s' H. inversion H; subst. apply R_refl. Qed.

Lemma sat_undefined {A} : sat R (@undefined S A).
Proof. intros s a s' H. discriminate. Qed.

Lemma sat_out_of_fuel {A} : sat R (@out_of_fuel S A).
Proof. intros s a s' H. discriminate. Qed.

Lemma sat_bind {A B} (m : M S A) (f : A -> M S B) :
  sat R m -> (forall a, sat R (f a)) -> sat R (bind m f).
Proof.
  intros Hm Hf s b s' H.
  apply bind_done in H as (a & s1 & H1 & H2).
  eapply R_trans; [eapply Hm | eapply Hf]; eassumption.
Qed.

Lemma sat_modify (f : S -> S) : (forall s, R s (f s)) -> sat R (modify f).
Proof. intros Hf s a s' H. inversion H; subst. apply Hf. Qed.

End SatRules.

Lemma sat_weaken {S A} (R R' : S -> S -> Prop) (m : M S A) :
  (forall s s', R s s' -> R' s s') -> sat R m -> sat R' m.
Proof. intros Hw Hm s a s' H. apply Hw. eapply Hm. eassumption. Qed.

(** Closed goals about runs of the model: evaluate, then compare. *)
Ltac by_running :=
  vm_compute; repeat match goal with |- _ /\ _ => split end; reflexivity.

(** ** The parser on chains of binary operators *)

Section ParserChains.
Import Parser.

Lemma parser_at_current pre t post err :
  current_token (parser_at pre (t :: post) err) = Some t.
Proof.
  unfold current_token, token_count, parser_at; simpl.
  rewrite length_app; simpl.
  destruct (Nat.leb_spec (length pre + S (length post)) (length pre)) as [H|H]; [lia|].
  rewrite lookup_app_r by lia. rewrite Nat.sub_diag. reflexivity.
Qed.

Lemma parser_at_current_nil pre err :
  current_token (parser_at pre [] err) = None.
Proof.
  unfold current_token, token_count, parser_at; simpl.
  rewrite app_nil_r. rewrite Nat.leb_refl. reflexivity.
Qed.

Lemma parser_at_peek pre t u post err :
  peek_token (parser_at pre (t :: u :: post) err) = Some u.
Proof.
  unfold peek_token, token_count, parser_at; simpl.
  rewrite length_app; simpl.
  destruct (Nat.leb_spec (length pre + S (S (length post))) (length pre + 1)) as [H|H]; [lia|].
  rewrite lookup_app_r by lia.
  replace (length pre + 1 - length pre)%nat with 1%nat by lia. reflexivity.
Qed.

Lemma parser_at_peek_last pre t err :
  peek_token (parser_at pre [t] err) = None.
Proof.
  unfold peek_token, token_count, parser_at; simpl.
  rewrite length_app; simpl.
  destruct (Nat.leb_spec (length pre + 1) (length pre + 1)) as [H|H]; [reflexivity|lia].
Qed.

Lemma parser_at_step pre t post err :
  mkParser (pre ++ t :: post) (S (length pre)) err = parser_at (pre ++ [t]) post err.
Proof.
  unfold parser_at. rewrite <- app_assoc. simpl.
  rewrite length_app. simpl. f_equal. lia.
Qed.

Lemma parser_at_advance pre t post err :
  advance (parser_at pre (t :: post) err) = Done (Some t) (parser_at (pre ++ [t]) post err).
Proof.
  unfold advance. rewrite parser_at_current.
  unfold parser_at at 1 2 3; simpl. rewrite parser_at_step. reflexivity.
Qed.

Lemma ends_chain_no_operator tail pre err :
  ends_chain tail = true -> is_operator (current_token (parser_at pre tail err)) = false.
Proof.
  destruct tail as [|t tail]; intros H.
  - rewrite parser_at_current_nil. reflexivity.
  - rewrite parser_at_current. simpl in *.
    apply andb_true_iff in H as [H _]. apply negb_true_iff in H. exact H.
Qed.

Lemma ends_chain_no_call tail pre err :
  ends_chain tail = true -> check_delimiter "(" (parser_at pre tail err) = false.
Proof.
  unfold check_delimiter. destruct tail as [|t tail]; intros H.
  - rewrite parser_at_current_nil. reflexivity.
  - rewrite parser_at_current. simpl in *.
    apply andb_true_iff in H as [_ H]. apply negb_true_iff in H. exact H.
Qed.

(** [parse_primary] on a leaf that is not the name of a call. *)
Lemma parse_primary_operand fuel pre t post err :
  is_operand t = true ->
  check_delimiter "(" (parser_at (pre ++ [t]) post err) = false ->
  parse_primary (S fuel) (parser_at pre (t :: post) err)
  = Done (Some (operand_node t)) (parser_at (pre ++ [t]) post err).
Proof.
  intros Hop Hcall. simpl.
  unfold bind at 1. unfold get at 1. rewrite parser_at_current.
  unfold is_operand, operand_node in *.
  destruct (tk_type t) eqn:Ht; try discriminate; simpl.
  - unfold bind. rewrite parser_at_advance. unfold get. rewrite Hcall. reflexivity.
  - unfold bind. rewrite parser_at_advance. reflexivity.
  - unfold bind. rewrite parser_at_advance. reflexivity.
Qed.

Lemma operator_starts_no_call pre o post err :
  is_binary_operator o = true -> check_delimiter "(" (parser_at pre (o :: post) err) = false.
Proof.
  intros H. unfold check_delimiter. rewrite parser_at_current.
  unfold is_binary_operator in H. apply andb_true_iff in H as [H _].
  destruct (tk_type o); try discriminate. reflexivity.
Qed.

Lemma binary_operator_is_operator pre o post err :
  is_binary_operator o = true ->
  is_operator (current_token (parser_at pre (o :: post) err)) = true.
Proof.
  intros H. rewrite parser_at_current. simpl.
  unfold is_binary_operator in H. apply andb_true_iff in H as [H _]. exact H.
Qed.

Lemma binary_operator_table o :
  is_binary_operator o = true -> binary_op_of (tk_value o) = Some (operator_of o).
Proof.
  unfold is_binary_operator, operator_of. intros H.
  apply andb_true_iff in H as [_ H].
  destruct (binary_op_of (tk_value o)); [reflexivity | discriminate].
Qed.

Lemma binary_operator_not_assign o :
  is_binary_operator o = true -> String.eqb (tk_value o) "=" = false.
Proof.
  intros H. destruct (String.eqb_spec (tk_value o) "=") as [E|E]; [|reflexivity].
  unfold is_binary_operator in H. rewrite E in H. simpl in H.
  apply andb_true_iff in H as [_ H]. discriminate.
Qed.

(** The loop of [parse_binary_expr] over the rest of a chain. *)
Lemma parse_binary_expr_chain rest :
  forall fuel left pre tail err,
    forallb (fun p => is_binary_operator (fst p) && is_operand (snd p)) rest = true ->
    rest <> [] ->
    ends_chain tail = true ->
    (length rest < fuel)%nat ->
    parse_binary_expr fuel left
      (parser_at pre (flat_map (fun p => [fst p; snd p]) rest ++ tail) err)
    = Done (Some (fold_left
                    (fun acc p => BinaryExpr (operator_of (fst p)) acc (operand_node (snd p)))
                    rest left))
        (parser_at (pre ++ flat_map (fun p => [fst p; snd p]) rest) tail err).
Proof.
  induction rest as [|[o t] rest IH]; intros fuel left pre tail err Hok Hne Hend Hfuel.
  - congruence.
  - simpl in Hok. apply andb_true_iff in Hok as [Hot Hrest].
    apply andb_true_iff in Hot as [Ho Ht].
    destruct fuel as [|fuel]; [simpl in Hfuel; lia|].
    destruct fuel as [|fuel]; [simpl in Hfuel; lia|].
    cbn [flat_map fst snd app fold_left].
    change (parse_binary_expr (S (S fuel)) left) with
      (fun ps => bind advance (fun op =>
         match op with
         | None => undefined
         | Some op =>
             match binary_op_of (tk_value op) with
             | None =>
                 bind (set_error_at KUNYU_ERROR_PARSER ("不支持的运算符: " ++ tk_value op)%string
                         (tk_line op) (tk_column op)) (fun _ => ret None)
             | Some op_type =>
                 bind (parse_primary (S fuel)) (fun right =>
                   match right with
                   | None => ret None
                   | Some r =>
                       let binary := BinaryExpr op_type left r in
                       bind get (fun ps =>
                         if is_operator (current_token ps)
                         then parse_binary_expr (S fuel) binary
                         else ret (Some binary))
                   end)
             end
         end) ps).
    cbv beta.
    rewrite (bind_eq _ _ _ _ _ (parser_at_advance _ _ _ _)).
    rewrite (binary_operator_table _ Ho).
    assert (Hcall : check_delimiter "("
              (parser_at ((pre ++ [o]) ++ [t])
                 (flat_map (fun p => [fst p; snd p]) rest ++ tail) err) = false).
    { destruct rest as [|[o' t'] rest'].
      - simpl. apply ends_chain_no_call. exact Hend.
      - simpl in Hrest. apply andb_true_iff in Hrest as [Hot' _].
        apply andb_true_iff in Hot' as [Ho' _].
        simpl. apply operator_starts_no_call. exact Ho'. }
    rewrite (bind_eq _ _ _ _ _ (parse_primary_operand fuel _ _ _ _ Ht Hcall)).
    cbv zeta. unfold bind at 1, get at 1.
    replace (pre ++ o :: t :: flat_map (fun p => [fst p; snd p]) rest)
      with ((pre ++ [o]) ++ [t] ++ flat_map (fun p => [fst p; snd p]) rest)
      by (rewrite <- !app_assoc; reflexivity).
    destruct rest as [|[o' t'] rest'].
    + simpl flat_map. simpl app at 2.
      rewrite (ends_chain_no_operator _ _ _ Hend). reflexivity.
    + pose proof Hrest as Hrest'.
      simpl in Hrest'. apply andb_true_iff in Hrest' as [Hot' _].
      apply andb_true_iff in Hot' as [Ho' _].
      cbn [flat_map fst snd app].
      rewrite (binary_operator_is_operator _ _ _ _ Ho').
      specialize (IH (S fuel) (BinaryExpr (operator_of o) left (operand_node t))
                    ((pre ++ [o]) ++ [t]) tail err Hrest).
      cbn [flat_map fst snd app] in IH.
      rewrite IH; [| discriminate | exact Hend | simpl in *; lia].
      cbn [fold_left fst snd].
      rewrite <- !app_assoc. reflexivity.
Qed.

(** [parse_expression] on a whole chain. *)
Lemma parse_expression_chain first rest pre tail err fuel :
  chain_ok first rest = true ->
  ends_chain tail = true ->
  (length rest + 2 <= fuel)%nat ->
  parse_expression fuel (parser_at pre (chain_tokens first rest ++ tail) err)
  = Done (Some (chain_node first rest))
      (parser_at (pre ++ chain_tokens first rest) tail err).
Proof.
  intros Hok Hend Hfuel.
  unfold chain_ok in Hok. apply andb_true_iff in Hok as [Hfirst Hrest].
  destruct fuel as [|fuel]; [lia|]. destruct fuel as [|fuel]; [lia|].
  unfold chain_tokens, chain_node. cbn [app].
  change (parse_expression (S (S fuel))) with
    (fun ps0 => bind get (fun ps =>
        let assignment :=
          if check KUNYU_TOKEN_IDENTIFIER ps then
            match current_token ps, peek_token ps with
            | Some name, Some next =>
                if KunyuTokenType_eqb (tk_type next) KUNYU_TOKEN_OPERATOR
                   && String.eqb (tk_value next) "="
                then Some name else None
            | _, _ => None
            end
          else None in
        match assignment with
        | Some name =>
            bind advance (fun _ => bind advance (fun _ =>
            bind (parse_expression (S fuel)) (fun value =>
            match value with
            | None => ret None
            | Some v => ret (Some (AssignExpr (tk_value name) v))
            end)))
        | None =>
            bind (parse_primary (S fuel)) (fun expr =>
            match expr with
            | None => ret None
            | Some e =>
                bind get (fun ps1 =>
                if is_operator (current_token ps1) then parse_binary_expr (S fuel) e
                else ret (Some e))
            end)
        end) ps0).
  cbv beta. unfold bind at 1, get at 1.
  assert (Hassign :
    (if check KUNYU_TOKEN_IDENTIFIER
          (parser_at pre (first :: flat_map (fun p => [fst p; snd p]) rest ++ tail) err)
     then
       match current_token
               (parser_at pre (first :: flat_map (fun p => [fst p; snd p]) rest ++ tail) err),
             peek_token
               (parser_at pre (first :: flat_map (fun p => [fst p; snd p]) rest ++ tail) err)
       with
       | Some name, Some next =>
           if KunyuTokenType_eqb (tk_type next) KUNYU_TOKEN_OPERATOR
              && String.eqb (tk_value next) "="
           then Some name else None
       | _, _ => None
       end
     else None) = None).
  { destruct (check _ _); [|reflexivity].
    rewrite parser_at_current.
    destruct rest as [|[o t] rest'].
    - simpl. destruct tail as [|u tail'].
      + rewrite parser_at_peek_last. reflexivity.
      + rewrite parser_at_peek. simpl in Hend.
        apply andb_true_iff in Hend as [Hu _]. apply negb_true_iff in Hu.
        rewrite Hu. reflexivity.
    - cbn [flat_map fst snd app]. rewrite parser_at_peek.
      simpl in Hrest. apply andb_true_iff in Hrest as [Hot _].
      apply andb_true_iff in Hot as [Ho _].
      rewrite (binary_operator_not_assign _ Ho). rewrite andb_false_r. reflexivity. }
  cbv zeta. rewrite Hassign.
  assert (Hcall : check_delimiter "("
            (parser_at (pre ++ [first]) (flat_map (fun p => [fst p; snd p]) rest ++ tail) err)
            = false).
  { destruct rest as [|[o t] rest'].
    - simpl. apply ends_chain_no_call. exact Hend.
    - simpl in Hrest. apply andb_true_iff in Hrest as [Hot _].
      apply andb_true_iff in Hot as [Ho _].
      simpl. apply operator_starts_no_call. exact Ho. }
  rewrite (bind_eq _ _ _ _ _ (parse_primary_operand fuel _ _ _ _ Hfirst Hcall)).
  unfold bind at 1, get at 1.
  destruct rest as [|[o t] rest'].
  - simpl flat_map. simpl app at 2.
    rewrite (ends_chain_no_operator _ _ _ Hend). reflexivity.
  - pose proof Hrest as Hrest'.
    simpl in Hrest'. apply andb_true_iff in Hrest' as [Hot _].
    apply andb_true_iff in Hot as [Ho _].
    cbn [flat_map fst snd app].
    rewrite (binary_operator_is_operator _ _ _ _ Ho).
    pose proof (parse_binary_expr_chain ((o, t) :: rest') (S fuel) (operand_node first)
                  (pre ++ [first]) tail err Hrest) as H.
    cbn [flat_map fst snd app] in H.
    rewrite H; [| discriminate | exact Hend | simpl in *; lia].
    rewrite <- !app_assoc. reflexivity.
Qed.

(** One turn of [parse_binary_expr], whatever the primary on the right. *)
Lemma parse_binary_expr_step f left ps op op_type r ps2 :
  Parser.current_token ps = Some op ->
  Parser.binary_op_of (tk_value op) = Some op_type ->
  Parser.parse_primary f
    (Parser.mkParser (Parser.tokens ps) (S (Parser.current ps)) (Parser.error ps))
  = Done (Some r) ps2 ->
  Parser.parse_binary_expr (S f) left ps
  = if Parser.is_operator (Parser.current_token ps2)
    then Parser.parse_binary_expr f (BinaryExpr op_type left r) ps2
    else Done (Some (BinaryExpr op_type left r)) ps2.
Proof.
  intros Hop Hty Hr. cbn [Parser.parse_binary_expr].
  unfold bind at 1. unfold Parser.advance at 1. rewrite Hop. cbv beta iota. rewrite Hty.
  rewrite (bind_eq _ _ _ _ _ Hr). unfold bind, get.
  destruct (Parser.is_operator (Parser.current_token ps2)); reflexivity.
Qed.

End ParserChains.

(** C1.  A chain of binary operators is grouped strictly from left to
    right, whatever the operators.  Over literals and names,
    [parse_expression] answers the tree in which every operator has the
    tree built so far on its left and one operand on its right; and at
    every turn, whatever primary [parse_primary] reads on the right of the
    operator, [parse_binary_expr] makes a node of the tree built so far,
    the operator and that primary, and hands it on as the left operand of
    the next operator.  So [a + b * c] is the tree [(a + b) * c], the
    expression [2 + 3 * 4] evaluates to 20, and printing it writes 20. *)
Theorem C1_binary_chain_groups_left_to_right :
  (forall first rest pre tail err fuel,
      chain_ok first rest = true ->
      ends_chain tail = true ->
      (length rest + 2 <= fuel)%nat ->
      Parser.parse_expression fuel (parser_at pre (chain_tokens first rest ++ tail) err)
      = Done (Some (chain_node first rest))
          (parser_at (pre ++ chain_tokens first rest) tail err))
  /\ (forall f left ps op op_type r ps2,
        Parser.current_token ps = Some op ->
        Parser.binary_op_of (tk_value op) = Some op_type ->
        Parser.parse_primary f
          (Parser.mkParser (Parser.tokens ps) (S (Parser.current ps)) (Parser.error ps))
        = Done (Some r) ps2 ->
        Parser.parse_binary_expr (S f) left ps
        = if Parser.is_operator (Parser.current_token ps2)
          then Parser.parse_binary_expr f (BinaryExpr op_type left r) ps2
          else Done (Some (BinaryExpr op_type left r)) ps2)
  /\ expression_of_source 10 "a + (b - c) * f(d)"
     = Some (BinaryExpr OP_MUL
               (BinaryExpr OP_ADD (VariableExpr "a")
                  (GroupingExpr (BinaryExpr OP_SUB (VariableExpr "b") (VariableExpr "c"))))
               (CallExpr "f" [VariableExpr "d"]))
  /\ expression_of_source 10 "a + b * c"
     = Some (BinaryExpr OP_MUL
               (BinaryExpr OP_ADD (VariableExpr "a") (VariableExpr "b"))
               (VariableExpr "c"))
  /\ value_of_source 10 "2 + 3 * 4" = Some 20%float
  /\ run_result 20 "输出 2 + 3 * 4;" = Some (true, no_error, ("20" ++ newline)%string).
Proof.
  split; [| split; [| by_running]].
  - intros. apply parse_expression_chain; assumption.
  - intros f left ps op op_type r ps2 Hop Hty Hr.
    apply (parse_binary_expr_step f left ps op op_type r ps2 Hop Hty Hr).
Qed.

(** The chain rule of C1 at the tokens of [1 - n * "s"] followed by [;]. *)
Lemma C1_chain_witness :
  Parser.parse_expression 4
    (parser_at []
       (chain_tokens (mkToken KUNYU_TOKEN_NUMBER "1" 1 1)
          [(mkToken KUNYU_TOKEN_OPERATOR "-" 1 3, mkToken KUNYU_TOKEN_IDENTIFIER "n" 1 5);
           (mkToken KUNYU_TOKEN_OPERATOR "*" 1 7, mkToken KUNYU_TOKEN_STRING "s" 1 9)]
        ++ [mkToken KUNYU_TOKEN_DELIMITER ";" 1 12]) no_error)
  = Done (Some (BinaryExpr OP_MUL
                  (BinaryExpr OP_SUB (LiteralExpr KUNYU_TOKEN_NUMBER "1") (VariableExpr "n"))
                  (LiteralExpr KUNYU_TOKEN_STRING "s")))
      (parser_at
         (chain_tokens (mkToken KUNYU_TOKEN_NUMBER "1" 1 1)
            [(mkToken KUNYU_TOKEN_OPERATOR "-" 1 3, mkToken KUNYU_TOKEN_IDENTIFIER "n" 1 5);
             (mkToken KUNYU_TOKEN_OPERATOR "*" 1 7, mkToken KUNYU_TOKEN_STRING "s" 1 9)])
         [mkToken KUNYU_TOKEN_DELIMITER ";" 1 12] no_error).
Proof.
  apply (proj1 C1_binary_chain_groups_left_to_right
           (mkToken KUNYU_TOKEN_NUMBER "1" 1 1)
           [(mkToken KUNYU_TOKEN_OPERATOR "-" 1 3, mkToken KUNYU_TOKEN_IDENTIFIER "n" 1 5);
            (mkToken KUNYU_TOKEN_OPERATOR "*" 1 7, mkToken KUNYU_TOKEN_STRING "s" 1 9)]
           [] [mkToken KUNYU_TOKEN_DELIMITER ";" 1 12] no_error 4%nat).
  - reflexivity.
  - reflexivity.
  - simpl. lia.
Defined.

(** ** Expression statements *)

Section ExpressionStatements.
Import Parser.

Lemma operand_is_no_keyword t pre post err keyword :
  is_operand t = true -> check_keyword keyword (parser_at pre (t :: post) err) = false.
Proof.
  intros H. unfold check_keyword. rewrite parser_at_current.
  unfold is_operand in H. destruct (tk_type t); try discriminate; reflexivity.
Qed.

Lemma parse_statement_unfold f :
  parse_statement (S f)
  = bind get (fun ps =>
      if check_keyword "输出" ps then parse_print_stmt f
      else if check_keyword "变量" ps || check_keyword "常量" ps then parse_var_decl f
      else if check_keyword "如果" ps then parse_if_stmt f
      else if check_keyword "循环" ps then parse_loop_stmt f
      else if check_keyword "函数" ps then parse_function_decl f
      else if check_keyword "返回" ps then parse_return_stmt f
      else parse_expression_stmt f).
Proof. reflexivity. Qed.

Lemma semicolon_ends_chain semi post : is_semicolon semi = true -> ends_chain (semi :: post) = true.
Proof.
  unfold is_semicolon, ends_chain. intros H. apply andb_true_iff in H as [Ht Hv].
  destruct (tk_type semi); try discriminate. simpl.
  apply String.eqb_eq in Hv. rewrite Hv. reflexivity.
Qed.

(** An expression statement [e ;] whose next token is not a second [;]:
    [match] has consumed the semicolon when the text is compared. *)
Lemma parse_statement_one_semicolon first rest semi next tail pre err fuel :
  chain_ok first rest = true ->
  is_semicolon semi = true ->
  String.eqb (tk_value next) ";" = false ->
  (length rest + 3 <= fuel)%nat ->
  parse_statement fuel (parser_at pre (chain_tokens first rest ++ semi :: next :: tail) err)
  = Done None
      (parser_at (pre ++ chain_tokens first rest ++ [semi]) (next :: tail)
         (mkError KUNYU_ERROR_PARSER "预期';'作为表达式语句的结束" (tk_line next) (tk_column next))).
Proof.
  intros Hok Hsemi Hnext Hfuel.
  destruct fuel as [|f]; [lia|].
  rewrite parse_statement_unfold. unfold bind at 1, get at 1.
  pose proof Hok as Hok'. unfold chain_ok in Hok'. apply andb_true_iff in Hok' as [Hfirst _].
  unfold chain_tokens at 1 2 3 4 5 6 7. cbn [app].
  rewrite !(operand_is_no_keyword _ _ _ _ _ Hfirst). cbn [orb].
  unfold parse_expression_stmt.
  change (first :: flat_map (fun p => [fst p; snd p]) rest ++ semi :: next :: tail)
    with (chain_tokens first rest ++ semi :: next :: tail).
  rewrite (bind_eq _ _ _ _ _
             (parse_expression_chain first rest pre (semi :: next :: tail) err f Hok
                (semicolon_ends_chain _ _ Hsemi) ltac:(lia))).
  unfold match_. unfold bind at 1 2, get at 1.
  assert (Hcheck : check KUNYU_TOKEN_DELIMITER
            (parser_at (pre ++ chain_tokens first rest) (semi :: next :: tail) err) = true).
  { unfold check. rewrite parser_at_current.
    unfold is_semicolon in Hsemi. apply andb_true_iff in Hsemi as [H _]. exact H. }
  rewrite Hcheck.
  rewrite (bind_eq _ _ _ _ _ (parser_at_advance _ _ _ _)).
  unfold ret at 1. cbn [negb].
  unfold bind at 1 2. unfold current_value at 1.
  rewrite parser_at_current. unfold ret at 1. rewrite Hnext. cbn [negb].
  unfold bind, set_error_here. rewrite parser_at_current.
  unfold ret. rewrite <- app_assoc. reflexivity.
Qed.

(** An expression statement, whatever the expression: the delimiter after
    it is consumed, and the token after that one decides. *)
Lemma parse_statement_expression f ps e ps1 delimiter next :
  (forall keyword, check_keyword keyword ps = false) ->
  parse_expression f ps = Done (Some e) ps1 ->
  current_token ps1 = Some delimiter ->
  tk_type delimiter = KUNYU_TOKEN_DELIMITER ->
  current_token (mkParser (tokens ps1) (S (current ps1)) (error ps1)) = Some next ->
  parse_statement (S f) ps
  = if String.eqb (tk_value next) ";"
    then Done (Some (ExpressionStmt e))
           (mkParser (tokens ps1) (S (S (current ps1))) (error ps1))
    else Done None
           (mkParser (tokens ps1) (S (current ps1))
              (mkError KUNYU_ERROR_PARSER "预期';'作为表达式语句的结束"
                 (tk_line next) (tk_column next))).
Proof.
  intros Hkw He Hd Hty Hnext.
  rewrite parse_statement_unfold. unfold bind at 1, get at 1.
  rewrite !Hkw. cbn [orb].
  unfold parse_expression_stmt.
  rewrite (bind_eq _ _ _ _ _ He).
  unfold match_. unfold bind at 1 2, get at 1.
  assert (Hcheck : check KUNYU_TOKEN_DELIMITER ps1 = true)
    by (unfold check; rewrite Hd, Hty; reflexivity).
  rewrite Hcheck.
  assert (Hadv : advance ps1
                 = Done (Some delimiter) (mkParser (tokens ps1) (S (current ps1)) (error ps1)))
    by (unfold advance; rewrite Hd; reflexivity).
  rewrite (bind_eq _ _ _ _ _ Hadv).
  unfold ret at 1. cbn [negb].
  unfold bind at 1 2. unfold current_value at 1.
  rewrite Hnext. unfold ret at 1.
  destruct (String.eqb (tk_value next) ";"); cbn [negb].
  - unfold bind, advance. rewrite Hnext. reflexivity.
  - unfold bind, set_error_here. rewrite Hnext. reflexivity.
Qed.

End ExpressionStatements.

(** C2.  An expression followed by a single [;] is not accepted as an
    expression statement: [parse_statement] consumes the delimiter after
    the expression with [match] and then compares the text of the token
    after it with [";"].  So [e ;] is a syntax error whenever the next
    token is not a second semicolon, for a chain of operators and for every
    other expression: the source of the claim is refused by the parser, at
    the end of the input, and never reaches the interpreter.  With two
    semicolons it parses, and the run then fails in [set_variable] as the
    claim says. *)
Theorem C2_expression_statement_needs_second_semicolon :
  (forall first rest semi next tail pre err fuel,
      chain_ok first rest = true ->
      is_semicolon semi = true ->
      String.eqb (tk_value next) ";" = false ->
      (length rest + 3 <= fuel)%nat ->
      Parser.parse_statement fuel
        (parser_at pre (chain_tokens first rest ++ semi :: next :: tail) err)
      = Done None
          (parser_at (pre ++ chain_tokens first rest ++ [semi]) (next :: tail)
             (mkError KUNYU_ERROR_PARSER "预期';'作为表达式语句的结束"
                (tk_line next) (tk_column next))))
  /\ (forall f ps e ps1 delimiter next,
        (forall keyword, Parser.check_keyword keyword ps = false) ->
        Parser.parse_expression f ps = Done (Some e) ps1 ->
        Parser.current_token ps1 = Some delimiter ->
        tk_type delimiter = KUNYU_TOKEN_DELIMITER ->
        Parser.current_token
          (Parser.mkParser (Parser.tokens ps1) (S (Parser.current ps1)) (Parser.error ps1))
        = Some next ->
        Parser.parse_statement (S f) ps
        = if String.eqb (tk_value next) ";"
          then Done (Some (ExpressionStmt e))
                 (Parser.mkParser (Parser.tokens ps1) (S (S (Parser.current ps1)))
                    (Parser.error ps1))
          else Done None
                 (Parser.mkParser (Parser.tokens ps1) (S (Parser.current ps1))
                    (mkError KUNYU_ERROR_PARSER "预期';'作为表达式语句的结束"
                       (tk_line next) (tk_column next))))
  /\ parse_result 20 "常量 x = 1; x = 2;"
     = Some (None, mkError KUNYU_ERROR_PARSER "预期';'作为表达式语句的结束" 1 21)
  /\ parse_result 20 "f(1);"
     = Some (None, mkError KUNYU_ERROR_PARSER "预期';'作为表达式语句的结束" 1 6)
  /\ parse_result 20 "x = 2);"
     = Some (Some (Program
                     [ExpressionStmt (AssignExpr "x" (LiteralExpr KUNYU_TOKEN_NUMBER "2"))]),
             no_error)
  /\ run_source 20 "常量 x = 1; x = 2;" = None
  /\ parse_result 20 "常量 x = 1; x = 2;;"
     = Some (Some (Program
                     [VarDeclStmt "x" (LiteralExpr KUNYU_TOKEN_NUMBER "1") true;
                      ExpressionStmt (AssignExpr "x" (LiteralExpr KUNYU_TOKEN_NUMBER "2"))]),
             no_error)
  /\ run_result 20 "常量 x = 1; x = 2;;"
     = Some (false, mkError KUNYU_ERROR_RUNTIME "不能修改常量: x" 0 0, ""%string).
Proof.
  split; [| split; [| by_running]].
  - intros. apply parse_statement_one_semicolon; assumption.
  - intros f ps e ps1 delimiter next Hkw He Hd Hty Hnext.
    apply (parse_statement_expression f ps e ps1 delimiter next Hkw He Hd Hty Hnext).
Qed.

(** C2 at the tokens of [1 + 2;] followed by the end of the input. *)
Lemma C2_sum_with_one_semicolon :
  Parser.parse_statement 4
    (parser_at []
       (chain_tokens (mkToken KUNYU_TOKEN_NUMBER "1" 1 1)
          [(mkToken KUNYU_TOKEN_OPERATOR "+" 1 3, mkToken KUNYU_TOKEN_NUMBER "2" 1 5)]
        ++ mkToken KUNYU_TOKEN_DELIMITER ";" 1 6 :: mkToken KUNYU_TOKEN_EOF "" 1 7 :: [])
       no_error)
  = Done None
      (parser_at
         ([] ++ chain_tokens (mkToken KUNYU_TOKEN_NUMBER "1" 1 1)
                  [(mkToken KUNYU_TOKEN_OPERATOR "+" 1 3, mkToken KUNYU_TOKEN_NUMBER "2" 1 5)]
             ++ [mkToken KUNYU_TOKEN_DELIMITER ";" 1 6])
         (mkToken KUNYU_TOKEN_EOF "" 1 7 :: [])
         (mkError KUNYU_ERROR_PARSER "预期';'作为表达式语句的结束" 1 7)).
Proof.
  apply (proj1 C2_expression_statement_needs_second_semicolon
           (mkToken KUNYU_TOKEN_NUMBER "1" 1 1)
           [(mkToken KUNYU_TOKEN_OPERATOR "+" 1 3, mkToken KUNYU_TOKEN_NUMBER "2" 1 5)]
           (mkToken KUNYU_TOKEN_DELIMITER ";" 1 6) (mkToken KUNYU_TOKEN_EOF "" 1 7)
           [] [] no_error 4%nat).
  - reflexivity.
  - reflexivity.
  - reflexivity.
  - simpl. lia.
Defined.

(** ** Objects and reference counts *)

Section HeapFacts.
Import Object.

Lemma live_lookup h a o : live h a = Some o <-> h !! a = Some (Some o).
Proof.
  unfold live. split.
  - destruct (h !! a) as [[o'|]|]; intros H; inversion H; reflexivity.
  - intros ->. reflexivity.
Qed.

Lemma live_lt h a o : live h a = Some o -> (a < length h)%nat.
Proof. intros H. apply live_lookup in H. eapply lookup_lt_Some. exact H. Qed.

Lemma load_live h a o : live h a = Some o -> load a h = Done o h.
Proof. intros H. apply live_lookup in H. unfold load. rewrite H. reflexivity. Qed.

Lemma store_live h a o o' : live h a = Some o -> store a o' h = Done tt (<[a := Some o']> h).
Proof. intros H. apply live_lookup in H. unfold store. rewrite H. reflexivity. Qed.

Lemma free_live h a o : live h a = Some o -> free a h = Done tt (<[a := None]> h).
Proof. intros H. apply live_lookup in H. unfold free. rewrite H. reflexivity. Qed.

Lemma live_insert_same h a o x : live h a = Some o -> live (<[a := Some x]> h) a = Some x.
Proof.
  intros H. apply live_lt in H. unfold live.
  rewrite list_lookup_insert_eq by exact H. reflexivity.
Qed.

Lemma live_insert_other h a b x : a <> b -> live (<[a := x]> h) b = live h b.
Proof. intros H. unfold live. rewrite list_lookup_insert_ne by exact H. reflexivity. Qed.

Lemma live_free_same h a : live (<[a := None]> h) a = None.
Proof.
  unfold live. destruct (Nat.lt_ge_cases a (length h)) as [H|H].
  - rewrite list_lookup_insert_eq by exact H. reflexivity.
  - rewrite list_insert_ge by exact H.
    rewrite lookup_ge_None_2 by exact H. reflexivity.
Qed.

Lemma live_alloc h o : live (h ++ [Some o]) (length h) = Some o.
Proof.
  unfold live. rewrite lookup_app_r by lia. rewrite Nat.sub_diag. reflexivity.
Qed.

Lemma live_alloc_old h o a x : live h a = Some x -> live (h ++ [Some o]) a = Some x.
Proof.
  intros H. pose proof (live_lt _ _ _ H) as Hlt. unfold live in *.
  rewrite lookup_app_l by exact Hlt. exact H.
Qed.

Lemma py_incref_live h a o :
  live h a = Some o ->
  py_incref (Some a) h = Done tt (<[a := Some (mkObject (ref_count o + 1) (data o))]> h).
Proof.
  intros H. unfold py_incref.
  rewrite (bind_eq _ _ _ _ _ (load_live _ _ _ H)). apply (store_live _ _ _ _ H).
Qed.

(** [py_decref] on an object that stays alive. *)
Lemma py_decref_alive fuel h a o :
  live h a = Some o ->
  1 < ref_count o ->
  py_decref (S fuel) (Some a) h
  = Done tt (<[a := Some (mkObject (ref_count o - 1) (data o))]> h).
Proof.
  intros H Hrc. simpl.
  rewrite (bind_eq _ _ _ _ _ (load_live _ _ _ H)).
  rewrite (bind_eq _ _ _ _ _ (store_live _ _ _ _ H)).
  destruct (Z.leb_spec (ref_count o - 1) 0) as [Hle|Hgt]; [lia|]. reflexivity.
Qed.

(** [py_decref] of the last reference to a number or a string. *)
Lemma py_decref_leaf_freed fuel h a o :
  live h a = Some o ->
  is_leaf o = true ->
  ref_count o <= 1 ->
  py_decref (S fuel) (Some a) h = Done tt (<[a := None]> h).
Proof.
  intros H Hleaf Hrc. simpl.
  rewrite (bind_eq _ _ _ _ _ (load_live _ _ _ H)).
  rewrite (bind_eq _ _ _ _ _ (store_live _ _ _ _ H)).
  destruct (Z.leb_spec (ref_count o - 1) 0) as [Hle|Hgt]; [|lia].
  unfold is_leaf in Hleaf.
  destruct (data o) eqn:Hd; try discriminate; unfold bind, ret;
    rewrite (free_live _ _ _ (live_insert_same _ _ _ _ H));
    rewrite list_insert_insert_eq; reflexivity.
Qed.

Lemma insert_same_cell (h : Heap) a o : live h a = Some o -> <[a := Some o]> h = h.
Proof. intros H. apply list_insert_id. apply live_lookup. exact H. Qed.

Lemma py_incref_decref fuel h a o :
  live h a = Some o ->
  1 <= ref_count o ->
  bind (py_incref (Some a)) (fun _ => py_decref (S fuel) (Some a)) h = Done tt h.
Proof.
  intros H Hrc.
  rewrite (bind_eq _ _ _ _ _ (py_incref_live _ _ _ H)).
  assert (H1 : live (<[a := Some (mkObject (ref_count o + 1) (data o))]> h) a
               = Some (mkObject (ref_count o + 1) (data o)))
    by (eapply live_insert_same; exact H).
  rewrite (py_decref_alive fuel _ _ _ H1) by (simpl; lia).
  rewrite list_insert_insert_eq. f_equal.
  transitivity (<[a := Some o]> h); [|apply insert_same_cell; exact H].
  destruct o as [rc d]. simpl. replace (rc + 1 - 1) with rc by lia. reflexivity.
Qed.

(** [py_decref] of a leaf: it completes and touches no other cell. *)
Lemma py_decref_leaf fuel h a o :
  live h a = Some o ->
  is_leaf o = true ->
  exists h',
    py_decref (S fuel) (Some a) h = Done tt h'
    /\ length h' = length h
    /\ (forall b, b <> a -> live h' b = live h b)
    /\ live h' a = if 1 <? ref_count o
                   then Some (mkObject (ref_count o - 1) (data o)) else None.
Proof.
  intros H Hleaf. destruct (Z.ltb_spec 1 (ref_count o)) as [Hrc|Hrc].
  - eexists. split; [apply (py_decref_alive _ _ _ _ H Hrc)|].
    split; [apply length_insert|]. split.
    + intros b Hb. apply live_insert_other. congruence.
    + eapply live_insert_same. exact H.
  - eexists. split; [apply (py_decref_leaf_freed _ _ _ _ H Hleaf Hrc)|].
    split; [apply length_insert|]. split.
    + intros b Hb. apply live_insert_other. congruence.
    + apply live_free_same.
Qed.

(** The release of the two operands of a binary expression, both leaves
    and both owned by the caller. *)
Lemma release_operands fuel h left right lo ro :
  live h left = Some lo ->
  live h right = Some ro ->
  is_leaf lo = true ->
  is_leaf ro = true ->
  (left = right -> 1 < ref_count lo) ->
  exists h',
    bind (py_decref (S fuel) (Some left)) (fun _ => py_decref (S fuel) (Some right)) h
    = Done tt h'
    /\ length h' = length h
    /\ (forall b, b <> left -> b <> right -> live h' b = live h b).
Proof.
  intros Hl Hr Hll Hlr Hsame.
  destruct (py_decref_leaf fuel h left lo Hl Hll) as (h1 & E1 & Len1 & Oth1 & At1).
  destruct (Nat.eq_dec left right) as [->|Hne].
  - specialize (Hsame eq_refl).
    destruct (Z.ltb_spec 1 (ref_count lo)) as [_|?]; [|lia].
    assert (Hleaf1 : is_leaf (mkObject (ref_count lo - 1) (data lo)) = true) by exact Hll.
    destruct (py_decref_leaf fuel h1 right _ At1 Hleaf1) as (h2 & E2 & Len2 & Oth2 & _).
    exists h2. split; [rewrite (bind_eq _ _ _ _ _ E1); exact E2|].
    split; [congruence|].
    intros b Hb _. rewrite Oth2 by exact Hb. apply Oth1. exact Hb.
  - assert (Hr1 : live h1 right = Some ro) by (rewrite Oth1 by congruence; exact Hr).
    destruct (py_decref_leaf fuel h1 right ro Hr1 Hlr) as (h2 & E2 & Len2 & Oth2 & _).
    exists h2. split; [rewrite (bind_eq _ _ _ _ _ E1); exact E2|].
    split; [congruence|].
    intros b Hb1 Hb2. rewrite Oth2 by exact Hb2. apply Oth1. exact Hb1.
Qed.

End HeapFacts.

(** ** Heap computations inside the interpreter *)

Section OnHeap.
Import Object Interpreter.

Lemma set_heap_same st : set_heap (heap st) st = st.
Proof. destruct st; reflexivity. Qed.

Lemma set_heap_twice h h' st : set_heap h (set_heap h' st) = set_heap h st.
Proof. reflexivity. Qed.

Lemma on_heap_eq {A} (m : Hp A) st a h' :
  m (heap st) = Done a h' -> on_heap m st = Done a (set_heap h' st).
Proof. unfold on_heap, lift. intros ->. reflexivity. Qed.

Lemma on_heap_done {A} (m : Hp A) st a st' :
  on_heap m st = Done a st' ->
  exists h', m (heap st) = Done a h' /\ st' = set_heap h' st.
Proof.
  unfold on_heap, lift. destruct (m (heap st)) as [a' h'| |]; intros H; inversion H; subst.
  exists h'. split; reflexivity.
Qed.

Lemma on_heap_load st a o :
  live (heap st) a = Some o -> on_heap (load a) st = Done o st.
Proof.
  intros H. rewrite (on_heap_eq _ _ _ _ (load_live _ _ _ H)).
  rewrite set_heap_same. reflexivity.
Qed.

Lemma object_to_string_live st a o :
  live (heap st) a = Some o -> object_to_string (Some a) st = Done (text_of o) st.
Proof.
  intros H. unfold object_to_string.
  rewrite (bind_eq _ _ _ _ _ (on_heap_load _ _ _ H)).
  unfold text_of. destruct (data o); reflexivity.
Qed.

(** The two [py_decref] that end [eval_binary_expr]. *)
Lemma release_pair {A} fuel l r (k : In A) st h' :
  bind (py_decref fuel (Some l)) (fun _ => py_decref fuel (Some r)) (heap st) = Done tt h' ->
  bind (on_heap (py_decref fuel (Some l)))
    (fun _ => bind (on_heap (py_decref fuel (Some r))) (fun _ => k)) st
  = k (set_heap h' st).
Proof.
  intros H. apply bind_done in H as ([] & h1 & H1 & H2).
  rewrite (bind_eq _ _ _ _ _ (on_heap_eq _ _ _ _ H1)).
  assert (H2' : py_decref fuel (Some r) (heap (set_heap h1 st)) = Done tt h') by exact H2.
  rewrite (bind_eq _ _ _ _ _ (on_heap_eq _ _ _ _ H2')). reflexivity.
Qed.

End OnHeap.

(** ** Releasing objects in a larger heap *)

Section Frames.
Import Object.

Lemma framed_ret {A} (a : A) : framed (ret a).
Proof. intros h b h' x H. inversion H; subst. reflexivity. Qed.

Lemma framed_undefined {A} : framed (@undefined Heap A).
Proof. intros h b h' x H. discriminate. Qed.

Lemma framed_out_of_fuel {A} : framed (@out_of_fuel Heap A).
Proof. intros h b h' x H. discriminate. Qed.

Lemma framed_bind {A B} (m : Hp A) (f : A -> Hp B) :
  framed m -> (forall a, framed (f a)) -> framed (bind m f).
Proof.
  intros Hm Hf h b h' x H.
  apply bind_done in H as (a & h1 & H1 & H2).
  rewrite (bind_eq _ _ _ _ _ (Hm _ _ _ x H1)). apply Hf. exact H2.
Qed.

Lemma framed_load a : framed (load a).
Proof.
  intros h o h' x. unfold load.
  destruct (h !! a) as [[o'|]|] eqn:E; intros H; inversion H; subst.
  rewrite (lookup_app_l_Some _ _ _ _ E). reflexivity.
Qed.

Lemma framed_store a o : framed (store a o).
Proof.
  intros h u h' x. unfold store.
  destruct (h !! a) as [[o'|]|] eqn:E; intros H; inversion H; subst.
  rewrite (lookup_app_l_Some _ _ _ _ E).
  rewrite insert_app_l by (eapply lookup_lt_Some; exact E). reflexivity.
Qed.

Lemma framed_free a : framed (free a).
Proof.
  intros h u h' x. unfold free.
  destruct (h !! a) as [[o'|]|] eqn:E; intros H; inversion H; subst.
  rewrite (lookup_app_l_Some _ _ _ _ E).
  rewrite insert_app_l by (eapply lookup_lt_Some; exact E). reflexivity.
Qed.

(** [py_decref], when it is defined, does the same in a heap with more
    cells behind: it reads and writes the cells it reaches and no other. *)
Lemma destructors_framed fuel :
  (forall obj, framed (py_decref fuel obj))
  /\ (forall a i, framed (list_destructor fuel a i))
  /\ (forall a i, framed (dict_destructor fuel a i)).
Proof.
  induction fuel as [|f (IHd & IHl & IHm)].
  - split; [|split].
    + intros [a|]; [apply framed_out_of_fuel | apply framed_ret].
    + intros; apply framed_out_of_fuel.
    + intros; apply framed_out_of_fuel.
  - split; [|split].
    + intros [a|]; [|apply framed_ret]. cbn [py_decref].
      apply framed_bind; [apply framed_load|]. intros o.
      apply framed_bind; [apply framed_store|]. intros _.
      destruct (ref_count o - 1 <=? 0); [|apply framed_ret].
      apply framed_bind; [|intros; apply framed_free].
      destruct (data o); first [apply framed_ret | apply IHl | apply IHm].
    + intros a i. cbn [list_destructor].
      apply framed_bind; [apply framed_load|]. intros o.
      destruct (data o) as [| |items cap|]; try apply framed_undefined.
      destruct (items !! i); [|apply framed_ret].
      apply framed_bind; [apply IHd|]. intros _. apply IHl.
    + intros a i. cbn [dict_destructor].
      apply framed_bind; [apply framed_load|]. intros o.
      destruct (data o) as [| | |items cap]; try apply framed_undefined.
      destruct (items !! i) as [[key value]|]; [|apply framed_ret].
      apply framed_bind; [apply IHd|]. intros _.
      apply framed_bind; [apply IHd|]. intros _. apply IHm.
Qed.

Lemma py_decref_framed fuel obj : framed (py_decref fuel obj).
Proof. apply destructors_framed. Qed.

Lemma release_framed fuel left right :
  framed (bind (py_decref fuel (Some left)) (fun _ => py_decref fuel (Some right))).
Proof. apply framed_bind; [|intros _]; apply py_decref_framed. Qed.

End Frames.

(** ** The interpreter on operands of any type *)

Section BinaryOnValues.
Import Object Interpreter.

Lemma apply_binary_released fuel op left right st lo ro h' :
  live (heap st) left = Some lo ->
  live (heap st) right = Some ro ->
  bind (py_decref fuel (Some left)) (fun _ => py_decref fuel (Some right)) (heap st)
  = Done tt h' ->
  apply_binary fuel op left right st = binary_outcome op lo ro h' st.
Proof.
  intros Hl Hr Hrel.
  unfold binary_outcome, binary_answer_of, apply_binary.
  rewrite (bind_eq _ _ _ _ _ (on_heap_load _ _ _ Hl)).
  rewrite (bind_eq _ _ _ _ _ (on_heap_load _ _ _ Hr)).
  assert (Hnew : forall d,
    bind (py_decref fuel (Some left)) (fun _ => py_decref fuel (Some right))
      (heap st ++ [Some (mkObject 1 d)]) = Done tt (h' ++ [Some (mkObject 1 d)]))
    by (intros d; apply release_framed; exact Hrel).
  destruct (is_add op && (is_string lo || is_string ro)).
  - rewrite (bind_eq _ _ _ _ _ (object_to_string_live _ _ _ Hl)).
    rewrite (bind_eq _ _ _ _ _ (object_to_string_live _ _ _ Hr)).
    unfold create_string_object, py_string_new.
    unfold bind at 1. unfold on_heap at 1, lift at 1. unfold bind at 1, alloc at 1, ret at 1.
    rewrite (release_pair fuel left right _ (set_heap _ st) _ (Hnew _)). reflexivity.
  - assert (Hfail : forall msg,
      bind (set_error KUNYU_ERROR_RUNTIME msg)
        (fun _ => bind (on_heap (py_decref fuel (Some left)))
                    (fun _ => bind (on_heap (py_decref fuel (Some right)))
                                (fun _ => ret None))) st
      = Done (@None addr) (set_heap h' (with_error KUNYU_ERROR_RUNTIME msg st))).
    { intros msg. unfold bind at 1, set_error at 1, modify at 1.
      rewrite (release_pair fuel left right _ (set_error_record _ st) h' Hrel).
      reflexivity. }
    destruct (data lo) as [l| | |] eqn:Hdl; destruct (data ro) as [r| | |] eqn:Hdr;
      try apply Hfail.
    destruct (arith op l r) as [v|msg|]; [| apply Hfail | reflexivity].
    unfold create_number_object, py_number_new.
    unfold bind at 1. unfold on_heap at 1, lift at 1. unfold bind at 1, alloc at 1, ret at 1.
    rewrite (release_pair fuel left right _ (set_heap _ st) _ (Hnew _)). reflexivity.
Qed.

(** [eval_binary_expr] for operands of any type that evaluate to live
    objects whose release is defined. *)
Lemma eval_binary_expr_released fuel (ev : AstNode -> In (option addr)) op l r st st1 st2
    left right lo ro h' :
  ev l st = Done (Some left) st1 ->
  ev r st1 = Done (Some right) st2 ->
  live (heap st2) left = Some lo ->
  live (heap st2) right = Some ro ->
  bind (py_decref fuel (Some left)) (fun _ => py_decref fuel (Some right)) (heap st2)
  = Done tt h' ->
  eval_binary_expr fuel ev op l r st = binary_outcome op lo ro h' st2.
Proof.
  intros El Er Hl Hr Hrel.
  unfold eval_binary_expr.
  rewrite (bind_eq _ _ _ _ _ El). rewrite (bind_eq _ _ _ _ _ Er).
  apply apply_binary_released; assumption.
Qed.

Lemma py_decref_length fuel :
  (forall obj h h', py_decref fuel obj h = Done tt h' -> length h' = length h)
  /\ (forall a i h h', list_destructor fuel a i h = Done tt h' -> length h' = length h)
  /\ (forall a i h h', dict_destructor fuel a i h = Done tt h' -> length h' = length h).
Proof.
  assert (Hload : forall a h o h', load a h = Done o h' -> h' = h).
  { intros a h o h'. unfold load. destruct (h !! a) as [[?|]|]; intros H; inversion H.
    reflexivity. }
  assert (Hstore : forall a o h h', store a o h = Done tt h' -> length h' = length h).
  { intros a o h h'. unfold store. destruct (h !! a) as [[?|]|]; intros H; inversion H.
    apply length_insert. }
  assert (Hfree : forall a h h', free a h = Done tt h' -> length h' = length h).
  { intros a h h'. unfold free. destruct (h !! a) as [[?|]|]; intros H; inversion H.
    apply length_insert. }
  induction fuel as [|f (IHd & IHl & IHm)].
  - split; [|split].
    + intros [a|] h h' H; [discriminate|]. inversion H. reflexivity.
    + intros a i h h' H. discriminate.
    + intros a i h h' H. discriminate.
  - split; [|split].
    + intros [a|] h h' H; [|inversion H; reflexivity]. cbn [py_decref] in H.
      apply bind_done in H as (o & h1 & H1 & H). apply Hload in H1. subst h1.
      apply bind_done in H as ([] & h2 & H2 & H). apply Hstore in H2.
      destruct (ref_count o - 1 <=? 0); [|inversion H; subst; exact H2].
      apply bind_done in H as ([] & h3 & H3 & H). apply Hfree in H.
      rewrite H, <- H2.
      destruct (data o); first
        [ inversion H3; reflexivity | apply IHl in H3; exact H3 | apply IHm in H3; exact H3 ].
    + intros a i h h' H. cbn [list_destructor] in H.
      apply bind_done in H as (o & h1 & H1 & H). apply Hload in H1. subst h1.
      destruct (data o) as [| |items cap|]; try discriminate.
      destruct (items !! i); [|inversion H; reflexivity].
      apply bind_done in H as ([] & h2 & H2 & H).
      apply IHd in H2. apply IHl in H. congruence.
    + intros a i h h' H. cbn [dict_destructor] in H.
      apply bind_done in H as (o & h1 & H1 & H). apply Hload in H1. subst h1.
      destruct (data o) as [| | |items cap]; try discriminate.
      destruct (items !! i) as [[key value]|]; [|inversion H; reflexivity].
      apply bind_done in H as ([] & h2 & H2 & H).
      apply bind_done in H as ([] & h3 & H3 & H).
      apply IHd in H2. apply IHd in H3. apply IHm in H. congruence.
Qed.

Lemma release_length fuel left right h h' :
  bind (py_decref fuel (Some left)) (fun _ => py_decref fuel (Some right)) h = Done tt h' ->
  length h' = length h.
Proof.
  intros H. apply bind_done in H as ([] & h1 & H1 & H2).
  apply (proj1 (py_decref_length fuel)) in H1, H2. congruence.
Qed.

End BinaryOnValues.

(** ** Binary operators on values *)

(** C3.  The logical operators are not evaluated to 1 or 0: the numeric
    [switch] of [eval_binary_expr] has no case for [OP_AND] and [OP_OR],
    which the parser builds for [&&] and [||], and [is_truthy] is not
    consulted.  Whatever the two operands are, both are evaluated and
    released, and the evaluation fails: "unsupported operator" on two
    numbers, "type mismatch" otherwise. *)
Theorem C3_logical_operators_fail :
  (forall fuel (ev : AstNode -> Interpreter.In (option addr)) op l r st st1 st2
          left right lo ro h',
      op = OP_AND \/ op = OP_OR ->
      ev l st = Done (Some left) st1 ->
      ev r st1 = Done (Some right) st2 ->
      live (Interpreter.heap st2) left = Some lo ->
      live (Interpreter.heap st2) right = Some ro ->
      release_both fuel left right (Interpreter.heap st2) = Done tt h' ->
      Interpreter.eval_binary_expr fuel ev op l r st
      = Done None
          (Interpreter.set_heap h'
             (with_error KUNYU_ERROR_RUNTIME
                (if is_number lo && is_number ro then "不支持的运算符" else "类型不匹配的运算")
                st2)))
  /\ (forall fuel h left right lo ro,
        live h left = Some lo ->
        live h right = Some ro ->
        is_leaf lo = true ->
        is_leaf ro = true ->
        (left = right -> 1 < ref_count lo) ->
        exists h', release_both (S fuel) left right h = Done tt h')
  /\ run_result 20 "输出 1 && 1;"
     = Some (false, mkError KUNYU_ERROR_RUNTIME "不支持的运算符" 0 0, ""%string)
  /\ run_result 20 "输出 0 || 1;"
     = Some (false, mkError KUNYU_ERROR_RUNTIME "不支持的运算符" 0 0, ""%string)
  /\ run_result 20 ("输出 " ++ quote ++ "a" ++ quote ++ " && 1;")
     = Some (false, mkError KUNYU_ERROR_RUNTIME "类型不匹配的运算" 0 0, ""%string)
  /\ variable_after 20 "变量 x = 0; 输出 0 && (x = 5);" "x" = Some 5%float.
Proof.
  split; [| split; [| by_running]].
  - intros fuel ev op l r st st1 st2 left right lo ro h' Hop El Er Hl Hr Hrel.
    rewrite (eval_binary_expr_released fuel ev op l r st st1 st2 left right lo ro h'
               El Er Hl Hr Hrel).
    unfold binary_outcome, binary_answer_of, is_number, Interpreter.is_string.
    assert (Hadd : Interpreter.is_add op = false) by (destruct Hop; subst; reflexivity).
    rewrite Hadd. cbn [andb].
    destruct (data lo) as [a| | |]; destruct (data ro) as [b| | |]; try reflexivity.
    destruct Hop; subst; reflexivity.
  - intros fuel h left right lo ro Hl Hr Hll Hlr Hsame.
    destruct (release_operands fuel h left right lo ro Hl Hr Hll Hlr Hsame) as (h' & E & _).
    exists h'. exact E.
Qed.

(** C3 at [1 && 0], from the state of a process that has run nothing. *)
Lemma C3_conjunction_of_numbers_fails :
  Interpreter.eval_binary_expr 2%nat (Interpreter.eval_expression 2%nat) OP_AND
    (LiteralExpr KUNYU_TOKEN_NUMBER "1") (LiteralExpr KUNYU_TOKEN_NUMBER "0")
    Interpreter.initial_state
  = Done None
      (Interpreter.set_heap [None; None]
         (with_error KUNYU_ERROR_RUNTIME "不支持的运算符"
            (Interpreter.set_heap
               [Some (mkObject 1 (NumberData 1)); Some (mkObject 1 (NumberData 0))]
               Interpreter.initial_state))).
Proof.
  apply (proj1 C3_logical_operators_fail 2%nat (Interpreter.eval_expression 2%nat) OP_AND
           (LiteralExpr KUNYU_TOKEN_NUMBER "1") (LiteralExpr KUNYU_TOKEN_NUMBER "0")
           Interpreter.initial_state
           (Interpreter.set_heap [Some (mkObject 1 (NumberData 1))] Interpreter.initial_state)
           (Interpreter.set_heap
              [Some (mkObject 1 (NumberData 1)); Some (mkObject 1 (NumberData 0))]
              Interpreter.initial_state)
           0%nat 1%nat (mkObject 1 (NumberData 1)) (mkObject 1 (NumberData 0)) [None; None]).
  - left; reflexivity.
  - vm_compute; reflexivity.
  - vm_compute; reflexivity.
  - reflexivity.
  - reflexivity.
  - vm_compute; reflexivity.
Defined.

(** C5.  On two numbers [eval_binary_expr] answers what the numeric
    [switch] computes.  Division is the binary64 quotient when the divisor
    is not zero, and division or modulo by zero is a runtime error; modulo
    is the remainder of the operands converted to [int].  But the guard of
    [OP_MOD] tests the divisor before the conversion: for a divisor that is
    not zero and truncates to zero, such as 0.5, the integer [%] divides by
    zero, which is undefined (on the usual targets the process is killed),
    not a runtime error and not a remainder. *)
Theorem C5_division_and_modulo :
  (forall fuel (ev : AstNode -> Interpreter.In (option addr)) op l r st st1 st2
          left right lo ro a b h',
      ev l st = Done (Some left) st1 ->
      ev r st1 = Done (Some right) st2 ->
      live (Interpreter.heap st2) left = Some lo ->
      live (Interpreter.heap st2) right = Some ro ->
      data lo = NumberData a ->
      data ro = NumberData b ->
      release_both fuel left right (Interpreter.heap st2) = Done tt h' ->
      Interpreter.eval_binary_expr fuel ev op l r st
      = match Interpreter.arith op a b with
        | Interpreter.Value v =>
            Done (Some (length (Interpreter.heap st2)))
              (Interpreter.set_heap (h' ++ [Some (mkObject 1 (NumberData v))]) st2)
        | Interpreter.Failure msg =>
            Done None (Interpreter.set_heap h' (with_error KUNYU_ERROR_RUNTIME msg st2))
        | Interpreter.UndefinedValue => Undefined
        end)
  /\ (forall l r, PrimFloat.eqb r 0%float = false ->
                  Interpreter.arith OP_DIV l r = Interpreter.Value (l / r)%float)
  /\ (forall l r, PrimFloat.eqb r 0%float = true ->
                  Interpreter.arith OP_DIV l r = Interpreter.Failure "除数不能为零"
                  /\ Interpreter.arith OP_MOD l r = Interpreter.Failure "模运算的除数不能为零")
  /\ (forall l r a b,
        PrimFloat.eqb r 0%float = false ->
        Libc.int_of_double l = Some a ->
        Libc.int_of_double r = Some b ->
        b <> 0 ->
        (a <> Libc.INT_MIN \/ b <> -1) ->
        Interpreter.arith OP_MOD l r = Interpreter.Value (Libc.double_of_int (Z.rem a b)))
  /\ (forall l r,
        PrimFloat.eqb r 0%float = false ->
        Libc.int_of_double r = Some 0 ->
        Interpreter.arith OP_MOD l r = Interpreter.UndefinedValue)
  /\ (PrimFloat.eqb (Libc.atof "0.5") 0%float = false
      /\ Libc.int_of_double (Libc.atof "0.5") = Some 0
      /\ Interpreter.arith OP_MOD (Libc.atof "7") (Libc.atof "0.5") = Interpreter.UndefinedValue
      /\ run_source 20 "输出 7 % 0.5;" = Some Undefined)
  /\ (run_result 20 "输出 7 / 2; 输出 7 % 2; 输出 7.9 % 2.9;"
      = Some (true, no_error, ("3.5" ++ newline ++ "1" ++ newline ++ "1" ++ newline)%string)
      /\ run_result 20 "输出 1 / 0;"
         = Some (false, mkError KUNYU_ERROR_RUNTIME "除数不能为零" 0 0, ""%string)
      /\ run_result 20 "输出 1 % 0;"
         = Some (false, mkError KUNYU_ERROR_RUNTIME "模运算的除数不能为零" 0 0, ""%string)).
Proof.
  split; [|split; [|split; [|split; [|split; [|split]]]]].
  - intros fuel ev op l r st st1 st2 left right lo ro a b h' El Er Hl Hr Hda Hdb Hrel.
    rewrite (eval_binary_expr_released fuel ev op l r st st1 st2 left right lo ro h'
               El Er Hl Hr Hrel).
    unfold binary_outcome, binary_answer_of, Interpreter.is_string.
    rewrite Hda, Hdb. rewrite andb_false_r.
    destruct (Interpreter.arith op a b); reflexivity.
  - intros l r H. unfold Interpreter.arith. rewrite H. reflexivity.
  - intros l r H. unfold Interpreter.arith. rewrite H. split; reflexivity.
  - intros l r a b H Ha Hb Hb0 Hov. unfold Interpreter.arith. rewrite H, Ha, Hb.
    unfold Libc.int_rem.
    destruct (Z.eqb_spec b 0) as [?|_]; [contradiction|].
    destruct (Z.eqb_spec a Libc.INT_MIN) as [Ea|_]; [|reflexivity].
    destruct (Z.eqb_spec b (-1)) as [Eb|_]; [|reflexivity].
    destruct Hov; contradiction.
  - intros l r H Hb. unfold Interpreter.arith. rewrite H, Hb.
    destruct (Libc.int_of_double l); reflexivity.
  - by_running.
  - by_running.
Qed.

(** C5 at [7.9 % 2.9], the remainder of 7 by 2, and at [7 % 0.5]. *)
Lemma C5_remainder_of_truncations :
  Interpreter.arith OP_MOD (Libc.atof "7.9") (Libc.atof "2.9")
  = Interpreter.Value (Libc.double_of_int (Z.rem 7 2))
  /\ Interpreter.arith OP_MOD (Libc.atof "7") (Libc.atof "0.5") = Interpreter.UndefinedValue.
Proof.
  split.
  - apply (proj1 (proj2 (proj2 (proj2 C5_division_and_modulo)))).
    + vm_compute; reflexivity.
    + vm_compute; reflexivity.
    + vm_compute; reflexivity.
    + lia.
    + left. vm_compute. discriminate.
  - apply (proj1 (proj2 (proj2 (proj2 (proj2 C5_division_and_modulo))))).
    + vm_compute; reflexivity.
    + vm_compute; reflexivity.
Defined.

(** ** The text of a number *)

Section NumberText.
Import Libc.

Lemma has_point_app s t : has_point (s ++ t)%string = has_point s || has_point t.
Proof.
  unfold has_point. induction s as [|c s IH]; simpl; [reflexivity|].
  rewrite IH. apply orb_assoc.
Qed.

Lemma has_point_take n s : has_point s = false -> has_point (take n s) = false.
Proof.
  unfold has_point. revert s. induction n as [|n IH]; intros [|c s]; simpl; try reflexivity.
  intros H. apply orb_false_iff in H as [Hc Hs]. rewrite Hc. simpl. apply IH. exact Hs.
Qed.

Lemma has_point_uint d : has_point (NilEmpty.string_of_uint d) = false.
Proof. unfold has_point. induction d; simpl; auto. Qed.

Lemma has_point_string_of_Z z : has_point (string_of_Z z) = false.
Proof.
  unfold string_of_Z, NilZero.string_of_int, NilZero.string_of_uint.
  destruct (Z.to_int z) as [d|d]; [destruct d | destruct d];
    try reflexivity;
    try (match goal with |- has_point (NilEmpty.string_of_uint ?u) = false =>
           apply has_point_uint end);
    try (match goal with |- has_point (String "-" (NilEmpty.string_of_uint ?u)) = false =>
           change (has_point ("-" ++ NilEmpty.string_of_uint u)%string = false);
           rewrite has_point_app; rewrite has_point_uint; reflexivity end).
Qed.

(** ["%.0f"] never writes a decimal point. *)
Lemma has_point_fmt_f0 v : has_point (fmt_f0 v) = false.
Proof.
  unfold fmt_f0. destruct (Prim2SF v) as [s|s| |s m e].
  - destruct s; reflexivity.
  - destruct s; reflexivity.
  - reflexivity.
  - destruct (frac_of m e) as [num den].
    rewrite has_point_app, has_point_string_of_Z. destruct s; reflexivity.
Qed.

Lemma number_to_string_integral v :
  has_fraction v = false ->
  Interpreter.number_to_string v = snprintf256 (fmt_f0 v)
  /\ has_point (Interpreter.number_to_string v) = false.
Proof.
  unfold has_fraction, Interpreter.number_to_string. intros H.
  apply negb_false_iff in H. rewrite H. split; [reflexivity|].
  apply has_point_take. apply has_point_fmt_f0.
Qed.

Lemma number_to_string_fractional v :
  has_fraction v = true -> Interpreter.number_to_string v = snprintf256 (fmt_g v).
Proof.
  unfold has_fraction, Interpreter.number_to_string. intros H.
  apply negb_true_iff in H. rewrite H. reflexivity.
Qed.

End NumberText.

(** C6, as stated, fails on 0.00001 and on 100000.25: each has a
    fractional part and its text, [1e-05] and [100000], has no decimal
    point, so a number may render without a decimal point and yet have a
    fractional part. *)
Lemma C6_no_point_with_fraction :
  ~ (has_point (Interpreter.number_to_string (Libc.atof "0.00001")) = false
     <-> has_fraction (Libc.atof "0.00001") = false)
  /\ ~ (has_point (Interpreter.number_to_string (Libc.atof "100000.25")) = false
        <-> has_fraction (Libc.atof "100000.25") = false)
  /\ Interpreter.number_to_string (Libc.atof "0.00001") = "1e-05"%string
  /\ Interpreter.number_to_string (Libc.atof "100000.25") = "100000"%string
  /\ run_result 20 ("输出 " ++ quote ++ "n=" ++ quote ++ " + 0.00001;")
     = Some (true, no_error, ("n=1e-05" ++ newline)%string)
  /\ run_result 20 ("输出 100000.25 + " ++ quote ++ quote ++ ";")
     = Some (true, no_error, ("100000" ++ newline)%string).
Proof.
  assert (Hno : forall text, has_point (Interpreter.number_to_string (Libc.atof text)) = false ->
                             has_fraction (Libc.atof text) = true ->
                             ~ (has_point (Interpreter.number_to_string (Libc.atof text)) = false
                                <-> has_fraction (Libc.atof text) = false)).
  { intros text Hp Hf [H _]. rewrite (H Hp) in Hf. discriminate. }
  split; [apply Hno; vm_compute; reflexivity|].
  split; [apply Hno; vm_compute; reflexivity|].
  by_running.
Qed.

(** C6, amended.  When one operand of [+] is a string, whatever the other
    is, the result is a new string object, with one reference, whose text
    is the text of the left operand followed by the text of the right
    operand, in whichever order the string and the number come; the
    operands are released.  The text of a number with no fractional part is
    its ["%.0f"] form, which has no decimal point; the text of a number
    with a fractional part is its ["%g"] form (six significant digits),
    both cut to 255 bytes. *)
Theorem C6_string_concatenation :
  (forall fuel (ev : AstNode -> Interpreter.In (option addr)) l r st st1 st2
          left right lo ro h',
      ev l st = Done (Some left) st1 ->
      ev r st1 = Done (Some right) st2 ->
      live (Interpreter.heap st2) left = Some lo ->
      live (Interpreter.heap st2) right = Some ro ->
      Interpreter.is_string lo || Interpreter.is_string ro = true ->
      release_both fuel left right (Interpreter.heap st2) = Done tt h' ->
      Interpreter.eval_binary_expr fuel ev OP_ADD l r st
      = Done (Some (length (Interpreter.heap st2)))
          (Interpreter.set_heap
             (h' ++ [Some (mkObject 1 (StringData (text_of lo ++ text_of ro)%string))]) st2)
      /\ live (h' ++ [Some (mkObject 1 (StringData (text_of lo ++ text_of ro)%string))])
           (length (Interpreter.heap st2))
         = Some (mkObject 1 (StringData (text_of lo ++ text_of ro)%string)))
  /\ (forall fuel h left right lo ro,
        live h left = Some lo ->
        live h right = Some ro ->
        is_leaf lo = true ->
        is_leaf ro = true ->
        (left = right -> 1 < ref_count lo) ->
        exists h', release_both (S fuel) left right h = Done tt h')
  /\ (forall v o, data o = NumberData v -> text_of o = Interpreter.number_to_string v)
  /\ (forall s o, data o = StringData s -> text_of o = s)
  /\ (forall v, has_fraction v = false ->
                Interpreter.number_to_string v = Libc.snprintf256 (Libc.fmt_f0 v)
                /\ has_point (Interpreter.number_to_string v) = false)
  /\ (forall v, has_fraction v = true ->
                Interpreter.number_to_string v = Libc.snprintf256 (Libc.fmt_g v))
  /\ run_result 20 ("输出 " ++ quote ++ "a" ++ quote ++ " + 20; 输出 1.5 + " ++ quote ++ "b"
                    ++ quote ++ "; 输出 " ++ quote ++ "c" ++ quote ++ " + " ++ quote ++ "d"
                    ++ quote ++ ";")
     = Some (true, no_error,
             ("a20" ++ newline ++ "1.5b" ++ newline ++ "cd" ++ newline)%string).
Proof.
  split; [|split; [|split; [|split; [|split; [|split]]]]].
  - intros fuel ev l r st st1 st2 left right lo ro h' El Er Hl Hr Hstr Hrel.
    rewrite (eval_binary_expr_released fuel ev OP_ADD l r st st1 st2 left right lo ro h'
               El Er Hl Hr Hrel).
    unfold binary_outcome, binary_answer_of. cbn [Interpreter.is_add andb].
    rewrite Hstr. split; [reflexivity|].
    rewrite <- (release_length _ _ _ _ _ Hrel). apply live_alloc.
  - intros fuel h left right lo ro Hl Hr Hll Hlr Hsame.
    destruct (release_operands fuel h left right lo ro Hl Hr Hll Hlr Hsame) as (h' & E & _).
    exists h'. exact E.
  - intros v o H. unfold text_of. rewrite H. reflexivity.
  - intros s o H. unfold text_of. rewrite H. reflexivity.
  - apply number_to_string_integral.
  - apply number_to_string_fractional.
  - by_running.
Qed.

(** C6 at ["a" + 20] and at [1.5 + "b"], from the state of a process that
    has run nothing. *)
Lemma C6_string_and_number :
  (Interpreter.eval_binary_expr 2%nat (Interpreter.eval_expression 2%nat) OP_ADD
     (LiteralExpr KUNYU_TOKEN_STRING "a") (LiteralExpr KUNYU_TOKEN_NUMBER "20")
     Interpreter.initial_state
   = Done (Some 2%nat)
       (Interpreter.set_heap [None; None; Some (mkObject 1 (StringData "a20"))]
          Interpreter.initial_state))
  /\ (Interpreter.eval_binary_expr 2%nat (Interpreter.eval_expression 2%nat) OP_ADD
        (LiteralExpr KUNYU_TOKEN_NUMBER "1.5") (LiteralExpr KUNYU_TOKEN_STRING "b")
        Interpreter.initial_state
      = Done (Some 2%nat)
          (Interpreter.set_heap [None; None; Some (mkObject 1 (StringData "1.5b"))]
             Interpreter.initial_state)).
Proof.
  split.
  - apply (proj1 (proj1 C6_string_concatenation 2%nat (Interpreter.eval_expression 2%nat)
                    (LiteralExpr KUNYU_TOKEN_STRING "a") (LiteralExpr KUNYU_TOKEN_NUMBER "20")
                    Interpreter.initial_state
                    (Interpreter.set_heap [Some (mkObject 1 (StringData "a"))]
                       Interpreter.initial_state)
                    (Interpreter.set_heap
                       [Some (mkObject 1 (StringData "a")); Some (mkObject 1 (NumberData 20))]
                       Interpreter.initial_state)
                    0%nat 1%nat (mkObject 1 (StringData "a")) (mkObject 1 (NumberData 20))
                    [None; None]
                    ltac:(vm_compute; reflexivity) ltac:(vm_compute; reflexivity)
                    ltac:(reflexivity) ltac:(reflexivity) ltac:(reflexivity)
                    ltac:(vm_compute; reflexivity))).
  - apply (proj1 (proj1 C6_string_concatenation 2%nat (Interpreter.eval_expression 2%nat)
                    (LiteralExpr KUNYU_TOKEN_NUMBER "1.5") (LiteralExpr KUNYU_TOKEN_STRING "b")
                    Interpreter.initial_state
                    (Interpreter.set_heap [Some (mkObject 1 (NumberData 1.5))]
                       Interpreter.initial_state)
                    (Interpreter.set_heap
                       [Some (mkObject 1 (NumberData 1.5)); Some (mkObject 1 (StringData "b"))]
                       Interpreter.initial_state)
                    0%nat 1%nat (mkObject 1 (NumberData 1.5)) (mkObject 1 (StringData "b"))
                    [None; None]
                    ltac:(vm_compute; reflexivity) ltac:(vm_compute; reflexivity)
                    ltac:(reflexivity) ltac:(reflexivity) ltac:(reflexivity)
                    ltac:(vm_compute; reflexivity))).
Defined.

(** ** What a run can change: scopes and the error position *)

Section Views.
Import Object Interpreter.

Lemma same_view_refl st : same_view st st.
Proof. split; reflexivity. Qed.

Lemma same_view_trans s1 s2 s3 : same_view s1 s2 -> same_view s2 s3 -> same_view s1 s3.
Proof. intros [A B] [C D]. split; congruence. Qed.

Lemma extends_top_refl s : extends_top s s.
Proof. left. reflexivity. Qed.

Lemma extends_top_trans s1 s2 s3 :
  extends_top s1 s2 -> extends_top s2 s3 -> extends_top s1 s3.
Proof.
  intros [->|(e1 & t1 & r1 & -> & ->)] H; [exact H|].
  destruct H as [->|(e2 & t2 & r2 & E & ->)].
  - right. exists e1, t1, r1. split; reflexivity.
  - inversion E; subst. right. exists (e2 ++ e1), t1, r2.
    split; [reflexivity|]. rewrite app_assoc. reflexivity.
Qed.

Lemma grows_refl st : grows st st.
Proof. split; [apply extends_top_refl | reflexivity]. Qed.

Lemma grows_trans s1 s2 s3 : grows s1 s2 -> grows s2 s3 -> grows s1 s3.
Proof.
  intros [A B] [C D]. split; [eapply extends_top_trans; eassumption | congruence].
Qed.

Lemma same_view_grows st st' : same_view st st' -> grows st st'.
Proof. intros [A B]. split; [left; exact A | exact B]. Qed.

Lemma heap_only_refl st : heap_only st st.
Proof. unfold heap_only. destruct st; reflexivity. Qed.

Lemma heap_only_trans s1 s2 s3 : heap_only s1 s2 -> heap_only s2 s3 -> heap_only s1 s3.
Proof. unfold heap_only. intros A B. rewrite B. rewrite A. reflexivity. Qed.

Lemma heap_only_same_view st st' : heap_only st st' -> same_view st st'.
Proof. unfold heap_only. intros ->. split; reflexivity. Qed.

Lemma sv_bind {A B} (m : In A) (f : A -> In B) :
  sat same_view m -> (forall a, sat same_view (f a)) -> sat same_view (bind m f).
Proof. apply sat_bind, same_view_trans. Qed.

Lemma sv_ret {A} (a : A) : sat same_view (@ret State A a).
Proof. apply sat_ret, same_view_refl. Qed.

Lemma sv_get : sat same_view (@get State).
Proof. apply sat_get, same_view_refl. Qed.

Lemma gr_bind {A B} (m : In A) (f : A -> In B) :
  sat grows m -> (forall a, sat grows (f a)) -> sat grows (bind m f).
Proof. apply sat_bind, grows_trans. Qed.

Lemma gr_ret {A} (a : A) : sat grows (@ret State A a).
Proof. apply sat_ret, grows_refl. Qed.

Lemma gr_get : sat grows (@get State).
Proof. apply sat_get, grows_refl. Qed.

Lemma ho_bind {A B} (m : In A) (f : A -> In B) :
  sat heap_only m -> (forall a, sat heap_only (f a)) -> sat heap_only (bind m f).
Proof. apply sat_bind, heap_only_trans. Qed.

Lemma ho_ret {A} (a : A) : sat heap_only (@ret State A a).
Proof. apply sat_ret, heap_only_refl. Qed.

Lemma sv_gr {A} (m : In A) : sat same_view m -> sat grows m.
Proof. apply sat_weaken. apply same_view_grows. Qed.

Lemma ho_sv {A} (m : In A) : sat heap_only m -> sat same_view m.
Proof. apply sat_weaken. apply heap_only_same_view. Qed.

Lemma ho_on_heap {A} (m : Hp A) : sat heap_only (on_heap m).
Proof.
  intros st a st' H. apply on_heap_done in H as (h' & _ & ->). reflexivity.
Qed.

Lemma sv_on_heap {A} (m : Hp A) : sat same_view (on_heap m).
Proof. apply ho_sv, ho_on_heap. Qed.

Lemma sv_undefined {A} : sat same_view (@undefined State A).
Proof. apply sat_undefined. Qed.

Lemma sv_out_of_fuel {A} : sat same_view (@out_of_fuel State A).
Proof. apply sat_out_of_fuel. Qed.

Lemma sv_set_error code msg : sat same_view (set_error code msg).
Proof. apply sat_modify. intros s. split; reflexivity. Qed.

Lemma sv_printf text : sat same_view (printf text).
Proof. apply sat_modify. intros s. split; reflexivity. Qed.

Lemma sv_set_has_return b : sat same_view (modify (set_has_return b)).
Proof. apply sat_modify. intros s. split; reflexivity. Qed.

Lemma sv_set_return_value v : sat same_view (modify (set_return_value v)).
Proof. apply sat_modify. intros s. split; reflexivity. Qed.

Lemma sv_set_function_table t : sat same_view (modify (set_function_table t)).
Proof. apply sat_modify. intros s. split; reflexivity. Qed.

Lemma ho_release_variables fuel vars : sat heap_only (release_variables fuel vars).
Proof.
  induction vars as [|v vars IH]; simpl.
  - apply ho_ret.
  - apply ho_bind; [apply ho_on_heap | intros _; exact IH].
Qed.

Lemma ho_release_scopes fuel scopes : sat heap_only (release_scopes fuel scopes).
Proof.
  induction scopes as [|s scopes IH]; simpl.
  - apply ho_ret.
  - apply ho_bind; [apply ho_release_variables | intros _; exact IH].
Qed.

Lemma ho_release_all fuel objs : sat heap_only (release_all fuel objs).
Proof.
  induction objs as [|v objs IH]; simpl.
  - apply ho_ret.
  - apply ho_bind; [apply ho_on_heap | intros _; exact IH].
Qed.

Lemma sv_release_all fuel objs : sat same_view (release_all fuel objs).
Proof. apply ho_sv, ho_release_all. Qed.

Lemma scope_shape_assign_in_scope name value scope :
  map (fun e => (var_name e, var_is_constant e)) (assign_in_scope name value scope)
  = map (fun e => (var_name e, var_is_constant e)) scope.
Proof.
  induction scope as [|e scope IH]; simpl; [reflexivity|].
  destruct (String.eqb (var_name e) name); simpl; [reflexivity|].
  rewrite IH. reflexivity.
Qed.

Lemma scope_shape_assign name value scopes :
  scope_shape (assign_variable name value scopes) = scope_shape scopes.
Proof.
  unfold scope_shape. induction scopes as [|s scopes IH]; simpl; [reflexivity|].
  destruct (find_variable_in_scope name s); simpl.
  - rewrite scope_shape_assign_in_scope. reflexivity.
  - rewrite IH. reflexivity.
Qed.

(** The tactic that walks a computation made of binds, matches and the
    operations above. *)
Ltac sv_step :=
  first
    [ assumption
    | apply sv_ret
    | apply sv_get
    | apply sv_undefined
    | apply sv_out_of_fuel
    | apply sv_on_heap
    | apply sv_set_error
    | apply sv_printf
    | apply sv_set_has_return
    | apply sv_set_return_value
    | apply sv_set_function_table
    | apply sv_release_all
    | apply sv_bind; [ | intros ? ]
    | match goal with
      | |- sat _ (match ?x with _ => _ end) => destruct x
      end ].

Ltac sv := repeat sv_step.

Lemma sv_set_variable fuel name value : sat same_view (set_variable fuel name value).
Proof.
  unfold set_variable. apply sv_bind; [apply sv_get | intros s].
  destruct (find_variable name (current_scope s)) as [entry|]; [|sv].
  destruct (var_is_constant entry); [sv|].
  apply sv_bind; [apply sv_on_heap | intros _].
  apply sv_bind; [| intros _; sv].
  apply sat_modify. intros s0. split; [|reflexivity].
  unfold shape_of. simpl. apply scope_shape_assign.
Qed.

Lemma sv_get_variable name : sat same_view (get_variable name).
Proof. unfold get_variable. sv. Qed.

Lemma sv_define_function name params body : sat same_view (define_function name params body).
Proof. unfold define_function. sv. Qed.

Lemma sv_is_truthy obj : sat same_view (is_truthy obj).
Proof. unfold is_truthy. sv. Qed.

Lemma sv_object_to_string obj : sat same_view (object_to_string obj).
Proof. unfold object_to_string. sv. Qed.

Lemma sv_create_number_object v : sat same_view (create_number_object v).
Proof. apply sv_on_heap. Qed.

Lemma sv_create_string_object v : sat same_view (create_string_object v).
Proof. apply sv_on_heap. Qed.

Lemma sv_apply_binary fuel op left right : sat same_view (apply_binary fuel op left right).
Proof.
  unfold apply_binary.
  pose proof sv_object_to_string. pose proof sv_create_number_object.
  pose proof sv_create_string_object.
  sv; try apply sv_object_to_string; try apply sv_create_string_object;
    try apply sv_create_number_object; sv.
Qed.

(** [push_scope], [pop_scope] and [define_variable] on the shape. *)
Lemma push_scope_eq st : push_scope st = Done true (pushed st).
Proof. reflexivity. Qed.

Lemma pop_scope_view fuel st st' :
  pop_scope fuel st = Done tt st' ->
  shape_of st' = tail (shape_of st) /\ error_position st' = error_position st.
Proof.
  unfold pop_scope. intros H. apply bind_done in H as (s & s1 & Hg & H).
  inversion Hg; subst s s1. clear Hg.
  unfold shape_of, error_position. destruct (current_scope st) as [|scope parent] eqn:Hcs.
  - inversion H; subst. rewrite Hcs. split; reflexivity.
  - apply bind_done in H as ([] & s1 & Hr & Hm).
    apply ho_release_variables in Hr. inversion Hm; subst st'.
    rewrite Hr. simpl. split; reflexivity.
Qed.

Lemma define_variable_view name value is_constant st ok st' :
  define_variable name value is_constant st = Done ok st' ->
  error_position st' = error_position st
  /\ exists top rest,
       shape_of st = top :: rest
       /\ shape_of st' = (if ok then (name, is_constant) :: top else top) :: rest.
Proof.
  unfold define_variable. intros H. apply bind_done in H as (s & s1 & Hg & H).
  inversion Hg; subst s s1. clear Hg.
  unfold shape_of, error_position.
  destruct (current_scope st) as [|scope parent] eqn:Hcs; [discriminate|].
  destruct (find_variable_in_scope name scope).
  - inversion H; subst. simpl. rewrite Hcs. split; [reflexivity|].
    eexists _, _. split; reflexivity.
  - apply bind_done in H as ([] & s1 & Hi & H).
    apply ho_on_heap in Hi. inversion H; subst. rewrite Hi. simpl.
    split; [reflexivity|]. eexists _, _. split; reflexivity.
Qed.

Lemma gr_define_variable name value is_constant :
  sat grows (define_variable name value is_constant).
Proof.
  intros st ok st' H. apply define_variable_view in H as (He & top & rest & Hs & Hs').
  split; [|exact He]. rewrite Hs, Hs'. destruct ok.
  - right. exists [(name, is_constant)], top, rest. split; reflexivity.
  - left. reflexivity.
Qed.

Ltac sv_more :=
  first
    [ apply sv_set_variable
    | apply sv_get_variable
    | apply sv_define_function
    | apply sv_is_truthy
    | apply sv_object_to_string
    | apply sv_create_number_object
    | apply sv_create_string_object
    | apply sv_apply_binary ].

Section BodiesViews.
Variable fuel : nat.
Variable ev : AstNode -> In (option addr).
Variable ex : AstNode -> In bool.
Variable nt : AstNode -> In bool.
Hypothesis Hev : forall n, sat same_view (ev n).
Hypothesis Hex : forall n, sat grows (ex n).
Hypothesis Hnt : forall n, sat grows (nt n).

Ltac sv_all := repeat first [ apply Hev | sv_more | sv_step ].

Ltac gr_all :=
  repeat first
    [ assumption
    | apply Hex
    | apply Hnt
    | apply gr_ret
    | apply gr_get
    | apply gr_define_variable
    | apply gr_bind; [ | intros ? ]
    | match goal with
      | |- sat grows (match ?x with _ => _ end) => destruct x
      end
    | apply sv_gr; solve [ sv_all ] ].

Lemma sv_clear_return : sat same_view (clear_return fuel).
Proof. unfold clear_return. sv_all. Qed.

Lemma sv_exec_print_stmt node : sat same_view (exec_print_stmt fuel ev node).
Proof. unfold exec_print_stmt. sv_all. Qed.

Lemma gr_exec_var_decl node : sat grows (exec_var_decl fuel ev node).
Proof. unfold exec_var_decl. gr_all. Qed.

Lemma gr_exec_if_stmt node : sat grows (exec_if_stmt fuel ev ex node).
Proof. unfold exec_if_stmt. gr_all. Qed.

Lemma gr_exec_loop_stmt node : sat grows (exec_loop_stmt fuel ev ex nt node).
Proof. unfold exec_loop_stmt. gr_all. Qed.

Lemma sv_exec_function_decl node : sat same_view (exec_function_decl node).
Proof. unfold exec_function_decl. sv_all. Qed.

Lemma gr_execute_block_loop statements : sat grows (execute_block_loop ex statements).
Proof. induction statements as [|stmt rest IH]; simpl; gr_all. Qed.

Lemma extends_top_pushed s s' : extends_top ([] :: s) s' -> tail s' = s.
Proof. intros [->|(extra & top & rest & E & ->)]; [reflexivity|]. inversion E. reflexivity. Qed.

(** A block restores the scopes it found. *)
Lemma sv_execute_block node : sat same_view (execute_block fuel ex node).
Proof.
  unfold execute_block. destruct node; try solve [sv_all].
  intros st ok st' H.
  apply bind_done in H as (p & s1 & Hp & H). rewrite push_scope_eq in Hp.
  inversion Hp; subst p s1. clear Hp. cbn [negb] in H.
  apply bind_done in H as (ok1 & s2 & Hloop & H).
  apply bind_done in H as ([] & s3 & Hpop & H).
  inversion H; subst ok st'. clear H.
  apply gr_execute_block_loop in Hloop as [Hs He].
  apply pop_scope_view in Hpop as [Hs' He'].
  split.
  - rewrite Hs'. apply extends_top_pushed. exact Hs.
  - rewrite He', He. reflexivity.
Qed.

Lemma sv_exec_return_stmt node : sat same_view (exec_return_stmt fuel ev node).
Proof. unfold exec_return_stmt. sv_all. Qed.

Lemma sv_exec_expression_stmt node : sat same_view (exec_expression_stmt fuel ev node).
Proof. unfold exec_expression_stmt. sv_all. Qed.

Lemma sv_eval_binary_expr op l r : sat same_view (eval_binary_expr fuel ev op l r).
Proof. unfold eval_binary_expr. sv_all. Qed.

Lemma sv_eval_builtin_args args evaluated :
  sat same_view (eval_builtin_args fuel ev args evaluated).
Proof.
  revert evaluated. induction args as [|a args IH]; intros evaluated; simpl.
  - apply sv_ret.
  - apply sv_bind; [apply Hev | intros v]. destruct v; [apply IH | sv_all].
Qed.

(** The parameter loop: on success the parameters are the new names of the
    innermost scope, none of them constant; on failure that scope is gone. *)
Lemma bind_parameters_view params :
  forall args st ok st' top rest,
    length params = length args ->
    shape_of st = top :: rest ->
    bind_parameters fuel ev params args st = Done ok st' ->
    error_position st' = error_position st
    /\ shape_of st' = if ok then (rev (map (fun p => (p, false)) params) ++ top) :: rest
                      else rest.
Proof.
  induction params as [|p params IH]; intros args st ok st' top rest Hlen Hshape H.
  - destruct args; [|discriminate]. simpl in H. inversion H; subst.
    split; [reflexivity|]. exact Hshape.
  - destruct args as [|a args]; [discriminate|]. simpl in Hlen. simpl in H.
    apply bind_done in H as (v & s1 & Hv & H).
    apply Hev in Hv as [Hs1 He1].
    destruct v as [v|].
    + apply bind_done in H as (result & s2 & Hd & H).
      apply define_variable_view in Hd as (He2 & top2 & rest2 & Hs2 & Hs2').
      rewrite Hs1, Hshape in Hs2. inversion Hs2; subst top2 rest2. clear Hs2.
      apply bind_done in H as ([] & s3 & Hdec & H).
      apply sv_on_heap in Hdec as [Hs3 He3].
      destruct result; cbn [negb] in H.
      * apply (IH args s3 ok st' ((p, false) :: top) rest) in H;
          [| lia | rewrite Hs3; exact Hs2'].
        destruct H as [He Hs]. split; [congruence|].
        rewrite Hs. destruct ok; [|reflexivity].
        simpl. rewrite <- app_assoc. reflexivity.
      * apply bind_done in H as ([] & s4 & Hpop & H). inversion H; subst ok st'.
        apply pop_scope_view in Hpop as [Hs4 He4].
        split; [congruence|]. rewrite Hs4, Hs3, Hs2'. reflexivity.
    + apply bind_done in H as ([] & s4 & Hpop & H). inversion H; subst ok st'.
      apply pop_scope_view in Hpop as [Hs4 He4].
      split; [congruence|]. rewrite Hs4, Hs1, Hshape. reflexivity.
Qed.

(** A call restores the scopes of the call site. *)
Lemma sv_eval_call_expr name args : sat same_view (eval_call_expr fuel ev ex name args).
Proof.
  unfold eval_call_expr. apply sv_bind; [apply sv_get | intros s].
  destruct (Builtins.builtins_is_builtin (builtin_funcs s) name).
  { pose proof sv_eval_builtin_args. sv_all. apply sv_eval_builtin_args. }
  destruct (find_function name (function_table s)) as [func|]; [|sv_all].
  destruct (negb (length args =? length (fn_params func))%nat) eqn:Hcount; [sv_all|].
  apply negb_false_iff, Nat.eqb_eq in Hcount.
  intros st r st' H.
  apply bind_done in H as (p & s1 & Hp & H). rewrite push_scope_eq in Hp.
  inversion Hp; subst p s1. clear Hp. cbn [negb] in H.
  apply bind_done in H as (bound & s2 & Hb & H).
  apply (bind_parameters_view _ _ _ _ _ [] (shape_of st)) in Hb;
    [| symmetry; exact Hcount | reflexivity].
  destruct Hb as [He2 Hs2].
  destruct bound; cbn [negb] in H.
  - apply bind_done in H as ([] & s3 & Hc & H).
    apply sv_clear_return in Hc as [Hs3 He3].
    apply bind_done in H as (success & s4 & Hbody & H).
    apply Hex in Hbody as [Hs4 He4].
    apply bind_done in H as (s4' & s4'' & Hg & H). inversion Hg; subst s4' s4''. clear Hg.
    apply bind_done in H as (returned & s5 & Hret & H).
    assert (Hv5 : same_view s4 s5).
    { revert Hret. apply (sat_weaken same_view same_view _ (fun _ _ H => H)). sv_all. }
    destruct Hv5 as [Hs5 He5].
    apply bind_done in H as ([] & s6 & Hpop & H).
    apply pop_scope_view in Hpop as [Hs6 He6].
    apply bind_done in H as ([] & s7 & Hc2 & H).
    apply sv_clear_return in Hc2 as [Hs7 He7].
    assert (st' = s7) by (destruct (negb success); inversion H; reflexivity). subst st'.
    split.
    + rewrite Hs7, Hs6, Hs5. rewrite Hs3, Hs2 in Hs4.
      destruct Hs4 as [->|(extra & top & rest & E & ->)]; [reflexivity|].
      inversion E. reflexivity.
    + change (error_position (pushed st)) with (error_position st) in He2. congruence.
  - inversion H; subst r st'. split; [exact Hs2|]. exact He2.
Qed.

Lemma sv_eval_expression_body node :
  sat same_view (eval_expression_body fuel ev ex node).
Proof.
  unfold eval_expression_body.
  destruct node;
    first [ apply sv_eval_call_expr | solve [sv_all] | unfold eval_literal_expr; solve [sv_all] ].
Qed.

Lemma gr_execute_statement_body node :
  sat grows (execute_statement_body fuel ev ex nt node).
Proof.
  unfold execute_statement_body.
  destruct node;
    first
      [ apply gr_exec_var_decl
      | apply gr_exec_if_stmt
      | apply gr_exec_loop_stmt
      | apply sv_gr, sv_execute_block
      | apply sv_gr, sv_exec_expression_stmt
      | apply sv_gr, sv_exec_function_decl
      | apply sv_gr, sv_exec_return_stmt
      | apply sv_gr, sv_exec_print_stmt
      | apply sv_gr; solve [sv_all] ].
Qed.

End BodiesViews.

(** The three functions of the interpreter, for every amount of fuel. *)
Lemma interpreter_views fuel :
  (forall node, sat same_view (eval_expression fuel node))
  /\ (forall node, sat grows (execute_statement fuel node))
  /\ (forall node, sat grows (loop_turn fuel node)).
Proof.
  induction fuel as [|f (IHe & IHs & IHl)].
  - split; [|split]; intros node s a s' H; discriminate.
  - split; [|split]; intros node.
    + apply sv_eval_expression_body; assumption.
    + apply gr_execute_statement_body; assumption.
    + apply gr_exec_loop_stmt; assumption.
Qed.

Lemma sv_eval_expression fuel node : sat same_view (eval_expression fuel node).
Proof. apply interpreter_views. Qed.

Lemma gr_execute_statement fuel node : sat grows (execute_statement fuel node).
Proof. apply interpreter_views. Qed.

Lemma gr_execute_program_loop fuel statements :
  sat grows (execute_program_loop fuel statements).
Proof.
  induction statements as [|stmt rest IH]; simpl.
  - apply gr_ret.
  - apply gr_bind; [apply gr_execute_statement | intros ok].
    destruct (negb ok); [apply gr_ret|].
    apply gr_bind; [apply gr_get | intros s].
    destruct (has_return s); [apply gr_ret | exact IH].
Qed.

End Views.

(** ** Lists and the references they hold *)

Section ListReferences.
Import Object.

Lemma occurrences_nonneg p items : 0 <= occurrences p items.
Proof. induction items as [|q r IH]; simpl; [lia|]. destruct (Nat.eqb q p); lia. Qed.

Lemma py_list_append_spec h l it lo io items cap :
  live h l = Some lo ->
  data lo = ListData items cap ->
  live h it = Some io ->
  exists h',
    py_list_append (Some l) (Some it) h = Done true h'
    /\ (exists o', live h' it = Some o' /\ ref_count o' = ref_count io + 1)
    /\ (exists lo' cap', live h' l = Some lo' /\ data lo' = ListData (items ++ [it]) cap')
    /\ (forall p, p <> l -> p <> it -> live h' p = live h p).
Proof.
  intros Hl Hd Hit. unfold py_list_append.
  rewrite (bind_eq _ _ _ _ _ (load_live _ _ _ Hl)). rewrite Hd.
  set (cap' := if (cap <=? length items)%nat then (cap * 2)%nat else cap).
  set (lo1 := mkObject (ref_count lo) (ListData (items ++ [it]) cap')).
  rewrite (bind_eq _ _ _ _ _ (store_live _ _ _ lo1 Hl)).
  destruct (Nat.eq_dec it l) as [->|Hne].
  - assert (H1 : live (<[l := Some lo1]> h) l = Some lo1) by (eapply live_insert_same; exact Hl).
    rewrite (bind_eq _ _ _ _ _ (py_incref_live _ _ _ H1)).
    eexists. split; [reflexivity|].
    rewrite list_insert_insert_eq.
    assert (io = lo) by congruence. subst io.
    split; [|split].
    + eexists. split; [eapply live_insert_same; exact Hl | reflexivity].
    + eexists _, cap'. split; [eapply live_insert_same; exact Hl | reflexivity].
    + intros p Hp _. apply live_insert_other. congruence.
  - assert (H1 : live (<[l := Some lo1]> h) it = Some io)
      by (rewrite live_insert_other by congruence; exact Hit).
    rewrite (bind_eq _ _ _ _ _ (py_incref_live _ _ _ H1)).
    eexists. split; [reflexivity|]. split; [|split].
    + eexists. split; [eapply live_insert_same; exact H1 | reflexivity].
    + exists lo1, cap'. split; [|reflexivity].
      rewrite live_insert_other by congruence. eapply live_insert_same; exact Hl.
    + intros p Hpl Hpi. rewrite !live_insert_other by congruence. reflexivity.
Qed.

Lemma occurrences_pos p items : p ∈ items -> 0 < occurrences p items.
Proof.
  induction items as [|q r IH]; intros H.
  - apply elem_of_nil in H. destruct H.
  - simpl. pose proof (occurrences_nonneg p r) as Hnn.
    apply elem_of_cons in H as [->|H].
    + rewrite Nat.eqb_refl. lia.
    + specialize (IH H). destruct (Nat.eqb q p); lia.
Qed.

Lemma released_none o : released 0 o = Some o.
Proof. unfold released. simpl. rewrite Z.sub_0_r. destruct o; reflexivity. Qed.

Lemma released_step o n :
  1 < ref_count o -> 0 <= n -> n <= ref_count o - 1 ->
  released n (mkObject (ref_count o - 1) (data o)) = released (1 + n) o.
Proof.
  intros Hrc Hn Hle. unfold released. simpl.
  destruct (Z.ltb_spec 0 n), (Z.leb_spec (ref_count o - 1) n),
    (Z.ltb_spec 0 (1 + n)), (Z.leb_spec (ref_count o) (1 + n));
    simpl; try lia; try reflexivity; do 2 f_equal; lia.
Qed.

(** The loop of [list_destructor] from index [i] on.  Every slot gives up
    one reference; an element that loses its last one there is a number or
    a string, and is freed. *)
Lemma list_destructor_spec k :
  forall i h fuel l lo items cap,
    live h l = Some lo ->
    data lo = ListData items cap ->
    drop i items = k ->
    (forall p, p ∈ k ->
               p <> l /\ exists o, live h p = Some o
                                   /\ occurrences p k <= ref_count o
                                   /\ (occurrences p k = ref_count o -> is_leaf o = true)) ->
    (length k < fuel)%nat ->
    exists h',
      list_destructor fuel l i h = Done tt h'
      /\ live h' l = Some lo
      /\ (forall p o, p <> l -> live h p = Some o ->
                      live h' p = released (occurrences p k) o)
      /\ (forall p, p <> l -> live h p = None -> live h' p = None).
Proof.
  induction k as [|q k IH]; intros i h fuel l lo items cap Hl Hd Hdrop Hk Hfuel.
  - destruct fuel as [|f]; [simpl in Hfuel; lia|]. simpl.
    rewrite (bind_eq _ _ _ _ _ (load_live _ _ _ Hl)). rewrite Hd.
    assert (Hi : items !! i = None).
    { apply lookup_ge_None_2. apply (f_equal length) in Hdrop.
      rewrite length_drop in Hdrop. simpl in Hdrop. lia. }
    rewrite Hi. exists h. split; [reflexivity|]. split; [exact Hl|]. split.
    + intros p o _ Hp. rewrite released_none. exact Hp.
    + intros p _ Hp. exact Hp.
  - destruct fuel as [|f]; [simpl in Hfuel; lia|]. simpl.
    rewrite (bind_eq _ _ _ _ _ (load_live _ _ _ Hl)). rewrite Hd.
    assert (Hi : items !! i = Some q).
    { rewrite <- (Nat.add_0_r i). rewrite <- lookup_drop. rewrite Hdrop. reflexivity. }
    rewrite Hi.
    assert (Hnext : drop (S i) items = k).
    { replace (S i) with (i + 1)%nat by lia.
      rewrite <- drop_drop. rewrite Hdrop. reflexivity. }
    destruct (Hk q) as (Hql & oq & Hq & Hrc & Hlast); [left|].
    simpl in Hrc, Hlast. rewrite Nat.eqb_refl in Hrc, Hlast.
    pose proof (occurrences_nonneg q k) as Hnn.
    destruct f as [|f']; [simpl in Hfuel; lia|].
    destruct (Z.ltb_spec 1 (ref_count oq)) as [Hmore|Hone].
    + (* the element is held elsewhere too, or in a later slot *)
      rewrite (bind_eq _ _ _ _ _ (py_decref_alive f' h q oq Hq Hmore)).
      set (o1 := mkObject (ref_count oq - 1) (data oq)).
      set (h1 := <[q := Some o1]> h).
      assert (Hl1 : live h1 l = Some lo).
      { unfold h1. rewrite live_insert_other by congruence. exact Hl. }
      assert (Hq1 : live h1 q = Some o1).
      { unfold h1. eapply live_insert_same. exact Hq. }
      destruct (IH (S i) h1 (S f') l lo items cap Hl1 Hd Hnext)
        as (h' & E & Hl' & Hothers & Hdead).
      * intros p Hp.
        destruct (Hk p) as (Hpl & o & Hlp & Hrcp & Hlastp); [right; exact Hp|].
        split; [exact Hpl|]. simpl in Hrcp, Hlastp.
        destruct (Nat.eq_dec p q) as [->|Hpq].
        -- exists o1. split; [exact Hq1|]. unfold o1. simpl.
           split; [lia|]. intros Heq. apply Hlast. lia.
        -- exists o. destruct (Nat.eqb_spec q p) as [?|_]; [congruence|].
           split; [|split; [lia|]].
           ++ unfold h1. rewrite live_insert_other by congruence. exact Hlp.
           ++ intros Heq. apply Hlastp. lia.
      * simpl in Hfuel. lia.
      * exists h'. split; [exact E|]. split; [exact Hl'|]. split.
        -- intros p o Hpl Hp. simpl.
           destruct (Nat.eq_dec p q) as [->|Hpq].
           ++ rewrite Nat.eqb_refl. assert (o = oq) by congruence. subst o.
              rewrite (Hothers q o1 Hql Hq1). apply released_step; lia.
           ++ destruct (Nat.eqb_spec q p) as [?|_]; [congruence|].
              rewrite Z.add_0_l. apply Hothers; [exact Hpl|].
              unfold h1. rewrite live_insert_other by congruence. exact Hp.
        -- intros p Hpl Hp. apply Hdead; [exact Hpl|].
           destruct (Nat.eq_dec p q) as [->|Hpq]; [congruence|].
           unfold h1. rewrite live_insert_other by congruence. exact Hp.
    + (* the list held the last reference: the element is freed *)
      assert (Hzero : occurrences q k = 0) by lia.
      assert (Hrc1 : ref_count oq = 1) by lia.
      assert (Hleaf : is_leaf oq = true) by (apply Hlast; lia).
      rewrite (bind_eq _ _ _ _ _ (py_decref_leaf_freed f' h q oq Hq Hleaf Hone)).
      set (h1 := <[q := None]> h).
      assert (Hl1 : live h1 l = Some lo).
      { unfold h1. rewrite live_insert_other by congruence. exact Hl. }
      assert (Hq1 : live h1 q = None) by apply live_free_same.
      assert (Hnot : forall p, p ∈ k -> p <> q).
      { intros p Hp ->. apply occurrences_pos in Hp. lia. }
      destruct (IH (S i) h1 (S f') l lo items cap Hl1 Hd Hnext)
        as (h' & E & Hl' & Hothers & Hdead).
      * intros p Hp.
        destruct (Hk p) as (Hpl & o & Hlp & Hrcp & Hlastp); [right; exact Hp|].
        split; [exact Hpl|]. simpl in Hrcp, Hlastp.
        pose proof (Hnot p Hp) as Hpq.
        destruct (Nat.eqb_spec q p) as [?|_]; [congruence|].
        exists o. split; [|split; [lia|]].
        -- unfold h1. rewrite live_insert_other by congruence. exact Hlp.
        -- intros Heq. apply Hlastp. lia.
      * simpl in Hfuel. lia.
      * exists h'. split; [exact E|]. split; [exact Hl'|]. split.
        -- intros p o Hpl Hp. simpl.
           destruct (Nat.eq_dec p q) as [->|Hpq].
           ++ rewrite Nat.eqb_refl. assert (o = oq) by congruence. subst o.
              rewrite (Hdead q Hql Hq1). unfold released. rewrite Hzero, Hrc1. reflexivity.
           ++ destruct (Nat.eqb_spec q p) as [?|_]; [congruence|].
              rewrite Z.add_0_l. apply Hothers; [exact Hpl|].
              unfold h1. rewrite live_insert_other by congruence. exact Hp.
        -- intros p Hpl Hp. apply Hdead; [exact Hpl|].
           destruct (Nat.eq_dec p q) as [->|Hpq]; [exact Hq1|].
           unfold h1. rewrite live_insert_other by congruence. exact Hp.
Qed.

(** [py_decref] of the last reference to a list. *)
Lemma py_decref_list_spec fuel h l lo items cap :
  live h l = Some lo ->
  data lo = ListData items cap ->
  ref_count lo = 1 ->
  (forall p, p ∈ items ->
             p <> l /\ exists o, live h p = Some o
                                 /\ occurrences p items <= ref_count o
                                 /\ (occurrences p items = ref_count o -> is_leaf o = true)) ->
  (length items + 2 <= fuel)%nat ->
  exists h',
    py_decref fuel (Some l) h = Done tt h'
    /\ live h' l = None
    /\ (forall p o, p <> l -> live h p = Some o ->
                    live h' p = released (occurrences p items) o)
    /\ (forall p, p <> l -> live h p = None -> live h' p = None).
Proof.
  intros Hl Hd Hrc Hitems Hfuel.
  destruct fuel as [|f]; [lia|]. simpl.
  rewrite (bind_eq _ _ _ _ _ (load_live _ _ _ Hl)).
  set (lo0 := mkObject (ref_count lo - 1) (data lo)).
  rewrite (bind_eq _ _ _ _ _ (store_live _ _ _ lo0 Hl)).
  rewrite Hrc. simpl. rewrite Hd.
  set (h0 := <[l := Some lo0]> h).
  assert (Hl0 : live h0 l = Some lo0) by (eapply live_insert_same; exact Hl).
  destruct (list_destructor_spec items 0 h0 f l lo0 items cap Hl0 Hd eq_refl)
    as (h1 & E & Hl1 & Hothers & Hdead).
  - intros p Hp. destruct (Hitems p Hp) as (Hpl & o & Hlp & Hrcp).
    split; [exact Hpl|]. exists o. split; [|exact Hrcp].
    unfold h0. rewrite live_insert_other by congruence. exact Hlp.
  - lia.
  - rewrite (bind_eq _ _ _ _ _ E). rewrite (free_live _ _ _ Hl1).
    eexists. split; [reflexivity|]. split; [apply live_free_same|]. split.
    + intros p o Hpl Hp. rewrite live_insert_other by congruence.
      apply Hothers; [exact Hpl|].
      unfold h0. rewrite live_insert_other by congruence. exact Hp.
    + intros p Hpl Hp. rewrite live_insert_other by congruence.
      apply Hdead; [exact Hpl|].
      unfold h0. rewrite live_insert_other by congruence. exact Hp.
Qed.

Lemma released_in_turn_keeps fuel l d items :
  forall h h',
    (exists o, live h l = Some o /\ data o = d) ->
    released_in_turn fuel l d items h h' ->
    exists o', live h' l = Some o' /\ data o' = d.
Proof.
  revert items. induction fuel as [|f IH]; intros items h h' Hl H; [destruct H|].
  destruct items as [|q rest]; simpl in H.
  - subst h'. exact Hl.
  - destruct H as (h1 & _ & Hl1 & H). apply (IH rest h1 h' Hl1 H).
Qed.

(** The loop of [list_destructor] from index [i] on is one [py_decref]
    for each slot, in the order of the slots, whatever the elements are. *)
Lemma list_destructor_in_turn fuel l items cap :
  forall k i h h',
    (exists o, live h l = Some o /\ data o = ListData items cap) ->
    drop i items = k ->
    released_in_turn fuel l (ListData items cap) k h h' ->
    list_destructor fuel l i h = Done tt h'.
Proof.
  induction fuel as [|f IH]; intros k i h h' (o & Hl & Hd) Hdrop H; [destruct H|].
  cbn [list_destructor]. rewrite (bind_eq _ _ _ _ _ (load_live _ _ _ Hl)). rewrite Hd.
  destruct k as [|q k]; simpl in H.
  - subst h'.
    assert (Hi : items !! i = None).
    { apply lookup_ge_None_2. apply (f_equal length) in Hdrop.
      rewrite length_drop in Hdrop. simpl in Hdrop. lia. }
    rewrite Hi. reflexivity.
  - destruct H as (h1 & Hdec & Hl1 & H).
    assert (Hi : items !! i = Some q).
    { rewrite <- (Nat.add_0_r i). rewrite <- lookup_drop. rewrite Hdrop. reflexivity. }
    rewrite Hi. rewrite (bind_eq _ _ _ _ _ Hdec).
    apply (IH k (S i) h1 h' Hl1); [|exact H].
    replace (S i) with (i + 1)%nat by lia.
    rewrite <- drop_drop. rewrite Hdrop. reflexivity.
Qed.

(** [py_decref] of the last reference to a list, whatever it holds. *)
Lemma py_decref_list_in_turn fuel h l lo items cap h' :
  live h l = Some lo ->
  data lo = ListData items cap ->
  ref_count lo = 1 ->
  released_in_turn fuel l (ListData items cap) items
    (<[l := Some (mkObject 0 (ListData items cap))]> h) h' ->
  py_decref (S fuel) (Some l) h = Done tt (<[l := None]> h').
Proof.
  intros Hl Hd Hrc H. cbn [py_decref].
  rewrite (bind_eq _ _ _ _ _ (load_live _ _ _ Hl)).
  rewrite (bind_eq _ _ _ _ _ (store_live _ _ _ _ Hl)).
  rewrite Hrc, Hd. simpl.
  assert (Hl0 : exists o, live (<[l := Some (mkObject 0 (ListData items cap))]> h) l = Some o
                          /\ data o = ListData items cap).
  { eexists. split; [eapply live_insert_same; exact Hl | reflexivity]. }
  rewrite (bind_eq _ _ _ _ _
             (list_destructor_in_turn fuel l items cap items 0 _ h' Hl0 eq_refl H)).
  destruct (released_in_turn_keeps _ _ _ _ _ _ Hl0 H) as (o' & Hl' & _).
  apply (free_live _ _ _ Hl').
Qed.

End ListReferences.

(** C9.  [py_list_append] adds exactly one to the reference count of the
    appended value, so the value outlives the release of the caller's own
    reference, with the count it had.  When the last reference to a list is
    released, [list_destructor] takes one reference from every slot of the
    list, whatever the other slots hold: an object held in several slots
    loses one per slot, an element held elsewhere too stays with the rest
    of its count, and a number or a string that the list alone held is
    freed; then the list is freed.  Nothing else changes.  Whatever the
    elements are, lists and dictionaries too, the release of the last
    reference to a list is one [py_decref] for each slot, in the order of
    the slots, and then the list is freed, as long as these leave the list
    itself in place.  In the runs, the elements are held by the list
    alone: two numbers, an empty list, and a list with an element of its
    own followed by a number. *)
Theorem C9_list_holds_one_reference_per_element :
  (forall h l it lo io items cap,
      live h l = Some lo ->
      data lo = ListData items cap ->
      live h it = Some io ->
      exists h',
        Object.py_list_append (Some l) (Some it) h = Done true h'
        /\ (exists o', live h' it = Some o' /\ ref_count o' = ref_count io + 1)
        /\ (exists lo' cap', live h' l = Some lo' /\ data lo' = ListData (items ++ [it]) cap')
        /\ (forall p, p <> l -> p <> it -> live h' p = live h p))
  /\ (forall fuel h l it lo io items cap,
        live h l = Some lo ->
        data lo = ListData items cap ->
        live h it = Some io ->
        1 <= ref_count io ->
        exists h' o',
          bind (Object.py_list_append (Some l) (Some it))
            (fun _ => Object.py_decref (S fuel) (Some it)) h = Done tt h'
          /\ live h' it = Some o'
          /\ ref_count o' = ref_count io
          /\ 1 <= ref_count o')
  /\ (forall fuel h l lo items cap,
        live h l = Some lo ->
        data lo = ListData items cap ->
        ref_count lo = 1 ->
        (forall p, p ∈ items ->
                   p <> l /\ exists o, live h p = Some o
                                       /\ occurrences p items <= ref_count o
                                       /\ (occurrences p items = ref_count o ->
                                           is_leaf o = true)) ->
        (length items + 2 <= fuel)%nat ->
        exists h',
          Object.py_decref fuel (Some l) h = Done tt h'
          /\ live h' l = None
          /\ (forall p o, p <> l -> live h p = Some o ->
                          live h' p = released (occurrences p items) o)
          /\ (forall p, p <> l -> live h p = None -> live h' p = None))
  /\ (forall fuel h l lo items cap h',
        live h l = Some lo ->
        data lo = ListData items cap ->
        ref_count lo = 1 ->
        released_in_turn fuel l (ListData items cap) items
          (<[l := Some (mkObject 0 (ListData items cap))]> h) h' ->
        Object.py_decref (S fuel) (Some l) h = Done tt (<[l := None]> h'))
  /\ heap_after 20 "变量 l = 创建列表(); 变量 r = 列表添加(l, 5);"
     = Some [Some (mkObject 1 (ListData [1%nat] 8)); Some (mkObject 1 (NumberData 5));
             Some (mkObject 1 (NumberData 1))]
  /\ heap_after 20 "如果 (1) { 变量 l = 创建列表(); 变量 r = 列表添加(l, 5); }"
     = Some [None; None; None; None]
  /\ heap_after 30 "如果 (1) { 变量 l = 创建列表(); 变量 r = 列表添加(l, 5); 变量 s = 列表添加(l, 6); }"
     = Some [None; None; None; None; None; None]
  /\ heap_after 30 "如果 (1) { 变量 l = 创建列表(); 变量 r = 列表添加(l, 创建列表()); }"
     = Some [None; None; None; None]
  /\ heap_after 40 "函数 mk() { 变量 m = 创建列表(); 变量 r = 列表添加(m, 5); 返回 m; } 如果 (1) { 变量 l = 创建列表(); 变量 r = 列表添加(l, mk()); 变量 s = 列表添加(l, 6); }"
     = Some [None; None; None; None; None; None; None; None].
Proof.
  split; [|split; [|split; [|split; [|split; [|split; [|split; [|split]]]]]]].
  - intros. eapply py_list_append_spec; eassumption.
  - intros fuel h l it lo io items cap Hl Hd Hit Hrc.
    destruct (py_list_append_spec h l it lo io items cap Hl Hd Hit)
      as (h1 & E & (o1 & Ho1 & Hrc1) & _).
    rewrite (bind_eq _ _ _ _ _ E).
    rewrite (py_decref_alive fuel h1 it o1 Ho1 ltac:(lia)).
    eexists _, _. split; [reflexivity|]. split; [eapply live_insert_same; exact Ho1|].
    simpl. lia.
  - intros. eapply py_decref_list_spec; eassumption.
  - intros. eapply py_decref_list_in_turn; eassumption.
  - by_running.
  - by_running.
  - by_running.
  - by_running.
  - by_running.
Qed.

(** C9 at a list that holds nothing yet and a number with one reference;
    at the release of a list of three slots: a number that the list alone
    holds, which is freed, and twice a string that is held elsewhere too,
    which stays with one reference; and at the release of a list that
    holds a list and a number, the number being in the inner list too:
    all three are freed. *)
Lemma C9_append_and_release :
  (exists h',
     Object.py_list_append (Some 0%nat) (Some 1%nat)
       [Some (mkObject 1 (ListData [] 8%nat)); Some (mkObject 1 (NumberData 5))]
     = Done true h'
     /\ (exists o', live h' 1%nat = Some o' /\ ref_count o' = 1 + 1)
     /\ (exists lo' cap',
           live h' 0%nat = Some lo' /\ data lo' = ListData ([] ++ [1%nat]) cap')
     /\ (forall p, p <> 0%nat -> p <> 1%nat ->
                   live h' p
                   = live [Some (mkObject 1 (ListData [] 8%nat)); Some (mkObject 1 (NumberData 5))] p))
  /\ (exists h',
        Object.py_decref 5
          (Some 0%nat)
          [Some (mkObject 1 (ListData [2%nat; 1%nat; 2%nat] 8%nat));
           Some (mkObject 1 (NumberData 5)); Some (mkObject 3 (StringData "a"))]
        = Done tt h'
        /\ live h' 0%nat = None
        /\ live h' 1%nat = None
        /\ live h' 2%nat = Some (mkObject 1 (StringData "a")))
  /\ Object.py_decref 5 (Some 0%nat)
       [Some (mkObject 1 (ListData [1%nat; 2%nat] 8%nat));
        Some (mkObject 1 (ListData [2%nat] 8%nat)); Some (mkObject 2 (NumberData 5))]
     = Done tt [None; None; None].
Proof.
  split; [|split].
  - apply (proj1 C9_list_holds_one_reference_per_element
             [Some (mkObject 1 (ListData [] 8%nat)); Some (mkObject 1 (NumberData 5))]
             0%nat 1%nat (mkObject 1 (ListData [] 8%nat)) (mkObject 1 (NumberData 5)) [] 8%nat).
    + reflexivity.
    + reflexivity.
    + reflexivity.
  - destruct (proj1 (proj2 (proj2 C9_list_holds_one_reference_per_element)) 5%nat
                [Some (mkObject 1 (ListData [2%nat; 1%nat; 2%nat] 8%nat));
                 Some (mkObject 1 (NumberData 5)); Some (mkObject 3 (StringData "a"))]
                0%nat (mkObject 1 (ListData [2%nat; 1%nat; 2%nat] 8%nat))
                [2%nat; 1%nat; 2%nat] 8%nat)
      as (h' & E & Hl & Hothers & _).
    + reflexivity.
    + reflexivity.
    + reflexivity.
    + intros p Hp. split.
      * intros ->. vm_compute in Hp.
        repeat (apply elem_of_cons in Hp as [Hp|Hp]; [discriminate Hp|]).
        apply elem_of_nil in Hp. exact Hp.
      * repeat (apply elem_of_cons in Hp as [->|Hp];
                [eexists; split; [reflexivity|]; split; [simpl; lia|];
                 intros Heq; try reflexivity; simpl in Heq; lia|]).
        apply elem_of_nil in Hp. destruct Hp.
    + simpl. lia.
    + exists h'. split; [exact E|]. split; [exact Hl|]. split.
      * apply (Hothers 1%nat (mkObject 1 (NumberData 5))); [lia | reflexivity].
      * apply (Hothers 2%nat (mkObject 3 (StringData "a"))); [lia | reflexivity].
  - apply (proj1 (proj2 (proj2 (proj2 C9_list_holds_one_reference_per_element))) 4%nat
             [Some (mkObject 1 (ListData [1%nat; 2%nat] 8%nat));
              Some (mkObject 1 (ListData [2%nat] 8%nat)); Some (mkObject 2 (NumberData 5))]
             0%nat (mkObject 1 (ListData [1%nat; 2%nat] 8%nat)) [1%nat; 2%nat] 8%nat
             [Some (mkObject 0 (ListData [1%nat; 2%nat] 8%nat)); None; None]).
    + reflexivity.
    + reflexivity.
    + reflexivity.
    + simpl. eexists. split; [reflexivity|]. split; [eexists; split; reflexivity|].
      eexists. split; [reflexivity|]. split; [eexists; split; reflexivity|]. reflexivity.
Defined.

(** ** Scopes *)

Section Scopes.
Import Object Interpreter.

Lemma find_in_scope_shape name (s s' : Scope) :
  map (fun e => (var_name e, var_is_constant e)) s
  = map (fun e => (var_name e, var_is_constant e)) s' ->
  (find_variable_in_scope name s = None <-> find_variable_in_scope name s' = None).
Proof.
  revert s'. induction s as [|e s IH]; intros [|e' s'] H; simpl in *; try discriminate.
  - tauto.
  - inversion H as [[Hn Hc Hr]]. rewrite Hn.
    destruct (String.eqb (var_name e') name); [split; discriminate|].
    apply IH. exact Hr.
Qed.

Lemma is_bound_shape name (cs cs' : list Scope) :
  scope_shape cs = scope_shape cs' -> is_bound name cs = is_bound name cs'.
Proof.
  unfold is_bound, scope_shape.
  revert cs'. induction cs as [|s cs IH]; intros [|s' cs'] H; simpl in *; try discriminate.
  - reflexivity.
  - inversion H as [[Hs Hr]].
    pose proof (find_in_scope_shape name s s' Hs) as Hiff.
    destruct (find_variable_in_scope name s) as [e|];
      destruct (find_variable_in_scope name s') as [e'|].
    + reflexivity.
    + destruct Hiff as [_ Hiff]. specialize (Hiff eq_refl). discriminate.
    + destruct Hiff as [Hiff _]. specialize (Hiff eq_refl). discriminate.
    + apply IH. exact Hr.
Qed.

Lemma define_variable_fresh name value is_constant st scope parent :
  current_scope st = scope :: parent ->
  find_variable_in_scope name scope = None ->
  (forall a, value = Some a -> exists o, live (heap st) a = Some o) ->
  exists h',
    define_variable name value is_constant st
    = Done true
        (set_current_scope ((mkVariable name is_constant value :: scope) :: parent)
           (set_heap h' st)).
Proof.
  intros Hcs Hfind Hlive. unfold define_variable.
  unfold bind at 1, get at 1. rewrite Hcs, Hfind.
  destruct value as [a|].
  - destruct (Hlive a eq_refl) as (o & Ho).
    rewrite (bind_eq _ _ _ _ _ (on_heap_eq _ _ _ _ (py_incref_live _ _ _ Ho))).
    eexists. reflexivity.
  - exists (heap st). reflexivity.
Qed.

Lemma define_variable_again name value is_constant st scope parent e :
  current_scope st = scope :: parent ->
  find_variable_in_scope name scope = Some e ->
  define_variable name value is_constant st
  = Done false (with_error KUNYU_ERROR_RUNTIME ("变量'" ++ name ++ "'已经在当前作用域中定义") st).
Proof.
  intros Hcs Hfind. unfold define_variable.
  unfold bind at 1, get at 1. rewrite Hcs, Hfind. reflexivity.
Qed.

Lemma set_variable_undeclared fuel name value st :
  find_variable name (current_scope st) = None ->
  set_variable fuel name value st
  = Done false (with_error KUNYU_ERROR_RUNTIME ("未定义的变量: " ++ name) st).
Proof.
  intros H. unfold set_variable. unfold bind at 1, get at 1. rewrite H. reflexivity.
Qed.

Lemma set_variable_constant fuel name value st e :
  find_variable name (current_scope st) = Some e ->
  var_is_constant e = true ->
  set_variable fuel name value st
  = Done false (with_error KUNYU_ERROR_RUNTIME ("不能修改常量: " ++ name) st).
Proof.
  intros H Hc. unfold set_variable. unfold bind at 1, get at 1. rewrite H, Hc. reflexivity.
Qed.

Lemma block_restores_scopes fuel statements st ok st' :
  execute_statement fuel (BlockStmt statements) st = Done ok st' ->
  shape_of st' = shape_of st.
Proof.
  intros H. destruct fuel as [|f]; [discriminate|].
  change (execute_statement (S f) (BlockStmt statements))
    with (execute_block f (execute_statement f) (BlockStmt statements)) in H.
  apply (sv_execute_block f (execute_statement f) (gr_execute_statement f)
           (BlockStmt statements) st ok st' H).
Qed.

(** A declaration statement: it succeeds only for a name the innermost
    scope does not hold, and then binds it there and nowhere else. *)
Lemma declaration_binds_innermost f name initializer is_constant st ok st' scope parent :
  execute_statement (S f) (VarDeclStmt name initializer is_constant) st = Done ok st' ->
  current_scope st = scope :: parent ->
  if ok
  then find_variable_in_scope name scope = None
       /\ shape_of st' = ((name, is_constant) :: hd [] (shape_of st)) :: tail (shape_of st)
  else shape_of st' = shape_of st.
Proof.
  intros H Hcs.
  change (execute_statement (S f) (VarDeclStmt name initializer is_constant))
    with (exec_var_decl f (eval_expression f) (VarDeclStmt name initializer is_constant)) in H.
  unfold exec_var_decl in H.
  apply bind_done in H as (value & s1 & Hv & H).
  apply sv_eval_expression in Hv as [Hs1 _].
  destruct value as [a|]; [|inversion H; subst; exact Hs1].
  apply bind_done in H as (result & s2 & Hd & H).
  apply bind_done in H as ([] & s3 & Hr & H).
  inversion H; subst result st'. clear H.
  apply ho_on_heap in Hr.
  assert (Hs3 : shape_of s3 = shape_of s2) by (rewrite Hr; reflexivity).
  rewrite Hs3, <- Hs1.
  unfold define_variable in Hd. unfold bind at 1, get at 1 in Hd.
  unfold shape_of in Hs1 |- *. rewrite Hcs in Hs1.
  destruct (current_scope s1) as [|scope1 parent1] eqn:Hcs1; [discriminate|].
  simpl in Hs1. inversion Hs1 as [[Htop Hrest]].
  destruct (find_variable_in_scope name scope1) as [e|] eqn:Hfind.
  - inversion Hd; subst. simpl. rewrite Hcs1. reflexivity.
  - apply bind_done in Hd as ([] & s1' & Hi & Hd).
    apply ho_on_heap in Hi. inversion Hd; subst ok s2. clear Hd.
    split.
    + apply (find_in_scope_shape name scope1 scope Htop). exact Hfind.
    + rewrite Hi. simpl. reflexivity.
Qed.
(** An assignment to a name bound nowhere, or to a constant: the value is
    evaluated, the error is set, the value is released and NULL is the
    answer. *)
Lemma assignment_refused f name e st v s1 h' :
  eval_expression f e st = Done (Some v) s1 ->
  py_decref f (Some v) (heap s1) = Done tt h' ->
  (find_variable name (current_scope s1) = None ->
   eval_expression (S f) (AssignExpr name e) st
   = Done None (set_heap h' (with_error KUNYU_ERROR_RUNTIME ("未定义的变量: " ++ name) s1)))
  /\ (forall entry,
        find_variable name (current_scope s1) = Some entry ->
        var_is_constant entry = true ->
        eval_expression (S f) (AssignExpr name e) st
        = Done None (set_heap h' (with_error KUNYU_ERROR_RUNTIME ("不能修改常量: " ++ name) s1))).
Proof.
  intros He Hrel.
  assert (Hstep : forall msg,
    set_variable f name (Some v) s1 = Done false (with_error KUNYU_ERROR_RUNTIME msg s1) ->
    eval_expression (S f) (AssignExpr name e) st
    = Done None (set_heap h' (with_error KUNYU_ERROR_RUNTIME msg s1))).
  { intros msg Hset.
    change (eval_expression (S f) (AssignExpr name e))
      with (eval_assign_expr f (eval_expression f) name e).
    unfold eval_assign_expr.
    rewrite (bind_eq _ _ _ _ _ He). rewrite (bind_eq _ _ _ _ _ Hset). cbn [negb].
    assert (Hrel' : py_decref f (Some v) (heap (with_error KUNYU_ERROR_RUNTIME msg s1))
                    = Done tt h') by exact Hrel.
    rewrite (bind_eq _ _ _ _ _ (on_heap_eq _ _ _ _ Hrel')). reflexivity. }
  split.
  - intros Hfind. apply Hstep. apply set_variable_undeclared. exact Hfind.
  - intros entry Hfind Hconst. apply Hstep. eapply set_variable_constant; eassumption.
Qed.

End Scopes.

(** C7.  Scope discipline.  A declaration binds its name in the innermost
    scope only: a name that scope does not hold yet is added to it, whatever
    the enclosing scopes hold (their bindings are kept: shadowing), and a
    name it already holds is an error; so a declaration statement that
    succeeds has found its name free in the innermost scope and has put it
    there, and one that fails leaves the names in scope as they were.  A
    block ends with the names in scope it started with, so a name declared
    inside it is unbound after it unless it was bound before.  Assigning to
    a name bound nowhere, or to a name whose nearest binding is constant,
    is a runtime error, in [set_variable] and for the assignment expression
    that calls it. *)
Theorem C7_scope_discipline :
  (forall name value is_constant st scope parent,
      Interpreter.current_scope st = scope :: parent ->
      Interpreter.find_variable_in_scope name scope = None ->
      (forall a, value = Some a -> exists o, live (Interpreter.heap st) a = Some o) ->
      exists h',
        Interpreter.define_variable name value is_constant st
        = Done true
            (Interpreter.set_current_scope
               ((Interpreter.mkVariable name is_constant value :: scope) :: parent)
               (Interpreter.set_heap h' st)))
  /\ (forall name value is_constant st scope parent e,
        Interpreter.current_scope st = scope :: parent ->
        Interpreter.find_variable_in_scope name scope = Some e ->
        Interpreter.define_variable name value is_constant st
        = Done false
            (with_error KUNYU_ERROR_RUNTIME ("变量'" ++ name ++ "'已经在当前作用域中定义") st))
  /\ (forall fuel statements st ok st',
        Interpreter.execute_statement fuel (BlockStmt statements) st = Done ok st' ->
        shape_of st' = shape_of st
        /\ forall name,
             is_bound name (Interpreter.current_scope st')
             = is_bound name (Interpreter.current_scope st))
  /\ (forall fuel name value st,
        Interpreter.find_variable name (Interpreter.current_scope st) = None ->
        Interpreter.set_variable fuel name value st
        = Done false (with_error KUNYU_ERROR_RUNTIME ("未定义的变量: " ++ name) st))
  /\ (forall fuel name value st e,
        Interpreter.find_variable name (Interpreter.current_scope st) = Some e ->
        Interpreter.var_is_constant e = true ->
        Interpreter.set_variable fuel name value st
        = Done false (with_error KUNYU_ERROR_RUNTIME ("不能修改常量: " ++ name) st))
  /\ (forall f name initializer is_constant st ok st' scope parent,
        Interpreter.execute_statement (S f) (VarDeclStmt name initializer is_constant) st
        = Done ok st' ->
        Interpreter.current_scope st = scope :: parent ->
        if ok
        then Interpreter.find_variable_in_scope name scope = None
             /\ shape_of st'
                = ((name, is_constant) :: hd [] (shape_of st)) :: tail (shape_of st)
        else shape_of st' = shape_of st)
  /\ (forall f name e st v s1 h',
        Interpreter.eval_expression f e st = Done (Some v) s1 ->
        Object.py_decref f (Some v) (Interpreter.heap s1) = Done tt h' ->
        (Interpreter.find_variable name (Interpreter.current_scope s1) = None ->
         Interpreter.eval_expression (S f) (AssignExpr name e) st
         = Done None
             (Interpreter.set_heap h'
                (with_error KUNYU_ERROR_RUNTIME ("未定义的变量: " ++ name) s1)))
        /\ (forall entry,
              Interpreter.find_variable name (Interpreter.current_scope s1) = Some entry ->
              Interpreter.var_is_constant entry = true ->
              Interpreter.eval_expression (S f) (AssignExpr name e) st
              = Done None
                  (Interpreter.set_heap h'
                     (with_error KUNYU_ERROR_RUNTIME ("不能修改常量: " ++ name) s1))))
  /\ run_result 20 "如果 (1) { 变量 y = 1; 输出 y; } 输出 y;"
     = Some (false, mkError KUNYU_ERROR_RUNTIME "未定义的变量: y" 0 0, ("1" ++ newline)%string)
  /\ run_result 20 "变量 x = 1; 变量 x = 2;"
     = Some (false, mkError KUNYU_ERROR_RUNTIME "变量'x'已经在当前作用域中定义" 0 0, ""%string)
  /\ run_result 20 "变量 x = 1; 如果 (1) { 变量 x = 2; 输出 x; } 输出 x;"
     = Some (true, no_error, ("2" ++ newline ++ "1" ++ newline)%string)
  /\ run_result 20 "输出 (z = 1);"
     = Some (false, mkError KUNYU_ERROR_RUNTIME "未定义的变量: z" 0 0, ""%string)
  /\ run_result 20 "常量 c = 1; 如果 (1) { 输出 (c = 2); }"
     = Some (false, mkError KUNYU_ERROR_RUNTIME "不能修改常量: c" 0 0, ""%string).
Proof.
  split; [|split; [|split; [|split; [|split; [|split; [|split]]]]]].
  - intros. eapply define_variable_fresh; eassumption.
  - intros. eapply define_variable_again; eassumption.
  - intros fuel statements st ok st' H.
    pose proof (block_restores_scopes _ _ _ _ _ H) as Hs.
    split; [exact Hs|]. intros name. apply is_bound_shape. exact Hs.
  - intros. apply set_variable_undeclared; assumption.
  - intros. eapply set_variable_constant; eassumption.
  - intros f name initializer is_constant st ok st' scope parent H Hcs.
    apply (declaration_binds_innermost f name initializer is_constant st ok st' scope parent
             H Hcs).
  - intros f name e st v s1 h' He Hrel.
    apply (assignment_refused f name e st v s1 h' He Hrel).
  - by_running.
Qed.

(** C7 at a declaration of [x] in an empty innermost scope, at a second
    one, and at the block [{ 变量 y = 1; }]. *)
Lemma C7_declarations_and_block :
  (exists h',
      Interpreter.define_variable "x" (Some 0%nat) false
        (Interpreter.mkState [Some (mkObject 1 (NumberData 1))] no_error false None
           [[]; [Interpreter.mkVariable "x" true None]] [] [] "")
      = Done true
          (Interpreter.set_current_scope
             ([Interpreter.mkVariable "x" false (Some 0%nat)]
              :: [[Interpreter.mkVariable "x" true None]])
             (Interpreter.set_heap h'
                (Interpreter.mkState [Some (mkObject 1 (NumberData 1))] no_error false None
                   [[]; [Interpreter.mkVariable "x" true None]] [] [] ""))))
  /\ Interpreter.define_variable "x" None false
       (Interpreter.mkState [] no_error false None
          [[Interpreter.mkVariable "x" true None]] [] [] "")
     = Done false
         (with_error KUNYU_ERROR_RUNTIME "变量'x'已经在当前作用域中定义"
            (Interpreter.mkState [] no_error false None
               [[Interpreter.mkVariable "x" true None]] [] [] ""))
  /\ (shape_of (Interpreter.mkState [None] no_error false None [[]] [] [] "")
      = shape_of (Interpreter.mkState [] no_error false None [[]] [] [] "")
      /\ forall name,
           is_bound name
             (Interpreter.current_scope
                (Interpreter.mkState [None] no_error false None [[]] [] [] ""))
           = is_bound name
               (Interpreter.current_scope
                  (Interpreter.mkState [] no_error false None [[]] [] [] ""))).
Proof.
  split; [|split].
  - apply (proj1 C7_scope_discipline "x"%string (Some 0%nat) false
             (Interpreter.mkState [Some (mkObject 1 (NumberData 1))] no_error false None
                [[]; [Interpreter.mkVariable "x" true None]] [] [] "")
             [] [[Interpreter.mkVariable "x" true None]]).
    + reflexivity.
    + reflexivity.
    + intros a Ha. inversion Ha. exists (mkObject 1 (NumberData 1)). reflexivity.
  - apply (proj1 (proj2 C7_scope_discipline) "x"%string None false
             (Interpreter.mkState [] no_error false None
                [[Interpreter.mkVariable "x" true None]] [] [] "")
             [Interpreter.mkVariable "x" true None] []
             (Interpreter.mkVariable "x" true None)).
    + reflexivity.
    + reflexivity.
  - apply (proj1 (proj2 (proj2 C7_scope_discipline)) 5%nat
             [VarDeclStmt "y" (LiteralExpr KUNYU_TOKEN_NUMBER "1") false]
             (Interpreter.mkState [] no_error false None [[]] [] [] "")
             true
             (Interpreter.mkState [None] no_error false None [[]] [] [] "")).
    vm_compute; reflexivity.
Defined.

(** ** Calls of user functions *)

Section Calls.
Import Object Interpreter.

(** A message that fits in the 256-byte buffer is kept whole. *)
Lemma snprintf256_short text :
  (String.length text <= 255)%nat -> Libc.snprintf256 text = text.
Proof.
  unfold Libc.snprintf256. generalize 255%nat. intros n. revert n.
  induction text as [|c r IH]; intros [|n] H; simpl in *; try reflexivity; try lia.
  rewrite IH by lia. reflexivity.
Qed.

Lemma eval_call_expr_arity fuel ev ex name args st func :
  Builtins.builtins_is_builtin (builtin_funcs st) name = false ->
  find_function name (function_table st) = Some func ->
  length args <> length (fn_params func) ->
  eval_call_expr fuel ev ex name args st
  = Done None
      (with_error KUNYU_ERROR_RUNTIME
         (arity_message name (length (fn_params func)) (length args)) st).
Proof.
  intros Hb Hf Hlen. unfold eval_call_expr. unfold bind at 1, get at 1.
  rewrite Hb, Hf. apply Nat.eqb_neq in Hlen. rewrite Hlen. reflexivity.
Qed.

Lemma bind_congr {S A B} (m : M S A) (f g : A -> M S B) s :
  (forall a s', m s = Done a s' -> f a s' = g a s') -> bind m f s = bind m g s.
Proof. intros H. unfold bind. destruct (m s); [apply H; reflexivity | reflexivity ..]. Qed.

(** A call with the right number of arguments, step by step. *)
Lemma eval_call_expr_user fuel ev ex name args st func :
  Builtins.builtins_is_builtin (builtin_funcs st) name = false ->
  find_function name (function_table st) = Some func ->
  length args = length (fn_params func) ->
  eval_call_expr fuel ev ex name args st
  = bind (bind_parameters fuel ev (fn_params func) args)
      (fun bound =>
         if negb bound then ret None
         else bind (clear_return fuel)
                (fun _ => bind (ex (fn_body func)) (fun success => finish_call fuel success)))
      (pushed st).
Proof.
  intros Hb Hf Hlen. unfold eval_call_expr. unfold bind at 1, get at 1.
  rewrite Hb, Hf. rewrite (proj2 (Nat.eqb_eq _ _) Hlen). reflexivity.
Qed.

(** The body of a called function is executed with the parameters, none
    constant, as the one new scope above the scopes of the call site. *)
Lemma eval_call_expr_body_scope fuel ev ex name args st func :
  (forall n, sat same_view (ev n)) ->
  Builtins.builtins_is_builtin (builtin_funcs st) name = false ->
  find_function name (function_table st) = Some func ->
  length args = length (fn_params func) ->
  eval_call_expr fuel ev
    (in_scope (rev (map (fun p => (p, false)) (fn_params func)) :: shape_of st) ex)
    name args st
  = eval_call_expr fuel ev ex name args st.
Proof.
  intros Hev Hb Hf Hlen.
  rewrite !(eval_call_expr_user fuel ev _ name args st func Hb Hf Hlen).
  apply bind_congr. intros bound s2 Hbind.
  destruct bound; cbn [negb]; [|reflexivity].
  apply (bind_parameters_view fuel ev Hev _ _ _ _ _ [] (shape_of st)) in Hbind;
    [| symmetry; exact Hlen | reflexivity].
  destruct Hbind as [_ Hs2]. rewrite app_nil_r in Hs2.
  apply bind_congr. intros [] s3 Hclear.
  apply sv_clear_return in Hclear as [Hs3 _].
  unfold bind, in_scope.
  destruct (decide (shape_of s3 = rev (map (fun p => (p, false)) (fn_params func))
                                    :: shape_of st)) as [_|Hne].
  - reflexivity.
  - exfalso. apply Hne. rewrite Hs3. exact Hs2.
Qed.

Lemma call_restores_scopes fuel name args st r st' :
  eval_expression fuel (CallExpr name args) st = Done r st' ->
  shape_of st' = shape_of st.
Proof. intros H. apply sv_eval_expression in H. apply H. Qed.

(** A call whose body ends without a return: the scope of the call is
    popped and NULL is the answer. *)
Lemma eval_call_expr_without_return fuel ev ex name args st func s1 s2 s3 s4 :
  Builtins.builtins_is_builtin (builtin_funcs st) name = false ->
  find_function name (function_table st) = Some func ->
  length args = length (fn_params func) ->
  bind_parameters fuel ev (fn_params func) args (pushed st) = Done true s1 ->
  clear_return fuel s1 = Done tt s2 ->
  ex (fn_body func) s2 = Done true s3 ->
  has_return s3 = false ->
  return_value s3 = None ->
  pop_scope fuel s3 = Done tt s4 ->
  eval_call_expr fuel ev ex name args st = Done None s4
  /\ has_return s4 = false
  /\ return_value s4 = None
  /\ error s4 = error s3.
Proof.
  intros Hb Hf Hlen Hbind Hclear Hbody Hret Hval Hpop.
  assert (Hfields : has_return s4 = false /\ return_value s4 = None /\ error s4 = error s3).
  { unfold pop_scope in Hpop. unfold bind at 1, get at 1 in Hpop.
    destruct (current_scope s3) as [|scope parent].
    - inversion Hpop; subst. repeat split; assumption.
    - apply bind_done in Hpop as ([] & sa & Ha & Hm).
      apply ho_release_variables in Ha. unfold heap_only in Ha.
      inversion Hm; subst s4. rewrite Ha. cbn. repeat split; assumption. }
  split; [|exact Hfields].
  destruct Hfields as (Hret4 & Hval4 & _).
  rewrite (eval_call_expr_user fuel ev ex name args st func Hb Hf Hlen).
  rewrite (bind_eq _ _ _ _ _ Hbind). cbn [negb].
  rewrite (bind_eq _ _ _ _ _ Hclear).
  rewrite (bind_eq _ _ _ _ _ Hbody).
  unfold finish_call. unfold bind at 1, get at 1.
  rewrite Hret. cbn [andb]. unfold bind at 1, ret at 1.
  rewrite (bind_eq _ _ _ _ _ Hpop).
  unfold clear_return. unfold bind at 1 2, modify at 1. unfold bind at 1, get at 1.
  assert (Hsame : set_has_return false s4 = s4)
    by (destruct s4; cbn in Hret4; subst; reflexivity).
  rewrite Hsame. rewrite Hval4. reflexivity.
Qed.

(** An expression statement whose expression yields NULL: the statement
    fails, whether or not an error was set. *)
Lemma expression_stmt_of_null f e st st' :
  eval_expression f e st = Done None st' ->
  execute_statement (S f) (ExpressionStmt e) st = Done false st'.
Proof.
  intros H. cbn [execute_statement]. unfold execute_statement_body.
  cbn [node_type]. unfold exec_expression_stmt.
  rewrite (bind_eq _ _ _ _ _ H). reflexivity.
Qed.

(** What [snprintf] keeps of a text: its first 255 bytes. *)
Lemma snprintf256_prefix text :
  exists rest,
    text = (Libc.snprintf256 text ++ rest)%string
    /\ String.length (Libc.snprintf256 text) = Nat.min 255 (String.length text).
Proof.
  unfold Libc.snprintf256. generalize 255%nat. intros n. revert text.
  induction n as [|n IH]; intros text.
  - exists text. destruct text; split; reflexivity.
  - destruct text as [|c r].
    + exists EmptyString. split; reflexivity.
    + destruct (IH r) as (rest & Hr & Hlen). exists rest. split.
      * transitivity (String c (Libc.take n r ++ rest)%string);
          [f_equal; exact Hr | reflexivity].
      * simpl. rewrite Hlen. reflexivity.
Qed.

(** One turn of the parameter loop.  The argument is evaluated in the
    state the loop is in; its value is bound to the parameter, not
    constant, on top of the innermost scope; the reference that the
    evaluation gave is the one the variable holds from then on. *)
Lemma bind_parameters_step fuel ev p params a args st v s1 scope parent vo :
  ev a st = Done (Some v) s1 ->
  current_scope s1 = scope :: parent ->
  find_variable_in_scope p scope = None ->
  live (heap s1) v = Some vo ->
  1 <= ref_count vo ->
  bind_parameters (S fuel) ev (p :: params) (a :: args) st
  = bind_parameters (S fuel) ev params args
      (set_current_scope ((mkVariable p false (Some v) :: scope) :: parent) s1).
Proof.
  intros Hev Hcs Hfind Hv Hrc.
  set (h1 := <[v := Some (mkObject (ref_count vo + 1) (data vo))]> (heap s1)).
  assert (Hdef : define_variable p (Some v) false s1
                 = Done true
                     (set_current_scope ((mkVariable p false (Some v) :: scope) :: parent)
                        (set_heap h1 s1))).
  { unfold define_variable. unfold bind at 1, get at 1. rewrite Hcs, Hfind.
    rewrite (bind_eq _ _ _ _ _ (on_heap_eq _ _ _ _ (py_incref_live _ _ _ Hv))).
    reflexivity. }
  assert (Hv1 : live h1 v = Some (mkObject (ref_count vo + 1) (data vo)))
    by (eapply live_insert_same; exact Hv).
  assert (Hdec : py_decref (S fuel) (Some v) h1 = Done tt (heap s1)).
  { rewrite (py_decref_alive fuel _ _ _ Hv1) by (simpl; lia).
    unfold h1. rewrite list_insert_insert_eq. f_equal.
    transitivity (<[v := Some vo]> (heap s1)); [|apply insert_same_cell; exact Hv].
    destruct vo as [rc d]. simpl. replace (rc + 1 - 1) with rc by lia. reflexivity. }
  cbn [bind_parameters]. rewrite (bind_eq _ _ _ _ _ Hev).
  rewrite (bind_eq _ _ _ _ _ Hdef).
  rewrite (bind_eq _ _ _ _ _
             (on_heap_eq (py_decref (S fuel) (Some v))
                (set_current_scope ((mkVariable p false (Some v) :: scope) :: parent)
                   (set_heap h1 s1)) tt (heap s1) Hdec)).
  cbn [negb]. reflexivity.
Qed.

(** The loop leaves the function when an argument has no value. *)
Lemma bind_parameters_argument_fails fuel ev p params a args st s1 :
  ev a st = Done None s1 ->
  bind_parameters fuel ev (p :: params) (a :: args) st
  = bind (pop_scope fuel) (fun _ => ret false) s1.
Proof. intros Hev. cbn [bind_parameters]. rewrite (bind_eq _ _ _ _ _ Hev). reflexivity. Qed.

(** The loop leaves the function when the name of the parameter is
    already bound in the innermost scope. *)
Lemma bind_parameters_name_taken fuel ev p params a args st v s1 scope parent e :
  ev a st = Done (Some v) s1 ->
  current_scope s1 = scope :: parent ->
  find_variable_in_scope p scope = Some e ->
  bind_parameters fuel ev (p :: params) (a :: args) st
  = bind (on_heap (py_decref fuel (Some v)))
      (fun _ => bind (pop_scope fuel) (fun _ => ret false))
      (with_error KUNYU_ERROR_RUNTIME ("变量'" ++ p ++ "'已经在当前作用域中定义") s1).
Proof.
  intros Hev Hcs Hfind. cbn [bind_parameters]. rewrite (bind_eq _ _ _ _ _ Hev).
  rewrite (bind_eq _ _ _ _ _
             (define_variable_again p (Some v) false s1 scope parent e Hcs Hfind)).
  unfold bind. destruct (on_heap (py_decref fuel (Some v)) _); reflexivity.
Qed.

Lemma bindings_cons p params v values :
  bindings (p :: params) (v :: values)
  = bindings params values ++ [mkVariable p false (Some v)].
Proof. reflexivity. Qed.

(** The whole loop, when the arguments leave the variables alone: the
    scope it started in has become the parameters bound to the values of
    the arguments, and each argument was evaluated with the parameters
    before it bound. *)
Lemma bind_parameters_binds fuel ev params :
  forall args st st' scope parent,
    leaves_scopes ev args ->
    length params = length args ->
    current_scope st = scope :: parent ->
    bind_parameters fuel ev params args st = Done true st' ->
    exists values,
      length values = length params
      /\ current_scope st' = (bindings params values ++ scope) :: parent
      /\ forall i a v,
           args !! i = Some a -> values !! i = Some v ->
           exists s s',
             ev a s = Done (Some v) s'
             /\ current_scope s
                = (bindings (take i params) (take i values) ++ scope) :: parent.
Proof.
  induction params as [|p params IH]; intros args st st' scope parent Hleave Hlen Hcs H.
  - destruct args; [|discriminate]. simpl in H. inversion H; subst st'.
    exists []. split; [reflexivity|]. split; [exact Hcs|].
    intros i a v Ha. rewrite lookup_nil in Ha. discriminate.
  - destruct args as [|a args]; [discriminate|]. simpl in Hlen.
    cbn [bind_parameters] in H.
    apply bind_done in H as (r & s1 & Hev & H).
    pose proof (Hleave a st r s1 ltac:(left) Hev) as Hcs1. rewrite Hcs in Hcs1.
    destruct r as [v|];
      [| apply bind_done in H as ([] & s4 & _ & H); inversion H].
    apply bind_done in H as (result & s2 & Hdef & H).
    apply bind_done in H as ([] & s3 & Hdec & H).
    destruct result; cbn [negb] in H;
      [| apply bind_done in H as ([] & s4 & _ & H); inversion H].
    assert (Hcs2 : current_scope s2 = (mkVariable p false (Some v) :: scope) :: parent).
    { unfold define_variable in Hdef. unfold bind at 1, get at 1 in Hdef.
      rewrite Hcs1 in Hdef.
      destruct (find_variable_in_scope p scope); [inversion Hdef|].
      apply bind_done in Hdef as ([] & sa & Hinc & Hdef).
      apply ho_on_heap in Hinc. inversion Hdef; subst s2. reflexivity. }
    assert (Hcs3 : current_scope s3 = (mkVariable p false (Some v) :: scope) :: parent).
    { apply ho_on_heap in Hdec. rewrite Hdec. exact Hcs2. }
    destruct (IH args s3 st' (mkVariable p false (Some v) :: scope) parent)
      as (values & Hvlen & Hfinal & Hargs); [| lia | exact Hcs3 | exact H |].
    { intros a' s r s' Hin. apply Hleave. right. exact Hin. }
    exists (v :: values). split; [simpl; lia|]. split.
    + rewrite Hfinal, bindings_cons, <- app_assoc. reflexivity.
    + intros i a' v' Ha Hv. destruct i as [|i].
      * simpl in Ha, Hv. inversion Ha; inversion Hv; subst a' v'.
        exists st, s1. split; [exact Hev | exact Hcs].
      * simpl in Ha, Hv. destruct (Hargs i a' v' Ha Hv) as (s & s' & Hs & Hscope).
        exists s, s'. split; [exact Hs|].
        rewrite Hscope. cbn [take]. rewrite bindings_cons, <- app_assoc. reflexivity.
Qed.

(** Literals leave the variables alone. *)
Lemma literals_leave_scopes fuel args :
  Forall (fun a => exists t text, a = LiteralExpr t text) args ->
  leaves_scopes (eval_expression fuel) args.
Proof.
  intros Hall a st r st' Hin Hev.
  rewrite Forall_forall in Hall. destruct (Hall a Hin) as (t & text & ->).
  destruct fuel as [|f]; [discriminate|].
  cbn [eval_expression] in Hev. unfold eval_expression_body, eval_literal_expr in Hev.
  destruct t;
    try (apply ho_on_heap in Hev; rewrite Hev; reflexivity);
    inversion Hev; reflexivity.
Qed.

(** A call whose body ends on a return with a value: the value is the
    answer, with one reference more for the caller. *)
Lemma eval_call_expr_with_return fuel ev ex name args st func s1 s2 s3 v vo s4 s5 :
  Builtins.builtins_is_builtin (builtin_funcs st) name = false ->
  find_function name (function_table st) = Some func ->
  length args = length (fn_params func) ->
  bind_parameters fuel ev (fn_params func) args (pushed st) = Done true s1 ->
  clear_return fuel s1 = Done tt s2 ->
  ex (fn_body func) s2 = Done true s3 ->
  has_return s3 = true ->
  return_value s3 = Some v ->
  live (heap s3) v = Some vo ->
  pop_scope fuel
    (set_heap (<[v := Some (mkObject (ref_count vo + 1) (data vo))]> (heap s3)) s3)
  = Done tt s4 ->
  clear_return fuel s4 = Done tt s5 ->
  eval_call_expr fuel ev ex name args st = Done (Some v) s5.
Proof.
  intros Hb Hf Hlen Hbind Hclear Hbody Hret Hval Hv Hpop Hclear2.
  rewrite (eval_call_expr_user fuel ev ex name args st func Hb Hf Hlen).
  rewrite (bind_eq _ _ _ _ _ Hbind). cbn [negb].
  rewrite (bind_eq _ _ _ _ _ Hclear).
  rewrite (bind_eq _ _ _ _ _ Hbody).
  unfold finish_call. unfold bind at 1, get at 1.
  rewrite Hret, Hval. cbn [andb].
  assert (Hgot : bind (on_heap (py_incref (Some v))) (fun _ => ret (Some v)) s3
                 = Done (Some v)
                     (set_heap
                        (<[v := Some (mkObject (ref_count vo + 1) (data vo))]> (heap s3)) s3)).
  { rewrite (bind_eq _ _ _ _ _ (on_heap_eq _ _ _ _ (py_incref_live _ _ _ Hv))).
    reflexivity. }
  rewrite (bind_eq _ _ _ _ _ Hgot).
  rewrite (bind_eq _ _ _ _ _ Hpop).
  rewrite (bind_eq _ _ _ _ _ Hclear2). reflexivity.
Qed.

(** [clear_return] with no value to release. *)
Lemma clear_return_empty fuel st :
  return_value st = None ->
  clear_return fuel st = Done tt (set_has_return false st).
Proof.
  intros H. unfold clear_return. unfold bind at 1, modify at 1.
  unfold bind at 1, get at 1. cbn [return_value set_has_return]. rewrite H. reflexivity.
Qed.

(** [clear_return] releases the value a return left behind. *)
Lemma clear_return_value fuel st v h' :
  return_value st = Some v ->
  py_decref fuel (Some v) (heap st) = Done tt h' ->
  clear_return fuel st
  = Done tt (set_return_value None (set_heap h' (set_has_return false st))).
Proof.
  intros H Hdec. unfold clear_return. unfold bind at 1, modify at 1.
  unfold bind at 1, get at 1. cbn [return_value set_has_return]. rewrite H.
  rewrite (bind_eq _ _ _ _ _
             (on_heap_eq (py_decref fuel (Some v)) (set_has_return false st) tt h' Hdec)).
  reflexivity.
Qed.

Lemma find_in_scope_other p q c v scope :
  p <> q ->
  find_variable_in_scope p (mkVariable q c v :: scope) = find_variable_in_scope p scope.
Proof.
  intros Hne. cbn [find_variable_in_scope var_name].
  destruct (String.eqb_spec q p) as [->|_]; [congruence | reflexivity].
Qed.

(** The parameter loop on number literals, for any number of parameters
    of different names: it succeeds, the literals become new number
    objects with one reference each, in the order of the arguments, and
    the parameters are bound to them on top of the innermost scope. *)
Lemma bind_parameters_literals fuel params :
  forall texts st scope parent,
    NoDup params ->
    length params = length texts ->
    current_scope st = scope :: parent ->
    (forall p, p ∈ params -> find_variable_in_scope p scope = None) ->
    bind_parameters (S fuel) (eval_expression (S fuel)) params
      (map (LiteralExpr KUNYU_TOKEN_NUMBER) texts) st
    = Done true
        (set_current_scope
           ((bindings params (seq (length (heap st)) (length texts)) ++ scope) :: parent)
           (set_heap (heap st ++ numbers_of texts) st)).
Proof.
  induction params as [|p params IH]; intros texts st scope parent Hnd Hlen Hcs Hfree.
  - destruct texts; [|discriminate]. cbn [map bind_parameters].
    unfold numbers_of, bindings. cbn [map length seq zip_with rev app].
    rewrite app_nil_r. unfold ret. f_equal. destruct st. cbn in Hcs. subst. reflexivity.
  - destruct texts as [|t texts]; [discriminate|]. simpl in Hlen.
    apply NoDup_cons in Hnd as [Hp Hnd].
    cbn [map].
    set (x := mkObject 1 (NumberData (Libc.atof t))).
    set (s1 := set_heap (heap st ++ [Some x]) st).
    rewrite (bind_parameters_step fuel (eval_expression (S fuel)) p params
               (LiteralExpr KUNYU_TOKEN_NUMBER t) _ st (length (heap st)) s1 scope parent x);
      [| reflexivity | exact Hcs | apply Hfree; left
       | apply live_alloc | simpl; lia].
    rewrite (IH texts _ (mkVariable p false (Some (length (heap st))) :: scope) parent Hnd);
      [| lia | reflexivity |].
    + f_equal. cbn [heap set_current_scope set_heap s1].
      rewrite length_app. cbn [length]. rewrite Nat.add_1_r.
      cbn [seq]. rewrite bindings_cons. rewrite <- !app_assoc.
      unfold numbers_of. cbn [map app]. reflexivity.
    + intros q Hq. rewrite find_in_scope_other.
      * apply Hfree. right. exact Hq.
      * intros ->. apply Hp. exact Hq.
Qed.

(** A call with number literals for arguments, to a function whose
    parameters have different names: the body is executed in the state
    where the literals are new objects and the parameters are bound to
    them in one new scope above the scopes of the call site. *)
Lemma eval_call_expr_literals fuel ex name texts st func :
  Builtins.builtins_is_builtin (builtin_funcs st) name = false ->
  find_function name (function_table st) = Some func ->
  NoDup (fn_params func) ->
  length texts = length (fn_params func) ->
  eval_call_expr (S fuel) (eval_expression (S fuel)) ex name
    (map (LiteralExpr KUNYU_TOKEN_NUMBER) texts) st
  = bind (clear_return (S fuel))
      (fun _ => bind (ex (fn_body func)) (fun success => finish_call (S fuel) success))
      (set_current_scope
         (bindings (fn_params func) (seq (length (heap st)) (length texts))
          :: current_scope st)
         (set_heap (heap st ++ numbers_of texts) st)).
Proof.
  intros Hb Hf Hnd Hlen.
  rewrite (eval_call_expr_user (S fuel) _ ex name _ st func Hb Hf)
    by (rewrite length_map; exact Hlen).
  rewrite (bind_eq _ _ _ _ _
             (bind_parameters_literals fuel (fn_params func) texts (pushed st) []
                (current_scope st) Hnd ltac:(lia) eq_refl ltac:(reflexivity))).
  cbn [negb]. rewrite app_nil_r. reflexivity.
Qed.

End Calls.

(** C8, as stated, fails in two ways.  The name of the function of the
    first run has 250 bytes: the message of its call with no argument is
    cut in the name, and holds neither the end of the name nor the two
    counts; so the message is not always the text that names the function
    and both counts.  In the second run [f(a, a)] is called with two
    arguments: the counts match, yet the second parameter cannot be bound,
    the call fails, and the body, which would print 1, is not executed. *)
Lemma C8_cut_message_and_repeated_parameter :
  ~ (forall fuel ev ex name args st func,
        Builtins.builtins_is_builtin (Interpreter.builtin_funcs st) name = false ->
        Interpreter.find_function name (Interpreter.function_table st) = Some func ->
        length args <> length (Interpreter.fn_params func) ->
        exists st',
          Interpreter.eval_call_expr fuel ev ex name args st = Done None st'
          /\ err_message (Interpreter.error st')
             = arity_message name (length (Interpreter.fn_params func)) (length args))
  /\ run_result 30 ("函数 " ++ copies 250 "a" ++ "(x) { 返回 x; } 输出 "
                    ++ copies 250 "a" ++ "();")
     = Some (false, mkError KUNYU_ERROR_RUNTIME ("函数'" ++ copies 248 "a") 0 0, ""%string)
  /\ arity_message (copies 250 "a") 1 0
     = ("函数'" ++ copies 250 "a" ++ "'需要1个参数，但接收到0个")%string
  /\ run_result 30 "函数 f(a, a) { 输出 1; 返回 a; } 输出 f(1, 2);"
     = Some (false, mkError KUNYU_ERROR_RUNTIME "变量'a'已经在当前作用域中定义" 0 0, ""%string).
Proof.
  split.
  - intros H.
    destruct (H 1%nat (Interpreter.eval_expression 1) (Interpreter.execute_statement 1)
                (copies 250 "a") []
                (Interpreter.mkState [] no_error false None [[]]
                   [Interpreter.mkFunction (copies 250 "a") ["x"%string] (BlockStmt [])] [] "")
                (Interpreter.mkFunction (copies 250 "a") ["x"%string] (BlockStmt [])))
      as (st' & Hcall & Hmsg).
    + reflexivity.
    + vm_compute. reflexivity.
    + simpl. lia.
    + vm_compute in Hcall. inversion Hcall; subst st'. clear Hcall.
      vm_compute in Hmsg. discriminate Hmsg.
  - by_running.
Qed.

(** C8, amended.  Calls of user functions.  With a number of arguments
    other than the number of parameters, the call fails with the runtime
    error whose message is the first 255 bytes of the text that names the
    function, the expected and the actual count (the whole text when it
    has no more), and nothing else happens: no argument is evaluated and
    the body is not executed.  With the same number, a scope is pushed on
    the scopes of the call site (not on those of the declaration) and the
    parameter loop runs in it: each argument in turn is evaluated there
    and its value is bound to its parameter, not constant, before the next
    argument is evaluated; the loop leaves the function, the scope popped
    and the body not executed, when an argument has no value or when the
    name of a parameter is already bound in the new scope.  With number
    literals for arguments and parameters of different names, however
    many, the loop succeeds and the body is executed with each parameter
    bound to a new number object.  After the loop the return register is
    cleared, the body is executed, in the scope that holds the parameters
    above the scopes of the call site, the value returned is kept for the
    caller, the scope is popped and the return register is cleared again:
    the scopes of the call site are in place when the call returns. *)
Theorem C8_user_function_calls :
  (forall fuel ev ex name args st func,
      Builtins.builtins_is_builtin (Interpreter.builtin_funcs st) name = false ->
      Interpreter.find_function name (Interpreter.function_table st) = Some func ->
      length args <> length (Interpreter.fn_params func) ->
      Interpreter.eval_call_expr fuel ev ex name args st
      = Done None
          (with_error KUNYU_ERROR_RUNTIME
             (arity_message name (length (Interpreter.fn_params func)) (length args)) st))
  /\ (forall name expected actual st,
        Interpreter.error
          (with_error KUNYU_ERROR_RUNTIME (arity_message name expected actual) st)
        = mkError KUNYU_ERROR_RUNTIME (Libc.snprintf256 (arity_message name expected actual))
            (err_line (Interpreter.error st)) (err_column (Interpreter.error st))
        /\ exists rest,
             arity_message name expected actual
             = (Libc.snprintf256 (arity_message name expected actual) ++ rest)%string
             /\ String.length (Libc.snprintf256 (arity_message name expected actual))
                = Nat.min 255 (String.length (arity_message name expected actual)))
  /\ (forall name expected actual st,
        (String.length (arity_message name expected actual) <= 255)%nat ->
        Interpreter.error
          (with_error KUNYU_ERROR_RUNTIME (arity_message name expected actual) st)
        = mkError KUNYU_ERROR_RUNTIME (arity_message name expected actual)
            (err_line (Interpreter.error st)) (err_column (Interpreter.error st)))
  /\ (forall fuel ev ex name args st func,
        Builtins.builtins_is_builtin (Interpreter.builtin_funcs st) name = false ->
        Interpreter.find_function name (Interpreter.function_table st) = Some func ->
        length args = length (Interpreter.fn_params func) ->
        Interpreter.eval_call_expr fuel ev ex name args st
        = bind (Interpreter.bind_parameters fuel ev (Interpreter.fn_params func) args)
            (fun bound =>
               if negb bound then ret None
               else bind (Interpreter.clear_return fuel)
                      (fun _ => bind (ex (Interpreter.fn_body func))
                                  (fun success => finish_call fuel success)))
            (pushed st))
  /\ (forall fuel ev p params a args st v s1 scope parent vo,
        ev a st = Done (Some v) s1 ->
        Interpreter.current_scope s1 = scope :: parent ->
        Interpreter.find_variable_in_scope p scope = None ->
        live (Interpreter.heap s1) v = Some vo ->
        1 <= ref_count vo ->
        Interpreter.bind_parameters (S fuel) ev (p :: params) (a :: args) st
        = Interpreter.bind_parameters (S fuel) ev params args
            (Interpreter.set_current_scope
               ((Interpreter.mkVariable p false (Some v) :: scope) :: parent) s1))
  /\ (forall fuel ev p params a args st s1,
        ev a st = Done None s1 ->
        Interpreter.bind_parameters fuel ev (p :: params) (a :: args) st
        = bind (Interpreter.pop_scope fuel) (fun _ => ret false) s1)
  /\ (forall fuel ev p params a args st v s1 scope parent e,
        ev a st = Done (Some v) s1 ->
        Interpreter.current_scope s1 = scope :: parent ->
        Interpreter.find_variable_in_scope p scope = Some e ->
        Interpreter.bind_parameters fuel ev (p :: params) (a :: args) st
        = bind (Interpreter.on_heap (Object.py_decref fuel (Some v)))
            (fun _ => bind (Interpreter.pop_scope fuel) (fun _ => ret false))
            (with_error KUNYU_ERROR_RUNTIME ("变量'" ++ p ++ "'已经在当前作用域中定义") s1))
  /\ (forall fuel ev params args st st',
        leaves_scopes ev args ->
        length params = length args ->
        Interpreter.bind_parameters fuel ev params args (pushed st) = Done true st' ->
        exists values,
          length values = length params
          /\ Interpreter.current_scope st'
             = bindings params values :: Interpreter.current_scope st
          /\ forall i a v,
               args !! i = Some a -> values !! i = Some v ->
               exists s s',
                 ev a s = Done (Some v) s'
                 /\ Interpreter.current_scope s
                    = bindings (take i params) (take i values)
                      :: Interpreter.current_scope st)
  /\ (forall fuel ex name texts st func,
        Builtins.builtins_is_builtin (Interpreter.builtin_funcs st) name = false ->
        Interpreter.find_function name (Interpreter.function_table st) = Some func ->
        NoDup (Interpreter.fn_params func) ->
        length texts = length (Interpreter.fn_params func) ->
        Interpreter.eval_call_expr (S fuel) (Interpreter.eval_expression (S fuel)) ex name
          (map (LiteralExpr KUNYU_TOKEN_NUMBER) texts) st
        = bind (Interpreter.clear_return (S fuel))
            (fun _ => bind (ex (Interpreter.fn_body func))
                        (fun success => finish_call (S fuel) success))
            (Interpreter.set_current_scope
               (bindings (Interpreter.fn_params func)
                  (seq (length (Interpreter.heap st)) (length texts))
                :: Interpreter.current_scope st)
               (Interpreter.set_heap (Interpreter.heap st ++ numbers_of texts) st)))
  /\ (forall fuel params args st ok st',
        length params = length args ->
        Interpreter.bind_parameters fuel (Interpreter.eval_expression fuel) params args
          (pushed st) = Done ok st' ->
        shape_of st' = if ok then rev (map (fun p => (p, false)) params) :: shape_of st
                       else shape_of st)
  /\ (forall fuel ex name args st func,
        Builtins.builtins_is_builtin (Interpreter.builtin_funcs st) name = false ->
        Interpreter.find_function name (Interpreter.function_table st) = Some func ->
        length args = length (Interpreter.fn_params func) ->
        Interpreter.eval_call_expr fuel (Interpreter.eval_expression fuel)
          (in_scope (rev (map (fun p => (p, false)) (Interpreter.fn_params func))
                     :: shape_of st) ex)
          name args st
        = Interpreter.eval_call_expr fuel (Interpreter.eval_expression fuel) ex name args st)
  /\ (forall fuel st,
        Interpreter.return_value st = None ->
        Interpreter.clear_return fuel st = Done tt (Interpreter.set_has_return false st))
  /\ (forall fuel st v h',
        Interpreter.return_value st = Some v ->
        Object.py_decref fuel (Some v) (Interpreter.heap st) = Done tt h' ->
        Interpreter.clear_return fuel st
        = Done tt
            (Interpreter.set_return_value None
               (Interpreter.set_heap h' (Interpreter.set_has_return false st))))
  /\ (forall fuel ev ex name args st func s1 s2 s3 v vo s4 s5,
        Builtins.builtins_is_builtin (Interpreter.builtin_funcs st) name = false ->
        Interpreter.find_function name (Interpreter.function_table st) = Some func ->
        length args = length (Interpreter.fn_params func) ->
        Interpreter.bind_parameters fuel ev (Interpreter.fn_params func) args (pushed st)
        = Done true s1 ->
        Interpreter.clear_return fuel s1 = Done tt s2 ->
        ex (Interpreter.fn_body func) s2 = Done true s3 ->
        Interpreter.has_return s3 = true ->
        Interpreter.return_value s3 = Some v ->
        live (Interpreter.heap s3) v = Some vo ->
        Interpreter.pop_scope fuel
          (Interpreter.set_heap
             (<[v := Some (mkObject (ref_count vo + 1) (data vo))]> (Interpreter.heap s3)) s3)
        = Done tt s4 ->
        Interpreter.clear_return fuel s4 = Done tt s5 ->
        Interpreter.eval_call_expr fuel ev ex name args st = Done (Some v) s5)
  /\ (forall fuel name args st r st',
        Interpreter.eval_expression fuel (CallExpr name args) st = Done r st' ->
        shape_of st' = shape_of st)
  /\ run_result 20 "函数 f(a, b) { 返回 a; } 输出 f(1);"
     = Some (false, mkError KUNYU_ERROR_RUNTIME "函数'f'需要2个参数，但接收到1个" 0 0, ""%string)
  /\ run_result 20 "函数 f(a, b) { 返回 a + b; } 输出 f(1, 2);"
     = Some (true, no_error, ("3" ++ newline)%string)
  /\ run_result 30 "函数 g() { 返回 y; } 函数 h() { 变量 y = 7; 返回 g(); } 输出 h();"
     = Some (true, no_error, ("7" ++ newline)%string)
  /\ run_result 30 "函数 f(a, b, c, d) { 输出 a; 输出 b; 输出 c; 返回 d; } 输出 f(1, 2, 3, 4);"
     = Some (true, no_error,
             ("1" ++ newline ++ "2" ++ newline ++ "3" ++ newline ++ "4" ++ newline)%string)
  /\ run_result 30 "函数 f(a, b) { 返回 a + b; } 输出 f(1, a = 5);"
     = Some (true, no_error, ("10" ++ newline)%string)
  /\ run_result 30 "函数 f(a, b) { 输出 1; 返回 a; } 输出 f(1, y);"
     = Some (false, mkError KUNYU_ERROR_RUNTIME "未定义的变量: y" 0 0, ""%string)
  /\ run_result 30 "函数 f(a) { 返回 a; } 输出 f(1); 输出 f(2);"
     = Some (true, no_error, ("1" ++ newline ++ "2" ++ newline)%string)
  /\ heap_after 30 "函数 f(a) { 返回 a; } 输出 f(1); 输出 f(2);" = Some [None; None].
Proof.
  split; [intros; apply eval_call_expr_arity; assumption|].
  split; [intros name expected actual st; split;
          [reflexivity | apply snprintf256_prefix]|].
  split.
  { intros name expected actual st Hlen. unfold with_error.
    rewrite (snprintf256_short _ Hlen). reflexivity. }
  split; [intros; apply eval_call_expr_user; assumption|].
  split; [intros; eapply bind_parameters_step; eassumption|].
  split; [intros; apply bind_parameters_argument_fails; assumption|].
  split; [intros; eapply bind_parameters_name_taken; eassumption|].
  split.
  { intros fuel ev params args st st' Hleave Hlen H.
    destruct (bind_parameters_binds fuel ev params args (pushed st) st' []
                (Interpreter.current_scope st) Hleave Hlen eq_refl H)
      as (values & Hvlen & Hfinal & Hargs).
    exists values. split; [exact Hvlen|]. split.
    - rewrite Hfinal, app_nil_r. reflexivity.
    - intros i a v Ha Hv. destruct (Hargs i a v Ha Hv) as (s & s' & Hs & Hscope).
      exists s, s'. split; [exact Hs|]. rewrite Hscope, app_nil_r. reflexivity. }
  split; [intros; apply eval_call_expr_literals; assumption|].
  split.
  { intros fuel params args st ok st' Hlen H.
    apply (bind_parameters_view fuel (Interpreter.eval_expression fuel)
             (sv_eval_expression fuel) _ _ _ _ _ [] (shape_of st)) in H;
      [| exact Hlen | reflexivity].
    destruct H as [_ H]. rewrite app_nil_r in H. exact H. }
  split.
  { intros. apply eval_call_expr_body_scope; try assumption.
    intros n. apply sv_eval_expression. }
  split; [intros; apply clear_return_empty; assumption|].
  split; [intros; eapply clear_return_value; eassumption|].
  split; [intros; eapply eval_call_expr_with_return; eassumption|].
  split; [intros; eapply call_restores_scopes; eassumption|].
  by_running.
Qed.

(** C8 at a call of [f(a, b)] with one argument, and at the parameter
    loop of a call with three literals for [a], [b] and [c]. *)
Lemma C8_wrong_count_and_three_parameters :
  Interpreter.eval_call_expr 3%nat (Interpreter.eval_expression 3%nat)
    (Interpreter.execute_statement 3%nat) "f" [LiteralExpr KUNYU_TOKEN_NUMBER "1"]
    (Interpreter.mkState [] no_error false None [[]]
       [Interpreter.mkFunction "f" ["a"; "b"]%string (BlockStmt [])] [] "")
  = Done None
      (with_error KUNYU_ERROR_RUNTIME "函数'f'需要2个参数，但接收到1个"
         (Interpreter.mkState [] no_error false None [[]]
            [Interpreter.mkFunction "f" ["a"; "b"]%string (BlockStmt [])] [] ""))
  /\ exists values,
       length values = 3%nat
       /\ [[Interpreter.mkVariable "c" false (Some 2%nat);
            Interpreter.mkVariable "b" false (Some 1%nat);
            Interpreter.mkVariable "a" false (Some 0%nat)]; []]
          = [bindings ["a"; "b"; "c"]%string values; []].
Proof.
  split.
  - apply (proj1 C8_user_function_calls 3%nat (Interpreter.eval_expression 3%nat)
             (Interpreter.execute_statement 3%nat) "f"%string
             [LiteralExpr KUNYU_TOKEN_NUMBER "1"]
             (Interpreter.mkState [] no_error false None [[]]
                [Interpreter.mkFunction "f" ["a"; "b"]%string (BlockStmt [])] [] "")
             (Interpreter.mkFunction "f" ["a"; "b"]%string (BlockStmt []))).
    + reflexivity.
    + reflexivity.
    + simpl. lia.
  - destruct (proj1 (proj2 (proj2 (proj2 (proj2 (proj2 (proj2 (proj2
                C8_user_function_calls)))))))
                3%nat (Interpreter.eval_expression 3%nat) ["a"; "b"; "c"]%string
                [LiteralExpr KUNYU_TOKEN_NUMBER "1"; LiteralExpr KUNYU_TOKEN_NUMBER "2";
                 LiteralExpr KUNYU_TOKEN_NUMBER "3"]
                (Interpreter.mkState [] no_error false None [[]] [] [] "")
                (Interpreter.mkState
                   [Some (mkObject 1 (NumberData 1)); Some (mkObject 1 (NumberData 2));
                    Some (mkObject 1 (NumberData 3))]
                   no_error false None
                   [[Interpreter.mkVariable "c" false (Some 2%nat);
                     Interpreter.mkVariable "b" false (Some 1%nat);
                     Interpreter.mkVariable "a" false (Some 0%nat)]; []] [] [] ""))
      as (values & Hlen & Hscope & _).
    + apply literals_leave_scopes. repeat constructor; eexists _, _; reflexivity.
    + reflexivity.
    + vm_compute. reflexivity.
    + exists values. split; [exact Hlen | exact Hscope].
Defined.

(** C4.  A call whose body ends without a return yields NULL, with the
    return flag and the return value cleared and the scope of the call
    popped; but NULL is also how [eval_expression] reports a failure, so
    [exec_expression_stmt] answers false, whether or not an error was set,
    and the run stops: after such a call with no error code and an empty
    message. *)
Theorem C4_call_without_return_stops_the_run :
  (forall fuel ev ex name args st func s1 s2 s3 s4,
      Builtins.builtins_is_builtin (Interpreter.builtin_funcs st) name = false ->
      Interpreter.find_function name (Interpreter.function_table st) = Some func ->
      length args = length (Interpreter.fn_params func) ->
      Interpreter.bind_parameters fuel ev (Interpreter.fn_params func) args (pushed st)
      = Done true s1 ->
      Interpreter.clear_return fuel s1 = Done tt s2 ->
      ex (Interpreter.fn_body func) s2 = Done true s3 ->
      Interpreter.has_return s3 = false ->
      Interpreter.return_value s3 = None ->
      Interpreter.pop_scope fuel s3 = Done tt s4 ->
      Interpreter.eval_call_expr fuel ev ex name args st = Done None s4
      /\ Interpreter.has_return s4 = false
      /\ Interpreter.return_value s4 = None
      /\ Interpreter.error s4 = Interpreter.error s3)
  /\ (forall f e st st',
        Interpreter.eval_expression f e st = Done None st' ->
        Interpreter.execute_statement (S f) (ExpressionStmt e) st = Done false st')
  /\ parse_result 20 "函数 f() { 变量 y = 7; } f();;"
     = Some (Some (Program
                     [FunctionStmt "f" []
                        (BlockStmt [VarDeclStmt "y" (LiteralExpr KUNYU_TOKEN_NUMBER "7") false]);
                      ExpressionStmt (CallExpr "f" [])]),
             no_error)
  /\ run_result 20 "函数 f() { 变量 y = 7; } f();;"
     = Some (false, mkError KUNYU_OK "" 0 0, ""%string)
  /\ run_result 20 "函数 f() { 变量 y = 7; } 输出 1; f();; 输出 2;"
     = Some (false, mkError KUNYU_OK "" 0 0, ("1" ++ newline)%string)
  /\ run_result 20 "函数 f() { 变量 y = 7; } 变量 z = f(); 输出 2;"
     = Some (false, mkError KUNYU_OK "" 0 0, ""%string).
Proof.
  split; [| split; [| by_running]].
  - intros fuel ev ex name args st func s1 s2 s3 s4 Hb Hf Hlen Hbind Hclear Hbody Hret Hval Hpop.
    apply (eval_call_expr_without_return fuel ev ex name args st func s1 s2 s3 s4
             Hb Hf Hlen Hbind Hclear Hbody Hret Hval Hpop).
  - intros f e st st' H. apply expression_stmt_of_null. exact H.
Qed.

(** C4 at the call [f()] after [函数 f() { 变量 y = 7; }], and at the
    statement made of that call. *)
Lemma C4_call_of_a_procedure :
  (Interpreter.eval_call_expr 6 (Interpreter.eval_expression 6)
     (Interpreter.execute_statement 6) "f" []
     (quiet_state [] [[]]
        [Interpreter.mkFunction "f" []
           (BlockStmt [VarDeclStmt "y" (LiteralExpr KUNYU_TOKEN_NUMBER "7") false])])
   = Done None
       (quiet_state [None] [[]]
          [Interpreter.mkFunction "f" []
             (BlockStmt [VarDeclStmt "y" (LiteralExpr KUNYU_TOKEN_NUMBER "7") false])]))
  /\ (Interpreter.execute_statement 8 (ExpressionStmt (CallExpr "f" []))
        (quiet_state [] [[]]
           [Interpreter.mkFunction "f" []
              (BlockStmt [VarDeclStmt "y" (LiteralExpr KUNYU_TOKEN_NUMBER "7") false])])
      = Done false
          (quiet_state [None] [[]]
             [Interpreter.mkFunction "f" []
                (BlockStmt [VarDeclStmt "y" (LiteralExpr KUNYU_TOKEN_NUMBER "7") false])])).
Proof.
  split.
  - apply (proj1 C4_call_without_return_stops_the_run 6%nat (Interpreter.eval_expression 6)
             (Interpreter.execute_statement 6) "f"%string []
             (quiet_state [] [[]]
                [Interpreter.mkFunction "f" []
                   (BlockStmt [VarDeclStmt "y" (LiteralExpr KUNYU_TOKEN_NUMBER "7") false])])
             (Interpreter.mkFunction "f" []
                (BlockStmt [VarDeclStmt "y" (LiteralExpr KUNYU_TOKEN_NUMBER "7") false]))
             (quiet_state [] [[]; []]
                [Interpreter.mkFunction "f" []
                   (BlockStmt [VarDeclStmt "y" (LiteralExpr KUNYU_TOKEN_NUMBER "7") false])])
             (quiet_state [] [[]; []]
                [Interpreter.mkFunction "f" []
                   (BlockStmt [VarDeclStmt "y" (LiteralExpr KUNYU_TOKEN_NUMBER "7") false])])
             (quiet_state [None] [[]; []]
                [Interpreter.mkFunction "f" []
                   (BlockStmt [VarDeclStmt "y" (LiteralExpr KUNYU_TOKEN_NUMBER "7") false])])
             (quiet_state [None] [[]]
                [Interpreter.mkFunction "f" []
                   (BlockStmt [VarDeclStmt "y" (LiteralExpr KUNYU_TOKEN_NUMBER "7") false])])).
    + reflexivity.
    + reflexivity.
    + reflexivity.
    + reflexivity.
    + reflexivity.
    + vm_compute; reflexivity.
    + reflexivity.
    + reflexivity.
    + reflexivity.
  - apply (proj1 (proj2 C4_call_without_return_stops_the_run)).
    vm_compute; reflexivity.
Defined.

(** ** The position of runtime errors *)

Section ErrorPosition.
Import Object Interpreter.

Lemma interpreter_init_position fuel st s1 :
  interpreter_init fuel st = Done tt s1 -> error_position s1 = (0, 0).
Proof.
  unfold interpreter_init. intros H.
  apply bind_done in H as ([] & sa & Ha & H). inversion Ha; subst sa. clear Ha.
  assert (Hsat : forall A (m : In A), sat same_position m ->
                 forall s a s', m s = Done a s' -> error_position s' = error_position s)
    by (intros A m Hm; exact Hm).
  eapply Hsat in H.
  - rewrite H. reflexivity.
  - assert (Hrefl : forall s, same_position s s) by (intros; reflexivity).
    assert (Htrans : forall a b c, same_position a b -> same_position b c -> same_position a c)
      by (unfold same_position; intros; congruence).
    repeat first
      [ apply (sat_bind same_position Htrans); [ | intros ? ]
      | apply (sat_modify same_position); intros; reflexivity
      | apply (sat_get same_position Hrefl)
      | apply (sat_weaken heap_only same_position);
        [ unfold heap_only, same_position; intros ? ? ->; reflexivity
        | apply ho_release_scopes ] ].
Qed.

Lemma execute_program_position fuel root st ok st' :
  execute_program fuel (Some root) st = Done ok st' ->
  error_position st' = error_position st.
Proof.
  unfold execute_program. destruct root; intros H;
    try (apply bind_done in H as ([] & s1 & H1 & H2); inversion H1; inversion H2; subst;
         reflexivity);
    try discriminate.
  apply gr_execute_program_loop in H. apply H.
Qed.

End ErrorPosition.

(** C10.  Whatever the program and the state the interpreter was left in,
    the error record after [interpreter_execute] has line 0 and column 0:
    [interpreter_init] zeroes both fields, and every error site of the
    interpreter writes the code and the message and nothing else. *)
Theorem C10_runtime_errors_carry_no_position fuel root st ok st' :
  Interpreter.interpreter_execute fuel (Some root) st = Done ok st' ->
  err_line (Interpreter.error st') = 0 /\ err_column (Interpreter.error st') = 0.
Proof.
  unfold Interpreter.interpreter_execute. intros H.
  apply bind_done in H as ([] & s1 & Hinit & Hrun).
  apply interpreter_init_position in Hinit.
  apply execute_program_position in Hrun.
  rewrite Hinit in Hrun. unfold error_position in Hrun.
  inversion Hrun. split; reflexivity.
Qed.

(** C10 at the program [输出 1 / 0;], which fails with a division by zero. *)
Lemma C10_division_by_zero_position :
  Interpreter.interpreter_execute 20
    (Some (Program [PrintStmt (BinaryExpr OP_DIV (LiteralExpr KUNYU_TOKEN_NUMBER "1")
                                 (LiteralExpr KUNYU_TOKEN_NUMBER "0"))]))
    Interpreter.initial_state
  = Done false
      (state_after 20
         (Program [PrintStmt (BinaryExpr OP_DIV (LiteralExpr KUNYU_TOKEN_NUMBER "1")
                                (LiteralExpr KUNYU_TOKEN_NUMBER "0"))]))
  /\ err_code (Interpreter.error
                 (state_after 20
                    (Program [PrintStmt (BinaryExpr OP_DIV (LiteralExpr KUNYU_TOKEN_NUMBER "1")
                                (LiteralExpr KUNYU_TOKEN_NUMBER "0"))])))
     = KUNYU_ERROR_RUNTIME
  /\ err_line (Interpreter.error
                 (state_after 20
                    (Program [PrintStmt (BinaryExpr OP_DIV (LiteralExpr KUNYU_TOKEN_NUMBER "1")
                                (LiteralExpr KUNYU_TOKEN_NUMBER "0"))]))) = 0
  /\ err_column (Interpreter.error
                   (state_after 20
                      (Program [PrintStmt (BinaryExpr OP_DIV (LiteralExpr KUNYU_TOKEN_NUMBER "1")
                                  (LiteralExpr KUNYU_TOKEN_NUMBER "0"))]))) = 0.
Proof.
  set (root := Program [PrintStmt (BinaryExpr OP_DIV (LiteralExpr KUNYU_TOKEN_NUMBER "1")
                                     (LiteralExpr KUNYU_TOKEN_NUMBER "0"))]).
  assert (Hok : match Interpreter.interpreter_execute 20 (Some root) Interpreter.initial_state
                with Done ok _ => ok = false | _ => False end)
    by (vm_compute; reflexivity).
  assert (H : Interpreter.interpreter_execute 20 (Some root) Interpreter.initial_state
              = Done false (state_after 20 root)).
  { unfold state_after.
    destruct (Interpreter.interpreter_execute 20 (Some root) Interpreter.initial_state)
      as [ok s| |]; [subst ok; reflexivity | contradiction | contradiction]. }
  split; [exact H|]. split; [vm_compute; reflexivity|].
  exact (C10_runtime_errors_carry_no_position _ _ _ _ _ H).
Defined.

(* ================================================================== *)
(** * Further properties of the object model *)

Section ReferenceRoundTrips.
Import Object.

Lemma py_decref_incref_last fuel h a o :
  live h a = Some o ->
  is_leaf o = true ->
  ref_count o <= 1 ->
  bind (py_decref (S fuel) (Some a)) (fun _ => py_incref (Some a)) h = Undefined.
Proof.
  intros H Hleaf Hrc.
  rewrite (bind_eq _ _ _ _ _ (py_decref_leaf_freed fuel _ _ _ H Hleaf Hrc)).
  unfold py_incref, bind, load.
  pose proof (live_free_same h a) as Hf. unfold live in Hf.
  destruct (<[a := None]> h !! a) as [[x|]|]; [discriminate | reflexivity | reflexivity].
Qed.

End ReferenceRoundTrips.

(** X1.  Taking a reference to a live object and releasing it again
    leaves the heap exactly as it was; releasing the last reference to a
    number or a string and then taking one is a use of freed memory. *)
Theorem incref_decref_round_trip :
  (forall fuel h a o,
      live h a = Some o ->
      1 <= ref_count o ->
      bind (Object.py_incref (Some a)) (fun _ => Object.py_decref (S fuel) (Some a)) h
      = Done tt h)
  /\ (forall fuel h a o,
        live h a = Some o ->
        is_leaf o = true ->
        ref_count o <= 1 ->
        bind (Object.py_decref (S fuel) (Some a)) (fun _ => Object.py_incref (Some a)) h
        = Undefined).
Proof.
  split.
  - intros. eapply py_incref_decref; eassumption.
  - intros. eapply py_decref_incref_last; eassumption.
Qed.

(** X1 at a string with one reference. *)
Lemma incref_decref_round_trip_witness :
  bind (Object.py_incref (Some 0%nat)) (fun _ => Object.py_decref 1 (Some 0%nat))
    [Some (mkObject 1 (StringData "a"))]
  = Done tt [Some (mkObject 1 (StringData "a"))]
  /\ bind (Object.py_decref 1 (Some 0%nat)) (fun _ => Object.py_incref (Some 0%nat))
       [Some (mkObject 1 (StringData "a"))]
     = Undefined.
Proof.
  split.
  - apply (proj1 incref_decref_round_trip 0%nat _ 0%nat (mkObject 1 (StringData "a"))).
    + reflexivity.
    + simpl. lia.
  - apply (proj2 incref_decref_round_trip 0%nat _ 0%nat (mkObject 1 (StringData "a"))).
    + reflexivity.
    + reflexivity.
    + simpl. lia.
Defined.

Section ListAccess.
Import Object.

Lemma py_list_get_outside h l lo items cap i :
  live h l = Some lo ->
  data lo = ListData items cap ->
  (length items <= i)%nat ->
  py_list_get (Some l) i h = Done None h.
Proof.
  intros Hl Hd Hi. unfold py_list_get.
  rewrite (bind_eq _ _ _ _ _ (load_live _ _ _ Hl)). rewrite Hd.
  rewrite (lookup_ge_None_2 _ _ Hi). reflexivity.
Qed.

Lemma py_list_get_inside h l lo items cap i item io :
  live h l = Some lo ->
  data lo = ListData items cap ->
  items !! i = Some item ->
  live h item = Some io ->
  py_list_get (Some l) i h
  = Done (Some item) (<[item := Some (mkObject (ref_count io + 1) (data io))]> h).
Proof.
  intros Hl Hd Hi Hit. unfold py_list_get.
  rewrite (bind_eq _ _ _ _ _ (load_live _ _ _ Hl)). rewrite Hd, Hi.
  rewrite (bind_eq _ _ _ _ _ (py_incref_live _ _ _ Hit)). reflexivity.
Qed.

Lemma py_list_set_outside fuel h l lo items cap i v :
  live h l = Some lo ->
  data lo = ListData items cap ->
  (length items <= i)%nat ->
  py_list_set fuel (Some l) i v h = Done false h.
Proof.
  intros Hl Hd Hi. unfold py_list_set.
  rewrite (bind_eq _ _ _ _ _ (load_live _ _ _ Hl)). rewrite Hd.
  destruct v as [it|]; [|reflexivity].
  rewrite (lookup_ge_None_2 _ _ Hi). reflexivity.
Qed.

(** [py_list_set] inside the list, on a slot whose object is referenced
    from elsewhere too. *)
Lemma py_list_set_inside fuel h l lo items cap i old oo v vo :
  live h l = Some lo ->
  data lo = ListData items cap ->
  items !! i = Some old ->
  live h old = Some oo ->
  1 < ref_count oo ->
  live h v = Some vo ->
  exists h',
    py_list_set (S fuel) (Some l) i (Some v) h = Done true h'
    /\ (exists lo', live h' l = Some lo' /\ data lo' = ListData (<[i := v]> items) cap)
    /\ (forall p o, live h p = Some o ->
          exists o',
            live h' p = Some o'
            /\ ref_count o'
               = ref_count o + (if decide (p = v) then 1 else 0)
                 - (if decide (p = old) then 1 else 0)
            /\ (p <> l -> data o' = data o)).
Proof.
  intros Hl Hd Hi Hold Hrc Hv. unfold py_list_set.
  rewrite (bind_eq _ _ _ _ _ (load_live _ _ _ Hl)). rewrite Hd, Hi.
  rewrite (bind_eq _ _ _ _ _ (py_decref_alive fuel _ _ _ Hold Hrc)).
  set (oo1 := mkObject (ref_count oo - 1) (data oo)).
  set (h1 := <[old := Some oo1]> h).
  assert (Hlive1 : forall p o, live h p = Some o ->
            live h1 p = Some (mkObject (ref_count o - (if decide (p = old) then 1 else 0))
                                (data o))).
  { intros p o Hp. unfold h1. destruct (decide (p = old)) as [->|Hne].
    - assert (o = oo) by congruence. subst o. eapply live_insert_same. exact Hold.
    - rewrite live_insert_other by congruence. rewrite Hp.
      destruct o as [rc d]. simpl. do 2 f_equal. lia. }
  pose proof (Hlive1 l lo Hl) as Hl1.
  rewrite (bind_eq _ _ _ _ _ (load_live _ _ _ Hl1)). cbn [data]. rewrite Hd.
  assert (Hi1 : (i < length items)%nat) by (eapply lookup_lt_Some; exact Hi).
  set (lo2 := mkObject (ref_count lo - (if decide (l = old) then 1 else 0))
                (ListData (<[i := v]> items) cap)).
  rewrite (bind_eq _ _ _ _ _ (store_live _ _ _ lo2 Hl1)).
  set (h2 := <[l := Some lo2]> h1).
  assert (Hlive2 : forall p o, live h p = Some o ->
            exists o2, live h2 p = Some o2
              /\ ref_count o2 = ref_count o - (if decide (p = old) then 1 else 0)
              /\ (p <> l -> data o2 = data o)
              /\ (p = l -> o2 = lo2)).
  { intros p o Hp. unfold h2. destruct (decide (p = l)) as [->|Hne].
    - assert (o = lo) by congruence. subst o.
      exists lo2. split; [eapply live_insert_same; exact Hl1|].
      split; [reflexivity|]. split; [congruence|reflexivity].
    - rewrite live_insert_other by congruence. rewrite (Hlive1 p o Hp).
      eexists. split; [reflexivity|]. split; [reflexivity|]. split; [reflexivity|congruence]. }
  destruct (Hlive2 v vo Hv) as (vo2 & Hv2 & Hvrc & Hvd & Hvl).
  rewrite (bind_eq _ _ _ _ _ (py_incref_live _ _ _ Hv2)).
  eexists. split; [reflexivity|].
  set (vo3 := mkObject (ref_count vo2 + 1) (data vo2)).
  assert (Hlive3 : forall p o, live h p = Some o ->
            exists o', live (<[v := Some vo3]> h2) p = Some o'
              /\ ref_count o' = ref_count o + (if decide (p = v) then 1 else 0)
                                - (if decide (p = old) then 1 else 0)
              /\ (p <> l -> data o' = data o)
              /\ (p = l -> data o' = data lo2)).
  { intros p o Hp. destruct (decide (p = v)) as [->|Hne].
    - assert (o = vo) by congruence. subst o.
      exists vo3. split; [eapply live_insert_same; exact Hv2|].
      split; [simpl; lia|]. split.
      + intros Hne. simpl. apply Hvd. exact Hne.
      + intros ->. simpl. rewrite (Hvl eq_refl). reflexivity.
    - destruct (Hlive2 p o Hp) as (o2 & Hp2 & Hrc2 & Hd2 & Hl2).
      exists o2. rewrite live_insert_other by congruence.
      split; [exact Hp2|]. split; [lia|]. split; [exact Hd2|].
      intros ->. rewrite (Hl2 eq_refl). reflexivity. }
  split.
  - destruct (Hlive3 l lo Hl) as (o' & Ho' & _ & _ & Hdl).
    exists o'. split; [exact Ho'|]. rewrite (Hdl eq_refl). reflexivity.
  - intros p o Hp. destruct (Hlive3 p o Hp) as (o' & Ho' & Hrc' & Hd' & _).
    exists o'. split; [exact Ho'|]. split; [exact Hrc'|exact Hd'].
Qed.

(** [py_list_append], with the capacity it leaves. *)
Lemma py_list_append_capacity h l it lo io items cap :
  live h l = Some lo ->
  data lo = ListData items cap ->
  live h it = Some io ->
  exists h' lo',
    py_list_append (Some l) (Some it) h = Done true h'
    /\ live h' l = Some lo'
    /\ data lo'
       = ListData (items ++ [it])
           (if (cap <=? length items)%nat then (cap * 2)%nat else cap)
    /\ (exists o', live h' it = Some o').
Proof.
  intros Hl Hd Hit. unfold py_list_append.
  rewrite (bind_eq _ _ _ _ _ (load_live _ _ _ Hl)). rewrite Hd.
  set (cap' := if (cap <=? length items)%nat then (cap * 2)%nat else cap).
  set (lo1 := mkObject (ref_count lo) (ListData (items ++ [it]) cap')).
  rewrite (bind_eq _ _ _ _ _ (store_live _ _ _ lo1 Hl)).
  assert (Hl1 : live (<[l := Some lo1]> h) l = Some lo1) by (eapply live_insert_same; exact Hl).
  destruct (Nat.eq_dec it l) as [->|Hne].
  - rewrite (bind_eq _ _ _ _ _ (py_incref_live _ _ _ Hl1)).
    eexists _, _. split; [reflexivity|].
    split; [eapply live_insert_same; exact Hl1|]. split; [reflexivity|].
    eexists. eapply live_insert_same; exact Hl1.
  - assert (H1 : live (<[l := Some lo1]> h) it = Some io)
      by (rewrite live_insert_other by congruence; exact Hit).
    rewrite (bind_eq _ _ _ _ _ (py_incref_live _ _ _ H1)).
    exists (<[it := Some (mkObject (ref_count io + 1) (data io))]> (<[l := Some lo1]> h)), lo1.
    split; [reflexivity|].
    split; [rewrite live_insert_other by congruence; exact Hl1|]. split; [reflexivity|].
    eexists. eapply live_insert_same; exact H1.
Qed.

End ListAccess.

(** X2.  Reading a list slot: an index at or past the length gives
    NULL and changes nothing; an index inside gives the item of that slot
    with one more reference, and changes nothing else. *)
Theorem list_get_checks_bounds :
  (forall h l lo items cap i,
      live h l = Some lo ->
      data lo = ListData items cap ->
      (length items <= i)%nat ->
      Object.py_list_get (Some l) i h = Done None h)
  /\ (forall h l lo items cap i item io,
        live h l = Some lo ->
        data lo = ListData items cap ->
        items !! i = Some item ->
        live h item = Some io ->
        Object.py_list_get (Some l) i h
        = Done (Some item) (<[item := Some (mkObject (ref_count io + 1) (data io))]> h)).
Proof.
  split.
  - intros. eapply py_list_get_outside; eassumption.
  - intros. eapply py_list_get_inside; eassumption.
Qed.

(** X2 at a list of one number, read at index 1 and at index 0. *)
Lemma list_get_checks_bounds_witness :
  Object.py_list_get (Some 0%nat) 1
    [Some (mkObject 1 (ListData [1%nat] 8)); Some (mkObject 1 (NumberData 5))]
  = Done None [Some (mkObject 1 (ListData [1%nat] 8)); Some (mkObject 1 (NumberData 5))]
  /\ Object.py_list_get (Some 0%nat) 0
       [Some (mkObject 1 (ListData [1%nat] 8)); Some (mkObject 1 (NumberData 5))]
     = Done (Some 1%nat)
         (<[1%nat := Some (mkObject (1 + 1) (NumberData 5))]>
            [Some (mkObject 1 (ListData [1%nat] 8)); Some (mkObject 1 (NumberData 5))]).
Proof.
  split.
  - apply (proj1 list_get_checks_bounds _ 0%nat (mkObject 1 (ListData [1%nat] 8))
             [1%nat] 8%nat 1%nat).
    + reflexivity.
    + reflexivity.
    + simpl. lia.
  - apply (proj2 list_get_checks_bounds _ 0%nat (mkObject 1 (ListData [1%nat] 8))
             [1%nat] 8%nat 0%nat 1%nat (mkObject 1 (NumberData 5))).
    + reflexivity.
    + reflexivity.
    + reflexivity.
    + reflexivity.
Defined.

(** X3.  Writing a list slot: an index at or past the length is
    refused and changes nothing; an index inside puts the new item in the
    slot, takes one reference from the item that was there (here an item
    that is referenced from elsewhere too) and gives one to the new item,
    so that writing an item over itself leaves its count as it was; no
    other object changes. *)
Theorem list_set_swaps_one_reference :
  (forall fuel h l lo items cap i v,
      live h l = Some lo ->
      data lo = ListData items cap ->
      (length items <= i)%nat ->
      Object.py_list_set fuel (Some l) i v h = Done false h)
  /\ (forall fuel h l lo items cap i old oo v vo,
        live h l = Some lo ->
        data lo = ListData items cap ->
        items !! i = Some old ->
        live h old = Some oo ->
        1 < ref_count oo ->
        live h v = Some vo ->
        exists h',
          Object.py_list_set (S fuel) (Some l) i (Some v) h = Done true h'
          /\ (exists lo', live h' l = Some lo' /\ data lo' = ListData (<[i := v]> items) cap)
          /\ (forall p o, live h p = Some o ->
                exists o',
                  live h' p = Some o'
                  /\ ref_count o'
                     = ref_count o + (if decide (p = v) then 1 else 0)
                       - (if decide (p = old) then 1 else 0)
                  /\ (p <> l -> data o' = data o))).
Proof.
  split.
  - intros. eapply py_list_set_outside; eassumption.
  - intros. eapply py_list_set_inside; eassumption.
Qed.

(** X3 at a list of one number held by a variable too, written
    with another number, and at an index past the end. *)
Lemma list_set_swaps_one_reference_witness :
  Object.py_list_set 1 (Some 0%nat) 3 (Some 2%nat)
    [Some (mkObject 1 (ListData [1%nat] 8)); Some (mkObject 2 (NumberData 5));
     Some (mkObject 1 (NumberData 6))]
  = Done false
      [Some (mkObject 1 (ListData [1%nat] 8)); Some (mkObject 2 (NumberData 5));
       Some (mkObject 1 (NumberData 6))]
  /\ exists h',
       Object.py_list_set 1 (Some 0%nat) 0 (Some 2%nat)
         [Some (mkObject 1 (ListData [1%nat] 8)); Some (mkObject 2 (NumberData 5));
          Some (mkObject 1 (NumberData 6))]
       = Done true h'
       /\ exists lo', live h' 0%nat = Some lo'
                      /\ data lo' = ListData (<[0%nat := 2%nat]> [1%nat]) 8.
Proof.
  split.
  - apply (proj1 list_set_swaps_one_reference 1%nat _ 0%nat
             (mkObject 1 (ListData [1%nat] 8)) [1%nat] 8%nat 3%nat (Some 2%nat)).
    + reflexivity.
    + reflexivity.
    + simpl. lia.
  - destruct (proj2 list_set_swaps_one_reference 0%nat
                [Some (mkObject 1 (ListData [1%nat] 8)); Some (mkObject 2 (NumberData 5));
                 Some (mkObject 1 (NumberData 6))]
                0%nat (mkObject 1 (ListData [1%nat] 8)) [1%nat] 8%nat 0%nat 1%nat
                (mkObject 2 (NumberData 5)) 2%nat (mkObject 1 (NumberData 6))
                eq_refl eq_refl eq_refl eq_refl ltac:(simpl; lia) eq_refl)
      as (h' & E & Hl & _).
    exists h'. split; [exact E | exact Hl].
Defined.

(** X4.  After [py_list_append] the list is one longer, the item
    is what [py_list_get] finds at the old length, and nothing is found
    past it.  The slot written is inside the array: a list whose length is
    within its capacity (8 for a new list) keeps it so, the capacity
    doubling when the array is full. *)
Theorem list_append_then_read :
  forall h l it lo io items cap,
    live h l = Some lo ->
    data lo = ListData items cap ->
    live h it = Some io ->
    exists h1,
      Object.py_list_append (Some l) (Some it) h = Done true h1
      /\ Object.py_list_length (Some l) h1 = Done (S (length items)) h1
      /\ (exists h2, Object.py_list_get (Some l) (length items) h1 = Done (Some it) h2)
      /\ (forall i, (length items < i)%nat ->
                    Object.py_list_get (Some l) i h1 = Done None h1)
      /\ ((0 < cap)%nat -> (length items <= cap)%nat ->
          exists lo1 cap1,
            live h1 l = Some lo1
            /\ data lo1 = ListData (items ++ [it]) cap1
            /\ (length (items ++ [it]) <= cap1)%nat
            /\ (cap1 = cap \/ cap1 = (2 * cap)%nat)).
Proof.
  intros h l it lo io items cap Hl Hd Hit.
  destruct (py_list_append_capacity h l it lo io items cap Hl Hd Hit)
    as (h1 & lo1 & E & Hl1 & Hd1 & (io1 & Hit1)).
  exists h1. split; [exact E|]. split; [|split; [|split]].
  - unfold Object.py_list_length.
    rewrite (bind_eq _ _ _ _ _ (load_live _ _ _ Hl1)). rewrite Hd1.
    rewrite length_app. simpl. rewrite Nat.add_1_r. reflexivity.
  - eexists. eapply py_list_get_inside; [exact Hl1 | exact Hd1 | | exact Hit1].
    rewrite lookup_app_r by lia. rewrite Nat.sub_diag. reflexivity.
  - intros i Hi. eapply py_list_get_outside; [exact Hl1 | exact Hd1 |].
    rewrite length_app. simpl. lia.
  - intros Hcap Hlen. eexists lo1, _. split; [exact Hl1|]. split; [exact Hd1|].
    rewrite length_app. simpl.
    destruct (Nat.leb_spec cap (length items)); split; first [lia | auto].
Qed.

(** X4 at a new list and a number. *)
Lemma list_append_then_read_witness :
  exists h1,
    Object.py_list_append (Some 0%nat) (Some 1%nat)
      [Some (mkObject 1 (ListData [] 8)); Some (mkObject 1 (NumberData 5))]
    = Done true h1
    /\ Object.py_list_length (Some 0%nat) h1 = Done 1%nat h1
    /\ exists h2, Object.py_list_get (Some 0%nat) 0 h1 = Done (Some 1%nat) h2.
Proof.
  destruct (list_append_then_read
              [Some (mkObject 1 (ListData [] 8)); Some (mkObject 1 (NumberData 5))]
              0%nat 1%nat (mkObject 1 (ListData [] 8)) (mkObject 1 (NumberData 5)) [] 8%nat
              eq_refl eq_refl eq_refl)
    as (h1 & E & Hlen & Hget & _).
  exists h1. split; [exact E|]. split; [exact Hlen | exact Hget].
Defined.

(** X5.  A list that holds itself is never freed.  Appending a list
    to itself gives it a reference of its own; when its only owner
    releases it afterwards, [py_decref] stops at a count of one, no
    destructor runs, and the list stays in the heap with itself in its
    last slot and nothing else referring to it. *)
Theorem self_containing_list_is_never_freed :
  forall fuel h l lo items cap,
    live h l = Some lo ->
    data lo = ListData items cap ->
    ref_count lo = 1 ->
    exists h1 h2 lo2 cap2,
      Object.py_list_append (Some l) (Some l) h = Done true h1
      /\ Object.py_decref (S fuel) (Some l) h1 = Done tt h2
      /\ live h2 l = Some lo2
      /\ ref_count lo2 = 1
      /\ data lo2 = ListData (items ++ [l]) cap2
      /\ (forall p, p <> l -> live h2 p = live h p).
Proof.
  intros fuel h l lo items cap Hl Hd Hrc.
  destruct (py_list_append_spec h l l lo lo items cap Hl Hd Hl)
    as (h1 & E & (o1 & Ho1 & Hrc1) & (lo1 & cap1 & Hl1 & Hd1) & Hothers).
  assert (o1 = lo1) by congruence. subst o1.
  exists h1, (<[l := Some (mkObject (ref_count lo1 - 1) (data lo1))]> h1),
    (mkObject (ref_count lo1 - 1) (data lo1)), cap1.
  split; [exact E|]. split; [|split; [|split; [|split]]].
  - apply (py_decref_alive fuel h1 l lo1 Hl1). lia.
  - eapply live_insert_same. exact Hl1.
  - simpl. lia.
  - exact Hd1.
  - intros p Hp. rewrite live_insert_other by congruence. apply Hothers; exact Hp.
Qed.

(** X5 at a new list. *)
Lemma self_containing_list_is_never_freed_witness :
  exists h1 h2 lo2 cap2,
    Object.py_list_append (Some 0%nat) (Some 0%nat) [Some (mkObject 1 (ListData [] 8))]
    = Done true h1
    /\ Object.py_decref 1 (Some 0%nat) h1 = Done tt h2
    /\ live h2 0%nat = Some lo2
    /\ ref_count lo2 = 1
    /\ data lo2 = ListData ([] ++ [0%nat]) cap2
    /\ (forall p, p <> 0%nat -> live h2 p = live [Some (mkObject 1 (ListData [] 8))] p).
Proof.
  apply (self_containing_list_is_never_freed 0%nat [Some (mkObject 1 (ListData [] 8))]
           0%nat (mkObject 1 (ListData [] 8)) [] 8%nat).
  - reflexivity.
  - reflexivity.
  - reflexivity.
Defined.

(* ================================================================== *)
(** * Further properties of dictionaries *)

Section DictFacts.
Import Object.

Lemma find_from_other_key ko items i h :
  Interpreter.is_string ko = false ->
  py_dict_find_from ko items i h = Done (-1) h.
Proof.
  unfold Interpreter.is_string. intros Hk. revert i.
  induction items as [|[k v] rest IH]; intros i; simpl; [reflexivity|].
  destruct (data ko); try discriminate; apply IH.
Qed.

Lemma find_from_string_key ko s items i h :
  data ko = StringData s ->
  keys_live h items ->
  py_dict_find_from ko items i h = Done (first_key h s items i) h.
Proof.
  intros Hk. revert i. induction items as [|[k v] rest IH]; intros i Hlive; simpl.
  - reflexivity.
  - rewrite Hk.
    destruct (Hlive k v ltac:(left)) as (o & Ho).
    rewrite (bind_eq _ _ _ _ _ (load_live _ _ _ Ho)).
    unfold string_at. rewrite Ho.
    assert (Hrest : keys_live h rest)
      by (intros k' v' Hin; apply (Hlive k' v'); right; exact Hin).
    destruct (data o); try (apply IH; exact Hrest).
    destruct (String.eqb s value); [reflexivity | apply IH; exact Hrest].
Qed.

Lemma first_key_range h s items i :
  first_key h s items i = -1
  \/ (i <= first_key h s items i < i + Z.of_nat (length items)).
Proof.
  revert i. induction items as [|[k v] rest IH]; intros i; simpl; [left; reflexivity|].
  destruct (string_at h k) as [s'|].
  - destruct (String.eqb s s'); [right; lia|].
    destruct (IH (i + 1)) as [H|H]; [left; exact H | right; lia].
  - destruct (IH (i + 1)) as [H|H]; [left; exact H | right; lia].
Qed.

Lemma first_key_found h s items i j :
  0 <= i ->
  first_key h s items i = j ->
  0 <= j ->
  exists k v, items !! Z.to_nat (j - i) = Some (k, v) /\ string_at h k = Some s.
Proof.
  revert i. induction items as [|[k v] rest IH]; intros i Hi H Hj; simpl in H; [lia|].
  assert (Hnext : first_key h s rest (i + 1) = j ->
                  exists k0 v0, ((k, v) :: rest) !! Z.to_nat (j - i) = Some (k0, v0)
                                /\ string_at h k0 = Some s).
  { intros H'. destruct (IH (i + 1) ltac:(lia) H' Hj) as (k0 & v0 & Hl & Hs).
    exists k0, v0. split; [|exact Hs].
    destruct (first_key_range h s rest (i + 1)) as [E|E]; [lia|].
    replace (Z.to_nat (j - i)) with (S (Z.to_nat (j - (i + 1)))) by lia. exact Hl. }
  destruct (string_at h k) as [s'|] eqn:Hk; [|apply Hnext; exact H].
  destruct (String.eqb_spec s s') as [->|Hne]; [|apply Hnext; exact H].
  subst j. exists k, v. rewrite Z.sub_diag. split; [reflexivity | exact Hk].
Qed.

Lemma first_key_app_new h s items k v i :
  first_key h s items i = -1 ->
  0 <= i ->
  string_at h k = Some s ->
  first_key h s (items ++ [(k, v)]) i = i + Z.of_nat (length items).
Proof.
  revert i. induction items as [|[k0 v0] rest IH]; intros i H Hi Hk; simpl in *.
  - rewrite Hk, String.eqb_refl. lia.
  - assert (Hnext : first_key h s rest (i + 1) = -1 ->
                    first_key h s (rest ++ [(k, v)]) (i + 1)
                    = i + Z.pos (Pos.of_succ_nat (length rest)))
      by (intros H'; rewrite (IH (i + 1) H' ltac:(lia) Hk); lia).
    destruct (string_at h k0) as [s'|]; [|apply Hnext; exact H].
    destruct (String.eqb s s'); [lia | apply Hnext; exact H].
Qed.

Lemma first_key_ext h h' s items i :
  (forall k v, (k, v) ∈ items -> string_at h' k = string_at h k) ->
  first_key h' s items i = first_key h s items i.
Proof.
  revert i. induction items as [|[k v] rest IH]; intros i Hsame; simpl; [reflexivity|].
  rewrite (Hsame k v ltac:(left)).
  assert (Hrest : forall k' v', (k', v') ∈ rest -> string_at h' k' = string_at h k')
    by (intros k' v' Hin; apply (Hsame k' v'); right; exact Hin).
  destruct (string_at h k) as [s'|]; [destruct (String.eqb s s'); [reflexivity|]|];
    apply IH; exact Hrest.
Qed.

Lemma first_key_insert_value h s items i n k v :
  items !! n = Some (k, v) ->
  forall v', first_key h s (<[n := (k, v')]> items) i = first_key h s items i.
Proof.
  revert i n. induction items as [|[k0 v0] rest IH]; intros i n Hn v'; [discriminate|].
  destruct n as [|n]; simpl in *.
  - inversion Hn; subst. reflexivity.
  - rewrite (IH (i + 1) n Hn v'). reflexivity.
Qed.

(** A change of reference count, or of the items of a dictionary, changes
    no text and frees nothing. *)
Lemma string_at_insert h a o o' p :
  live h a = Some o ->
  (forall s, data o' = StringData s <-> data o = StringData s) ->
  string_at (<[a := Some o']> h) p = string_at h p.
Proof.
  intros Ha Hd. unfold string_at. destruct (Nat.eq_dec a p) as [->|Hne].
  - rewrite (live_insert_same _ _ _ _ Ha), Ha.
    destruct (data o') as [| s' | |] eqn:E'; destruct (data o) as [| s | |] eqn:E;
      try reflexivity;
      try (pose proof (proj2 (Hd _) eq_refl) as H; discriminate H);
      try (pose proof (proj1 (Hd _) eq_refl) as H; discriminate H).
    pose proof (proj1 (Hd _) eq_refl) as H. inversion H. reflexivity.
  - rewrite live_insert_other by exact Hne. reflexivity.
Qed.

End DictFacts.

Section DictOperations.
Import Object.

Lemma keeps_refl d h : keeps d h h.
Proof. intros p o H. exists o. split; [exact H | reflexivity]. Qed.

Lemma keeps_trans d h1 h2 h3 : keeps d h1 h2 -> keeps d h2 h3 -> keeps d h1 h3.
Proof.
  intros H12 H23 p o Hp.
  destruct (H12 p o Hp) as (o2 & Hp2 & Hd2).
  destruct (H23 p o2 Hp2) as (o3 & Hp3 & Hd3).
  exists o3. split; [exact Hp3|]. intros Hne. rewrite (Hd3 Hne). apply Hd2. exact Hne.
Qed.

Lemma keeps_insert_count d h a o rc :
  live h a = Some o -> keeps d h (<[a := Some (mkObject rc (data o))]> h).
Proof.
  intros Ha p o' Hp. destruct (Nat.eq_dec a p) as [->|Hne].
  - assert (o' = o) by congruence. subst o'.
    eexists. split; [eapply live_insert_same; exact Ha | reflexivity].
  - exists o'. rewrite live_insert_other by exact Hne. split; [exact Hp | reflexivity].
Qed.

Lemma keeps_insert_dict d h o o' :
  live h d = Some o -> keeps d h (<[d := Some o']> h).
Proof.
  intros Hd p o0 Hp. destruct (Nat.eq_dec d p) as [->|Hne].
  - exists o'. split; [eapply live_insert_same; exact Hd | congruence].
  - exists o0. rewrite live_insert_other by exact Hne. split; [exact Hp | reflexivity].
Qed.

Lemma keeps_string_at d h h' od od' items items' cap cap' :
  keeps d h h' ->
  live h d = Some od -> data od = DictData items cap ->
  live h' d = Some od' -> data od' = DictData items' cap' ->
  forall p o, live h p = Some o -> string_at h' p = string_at h p.
Proof.
  intros Hk Hd Hdd Hd' Hdd' p o Hp. unfold string_at.
  destruct (Nat.eq_dec p d) as [->|Hne].
  - rewrite Hd, Hd', Hdd, Hdd'. reflexivity.
  - destruct (Hk p o Hp) as (o' & Hp' & Hdata). rewrite Hp, Hp', (Hdata Hne). reflexivity.
Qed.

Lemma keeps_keys_live d h h' items : keeps d h h' -> keys_live h items -> keys_live h' items.
Proof.
  intros Hk Hl k v Hin. destruct (Hl k v Hin) as (o & Ho).
  destruct (Hk k o Ho) as (o' & Ho' & _). exists o'. exact Ho'.
Qed.

(** [py_dict_find_index] on a dictionary whose keys are live. *)
Lemma py_dict_find_index_spec h d od items cap k ko :
  live h d = Some od ->
  data od = DictData items cap ->
  live h k = Some ko ->
  keys_live h items ->
  py_dict_find_index d k h
  = Done (match data ko with StringData s => first_key h s items 0 | _ => -1 end) h.
Proof.
  intros Hd Hdd Hk Hlive. unfold py_dict_find_index.
  rewrite (bind_eq _ _ _ _ _ (load_live _ _ _ Hd)). rewrite Hdd.
  destruct items as [|item rest] eqn:E.
  - destruct (data ko); reflexivity.
  - rewrite (bind_eq _ _ _ _ _ (load_live _ _ _ Hk)).
    destruct (data ko) as [| s | |] eqn:Hko;
      try (apply find_from_other_key; unfold Interpreter.is_string; rewrite Hko; reflexivity).
    apply find_from_string_key; assumption.
Qed.

Lemma py_dict_get_spec h d od items cap k ko :
  live h d = Some od ->
  data od = DictData items cap ->
  live h k = Some ko ->
  keys_live h items ->
  let index := match data ko with StringData s => first_key h s items 0 | _ => -1 end in
  py_dict_get (Some d) (Some k) h
  = if 0 <=? index then
      match items !! Z.to_nat index with
      | Some (_, value) => bind (py_incref (Some value)) (fun _ => ret (Some value)) h
      | None => Undefined
      end
    else Done None h.
Proof.
  intros Hd Hdd Hk Hlive index. unfold py_dict_get.
  rewrite (bind_eq _ _ _ _ _ (load_live _ _ _ Hd)). rewrite Hdd.
  rewrite (bind_eq _ _ _ _ _ (py_dict_find_index_spec h d od items cap k ko Hd Hdd Hk Hlive)).
  fold index. destruct (0 <=? index); [|reflexivity].
  destruct (items !! Z.to_nat index) as [[k1 v1]|]; reflexivity.
Qed.

(** [py_dict_set] with a key that [py_dict_find_index] does not find. *)
Lemma py_dict_set_new fuel h d od items cap k ko v vo :
  live h d = Some od ->
  data od = DictData items cap ->
  live h k = Some ko ->
  live h v = Some vo ->
  py_dict_find_index d k h = Done (-1) h ->
  exists h1 od1 cap1,
    py_dict_set fuel (Some d) (Some k) (Some v) h = Done true h1
    /\ live h1 d = Some od1
    /\ data od1 = DictData (items ++ [(k, v)]) cap1
    /\ keeps d h h1.
Proof.
  intros Hd Hdd Hk Hv Hfind. unfold py_dict_set.
  rewrite (bind_eq _ _ _ _ _ (load_live _ _ _ Hd)). rewrite Hdd.
  rewrite (bind_eq _ _ _ _ _ Hfind). cbn [Z.leb Z.compare].
  set (cap1 := if (cap <=? length items)%nat then (cap * 2)%nat else cap).
  set (od1 := mkObject (ref_count od) (DictData (items ++ [(k, v)]) cap1)).
  rewrite (bind_eq _ _ _ _ _ (store_live _ _ _ od1 Hd)).
  set (h1 := <[d := Some od1]> h).
  assert (K1 : keeps d h h1) by (apply keeps_insert_dict with (o := od); exact Hd).
  assert (Hd1 : live h1 d = Some od1) by (eapply live_insert_same; exact Hd).
  destruct (K1 k ko Hk) as (ko1 & Hk1 & _).
  rewrite (bind_eq _ _ _ _ _ (py_incref_live _ _ _ Hk1)).
  set (h2 := <[k := Some (mkObject (ref_count ko1 + 1) (data ko1))]> h1).
  assert (K2 : keeps d h1 h2) by (apply keeps_insert_count; exact Hk1).
  assert (Hd2 : exists od2, live h2 d = Some od2 /\ data od2 = data od1).
  { unfold h2. destruct (Nat.eq_dec k d) as [->|Hne].
    - assert (ko1 = od1) by congruence. subst ko1.
      eexists. split; [eapply live_insert_same; exact Hd1 | reflexivity].
    - exists od1. rewrite live_insert_other by exact Hne. split; [exact Hd1 | reflexivity]. }
  destruct Hd2 as (od2 & Hd2 & Hdd2).
  destruct (K2 v) with (o := match live h1 v with Some o => o | None => vo end)
    as (vo2 & Hv2 & _).
  { destruct (K1 v vo Hv) as (vo1 & Hv1 & _). rewrite Hv1. reflexivity. }
  rewrite (bind_eq _ _ _ _ _ (py_incref_live _ _ _ Hv2)).
  set (h3 := <[v := Some (mkObject (ref_count vo2 + 1) (data vo2))]> h2).
  assert (K3 : keeps d h2 h3) by (apply keeps_insert_count; exact Hv2).
  assert (Hd3 : exists od3, live h3 d = Some od3 /\ data od3 = data od1).
  { unfold h3. destruct (Nat.eq_dec v d) as [->|Hne].
    - assert (vo2 = od2) by congruence. subst vo2.
      eexists. split; [eapply live_insert_same; exact Hd2 | exact Hdd2].
    - exists od2. rewrite live_insert_other by exact Hne. split; [exact Hd2 | exact Hdd2]. }
  destruct Hd3 as (od3 & Hd3 & Hdd3).
  exists h3, od3, cap1. split; [reflexivity|]. split; [exact Hd3|]. split; [exact Hdd3|].
  eapply keeps_trans; [exact K1|]. eapply keeps_trans; [exact K2 | exact K3].
Qed.

(** [py_dict_set] with a key found at [index], whose value is referenced
    from elsewhere too. *)
Lemma py_dict_set_found fuel h d od items cap k ko s v vo index k1 old oo :
  live h d = Some od ->
  data od = DictData items cap ->
  live h k = Some ko ->
  data ko = StringData s ->
  live h v = Some vo ->
  keys_live h items ->
  first_key h s items 0 = Z.of_nat index ->
  items !! index = Some (k1, old) ->
  live h old = Some oo ->
  1 < ref_count oo ->
  exists h1 od1,
    py_dict_set (S fuel) (Some d) (Some k) (Some v) h = Done true h1
    /\ live h1 d = Some od1
    /\ data od1 = DictData (<[index := (k1, v)]> items) cap
    /\ keeps d h h1
    /\ (old <> v -> old <> d ->
        live h1 old = Some (mkObject (ref_count oo - 1) (data oo))).
Proof.
  intros Hd Hdd Hk Hks Hv Hlive Hidx Hitem Hold Hrc. unfold py_dict_set.
  rewrite (bind_eq _ _ _ _ _ (load_live _ _ _ Hd)). rewrite Hdd.
  rewrite (bind_eq _ _ _ _ _ (py_dict_find_index_spec h d od items cap k ko Hd Hdd Hk Hlive)).
  rewrite Hks, Hidx.
  destruct (Z.leb_spec 0 (Z.of_nat index)) as [_|?]; [|lia].
  rewrite Nat2Z.id, Hitem.
  rewrite (bind_eq _ _ _ _ _ (py_decref_alive fuel _ _ _ Hold Hrc)).
  set (h1 := <[old := Some (mkObject (ref_count oo - 1) (data oo))]> h).
  assert (K1 : keeps d h h1) by (apply keeps_insert_count; exact Hold).
  assert (Hd1 : exists od1, live h1 d = Some od1 /\ data od1 = data od).
  { unfold h1. destruct (Nat.eq_dec old d) as [->|Hne].
    - assert (oo = od) by congruence. subst oo.
      eexists. split; [eapply live_insert_same; exact Hd | reflexivity].
    - exists od. rewrite live_insert_other by exact Hne. split; [exact Hd | reflexivity]. }
  destruct Hd1 as (od1 & Hd1 & Hdd1).
  rewrite (bind_eq _ _ _ _ _ (load_live _ _ _ Hd1)). rewrite Hdd1, Hdd, Hitem.
  set (od2 := mkObject (ref_count od1) (DictData (<[index := (k1, v)]> items) cap)).
  rewrite (bind_eq _ _ _ _ _ (store_live _ _ _ od2 Hd1)).
  set (h2 := <[d := Some od2]> h1).
  assert (K2 : keeps d h1 h2) by (apply keeps_insert_dict with (o := od1); exact Hd1).
  assert (Hd2 : live h2 d = Some od2) by (eapply live_insert_same; exact Hd1).
  destruct (K1 v vo Hv) as (vo1 & Hv1 & _).
  destruct (K2 v vo1 Hv1) as (vo2 & Hv2 & _).
  rewrite (bind_eq _ _ _ _ _ (py_incref_live _ _ _ Hv2)).
  set (h3 := <[v := Some (mkObject (ref_count vo2 + 1) (data vo2))]> h2).
  assert (K3 : keeps d h2 h3) by (apply keeps_insert_count; exact Hv2).
  assert (Hd3 : exists od3, live h3 d = Some od3 /\ data od3 = data od2).
  { unfold h3. destruct (Nat.eq_dec v d) as [->|Hne].
    - assert (vo2 = od2) by congruence. subst vo2.
      eexists. split; [eapply live_insert_same; exact Hd2 | reflexivity].
    - exists od2. rewrite live_insert_other by exact Hne. split; [exact Hd2 | reflexivity]. }
  destruct Hd3 as (od3 & Hd3 & Hdd3).
  exists h3, od3. split; [reflexivity|]. split; [exact Hd3|]. split; [exact Hdd3|]. split.
  - eapply keeps_trans; [exact K1|]. eapply keeps_trans; [exact K2 | exact K3].
  - intros Hov Hod. unfold h3, h2, h1.
    rewrite !live_insert_other by congruence. eapply live_insert_same. exact Hold.
Qed.

(** [py_dict_set] with a key found at [index], whose value is a number or
    a string that the dictionary alone holds: the old value is freed, and
    from there on every other object is kept. *)
Lemma py_dict_set_found_last fuel h d od items cap k ko s v vo index k1 old oo :
  live h d = Some od ->
  data od = DictData items cap ->
  live h k = Some ko ->
  data ko = StringData s ->
  live h v = Some vo ->
  keys_live h items ->
  first_key h s items 0 = Z.of_nat index ->
  items !! index = Some (k1, old) ->
  live h old = Some oo ->
  ref_count oo <= 1 ->
  is_leaf oo = true ->
  old <> v ->
  exists h1 od1,
    py_dict_set (S fuel) (Some d) (Some k) (Some v) h = Done true h1
    /\ live h1 d = Some od1
    /\ data od1 = DictData (<[index := (k1, v)]> items) cap
    /\ keeps d (<[old := None]> h) h1
    /\ live h1 old = None
    /\ old <> d.
Proof.
  intros Hd Hdd Hk Hks Hv Hlive Hidx Hitem Hold Hrc Hleaf Hov. unfold py_dict_set.
  assert (Hod : old <> d).
  { intros ->. assert (oo = od) by congruence. subst oo.
    unfold is_leaf in Hleaf. rewrite Hdd in Hleaf. discriminate. }
  rewrite (bind_eq _ _ _ _ _ (load_live _ _ _ Hd)). rewrite Hdd.
  rewrite (bind_eq _ _ _ _ _ (py_dict_find_index_spec h d od items cap k ko Hd Hdd Hk Hlive)).
  rewrite Hks, Hidx.
  destruct (Z.leb_spec 0 (Z.of_nat index)) as [_|?]; [|lia].
  rewrite Nat2Z.id, Hitem.
  rewrite (bind_eq _ _ _ _ _ (py_decref_leaf_freed fuel _ _ _ Hold Hleaf Hrc)).
  set (h1 := <[old := None]> h).
  assert (Hd1 : live h1 d = Some od).
  { unfold h1. rewrite live_insert_other by exact Hod. exact Hd. }
  assert (Hv1 : live h1 v = Some vo).
  { unfold h1. rewrite live_insert_other by exact Hov. exact Hv. }
  rewrite (bind_eq _ _ _ _ _ (load_live _ _ _ Hd1)). rewrite Hdd, Hitem.
  set (od2 := mkObject (ref_count od) (DictData (<[index := (k1, v)]> items) cap)).
  rewrite (bind_eq _ _ _ _ _ (store_live _ _ _ od2 Hd1)).
  set (h2 := <[d := Some od2]> h1).
  assert (K2 : keeps d h1 h2) by (apply keeps_insert_dict with (o := od); exact Hd1).
  assert (Hd2 : live h2 d = Some od2) by (eapply live_insert_same; exact Hd1).
  destruct (K2 v vo Hv1) as (vo2 & Hv2 & _).
  rewrite (bind_eq _ _ _ _ _ (py_incref_live _ _ _ Hv2)).
  set (h3 := <[v := Some (mkObject (ref_count vo2 + 1) (data vo2))]> h2).
  assert (K3 : keeps d h2 h3) by (apply keeps_insert_count; exact Hv2).
  assert (Hd3 : exists od3, live h3 d = Some od3 /\ data od3 = data od2).
  { unfold h3. destruct (Nat.eq_dec v d) as [->|Hne].
    - assert (vo2 = od2) by congruence. subst vo2.
      eexists. split; [eapply live_insert_same; exact Hd2 | reflexivity].
    - exists od2. rewrite live_insert_other by exact Hne. split; [exact Hd2 | reflexivity]. }
  destruct Hd3 as (od3 & Hd3 & Hdd3).
  exists h3, od3. split; [reflexivity|]. split; [exact Hd3|]. split; [exact Hdd3|].
  split; [eapply keeps_trans; [exact K2 | exact K3]|]. split; [|exact Hod].
  unfold h3, h2, h1. rewrite !live_insert_other by congruence. apply live_free_same.
Qed.

End DictOperations.

Section DictRoundTrips.
Import Object.

Lemma py_dict_size_spec h d od items cap :
  live h d = Some od -> data od = DictData items cap ->
  py_dict_size (Some d) h = Done (length items) h.
Proof.
  intros Hd Hdd. unfold py_dict_size.
  rewrite (bind_eq _ _ _ _ _ (load_live _ _ _ Hd)). rewrite Hdd. reflexivity.
Qed.

Lemma string_at_live h p s :
  string_at h p = Some s -> exists o, live h p = Some o /\ data o = StringData s.
Proof.
  unfold string_at. destruct (live h p) as [o|]; [|discriminate].
  destruct (data o) eqn:E; try discriminate. intros H. inversion H; subst.
  exists o. split; [reflexivity | exact E].
Qed.

(** What [py_dict_get] finds in a heap [h1] that [keeps] the objects of
    [h], for a key of text [s] found at [index] among the items. *)
Lemma py_dict_get_found h h1 d od od1 items items1 cap cap1 s k2 index k1 v vo :
  keeps d h h1 ->
  live h d = Some od -> data od = DictData items cap ->
  live h1 d = Some od1 -> data od1 = DictData items1 cap1 ->
  keys_live h items1 ->
  live h v = Some vo ->
  string_at h1 k2 = Some s ->
  first_key h s items1 0 = Z.of_nat index ->
  items1 !! index = Some (k1, v) ->
  exists h2, py_dict_get (Some d) (Some k2) h1 = Done (Some v) h2.
Proof.
  intros K Hd Hdd Hd1 Hdd1 Hlive Hv Hk2 Hidx Hitem.
  destruct (string_at_live _ _ _ Hk2) as (ko2 & Hko2 & Hs2).
  pose proof (keeps_keys_live d h h1 items1 K Hlive) as Hlive1.
  rewrite (py_dict_get_spec h1 d od1 items1 cap1 k2 ko2 Hd1 Hdd1 Hko2 Hlive1).
  rewrite Hs2.
  assert (Hsame : first_key h1 s items1 0 = first_key h s items1 0).
  { apply first_key_ext. intros k0 v0 Hin. destruct (Hlive k0 v0 Hin) as (o0 & Ho0).
    eapply (keeps_string_at d h h1); eassumption. }
  rewrite Hsame, Hidx.
  destruct (Z.leb_spec 0 (Z.of_nat index)) as [_|?]; [|lia].
  rewrite Nat2Z.id, Hitem.
  destruct (K v vo Hv) as (vo1 & Hv1 & _).
  rewrite (bind_eq _ _ _ _ _ (py_incref_live _ _ _ Hv1)). eexists. reflexivity.
Qed.

End DictRoundTrips.

(** X6.  A dictionary finds by text, among string keys.  In a
    dictionary whose keys are live objects: a key whose text is under no
    string key is not found, NULL is the answer and nothing changes;
    storing a value under such a key makes the dictionary one larger;
    storing under a text that is there replaces the value in place and
    leaves the size, and the value replaced gives up one reference: it
    stays when it is held elsewhere too, and it is freed when the
    dictionary alone held it (it is then a number or a string, neither the
    value stored nor one of the keys); and after either, looking up any
    string object of that text finds the value stored.  In the run, the
    number 5 is replaced by 6 under the key [a] and its cell is freed. *)
Theorem dict_set_then_get :
  (forall h d od items cap k ko s,
      live h d = Some od -> data od = DictData items cap ->
      live h k = Some ko -> data ko = StringData s ->
      keys_live h items ->
      first_key h s items 0 = -1 ->
      Object.py_dict_get (Some d) (Some k) h = Done None h)
  /\ (forall fuel h d od items cap k ko s v vo,
        live h d = Some od -> data od = DictData items cap ->
        live h k = Some ko -> data ko = StringData s ->
        live h v = Some vo ->
        keys_live h items ->
        first_key h s items 0 = -1 ->
        exists h1,
          Object.py_dict_set fuel (Some d) (Some k) (Some v) h = Done true h1
          /\ Object.py_dict_size (Some d) h1 = Done (S (length items)) h1
          /\ forall k2, string_at h1 k2 = Some s ->
               exists h2, Object.py_dict_get (Some d) (Some k2) h1 = Done (Some v) h2)
  /\ (forall fuel h d od items cap k ko s v vo index k1 old oo,
        live h d = Some od -> data od = DictData items cap ->
        live h k = Some ko -> data ko = StringData s ->
        live h v = Some vo ->
        keys_live h items ->
        first_key h s items 0 = Z.of_nat index ->
        items !! index = Some (k1, old) ->
        live h old = Some oo ->
        (ref_count oo <= 1 ->
         is_leaf oo = true /\ old <> v /\ forall k0 v0, (k0, v0) ∈ items -> k0 <> old) ->
        exists h1,
          Object.py_dict_set (S fuel) (Some d) (Some k) (Some v) h = Done true h1
          /\ Object.py_dict_size (Some d) h1 = Done (length items) h1
          /\ (old <> v -> old <> d -> live h1 old = released 1 oo)
          /\ forall k2, string_at h1 k2 = Some s ->
               exists h2, Object.py_dict_get (Some d) (Some k2) h1 = Done (Some v) h2)
  /\ heap_after 30 ("变量 d = 创建字典(); 变量 r = 字典设置(d, " ++ quote ++ "a" ++ quote
                    ++ ", 5); 变量 s = 字典设置(d, " ++ quote ++ "a" ++ quote ++ ", 6);")
     = Some [Some (mkObject 1 (DictData [(1%nat, 5%nat)] 8));
             Some (mkObject 1 (StringData "a")); None;
             Some (mkObject 1 (NumberData 1)); None;
             Some (mkObject 1 (NumberData 6)); Some (mkObject 1 (NumberData 1))].
Proof.
  split; [|split; [|split]].
  - intros h d od items cap k ko s Hd Hdd Hk Hks Hlive Hidx.
    rewrite (py_dict_get_spec h d od items cap k ko Hd Hdd Hk Hlive).
    rewrite Hks, Hidx. reflexivity.
  - intros fuel h d od items cap k ko s v vo Hd Hdd Hk Hks Hv Hlive Hidx.
    assert (Hfind : Object.py_dict_find_index d k h = Done (-1) h).
    { rewrite (py_dict_find_index_spec h d od items cap k ko Hd Hdd Hk Hlive).
      rewrite Hks, Hidx. reflexivity. }
    destruct (py_dict_set_new fuel h d od items cap k ko v vo Hd Hdd Hk Hv Hfind)
      as (h1 & od1 & cap1 & E & Hd1 & Hdd1 & K).
    exists h1. split; [exact E|]. split.
    + rewrite (py_dict_size_spec h1 d od1 _ cap1 Hd1 Hdd1).
      rewrite length_app. simpl. rewrite Nat.add_1_r. reflexivity.
    + intros k2 Hk2.
      assert (Hlive' : keys_live h (items ++ [(k, v)])).
      { intros k0 v0 Hin. apply elem_of_app in Hin as [Hin|Hin].
        - apply (Hlive k0 v0 Hin).
        - apply list_elem_of_singleton in Hin. inversion Hin; subst. exists ko. exact Hk. }
      eapply (py_dict_get_found h h1 d od od1 items (items ++ [(k, v)]) cap cap1 s k2
                (length items) k v vo); try eassumption.
      * rewrite (first_key_app_new h s items k v 0 Hidx ltac:(lia)); [lia|].
        unfold string_at. rewrite Hk, Hks. reflexivity.
      * rewrite lookup_app_r by lia. rewrite Nat.sub_diag. reflexivity.
  - intros fuel h d od items cap k ko s v vo index k1 old oo
           Hd Hdd Hk Hks Hv Hlive Hidx Hitem Hold Hlast.
    assert (Hlt : (index < length items)%nat) by (eapply lookup_lt_Some; exact Hitem).
    assert (Hkeys : forall hh, keys_live hh items ->
                               keys_live hh (<[index := (k1, v)]> items)).
    { intros hh Hhh k0 v0 Hin. apply list_elem_of_lookup in Hin as (n & Hn).
      destruct (Nat.eq_dec n index) as [->|Hne].
      - rewrite list_lookup_insert_eq in Hn by exact Hlt.
        inversion Hn; subst. apply (Hhh k0 old).
        apply list_elem_of_lookup. exists index. exact Hitem.
      - rewrite list_lookup_insert_ne in Hn by congruence.
        apply (Hhh k0 v0). apply list_elem_of_lookup. exists n. exact Hn. }
    destruct (Z.ltb_spec 1 (ref_count oo)) as [Hrc|Hrc].
    + (* the value replaced is held elsewhere too *)
      destruct (py_dict_set_found fuel h d od items cap k ko s v vo index k1 old oo
                  Hd Hdd Hk Hks Hv Hlive Hidx Hitem Hold Hrc)
        as (h1 & od1 & E & Hd1 & Hdd1 & K & Hold1).
      exists h1. split; [exact E|]. split; [|split].
      * rewrite (py_dict_size_spec h1 d od1 _ cap Hd1 Hdd1).
        rewrite length_insert. reflexivity.
      * intros Hov Hod. rewrite (Hold1 Hov Hod). unfold released.
        destruct (Z.leb_spec (ref_count oo) 1) as [?|_]; [lia|]. reflexivity.
      * intros k2 Hk2.
        eapply (py_dict_get_found h h1 d od od1 items (<[index := (k1, v)]> items) cap cap s k2
                  index k1 v vo); try eassumption.
        -- apply Hkeys. exact Hlive.
        -- rewrite (first_key_insert_value h s items 0 index k1 old Hitem). exact Hidx.
        -- apply list_lookup_insert_eq. exact Hlt.
    + (* the dictionary alone held the value replaced *)
      destruct (Hlast Hrc) as (Hleaf & Hov & Hnokey).
      destruct (py_dict_set_found_last fuel h d od items cap k ko s v vo index k1 old oo
                  Hd Hdd Hk Hks Hv Hlive Hidx Hitem Hold Hrc Hleaf Hov)
        as (h1 & od1 & E & Hd1 & Hdd1 & K & Hold1 & Hod).
      set (hf := <[old := None]> h) in *.
      assert (Hsame : forall k0 v0, (k0, v0) ∈ items -> live hf k0 = live h k0).
      { intros k0 v0 Hin. unfold hf. apply live_insert_other.
        intros Heq. apply (Hnokey k0 v0 Hin). symmetry. exact Heq. }
      assert (Hlivef : keys_live hf items).
      { intros k0 v0 Hin. rewrite (Hsame k0 v0 Hin). apply (Hlive k0 v0 Hin). }
      exists h1. split; [exact E|]. split; [|split].
      * rewrite (py_dict_size_spec h1 d od1 _ cap Hd1 Hdd1).
        rewrite length_insert. reflexivity.
      * intros _ _. rewrite Hold1. unfold released.
        destruct (Z.leb_spec (ref_count oo) 1) as [_|?]; [reflexivity | lia].
      * intros k2 Hk2.
        eapply (py_dict_get_found hf h1 d od od1 items (<[index := (k1, v)]> items) cap cap s k2
                  index k1 v vo); try eassumption.
        -- unfold hf. rewrite live_insert_other by exact Hod. exact Hd.
        -- apply Hkeys. exact Hlivef.
        -- unfold hf. rewrite live_insert_other by exact Hov. exact Hv.
        -- rewrite (first_key_insert_value hf s items 0 index k1 old Hitem).
           rewrite <- Hidx. apply first_key_ext.
           intros k0 v0 Hin. unfold string_at. rewrite (Hsame k0 v0 Hin). reflexivity.
        -- apply list_lookup_insert_eq. exact Hlt.
  - vm_compute. reflexivity.
Qed.

(** X6 at an empty dictionary, the key ["a"] and a number; and at
    a dictionary that alone holds the number under ["a"], which another
    number replaces. *)
Lemma dict_set_then_get_witness :
  (exists h1,
     Object.py_dict_set 1 (Some 0%nat) (Some 1%nat) (Some 2%nat)
       [Some (mkObject 1 (DictData [] 8)); Some (mkObject 1 (StringData "a"));
        Some (mkObject 1 (NumberData 5))]
     = Done true h1
     /\ Object.py_dict_size (Some 0%nat) h1 = Done 1%nat h1
     /\ forall k2, string_at h1 k2 = Some "a"%string ->
          exists h2, Object.py_dict_get (Some 0%nat) (Some k2) h1 = Done (Some 2%nat) h2)
  /\ (exists h1,
        Object.py_dict_set 1 (Some 0%nat) (Some 1%nat) (Some 3%nat)
          [Some (mkObject 1 (DictData [(1%nat, 2%nat)] 8)); Some (mkObject 2 (StringData "a"));
           Some (mkObject 1 (NumberData 5)); Some (mkObject 1 (NumberData 6))]
        = Done true h1
        /\ Object.py_dict_size (Some 0%nat) h1 = Done 1%nat h1
        /\ live h1 2%nat = None
        /\ forall k2, string_at h1 k2 = Some "a"%string ->
             exists h2, Object.py_dict_get (Some 0%nat) (Some k2) h1 = Done (Some 3%nat) h2).
Proof.
  split.
  - apply (proj1 (proj2 dict_set_then_get) 1%nat
             [Some (mkObject 1 (DictData [] 8)); Some (mkObject 1 (StringData "a"));
              Some (mkObject 1 (NumberData 5))]
             0%nat (mkObject 1 (DictData [] 8)) [] 8%nat 1%nat (mkObject 1 (StringData "a"))
             "a"%string 2%nat (mkObject 1 (NumberData 5))).
    + reflexivity.
    + reflexivity.
    + reflexivity.
    + reflexivity.
    + reflexivity.
    + intros k v Hin. apply elem_of_nil in Hin. destruct Hin.
    + reflexivity.
  - destruct (proj1 (proj2 (proj2 dict_set_then_get)) 0%nat
                [Some (mkObject 1 (DictData [(1%nat, 2%nat)] 8));
                 Some (mkObject 2 (StringData "a"));
                 Some (mkObject 1 (NumberData 5)); Some (mkObject 1 (NumberData 6))]
                0%nat (mkObject 1 (DictData [(1%nat, 2%nat)] 8)) [(1%nat, 2%nat)] 8%nat
                1%nat (mkObject 2 (StringData "a")) "a"%string
                3%nat (mkObject 1 (NumberData 6)) 0%nat 1%nat 2%nat (mkObject 1 (NumberData 5)))
      as (h1 & E & Hsize & Hold & Hget).
    + reflexivity.
    + reflexivity.
    + reflexivity.
    + reflexivity.
    + reflexivity.
    + intros k v Hin. apply list_elem_of_singleton in Hin. inversion Hin; subst.
      eexists. reflexivity.
    + reflexivity.
    + reflexivity.
    + reflexivity.
    + intros _. split; [reflexivity|]. split; [lia|].
      intros k0 v0 Hin. apply list_elem_of_singleton in Hin. inversion Hin; subst. lia.
    + exists h1. split; [exact E|]. split; [exact Hsize|]. split; [|exact Hget].
      apply Hold; lia.
Defined.

(** X7.  A key that is not a string is never found, whatever the
    dictionary holds: looking it up gives NULL and changes nothing, and
    storing under it always adds an item, so that storing twice under the
    same number leaves two items, neither of which can be read back. *)
Theorem dict_never_finds_other_keys :
  (forall h d od items cap k ko,
      live h d = Some od -> data od = DictData items cap ->
      live h k = Some ko -> Interpreter.is_string ko = false ->
      Object.py_dict_get (Some d) (Some k) h = Done None h)
  /\ (forall fuel h d od items cap k ko v vo,
        live h d = Some od -> data od = DictData items cap ->
        live h k = Some ko -> Interpreter.is_string ko = false ->
        live h v = Some vo ->
        exists h1 od1 cap1,
          Object.py_dict_set fuel (Some d) (Some k) (Some v) h = Done true h1
          /\ live h1 d = Some od1
          /\ data od1 = DictData (items ++ [(k, v)]) cap1
          /\ Object.py_dict_get (Some d) (Some k) h1 = Done None h1).
Proof.
  assert (Hfind : forall h d od items cap k ko,
            live h d = Some od -> data od = DictData items cap ->
            live h k = Some ko -> Interpreter.is_string ko = false ->
            Object.py_dict_find_index d k h = Done (-1) h).
  { intros h d od items cap k ko Hd Hdd Hk Hns. unfold Object.py_dict_find_index.
    rewrite (bind_eq _ _ _ _ _ (load_live _ _ _ Hd)). rewrite Hdd.
    destruct items as [|item rest]; [reflexivity|].
    rewrite (bind_eq _ _ _ _ _ (load_live _ _ _ Hk)).
    apply find_from_other_key. exact Hns. }
  assert (Hget : forall h d od items cap k ko,
            live h d = Some od -> data od = DictData items cap ->
            live h k = Some ko -> Interpreter.is_string ko = false ->
            Object.py_dict_get (Some d) (Some k) h = Done None h).
  { intros h d od items cap k ko Hd Hdd Hk Hns. unfold Object.py_dict_get.
    rewrite (bind_eq _ _ _ _ _ (load_live _ _ _ Hd)). rewrite Hdd.
    rewrite (bind_eq _ _ _ _ _ (Hfind h d od items cap k ko Hd Hdd Hk Hns)). reflexivity. }
  split; [exact Hget|].
  intros fuel h d od items cap k ko v vo Hd Hdd Hk Hns Hv.
  destruct (py_dict_set_new fuel h d od items cap k ko v vo Hd Hdd Hk Hv
              (Hfind h d od items cap k ko Hd Hdd Hk Hns))
    as (h1 & od1 & cap1 & E & Hd1 & Hdd1 & K).
  exists h1, od1, cap1. split; [exact E|]. split; [exact Hd1|]. split; [exact Hdd1|].
  destruct (K k ko Hk) as (ko1 & Hk1 & Hkd).
  apply (Hget h1 d od1 _ cap1 k ko1 Hd1 Hdd1 Hk1).
  unfold Interpreter.is_string in *. destruct (Nat.eq_dec k d) as [->|Hne].
  - assert (ko1 = od1) by congruence. subst ko1. rewrite Hdd1. reflexivity.
  - rewrite (Hkd Hne). exact Hns.
Qed.

(** X7 at an empty dictionary and the number 5 as key and value. *)
Lemma dict_never_finds_other_keys_witness :
  exists h1 od1 cap1,
    Object.py_dict_set 1 (Some 0%nat) (Some 1%nat) (Some 1%nat)
      [Some (mkObject 1 (DictData [] 8)); Some (mkObject 1 (NumberData 5))]
    = Done true h1
    /\ live h1 0%nat = Some od1
    /\ data od1 = DictData ([] ++ [(1%nat, 1%nat)]) cap1
    /\ Object.py_dict_get (Some 0%nat) (Some 1%nat) h1 = Done None h1.
Proof.
  apply (proj2 dict_never_finds_other_keys 1%nat
           [Some (mkObject 1 (DictData [] 8)); Some (mkObject 1 (NumberData 5))]
           0%nat (mkObject 1 (DictData [] 8)) [] 8%nat 1%nat (mkObject 1 (NumberData 5))
           1%nat (mkObject 1 (NumberData 5))).
  - reflexivity.
  - reflexivity.
  - reflexivity.
  - reflexivity.
  - reflexivity.
Defined.

(** ** The end of a dictionary *)

Section DictEnd.
Import Object.

Lemma same_object o : mkObject (ref_count o - 0) (data o) = o.
Proof. destruct o as [rc d]. simpl. rewrite Z.sub_0_r. reflexivity. Qed.

(** Two releases in a row, of objects that keep a reference each. *)
Lemma py_decref_pair fuel h a b oa ob :
  live h a = Some oa -> live h b = Some ob ->
  occurrences a [a; b] < ref_count oa ->
  occurrences b [a; b] < ref_count ob ->
  exists h2,
    (py_decref (S fuel) (Some a) ;;; py_decref (S fuel) (Some b)) h = Done tt h2
    /\ (forall p o, live h p = Some o ->
                    live h2 p = Some (mkObject (ref_count o - occurrences p [a; b]) (data o)))
    /\ (forall p, live h p = None -> live h2 p = None).
Proof.
  intros Ha Hb Hca Hcb. simpl in Hca, Hcb. rewrite Nat.eqb_refl in Hca, Hcb.
  assert (Ha1 : 1 < ref_count oa) by (destruct (Nat.eqb b a); lia).
  rewrite (bind_eq _ _ _ _ _ (py_decref_alive fuel h a oa Ha Ha1)).
  set (h1 := <[a := Some (mkObject (ref_count oa - 1) (data oa))]> h).
  assert (Ha' : live h1 a = Some (mkObject (ref_count oa - 1) (data oa)))
    by (eapply live_insert_same; exact Ha).
  destruct (Nat.eq_dec a b) as [<-|Hab].
  - assert (ob = oa) by congruence. subst ob. rewrite Nat.eqb_refl in Hca.
    rewrite (py_decref_alive fuel h1 a _ Ha' ltac:(simpl; lia)).
    eexists. split; [reflexivity|]. split.
    + intros p o Hp. simpl. destruct (Nat.eq_dec a p) as [<-|Hap].
      * rewrite Nat.eqb_refl. assert (o = oa) by congruence. subst o.
        erewrite live_insert_same by exact Ha'. simpl. do 2 f_equal; try lia.
      * destruct (Nat.eqb_spec a p) as [?|_]; [congruence|].
        unfold h1. rewrite !live_insert_other by congruence. rewrite Hp.
        f_equal. symmetry. replace (ref_count o - (0 + (0 + 0))) with (ref_count o - 0) by lia.
        apply same_object.
    + intros p Hp. assert (a <> p) by (intros <-; congruence).
      unfold h1. rewrite !live_insert_other by congruence. exact Hp.
  - assert (Hb' : live h1 b = Some ob)
      by (unfold h1; rewrite live_insert_other by congruence; exact Hb).
    destruct (Nat.eqb_spec a b) as [?|_]; [congruence|].
    destruct (Nat.eqb_spec b a) as [?|_]; [congruence|].
    rewrite (py_decref_alive fuel h1 b ob Hb' ltac:(lia)).
    eexists. split; [reflexivity|]. split.
    + intros p o Hp. simpl.
      destruct (Nat.eq_dec b p) as [<-|Hbp].
      * rewrite Nat.eqb_refl. destruct (Nat.eqb_spec a b) as [?|_]; [congruence|].
        assert (o = ob) by congruence. subst o.
        erewrite live_insert_same by exact Hb'. do 2 f_equal; try lia.
      * destruct (Nat.eqb_spec b p) as [?|_]; [congruence|].
        rewrite live_insert_other by congruence.
        destruct (Nat.eq_dec a p) as [<-|Hap].
        -- rewrite Nat.eqb_refl. assert (o = oa) by congruence. subst o.
           rewrite Ha'. do 2 f_equal; try lia.
        -- destruct (Nat.eqb_spec a p) as [?|_]; [congruence|].
           unfold h1. rewrite live_insert_other by congruence. rewrite Hp.
           f_equal. symmetry.
           replace (ref_count o - (0 + (0 + 0))) with (ref_count o - 0) by lia.
           apply same_object.
    + intros p Hp. assert (a <> p) by (intros <-; congruence).
      assert (b <> p) by (intros <-; congruence).
      unfold h1. rewrite !live_insert_other by congruence. exact Hp.
Qed.

Lemma occurrences_app p xs ys : occurrences p (xs ++ ys) = occurrences p xs + occurrences p ys.
Proof. induction xs as [|x xs IH]; simpl; [reflexivity | rewrite IH; lia]. Qed.

(** The loop of [dict_destructor] from index [i] on, when no key and no
    value loses its last reference. *)
Lemma dict_destructor_spec k :
  forall i h fuel d od items cap,
    live h d = Some od ->
    data od = DictData items cap ->
    drop i items = k ->
    (forall p, p ∈ dict_refs k ->
               p <> d /\ exists o, live h p = Some o /\ occurrences p (dict_refs k) < ref_count o) ->
    (length k + 1 < fuel)%nat ->
    exists h',
      dict_destructor fuel d i h = Done tt h'
      /\ live h' d = Some od
      /\ (forall p o, p <> d -> live h p = Some o ->
                      live h' p
                      = Some (mkObject (ref_count o - occurrences p (dict_refs k)) (data o))).
Proof.
  induction k as [|[kq vq] k IH]; intros i h fuel d od items cap Hd Hdd Hdrop Hk Hfuel.
  - destruct fuel as [|f]; [simpl in Hfuel; lia|]. simpl.
    rewrite (bind_eq _ _ _ _ _ (load_live _ _ _ Hd)). rewrite Hdd.
    assert (Hi : items !! i = None).
    { apply lookup_ge_None_2. apply (f_equal length) in Hdrop.
      rewrite length_drop in Hdrop. simpl in Hdrop. lia. }
    rewrite Hi. exists h. split; [reflexivity|]. split; [exact Hd|].
    intros p o _ Hp. simpl. rewrite Hp. f_equal. symmetry. apply same_object.
  - destruct fuel as [|f]; [simpl in Hfuel; lia|]. cbn [dict_destructor].
    rewrite (bind_eq _ _ _ _ _ (load_live _ _ _ Hd)). rewrite Hdd.
    assert (Hi : items !! i = Some (kq, vq)).
    { rewrite <- (Nat.add_0_r i). rewrite <- lookup_drop. rewrite Hdrop. reflexivity. }
    rewrite Hi.
    change (dict_refs ((kq, vq) :: k)) with ([kq; vq] ++ dict_refs k) in Hk.
    destruct (Hk kq) as (Hkd & okq & Hkq & Hrck); [apply elem_of_app; left; left|].
    destruct (Hk vq) as (Hvd & ovq & Hvq & Hrcv);
      [apply elem_of_app; left; right; left|].
    rewrite occurrences_app in Hrck, Hrcv.
    pose proof (occurrences_nonneg kq (dict_refs k)) as Hnk.
    pose proof (occurrences_nonneg vq (dict_refs k)) as Hnv.
    destruct f as [|f']; [simpl in Hfuel; lia|].
    destruct (py_decref_pair f' h kq vq okq ovq Hkq Hvq ltac:(lia) ltac:(lia))
      as (h2 & E & Hlive2 & Hdead2).
    assert (E' : (py_decref (S f') (Some kq) ;;; py_decref (S f') (Some vq) ;;;
                  dict_destructor (S f') d (S i)) h
                 = dict_destructor (S f') d (S i) h2).
    { unfold bind in E |- *.
      destruct (py_decref (S f') (Some kq) h) as [[] h1| |]; try discriminate E.
      rewrite E. reflexivity. }
    rewrite E'.
    assert (Hd2 : live h2 d = Some od).
    { rewrite (Hlive2 d od Hd). simpl.
      destruct (Nat.eqb_spec kq d) as [?|_]; [congruence|].
      destruct (Nat.eqb_spec vq d) as [?|_]; [congruence|].
      f_equal. replace (ref_count od - (0 + (0 + 0))) with (ref_count od - 0) by lia.
      apply same_object. }
    destruct (IH (S i) h2 (S f') d od items cap Hd2 Hdd) as (h' & Erest & Hd' & Hothers).
    + replace (S i) with (i + 1)%nat by lia.
      rewrite <- drop_drop. rewrite Hdrop. reflexivity.
    + intros p Hp. destruct (Hk p) as (Hpd & o & Hlp & Hrcp); [apply elem_of_app; right; exact Hp|].
      split; [exact Hpd|]. rewrite occurrences_app in Hrcp.
      eexists. split; [apply (Hlive2 p o Hlp)|]. cbn [ref_count]. lia.
    + simpl in Hfuel. lia.
    + exists h'. split; [exact Erest|]. split; [exact Hd'|].
      intros p o Hpd Hp.
      change (dict_refs ((kq, vq) :: k)) with ([kq; vq] ++ dict_refs k).
      rewrite occurrences_app.
      rewrite (Hothers p _ Hpd (Hlive2 p o Hp)). cbn [ref_count data]. do 2 f_equal; try lia.
Qed.

End DictEnd.

(** X8.  When the last reference to a dictionary is released,
    [dict_destructor] takes one reference from every key and from every
    value, one per place that the object has among the items (an object
    that is key and value, or stored under several keys, loses one for
    each), and the dictionary is freed; nothing else changes.  Here no
    key and no value loses its last reference. *)
Theorem dict_releases_keys_and_values :
  forall fuel h d od items cap,
    live h d = Some od ->
    data od = DictData items cap ->
    ref_count od = 1 ->
    (forall p, p ∈ dict_refs items ->
               p <> d /\ exists o, live h p = Some o
                                   /\ occurrences p (dict_refs items) < ref_count o) ->
    (length items + 3 <= fuel)%nat ->
    exists h',
      Object.py_decref fuel (Some d) h = Done tt h'
      /\ live h' d = None
      /\ (forall p o, p <> d -> live h p = Some o ->
                      live h' p
                      = Some (mkObject (ref_count o - occurrences p (dict_refs items)) (data o))).
Proof.
  intros fuel h d od items cap Hd Hdd Hrc Hitems Hfuel.
  destruct fuel as [|f]; [lia|]. simpl.
  rewrite (bind_eq _ _ _ _ _ (load_live _ _ _ Hd)).
  set (od0 := mkObject (ref_count od - 1) (data od)).
  rewrite (bind_eq _ _ _ _ _ (store_live _ _ _ od0 Hd)).
  rewrite Hrc. simpl. rewrite Hdd.
  set (h0 := <[d := Some od0]> h).
  assert (Hd0 : live h0 d = Some od0) by (eapply live_insert_same; exact Hd).
  destruct (dict_destructor_spec items 0 h0 f d od0 items cap Hd0 Hdd eq_refl)
    as (h1 & E & Hd1 & Hothers).
  - intros p Hp. destruct (Hitems p Hp) as (Hpd & o & Hlp & Hrcp).
    split; [exact Hpd|]. exists o. split; [|exact Hrcp].
    unfold h0. rewrite live_insert_other by congruence. exact Hlp.
  - lia.
  - rewrite (bind_eq _ _ _ _ _ E). rewrite (free_live _ _ _ Hd1).
    eexists. split; [reflexivity|]. split; [apply live_free_same|].
    intros p o Hpd Hp. rewrite live_insert_other by congruence.
    apply Hothers; [exact Hpd|].
    unfold h0. rewrite live_insert_other by congruence. exact Hp.
Qed.

(** X8 at a dictionary of one item whose key and value are held
    by variables too. *)
Lemma dict_releases_keys_and_values_witness :
  exists h',
    Object.py_decref 4 (Some 0%nat)
      [Some (mkObject 1 (DictData [(1%nat, 2%nat)] 8));
       Some (mkObject 2 (StringData "a")); Some (mkObject 2 (NumberData 5))]
    = Done tt h'
    /\ live h' 0%nat = None
    /\ (forall p o, p <> 0%nat ->
          live [Some (mkObject 1 (DictData [(1%nat, 2%nat)] 8));
                Some (mkObject 2 (StringData "a")); Some (mkObject 2 (NumberData 5))] p
          = Some o ->
          live h' p
          = Some (mkObject (ref_count o - occurrences p (dict_refs [(1%nat, 2%nat)])) (data o))).
Proof.
  apply (dict_releases_keys_and_values 4%nat
           [Some (mkObject 1 (DictData [(1%nat, 2%nat)] 8));
            Some (mkObject 2 (StringData "a")); Some (mkObject 2 (NumberData 5))]
           0%nat (mkObject 1 (DictData [(1%nat, 2%nat)] 8)) [(1%nat, 2%nat)] 8%nat).
  - reflexivity.
  - reflexivity.
  - reflexivity.
  - intros p Hp. simpl in Hp.
    apply elem_of_cons in Hp as [->|Hp];
      [|apply elem_of_cons in Hp as [->|Hp]; [|inversion Hp]];
      (split; [lia | eexists; split; [reflexivity | simpl; lia]]).
  - simpl. lia.
Defined.

(* ================================================================== *)
(** * Further properties of the built-in functions *)

Section BuiltinCalls.
Import Object Builtins Interpreter.

Lemma builtins_call_arity reg fuel nm n args h :
  List.In (nm, n) builtin_arities -> count args <> n ->
  builtins_call (builtins_init reg) fuel nm args h = Done None h.
Proof.
  intros Hin Hn. unfold builtin_arities in Hin. simpl in Hin.
  repeat destruct Hin as [Hin|Hin]; try contradiction;
    inversion Hin; subst nm n; clear Hin;
    unfold builtins_call;
    cbn [builtins_init register_builtin find_builtin name arg_count func];
    repeat match goal with
           | |- context [String.eqb ?a ?b] =>
               let v := eval vm_compute in (String.eqb a b) in
               change (String.eqb a b) with v; cbv iota
           end;
    match goal with
    | |- context [?k =? count args] =>
        destruct (Z.eqb_spec k (count args)) as [Heq|_]; [exfalso; apply Hn; symmetry; exact Heq|]
    end; reflexivity.
Qed.

Lemma builtins_call_unknown reg fuel nm args h :
  find_builtin nm reg = None -> builtins_call reg fuel nm args h = Done None h.
Proof. intros H. unfold builtins_call. rewrite H. reflexivity. Qed.

Lemma find_list_get reg :
  find_builtin "列表获取" (builtins_init reg) = Some (mkBuiltin "列表获取" builtin_list_get 2).
Proof. reflexivity. Qed.

Lemma find_dict_get reg :
  find_builtin "字典获取" (builtins_init reg) = Some (mkBuiltin "字典获取" builtin_dict_get 2).
Proof. reflexivity. Qed.

Lemma builtins_call_list_get_outside reg fuel h l lo items cap ix io v i :
  live h l = Some lo -> data lo = ListData items cap ->
  live h ix = Some io -> data io = NumberData v ->
  Libc.size_of_double v = Some i -> (length items <= i)%nat ->
  builtins_call (builtins_init reg) fuel "列表获取" [Some l; Some ix] h = Done None h.
Proof.
  intros Hl Hd Hix Hv Hi Hlen. unfold builtins_call. rewrite find_list_get.
  cbn [arg_count func]. change (count [Some l; Some ix]) with 2. cbn [Z.leb Z.eqb andb negb Z.compare Pos.eqb Pos.compare Pos.compare_cont].
  unfold builtin_list_get. change (count [Some l; Some ix]) with 2.
  change (arg [Some l; Some ix] 0) with (Some l).
  change (arg [Some l; Some ix] 1) with (Some ix). cbv iota. cbn [Z.eqb Pos.eqb].
  rewrite (bind_eq _ _ _ _ _ (load_live _ _ _ Hl)).
  unfold object_type. rewrite Hd.
  rewrite (bind_eq _ _ _ _ _ (load_live _ _ _ Hix)).
  unfold with_index. rewrite Hv, Hi.
  eapply py_list_get_outside; eassumption.
Qed.

Lemma builtins_call_dict_get_missing reg fuel h d od items cap k :
  live h d = Some od -> data od = DictData items cap ->
  py_dict_get (Some d) (Some k) h = Done None h ->
  builtins_call (builtins_init reg) fuel "字典获取" [Some d; Some k] h = Done None h.
Proof.
  intros Hd Hdd Hget. unfold builtins_call. rewrite find_dict_get.
  cbn [arg_count func]. change (count [Some d; Some k]) with 2. cbn [Z.leb Z.eqb andb negb Z.compare Pos.eqb Pos.compare Pos.compare_cont].
  unfold builtin_dict_get. change (count [Some d; Some k]) with 2.
  change (arg [Some d; Some k] 0) with (Some d).
  change (arg [Some d; Some k] 1) with (Some k). cbv iota. cbn [Z.eqb Pos.eqb].
  rewrite (bind_eq _ _ _ _ _ (load_live _ _ _ Hd)).
  unfold object_type. rewrite Hdd. exact Hget.
Qed.

(** The builtin branch of [eval_call_expr] when the call answers NULL. *)
Lemma eval_call_expr_builtin_null fuel ev ex nm args st values s1 h' s2 :
  builtins_is_builtin (builtin_funcs st) nm = true ->
  eval_builtin_args fuel ev args [] st = Done (Some values) s1 ->
  builtins_call (builtin_funcs s1) fuel nm values (heap s1) = Done None h' ->
  release_all fuel values (set_heap h' s1) = Done tt s2 ->
  eval_call_expr fuel ev ex nm args st
  = Done None (with_error KUNYU_ERROR_RUNTIME ("调用内置函数'" ++ nm ++ "'失败") s2).
Proof.
  intros Hb Hargs Hcall Hrel. unfold eval_call_expr.
  unfold bind at 1, get at 1. rewrite Hb.
  rewrite (bind_eq _ _ _ _ _ Hargs). unfold bind at 1, get at 1.
  rewrite (bind_eq _ _ _ _ _ (on_heap_eq _ _ _ _ Hcall)).
  rewrite (bind_eq _ _ _ _ _ Hrel). reflexivity.
Qed.

End BuiltinCalls.

(** X9.  The calls of built-in functions fail alike.  On the
    registry that [builtins_init] leaves, whatever was registered
    before, a call with the wrong number of arguments, a read of a list
    at an index that is not there and a read of a dictionary under a key
    that is not found all answer NULL and leave the heap as it is; and
    [eval_call_expr] turns every NULL of a built-in into the same runtime
    error, [调用内置函数'<name>'失败], which ends the run. *)
Theorem builtin_calls_fail_alike :
  (forall reg fuel nm n args h,
      List.In (nm, n) builtin_arities -> Builtins.count args <> n ->
      Builtins.builtins_call (Builtins.builtins_init reg) fuel nm args h = Done None h)
  /\ (forall reg fuel h l lo items cap ix io v i,
        live h l = Some lo -> data lo = ListData items cap ->
        live h ix = Some io -> data io = NumberData v ->
        Libc.size_of_double v = Some i -> (length items <= i)%nat ->
        Builtins.builtins_call (Builtins.builtins_init reg) fuel "列表获取" [Some l; Some ix] h
        = Done None h)
  /\ (forall reg fuel h d od items cap k,
        live h d = Some od -> data od = DictData items cap ->
        Object.py_dict_get (Some d) (Some k) h = Done None h ->
        Builtins.builtins_call (Builtins.builtins_init reg) fuel "字典获取" [Some d; Some k] h
        = Done None h)
  /\ (forall fuel ev ex nm args st values s1 h' s2,
        Builtins.builtins_is_builtin (Interpreter.builtin_funcs st) nm = true ->
        Interpreter.eval_builtin_args fuel ev args [] st = Done (Some values) s1 ->
        Builtins.builtins_call (Interpreter.builtin_funcs s1) fuel nm values (Interpreter.heap s1)
        = Done None h' ->
        Interpreter.release_all fuel values (Interpreter.set_heap h' s1) = Done tt s2 ->
        Interpreter.eval_call_expr fuel ev ex nm args st
        = Done None (with_error KUNYU_ERROR_RUNTIME ("调用内置函数'" ++ nm ++ "'失败") s2)).
Proof.
  split; [|split; [|split]].
  - exact builtins_call_arity.
  - exact builtins_call_list_get_outside.
  - exact builtins_call_dict_get_missing.
  - exact eval_call_expr_builtin_null.
Qed.

Lemma builtin_calls_fail_alike_witness :
  Builtins.builtins_call (Builtins.builtins_init []) 2 "列表长度" [] [] = Done None []
  /\ Builtins.builtins_call (Builtins.builtins_init []) 2 "列表获取" [Some 0%nat; Some 1%nat]
       [Some (mkObject 1 (ListData [] 8)); Some (mkObject 1 (NumberData 0))]
     = Done None [Some (mkObject 1 (ListData [] 8)); Some (mkObject 1 (NumberData 0))]
  /\ run_result 20 "输出 列表获取(创建列表(), 0);"
     = Some (false, mkError KUNYU_ERROR_RUNTIME "调用内置函数'列表获取'失败" 0 0, ""%string)
  /\ run_result 20 "输出 字典获取(创建字典(), 1);"
     = Some (false, mkError KUNYU_ERROR_RUNTIME "调用内置函数'字典获取'失败" 0 0, ""%string)
  /\ run_result 20 "输出 列表长度();"
     = Some (false, mkError KUNYU_ERROR_RUNTIME "调用内置函数'列表长度'失败" 0 0, ""%string).
Proof.
  split; [|split; [|by_running]].
  - apply (proj1 builtin_calls_fail_alike [] 2%nat "列表长度"%string 1 [] []).
    + unfold builtin_arities. simpl. auto.
    + discriminate.
  - apply (proj1 (proj2 builtin_calls_fail_alike) [] 2%nat
             [Some (mkObject 1 (ListData [] 8)); Some (mkObject 1 (NumberData 0))]
             0%nat (mkObject 1 (ListData [] 8)) [] 8%nat 1%nat
             (mkObject 1 (NumberData 0)) 0%float 0%nat);
      first [reflexivity | simpl; lia].
Defined.

(* ================================================================== *)
(** * Further properties of the interpreter *)

(** ** What no statement undoes *)

(** A relation between the state before and after a run that every
    write of the interpreter respects, is respected by every
    expression and statement. *)
Section KeptByEveryRun.
Import Object Interpreter.

Variable R : State -> State -> Prop.
Hypothesis R_refl : forall s, R s s.
Hypothesis R_trans : forall s1 s2 s3, R s1 s2 -> R s2 s3 -> R s1 s3.
Hypothesis R_heap : forall h s, R s (set_heap h s).
Hypothesis R_error : forall e s, R s (set_error_record e s).
Hypothesis R_has_return : forall b s, R s (set_has_return b s).
Hypothesis R_return_value : forall v s, R s (set_return_value v s).
Hypothesis R_scope : forall sc s, R s (set_current_scope sc s).
Hypothesis R_printf : forall text s, R s (set_stdout (stdout s ++ text) s).
Hypothesis R_define :
  forall name params body, sat R (define_function name params body).

Lemma kept_on_heap {A} (m : Hp A) : sat R (on_heap m).
Proof. intros st a st' H. apply on_heap_done in H as (h' & _ & ->). apply R_heap. Qed.

Ltac kept_step :=
  first
    [ assumption
    | apply (sat_ret R R_refl)
    | apply (sat_get R R_refl)
    | apply sat_undefined
    | apply sat_out_of_fuel
    | apply kept_on_heap
    | apply R_define
    | apply (sat_bind R R_trans); [ | intros ? ]
    | apply sat_modify; intros ?;
      first [ apply R_error | apply R_has_return | apply R_return_value
            | apply R_scope | apply R_printf ]
    | match goal with
      | |- sat _ (match ?x with _ => _ end) => destruct x
      | |- sat _ (if ?x then _ else _) => destruct x
      end ].

Ltac kept := repeat kept_step.

Lemma kept_release_variables fuel vars : sat R (release_variables fuel vars).
Proof. induction vars as [|v vars IH]; simpl; kept. Qed.

Lemma kept_release_all fuel objs : sat R (release_all fuel objs).
Proof. induction objs as [|v objs IH]; simpl; kept. Qed.

Lemma kept_set_error code msg : sat R (set_error code msg).
Proof. unfold set_error. kept. Qed.

Lemma kept_printf text : sat R (printf text).
Proof. unfold printf. kept. Qed.

Lemma kept_push_scope : sat R push_scope.
Proof. unfold push_scope. kept. Qed.

Lemma kept_pop_scope fuel : sat R (pop_scope fuel).
Proof. unfold pop_scope. repeat first [apply kept_release_variables | kept_step]. Qed.

Lemma kept_define_variable name value is_constant :
  sat R (define_variable name value is_constant).
Proof. unfold define_variable. repeat first [apply kept_set_error | kept_step]. Qed.

Lemma kept_get_variable name : sat R (get_variable name).
Proof. unfold get_variable. repeat first [apply kept_set_error | kept_step]. Qed.

Lemma kept_set_variable fuel name value : sat R (set_variable fuel name value).
Proof. unfold set_variable. repeat first [apply kept_set_error | kept_step]. Qed.

Lemma kept_is_truthy obj : sat R (is_truthy obj).
Proof. unfold is_truthy. kept. Qed.

Lemma kept_object_to_string obj : sat R (object_to_string obj).
Proof. unfold object_to_string. kept. Qed.

Lemma kept_apply_binary fuel op left right : sat R (apply_binary fuel op left right).
Proof.
  unfold apply_binary, create_string_object, create_number_object.
  repeat first [apply kept_set_error | apply kept_object_to_string | kept_step].
Qed.

Section KeptBodies.
Variable fuel : nat.
Variable ev : AstNode -> In (option addr).
Variable ex : AstNode -> In bool.
Variable nt : AstNode -> In bool.
Hypothesis Hev : forall n, sat R (ev n).
Hypothesis Hex : forall n, sat R (ex n).
Hypothesis Hnt : forall n, sat R (nt n).

Ltac kept_all :=
  repeat first
    [ apply Hev | apply Hex | apply Hnt
    | apply kept_set_error | apply kept_printf | apply kept_push_scope
    | apply kept_pop_scope | apply kept_define_variable | apply kept_get_variable
    | apply kept_set_variable | apply kept_is_truthy | apply kept_object_to_string
    | apply kept_apply_binary | apply kept_release_all
    | kept_step ].

Lemma kept_clear_return : sat R (clear_return fuel).
Proof. unfold clear_return. kept_all. Qed.

Lemma kept_execute_block_loop statements : sat R (execute_block_loop ex statements).
Proof. induction statements as [|stmt rest IH]; simpl; kept_all. Qed.

Lemma kept_eval_builtin_args args evaluated :
  sat R (eval_builtin_args fuel ev args evaluated).
Proof.
  revert evaluated. induction args as [|a args IH]; intros evaluated; simpl; [kept_all|].
  apply (sat_bind R R_trans); [apply Hev | intros v]. destruct v; [apply IH | kept_all].
Qed.

Lemma kept_bind_parameters params args : sat R (bind_parameters fuel ev params args).
Proof.
  revert args. induction params as [|p params IH]; intros [|a args]; simpl; try solve [kept_all].
  apply (sat_bind R R_trans); [apply Hev | intros v]. destruct v; [|kept_all].
  apply (sat_bind R R_trans); [apply kept_define_variable | intros result].
  apply (sat_bind R R_trans); [apply kept_on_heap | intros _].
  destruct (negb result); [kept_all | apply IH].
Qed.

Lemma kept_eval_expression_body node : sat R (eval_expression_body fuel ev ex node).
Proof.
  unfold eval_expression_body.
  destruct node;
    unfold eval_literal_expr, eval_variable_expr, eval_binary_expr, eval_grouping_expr,
      eval_call_expr, eval_assign_expr, create_number_object, create_string_object;
    repeat first [ apply kept_clear_return | apply kept_eval_builtin_args
                 | apply kept_bind_parameters | progress kept_all ].
Qed.

Lemma kept_exec_loop_stmt node : sat R (exec_loop_stmt fuel ev ex nt node).
Proof. unfold exec_loop_stmt. kept_all. Qed.

Lemma kept_execute_statement_body node :
  sat R (execute_statement_body fuel ev ex nt node).
Proof.
  unfold execute_statement_body.
  destruct node;
    unfold exec_print_stmt, exec_var_decl, exec_if_stmt, exec_function_decl,
      execute_block, exec_return_stmt, exec_expression_stmt;
    repeat first [ apply kept_execute_block_loop | apply kept_exec_loop_stmt
                 | progress kept_all ].
Qed.

End KeptBodies.

Lemma kept_by_interpreter fuel :
  (forall node, sat R (eval_expression fuel node))
  /\ (forall node, sat R (execute_statement fuel node))
  /\ (forall node, sat R (loop_turn fuel node)).
Proof.
  induction fuel as [|f (IHe & IHs & IHl)].
  - split; [|split]; intros node s a s' H; discriminate.
  - split; [|split]; intros node.
    + apply kept_eval_expression_body; assumption.
    + apply kept_execute_statement_body; assumption.
    + apply kept_exec_loop_stmt; assumption.
Qed.

Lemma kept_execute_program fuel root : sat R (execute_program fuel root).
Proof.
  assert (Hloop : forall statements, sat R (execute_program_loop fuel statements)).
  { induction statements as [|stmt rest IH]; simpl.
    - apply (sat_ret R R_refl).
    - apply (sat_bind R R_trans); [apply kept_by_interpreter | intros ok].
      destruct (negb ok); [apply (sat_ret R R_refl)|].
      apply (sat_bind R R_trans); [apply (sat_get R R_refl) | intros s].
      destruct (has_return s); [apply (sat_ret R R_refl) | exact IH]. }
  unfold execute_program.
  destruct root as [[]|]; first [apply Hloop | apply sat_undefined | idtac];
    (apply (sat_bind R R_trans); [apply kept_set_error | intros _; apply (sat_ret R R_refl)]).
Qed.

End KeptByEveryRun.

Section FunctionsAndOutput.
Import Object Interpreter.

Lemma functions_kept_refl st : functions_kept st st.
Proof. split; [intros name f H; exact H | reflexivity]. Qed.

Lemma functions_kept_trans s1 s2 s3 :
  functions_kept s1 s2 -> functions_kept s2 s3 -> functions_kept s1 s3.
Proof.
  intros [H12 B12] [H23 B23]. split; [|congruence].
  intros name f H. apply H23, H12, H.
Qed.

Lemma define_function_keeps name params body :
  sat functions_kept (define_function name params body).
Proof.
  intros st ok st' H. unfold define_function in H.
  unfold bind at 1, get at 1 in H.
  destruct (find_function name (function_table st)) as [existing|] eqn:Hfind.
  - inversion H; subst. split; [intros name' f Hf; exact Hf | reflexivity].
  - inversion H; subst. split; [|reflexivity].
    intros name' f Hf. simpl.
    destruct (String.eqb_spec name name') as [->|Hne]; [congruence | exact Hf].
Qed.

Lemma functions_kept_by_interpreter fuel :
  (forall node, sat functions_kept (eval_expression fuel node))
  /\ (forall node, sat functions_kept (execute_statement fuel node))
  /\ (forall node, sat functions_kept (loop_turn fuel node)).
Proof.
  apply kept_by_interpreter;
    first [ exact functions_kept_refl | exact functions_kept_trans
          | exact define_function_keeps
          | intros; split; [intros ? ? Hf; exact Hf | reflexivity] ].
Qed.

Lemma functions_kept_by_program fuel root : sat functions_kept (execute_program fuel root).
Proof.
  apply kept_execute_program;
    first [ exact functions_kept_refl | exact functions_kept_trans
          | exact define_function_keeps
          | intros; split; [intros ? ? Hf; exact Hf | reflexivity] ].
Qed.

Lemma text_app_nil_r (s : string) : (s ++ "")%string = s.
Proof.
  induction s as [|c s IH]; [reflexivity|].
  change (String c (s ++ "")%string = String c s). rewrite IH. reflexivity.
Qed.

Lemma text_app_assoc (s t u : string) : ((s ++ t) ++ u)%string = (s ++ (t ++ u))%string.
Proof.
  induction s as [|c s IH]; [reflexivity|].
  change (String c ((s ++ t) ++ u)%string = String c (s ++ (t ++ u))%string).
  rewrite IH. reflexivity.
Qed.

Lemma output_grows_refl st : output_grows st st.
Proof. exists ""%string. symmetry. apply text_app_nil_r. Qed.

Lemma output_grows_trans s1 s2 s3 :
  output_grows s1 s2 -> output_grows s2 s3 -> output_grows s1 s3.
Proof.
  intros [o1 H1] [o2 H2]. exists (o1 ++ o2)%string.
  rewrite H2, H1. apply text_app_assoc.
Qed.

Lemma output_grows_same st st' : stdout st' = stdout st -> output_grows st st'.
Proof. intros H. exists ""%string. rewrite H. symmetry. apply text_app_nil_r. Qed.

Lemma define_function_output name params body :
  sat output_grows (define_function name params body).
Proof.
  intros st ok st' H. unfold define_function in H.
  unfold bind at 1, get at 1 in H.
  destruct (find_function name (function_table st));
    inversion H; subst; apply output_grows_same; reflexivity.
Qed.

Lemma output_grows_by_interpreter fuel :
  (forall node, sat output_grows (eval_expression fuel node))
  /\ (forall node, sat output_grows (execute_statement fuel node))
  /\ (forall node, sat output_grows (loop_turn fuel node)).
Proof.
  apply kept_by_interpreter;
    first [ exact output_grows_refl | exact output_grows_trans
          | exact define_function_output
          | intros text s; exists text; reflexivity
          | intros; apply output_grows_same; reflexivity ].
Qed.

Lemma output_grows_by_program fuel root : sat output_grows (execute_program fuel root).
Proof.
  apply kept_execute_program;
    first [ exact output_grows_refl | exact output_grows_trans
          | exact define_function_output
          | intros text s; exists text; reflexivity
          | intros; apply output_grows_same; reflexivity ].
Qed.

Lemma interpreter_init_output fuel : sat output_grows (interpreter_init fuel).
Proof.
  unfold interpreter_init.
  repeat first
    [ apply (sat_bind output_grows output_grows_trans); [ | intros ? ]
    | apply (sat_get output_grows output_grows_refl)
    | apply sat_modify; intros ?; apply output_grows_same; reflexivity
    | apply (sat_weaken heap_only output_grows);
      [ intros ? ? E; apply output_grows_same; rewrite E; reflexivity
      | apply ho_release_scopes ] ].
Qed.

End FunctionsAndOutput.

Section PrintStatement.
Import Object Interpreter.

Lemma exec_print_stmt_output f e st a s1 o h' :
  eval_expression f e st = Done (Some a) s1 ->
  live (heap s1) a = Some o ->
  py_decref f (Some a) (heap s1) = Done tt h' ->
  execute_statement (S f) (PrintStmt e) st
  = Done true
      (set_heap h' (set_stdout (stdout s1 ++ text_of o ++ String "010"%char "")%string s1)).
Proof.
  intros He Ho Hrel.
  change (execute_statement (S f) (PrintStmt e))
    with (exec_print_stmt f (eval_expression f) (PrintStmt e)).
  unfold exec_print_stmt.
  rewrite (bind_eq _ _ _ _ _ He).
  rewrite (bind_eq _ _ _ _ _ (object_to_string_live _ _ _ Ho)).
  unfold bind at 1, printf at 1, modify at 1.
  assert (Hrel' : py_decref f (Some a)
                    (heap (set_stdout (stdout s1 ++ text_of o ++ String "010"%char "")%string s1))
                  = Done tt h') by exact Hrel.
  rewrite (bind_eq _ _ _ _ _ (on_heap_eq _ _ _ _ Hrel')). reflexivity.
Qed.

End PrintStatement.

(** X10.  A function, once declared, stays declared with the
    parameters and the body it had until the run ends, wherever the
    declaration stood (top level, block or function body): no expression,
    statement or program removes or replaces an entry of the function
    table, and none touches the builtins.  A second declaration of a name
    is refused with a runtime error; a first one is put in front of the
    table. *)
Theorem functions_stay_declared :
  (forall fuel node st r st',
      Interpreter.execute_statement fuel node st = Done r st' -> functions_kept st st')
  /\ (forall fuel node st r st',
        Interpreter.eval_expression fuel node st = Done r st' -> functions_kept st st')
  /\ (forall fuel root st ok st',
        Interpreter.execute_program fuel root st = Done ok st' -> functions_kept st st')
  /\ (forall name params body st f,
        Interpreter.find_function name (Interpreter.function_table st) = Some f ->
        Interpreter.define_function name params body st
        = Done false (with_error KUNYU_ERROR_RUNTIME ("函数'" ++ name ++ "'已经定义") st))
  /\ (forall name params body st,
        Interpreter.find_function name (Interpreter.function_table st) = None ->
        Interpreter.define_function name params body st
        = Done true
            (Interpreter.set_function_table
               (Interpreter.mkFunction name params body :: Interpreter.function_table st) st))
  /\ run_result 20 "如果 (1) { 函数 f() { 返回 1; } } 输出 f();"
     = Some (true, no_error, ("1" ++ newline)%string)
  /\ run_result 20 "函数 f() { 返回 1; } 如果 (1) { 函数 f() { 返回 2; } } 输出 f();"
     = Some (false, mkError KUNYU_ERROR_RUNTIME "函数'f'已经定义" 0 0, ""%string).
Proof.
  split; [|split; [|split; [|split; [|split]]]].
  - intros fuel node st r st' H.
    exact (proj1 (proj2 (functions_kept_by_interpreter fuel)) node st r st' H).
  - intros fuel node st r st' H.
    exact (proj1 (functions_kept_by_interpreter fuel) node st r st' H).
  - intros fuel root st ok st' H. exact (functions_kept_by_program fuel root st ok st' H).
  - intros name params body st f H. unfold Interpreter.define_function.
    unfold bind at 1, get at 1. rewrite H. reflexivity.
  - intros name params body st H. unfold Interpreter.define_function.
    unfold bind at 1, get at 1. rewrite H. reflexivity.
  - by_running.
Qed.

(** X10 at the declaration of [g] in a block, in a state that
    knows [f]. *)
Lemma functions_stay_declared_witness :
  functions_kept
    (quiet_state [] [[]] [Interpreter.mkFunction "f" [] (BlockStmt [])])
    (quiet_state [] [[]]
       [Interpreter.mkFunction "g" [] (BlockStmt []);
        Interpreter.mkFunction "f" [] (BlockStmt [])]).
Proof.
  apply (proj1 functions_stay_declared 4%nat
           (BlockStmt [FunctionStmt "g" [] (BlockStmt [])])
           (quiet_state [] [[]] [Interpreter.mkFunction "f" [] (BlockStmt [])])
           true).
  vm_compute; reflexivity.
Defined.

(** X11.  What a program has printed stays printed: after every
    expression, statement and execution, the output is the output before
    it followed by what the run wrote.  A print statement whose value is
    a live object writes the text of that object and a line feed, and
    nothing else. *)
Theorem output_is_never_retracted :
  (forall fuel node st r st',
      Interpreter.execute_statement fuel node st = Done r st' -> output_grows st st')
  /\ (forall fuel node st r st',
        Interpreter.eval_expression fuel node st = Done r st' -> output_grows st st')
  /\ (forall fuel root st ok st',
        Interpreter.interpreter_execute fuel root st = Done ok st' -> output_grows st st')
  /\ (forall f e st a s1 o h',
        Interpreter.eval_expression f e st = Done (Some a) s1 ->
        live (Interpreter.heap s1) a = Some o ->
        Object.py_decref f (Some a) (Interpreter.heap s1) = Done tt h' ->
        Interpreter.execute_statement (S f) (PrintStmt e) st
        = Done true
            (Interpreter.set_heap h'
               (Interpreter.set_stdout
                  (Interpreter.stdout s1 ++ text_of o ++ newline)%string s1))).
Proof.
  split; [|split; [|split]].
  - intros fuel node st r st' H.
    exact (proj1 (proj2 (output_grows_by_interpreter fuel)) node st r st' H).
  - intros fuel node st r st' H.
    exact (proj1 (output_grows_by_interpreter fuel) node st r st' H).
  - intros fuel root st ok st' H. unfold Interpreter.interpreter_execute in H.
    destruct root as [root|]; [|inversion H; subst; apply output_grows_refl].
    apply bind_done in H as ([] & s1 & Hinit & Hrun).
    eapply output_grows_trans.
    + exact (interpreter_init_output fuel st tt s1 Hinit).
    + exact (output_grows_by_program fuel (Some root) s1 ok st' Hrun).
  - intros f e st a s1 o h' He Ho Hrel.
    exact (exec_print_stmt_output f e st a s1 o h' He Ho Hrel).
Qed.

(** X11 at the statement [输出 "b";] after ["a"] and a line feed
    were printed. *)
Lemma output_is_never_retracted_witness :
  Interpreter.execute_statement 3 (PrintStmt (LiteralExpr KUNYU_TOKEN_STRING "b"))
    (Interpreter.mkState [] no_error false None [[]] [] [] ("a" ++ newline))
  = Done true
      (Interpreter.set_heap [None]
         (Interpreter.set_stdout
            (("a" ++ newline) ++ text_of (mkObject 1 (StringData "b")) ++ newline)%string
            (Interpreter.mkState [Some (mkObject 1 (StringData "b"))] no_error false None
               [[]] [] [] ("a" ++ newline)))).
Proof.
  apply (proj2 (proj2 (proj2 output_is_never_retracted)) 2%nat
           (LiteralExpr KUNYU_TOKEN_STRING "b")
           (Interpreter.mkState [] no_error false None [[]] [] [] ("a" ++ newline))
           0%nat
           (Interpreter.mkState [Some (mkObject 1 (StringData "b"))] no_error false None
              [[]] [] [] ("a" ++ newline))
           (mkObject 1 (StringData "b")) [None]).
  - vm_compute; reflexivity.
  - reflexivity.
  - vm_compute; reflexivity.
Defined.

Section VariableStore.
Import Object Interpreter.

Lemma find_in_scope_name name scope e :
  find_variable_in_scope name scope = Some e -> var_name e = name.
Proof.
  induction scope as [|e0 scope IH]; simpl; [discriminate|].
  destruct (String.eqb_spec (var_name e0) name) as [E|_]; [|exact IH].
  intros H. injection H as <-. exact E.
Qed.

Lemma find_in_scope_assign_same name value scope e :
  find_variable_in_scope name scope = Some e ->
  find_variable_in_scope name (assign_in_scope name value scope)
  = Some (mkVariable name (var_is_constant e) value).
Proof.
  induction scope as [|e0 scope IH]; simpl; [discriminate|].
  destruct (String.eqb_spec (var_name e0) name) as [E|Hne]; simpl.
  - intros H. injection H as <-.
    destruct (String.eqb_spec (var_name e0) name); [|contradiction]. rewrite E. reflexivity.
  - intros H. destruct (String.eqb_spec (var_name e0) name); [contradiction|].
    apply IH. exact H.
Qed.

Lemma find_in_scope_assign_other name other value scope :
  other <> name ->
  find_variable_in_scope other (assign_in_scope name value scope)
  = find_variable_in_scope other scope.
Proof.
  intros Hne. induction scope as [|e0 scope IH]; simpl; [reflexivity|].
  destruct (String.eqb_spec (var_name e0) name) as [E|Hn]; simpl.
  - destruct (String.eqb_spec (var_name e0) other) as [E'|_]; [congruence | reflexivity].
  - rewrite IH. reflexivity.
Qed.

Lemma find_variable_assign_same name value scopes e :
  find_variable name scopes = Some e ->
  find_variable name (assign_variable name value scopes)
  = Some (mkVariable name (var_is_constant e) value).
Proof.
  induction scopes as [|scope parent IH]; simpl; [discriminate|].
  destruct (find_variable_in_scope name scope) as [e0|] eqn:Hfind; simpl.
  - intros H. inversion H; subst.
    rewrite (find_in_scope_assign_same name value scope e Hfind). reflexivity.
  - intros H. rewrite Hfind. apply IH. exact H.
Qed.

Lemma find_variable_assign_other name other value scopes :
  other <> name ->
  find_variable other (assign_variable name value scopes) = find_variable other scopes.
Proof.
  intros Hne. induction scopes as [|scope parent IH]; simpl; [reflexivity|].
  destruct (find_variable_in_scope name scope) as [e0|]; simpl.
  - rewrite (find_in_scope_assign_other name other value scope Hne). reflexivity.
  - rewrite IH. reflexivity.
Qed.

Lemma get_variable_found name st e :
  find_variable name (current_scope st) = Some e ->
  get_variable name st = Done (var_value e) st.
Proof. intros H. unfold get_variable, bind, get. rewrite H. reflexivity. Qed.

(** An assignment that is accepted. *)
Lemma set_variable_accepted fuel name v st e h1 vo :
  find_variable name (current_scope st) = Some e ->
  var_is_constant e = false ->
  py_decref fuel (var_value e) (heap st) = Done tt h1 ->
  live h1 v = Some vo ->
  set_variable fuel name (Some v) st
  = Done true
      (set_heap (<[v := Some (mkObject (ref_count vo + 1) (data vo))]> h1)
         (set_current_scope (assign_variable name (Some v) (current_scope st)) st)).
Proof.
  intros Hfind Hc Hrel Hv. unfold set_variable.
  unfold bind at 1, get at 1. rewrite Hfind, Hc.
  rewrite (bind_eq _ _ _ _ _ (on_heap_eq _ _ _ _ Hrel)).
  unfold bind at 1, modify at 1.
  assert (Hinc : py_incref (Some v)
                   (heap (set_current_scope
                            (assign_variable name (Some v) (current_scope (set_heap h1 st)))
                            (set_heap h1 st)))
                 = Done tt (<[v := Some (mkObject (ref_count vo + 1) (data vo))]> h1))
    by (apply py_incref_live; exact Hv).
  rewrite (bind_eq _ _ _ _ _ (on_heap_eq _ _ _ _ Hinc)). reflexivity.
Qed.

End VariableStore.

(** X12.  What is assigned to a variable, or given to it by its
    declaration, is what a read of the name finds next, and no other name
    is affected.  An assignment to a variable that is not constant
    releases the old value, writes the nearest binding of the name and
    takes a reference to the new value; a declaration of a name that the
    innermost scope does not hold puts the binding in front of it, where
    it hides a binding of the same name further out. *)
Theorem variable_write_then_read :
  (forall fuel name v st e h1 vo,
      Interpreter.find_variable name (Interpreter.current_scope st) = Some e ->
      Interpreter.var_is_constant e = false ->
      Object.py_decref fuel (Interpreter.var_value e) (Interpreter.heap st) = Done tt h1 ->
      live h1 v = Some vo ->
      exists st',
        Interpreter.set_variable fuel name (Some v) st = Done true st'
        /\ Interpreter.get_variable name st' = Done (Some v) st'
        /\ (forall other, other <> name ->
              Interpreter.find_variable other (Interpreter.current_scope st')
              = Interpreter.find_variable other (Interpreter.current_scope st)))
  /\ (forall name value is_constant st ok st',
        Interpreter.define_variable name value is_constant st = Done ok st' ->
        ok = true ->
        Interpreter.get_variable name st' = Done value st'
        /\ (forall other, other <> name ->
              Interpreter.find_variable other (Interpreter.current_scope st')
              = Interpreter.find_variable other (Interpreter.current_scope st)))
  /\ variable_after 20 "变量 x = 1; 如果 (1) { x = 2;; 变量 x = 3; x = 4;; }" "x"
     = Some 2%float.
Proof.
  split; [|split].
  - intros fuel name v st e h1 vo Hfind Hc Hrel Hv.
    eexists. split; [apply (set_variable_accepted fuel name v st e h1 vo Hfind Hc Hrel Hv)|].
    split.
    + apply (get_variable_found name _
               (Interpreter.mkVariable name (Interpreter.var_is_constant e) (Some v))).
      apply (find_variable_assign_same name (Some v) _ e Hfind).
    + intros other Hne. apply (find_variable_assign_other name other (Some v) _ Hne).
  - intros name value is_constant st ok st' H Hok. subst ok.
    unfold Interpreter.define_variable in H. unfold bind at 1, get at 1 in H.
    destruct (Interpreter.current_scope st) as [|scope parent] eqn:Hcs; [discriminate|].
    destruct (Interpreter.find_variable_in_scope name scope) eqn:Hfind; [discriminate|].
    apply bind_done in H as ([] & s1 & Hinc & H). inversion H; subst st'. clear H.
    split.
    + unfold Interpreter.get_variable, bind, get. simpl.
      rewrite String.eqb_refl. reflexivity.
    + intros other Hne. simpl.
      destruct (String.eqb_spec name other) as [E|_]; [congruence|]. reflexivity.
  - by_running.
Qed.

(** X12 at the assignment of a new number to [x], which holds
    the last reference to another number. *)
Lemma variable_write_then_read_witness :
  exists st',
    Interpreter.set_variable 1 "x" (Some 1%nat)
      (quiet_state [Some (mkObject 1 (NumberData 1)); Some (mkObject 1 (NumberData 2))]
         [[Interpreter.mkVariable "x" false (Some 0%nat)]] [])
    = Done true st'
    /\ Interpreter.get_variable "x" st' = Done (Some 1%nat) st'
    /\ (forall other, other <> "x"%string ->
          Interpreter.find_variable other (Interpreter.current_scope st')
          = Interpreter.find_variable other
              [[Interpreter.mkVariable "x" false (Some 0%nat)]]).
Proof.
  apply (proj1 variable_write_then_read 1%nat "x"%string 1%nat
           (quiet_state [Some (mkObject 1 (NumberData 1)); Some (mkObject 1 (NumberData 2))]
              [[Interpreter.mkVariable "x" false (Some 0%nat)]] [])
           (Interpreter.mkVariable "x" false (Some 0%nat))
           [None; Some (mkObject 1 (NumberData 2))] (mkObject 1 (NumberData 2))).
  - reflexivity.
  - reflexivity.
  - vm_compute; reflexivity.
  - reflexivity.
Defined.

(** ** What a new execution starts from *)

Section FreshStart.
Import Object Interpreter.

Lemma release_scopes_heap_only fuel scopes st st' :
  release_scopes fuel scopes st = Done tt st' -> st' = set_heap (heap st') st.
Proof. intros H. exact (ho_release_scopes fuel scopes st tt st' H). Qed.

Lemma builtins_init_length reg :
  length (Builtins.builtins_init reg) = (9 + length reg)%nat.
Proof. reflexivity. Qed.

Lemma interpreter_init_state fuel st st' :
  interpreter_init fuel st = Done tt st' ->
  st' = mkState (heap st') (mkError KUNYU_OK "" 0 0) false None [[]] []
          (Builtins.builtins_init (builtin_funcs st)) (stdout st).
Proof.
  unfold interpreter_init. intros H.
  apply bind_done in H as ([] & s1 & H1 & H). inversion H1; subst s1; clear H1.
  apply bind_done in H as ([] & s2 & H2 & H). inversion H2; subst s2; clear H2.
  apply bind_done in H as ([] & s3 & H3 & H). inversion H3; subst s3; clear H3.
  unfold bind at 1, get at 1 in H.
  apply bind_done in H as ([] & s4 & H4 & H).
  apply release_scopes_heap_only in H4.
  apply bind_done in H as ([] & s5 & H5 & H). inversion H5; subst s5; clear H5.
  apply bind_done in H as ([] & s6 & H6 & H). inversion H6; subst s6; clear H6.
  inversion H; subst st'; clear H.
  rewrite H4. destruct st; reflexivity.
Qed.

End FreshStart.

(** X13.  Every execution starts from scratch.  Whatever an earlier
    execution left behind, after [interpreter_init] there is one empty
    global scope and no declared function, so no name of an earlier run
    is bound; the error record is cleared and no return is pending.  The
    text printed so far stays.  The nine built-in functions are registered
    once more, in front of the registry that is there: it grows by nine
    entries with every execution. *)
Theorem every_execution_starts_from_scratch (fuel : nat) (st st' : Interpreter.State) :
  Interpreter.interpreter_init fuel st = Done tt st' ->
  Interpreter.current_scope st' = [[]]
  /\ Interpreter.function_table st' = []
  /\ (forall name, Interpreter.find_variable name (Interpreter.current_scope st') = None)
  /\ (forall name, Interpreter.find_function name (Interpreter.function_table st') = None)
  /\ Interpreter.error st' = no_error
  /\ Interpreter.has_return st' = false
  /\ Interpreter.return_value st' = None
  /\ Interpreter.stdout st' = Interpreter.stdout st
  /\ length (Interpreter.builtin_funcs st') = (9 + length (Interpreter.builtin_funcs st))%nat.
Proof.
  intros H. apply interpreter_init_state in H. rewrite H.
  cbn [Interpreter.current_scope Interpreter.function_table Interpreter.error
       Interpreter.has_return Interpreter.return_value Interpreter.stdout
       Interpreter.builtin_funcs].
  repeat match goal with |- _ /\ _ => split end;
    first [ apply builtins_init_length | reflexivity | intros name; reflexivity ].
Qed.

(** X13 at a state that holds a variable [x], bound to the number at
    address 0, and a function [f]. *)
Lemma every_execution_starts_from_scratch_witness :
  Interpreter.find_variable "x"
    (Interpreter.current_scope
       (quiet_state [Some (mkObject 1 (NumberData 1))]
          [[Interpreter.mkVariable "x" false (Some 0%nat)]]
          [Interpreter.mkFunction "f" [] (BlockStmt [])]))
  = Some (Interpreter.mkVariable "x" false (Some 0%nat))
  /\ Interpreter.current_scope
       (Interpreter.mkState [None] no_error false None [[]] []
          (Builtins.builtins_init []) "") = [[]]
  /\ length (Interpreter.builtin_funcs
               (Interpreter.mkState [None] no_error false None [[]] []
                  (Builtins.builtins_init []) "")) = (9 + 0)%nat.
Proof.
  split; [reflexivity|].
  destruct (every_execution_starts_from_scratch 2
              (quiet_state [Some (mkObject 1 (NumberData 1))]
                 [[Interpreter.mkVariable "x" false (Some 0%nat)]]
                 [Interpreter.mkFunction "f" [] (BlockStmt [])])
              (Interpreter.mkState [None] no_error false None [[]] []
                 (Builtins.builtins_init []) ""))
    as (Hs & _ & _ & _ & _ & _ & _ & _ & Hn).
  - reflexivity.
  - split; [exact Hs | exact Hn].
Defined.

(* ================================================================== *)
(** * Further properties of the lexer *)

Section LexerSteps.
Import Lexer.

Lemma lexer_quiet_refl lx : lexer_quiet lx lx.
Proof. repeat split. Qed.

Lemma lexer_quiet_trans a b c : lexer_quiet a b -> lexer_quiet b c -> lexer_quiet a c.
Proof. intros (?&?&?) (?&?&?). repeat split; congruence. Qed.

Ltac quiet_step :=
  first
    [ assumption
    | apply (sat_ret lexer_quiet lexer_quiet_refl)
    | apply (sat_get lexer_quiet lexer_quiet_refl)
    | apply sat_out_of_fuel
    | apply (sat_bind lexer_quiet lexer_quiet_trans); [ | intros ? ]
    | match goal with
      | |- sat _ (match ?x with _ => _ end) => destruct x
      | |- sat _ (if ?x then _ else _) => destruct x
      end ].

Lemma quiet_advance : sat lexer_quiet advance.
Proof.
  intros lx a lx' H. unfold advance in H.
  destruct (is_eof lx); [|destruct (Ascii.eqb _ _)]; inversion H; subst; repeat split.
Qed.

Lemma quiet_advance_n n : sat lexer_quiet (advance_n n).
Proof. induction n; simpl; repeat first [apply quiet_advance | quiet_step]. Qed.

Lemma quiet_skip_whitespace fuel : sat lexer_quiet (skip_whitespace fuel).
Proof. induction fuel; simpl; repeat first [apply quiet_advance | quiet_step]. Qed.

Lemma quiet_skip_comment fuel : sat lexer_quiet (skip_comment fuel).
Proof.
  unfold skip_comment. apply (sat_bind lexer_quiet lexer_quiet_trans); [apply quiet_advance|].
  intros _. induction fuel; simpl; repeat first [apply quiet_advance | quiet_step].
Qed.

Lemma quiet_read_utf8_char : sat lexer_quiet read_utf8_char.
Proof. unfold read_utf8_char. repeat first [apply quiet_advance_n | quiet_step]. Qed.

Lemma quiet_read_identifier fuel : sat lexer_quiet (read_identifier fuel).
Proof.
  assert (Hloop : sat lexer_quiet (read_identifier_loop fuel)).
  { induction fuel; simpl;
      repeat first [apply quiet_advance | apply quiet_read_utf8_char | quiet_step]. }
  unfold read_identifier. repeat first [apply quiet_read_utf8_char | quiet_step].
Qed.

Lemma quiet_read_number fuel : sat lexer_quiet (read_number fuel).
Proof.
  assert (Hloop : forall has_dot, sat lexer_quiet (read_number_loop fuel has_dot)).
  { induction fuel; intros has_dot; simpl;
      repeat first [apply IHfuel | apply quiet_advance | quiet_step]. }
  unfold read_number. repeat first [apply Hloop | quiet_step].
Qed.

Lemma quiet_read_string fuel : sat lexer_quiet (read_string fuel).
Proof.
  assert (Hloop : sat lexer_quiet (read_string_loop fuel)).
  { induction fuel; simpl; repeat first [apply quiet_advance | quiet_step]. }
  unfold read_string. repeat first [apply quiet_advance | quiet_step].
Qed.

Ltac run_down H :=
  repeat
    match type of H with
    | bind _ _ _ = Done _ _ =>
        let a := fresh "a" in let s := fresh "lx" in
        let H1 := fresh "Hrun" in
        apply bind_done in H as (a & s & H1 & H)
    | (if ?c then _ else _) _ = Done _ _ => destruct c
    | (match ?x with _ => _ end) _ = Done _ _ => destruct x
    end.

Ltac quiet_facts :=
  repeat
    match goal with
    | H : advance _ = Done _ _ |- _ => apply quiet_advance in H; destruct H as (?&?&?)
    | H : skip_whitespace _ _ = Done _ _ |- _ =>
        apply quiet_skip_whitespace in H; destruct H as (?&?&?)
    | H : skip_comment _ _ = Done _ _ |- _ =>
        apply quiet_skip_comment in H; destruct H as (?&?&?)
    | H : read_identifier _ _ = Done _ _ |- _ =>
        apply quiet_read_identifier in H; destruct H as (?&?&?)
    | H : read_number _ _ = Done _ _ |- _ =>
        apply quiet_read_number in H; destruct H as (?&?&?)
    | H : read_string _ _ = Done _ _ |- _ =>
        apply quiet_read_string in H; destruct H as (?&?&?)
    | H : get _ = Done _ _ |- _ => inversion H; subst; clear H
    | H : ret _ _ = Done _ _ |- _ => inversion H; subst; clear H
    | H : set_error _ _ _ _ _ = Done _ _ |- _ => inversion H; subst; clear H
    | H : add_token _ _ _ _ _ = Done _ _ |- _ => inversion H; subst; clear H
    end.

Lemma read_next_token_step fuel lx ok lx' :
  read_next_token fuel lx = Done ok lx' -> token_step lx ok lx'.
Proof.
  intros H. unfold read_next_token, two_char, one_char in H.
  run_down H; quiet_facts; unfold token_step; simpl in *;
    (split; [congruence|]);
    first [ left; congruence
          | right; eexists; simpl; f_equal; congruence
          | split; [congruence | reflexivity]
          | split; [congruence
                   | match goal with H : error _ = _ |- _ => rewrite H; reflexivity end] ].
Qed.

Lemma last_not_eof body :
  Forall not_eof body ->
  match last body with
  | Some t => KunyuTokenType_eqb (tk_type t) KUNYU_TOKEN_EOF = false
  | None => True
  end.
Proof.
  intros Hall. destruct (last body) as [t|] eqn:Hlast; [|exact I].
  apply last_Some in Hlast as (front & ->).
  apply Forall_app in Hall as (_ & Ht). inversion Ht as [|? ? Hne _]; subst.
  unfold not_eof in Hne. destruct (tk_type t); try reflexivity. contradiction.
Qed.

Lemma lexer_tokenize_loop_spec fuel inner lx n lx' :
  Forall not_eof (tokens lx) ->
  lexer_tokenize_loop fuel inner lx = Done n lx' ->
  source lx' = source lx /\
  ((n = -1 /\ err_code (error lx') = KUNYU_ERROR_LEXER) \/
   (n = Z.of_nat (length (tokens lx')) /\ closed_by_eof (tokens lx'))).
Proof.
  revert lx. induction fuel as [|f IH]; intros lx Hall H; simpl in H; [discriminate|].
  apply bind_done in H as (ok & lx1 & Hread & H).
  apply read_next_token_step in Hread as (Hsrc & Hstep).
  destruct ok; cbn [negb] in H.
  - unfold bind at 1, get at 1 in H.
    destruct Hstep as [Hsame|(t & Hnew)].
    + assert (Hall1 : Forall not_eof (tokens lx1)) by (rewrite Hsame; exact Hall).
      pose proof (last_not_eof _ Hall1) as Hl.
      destruct (last (tokens lx1)) as [t|].
      * rewrite Hl in H. rewrite <- Hsrc. apply (IH _ Hall1 H).
      * rewrite <- Hsrc. apply (IH _ Hall1 H).
    + rewrite Hnew in H. rewrite last_snoc in H.
      destruct (KunyuTokenType_eqb (tk_type t) KUNYU_TOKEN_EOF) eqn:Ht.
      * inversion H; subst. split; [exact Hsrc|]. right. split; [rewrite Hnew; reflexivity|].
        rewrite Hnew. exists (tokens lx), t. split; [reflexivity|]. split; [|exact Hall].
        destruct (tk_type t); try discriminate; reflexivity.
      * assert (Hall1 : Forall not_eof (tokens lx1)).
        { rewrite Hnew. apply Forall_app. split; [exact Hall|].
          constructor; [|constructor]. intros Heq. rewrite Heq in Ht. discriminate. }
        rewrite <- Hsrc. apply (IH _ Hall1 H).
  - inversion H; subst. split; [exact Hsrc|]. left. split; [reflexivity | apply Hstep].
Qed.

Lemma closed_ends_with_eof toks : closed_by_eof toks -> ends_with_eof toks.
Proof.
  intros (body & t & -> & Ht & _). exists t. split; [apply last_snoc | exact Ht].
Qed.

(** The tokens that [tokenize] hands out end with the end-of-file token. *)
Lemma tokenize_ends_with_eof src toks :
  tokenize src = Some (inl toks) -> ends_with_eof toks.
Proof.
  unfold tokenize. destruct (lexer_tokenize (lexer_init src)) as [n lx| |] eqn:E;
    [|discriminate|discriminate].
  unfold lexer_tokenize in E.
  apply lexer_tokenize_loop_spec in E as (_ & [(Hn & _)|(_ & Hc)]); [| |constructor].
  - subst n. cbn [Z.ltb Z.compare]. discriminate.
  - destruct (n <? 0); [discriminate|]. intros H. inversion H; subst.
    apply closed_ends_with_eof. exact Hc.
Qed.

End LexerSteps.

(** ** The lexer answers on every source *)

Section LexerTermination.
Import Lexer.

Lemma lexer_ahead_refl lx : lexer_ahead lx lx.
Proof. split; [reflexivity | lia]. Qed.

Lemma lexer_ahead_trans a b c : lexer_ahead a b -> lexer_ahead b c -> lexer_ahead a c.
Proof. intros (Hs1 & Hp1) (Hs2 & Hp2). split; [congruence | lia]. Qed.

Lemma lexer_ahead_unread lx lx' : lexer_ahead lx lx' -> (unread lx' <= unread lx)%nat.
Proof. intros (Hs & Hp). unfold unread, source_len. rewrite Hs. lia. Qed.

Lemma not_eof_unread lx : is_eof lx = false -> (0 < unread lx)%nat.
Proof.
  unfold is_eof, unread. intros H. apply Nat.leb_gt in H. lia.
Qed.

(** [advance] before the end of the source moves one byte on. *)
Lemma advance_not_eof lx :
  is_eof lx = false ->
  exists lx', advance lx = Done tt lx' /\ source lx' = source lx /\ pos lx' = S (pos lx).
Proof.
  intros H. unfold advance. rewrite H.
  destruct (Ascii.eqb (char_at lx (pos lx)) "010"%char); eexists; repeat split.
Qed.

Lemma advance_any lx :
  exists lx', advance lx = Done tt lx' /\ lexer_ahead lx lx'.
Proof.
  destruct (is_eof lx) eqn:E.
  - exists lx. unfold advance. rewrite E. split; [reflexivity | apply lexer_ahead_refl].
  - destruct (advance_not_eof lx E) as (lx' & Ha & Hs & Hp).
    exists lx'. split; [exact Ha|]. split; [exact Hs | lia].
Qed.

Lemma unread_after_step lx lx' :
  is_eof lx = false -> source lx' = source lx -> pos lx' = S (pos lx) ->
  (unread lx' < unread lx)%nat.
Proof.
  intros H Hs Hp. apply not_eof_unread in H. unfold unread, source_len in *.
  rewrite Hs, Hp. lia.
Qed.

Ltac step_on lx E IH :=
  let lx1 := fresh "lx" in
  let Ha := fresh "Ha" in let Hs := fresh "Hs" in let Hp := fresh "Hp" in
  destruct (advance_not_eof lx E) as (lx1 & Ha & Hs & Hp);
  rewrite (bind_eq _ _ _ _ _ Ha);
  let lx2 := fresh "lx" in
  let Hr := fresh "Hr" in let Hs2 := fresh "Hs" in let Hp2 := fresh "Hp" in
  destruct (IH lx1) as (lx2 & Hr & Hs2 & Hp2);
  [ pose proof (unread_after_step lx lx1 E Hs Hp); lia
  | exists lx2; split; [exact Hr | split; [congruence | lia]] ].

Lemma skip_whitespace_returns fuel lx :
  (unread lx < fuel)%nat ->
  exists lx', skip_whitespace fuel lx = Done tt lx' /\ lexer_ahead lx lx'.
Proof.
  revert lx. induction fuel as [|f IH]; intros lx Hf; [lia|].
  simpl. unfold bind at 1, get at 1.
  destruct (is_eof lx) eqn:E; [exists lx; split; [reflexivity | apply lexer_ahead_refl]|].
  destruct (_ || _); [|exists lx; split; [reflexivity | apply lexer_ahead_refl]].
  step_on lx E IH.
Qed.

Lemma skip_comment_loop_returns fuel lx :
  (unread lx < fuel)%nat ->
  exists lx', skip_comment_loop fuel lx = Done tt lx' /\ lexer_ahead lx lx'.
Proof.
  revert lx. induction fuel as [|f IH]; intros lx Hf; [lia|].
  simpl. unfold bind at 1, get at 1.
  destruct (is_eof lx) eqn:E; [exists lx; split; [reflexivity | apply lexer_ahead_refl]|].
  destruct (Ascii.eqb _ _); [exists lx; split; [reflexivity | apply lexer_ahead_refl]|].
  step_on lx E IH.
Qed.

Lemma advance_n_returns n lx :
  (pos lx + n <= source_len lx)%nat ->
  exists lx', advance_n n lx = Done tt lx' /\ source lx' = source lx /\ pos lx' = (pos lx + n)%nat.
Proof.
  revert lx. induction n as [|n IH]; intros lx Hn; simpl.
  - exists lx. repeat split. lia.
  - assert (E : is_eof lx = false) by (unfold is_eof; apply Nat.leb_gt; lia).
    destruct (advance_not_eof lx E) as (lx1 & Ha & Hs & Hp).
    rewrite (bind_eq _ _ _ _ _ Ha).
    destruct (IH lx1) as (lx2 & Hr & Hs2 & Hp2).
    + unfold source_len in *. rewrite Hs, Hp. lia.
    + exists lx2. split; [exact Hr|]. split; [congruence | lia].
Qed.

Lemma utf8_char_length_pos c : (1 <= utf8_char_length c)%nat.
Proof. unfold utf8_char_length. repeat destruct (_ =? _); lia. Qed.

(** [read_utf8_char] answers; when it answers a character it has moved on. *)
Lemma read_utf8_char_returns lx :
  exists u lx', read_utf8_char lx = Done u lx' /\ source lx' = source lx
                /\ match u with
                   | Some _ => (pos lx < pos lx')%nat
                   | None => lx' = lx
                   end.
Proof.
  unfold read_utf8_char. unfold bind at 1, get at 1.
  destruct (is_eof lx) eqn:E; [exists None, lx; repeat split|].
  destruct (Nat.ltb_spec (source_len lx) (pos lx + utf8_char_length (current_char lx))) as [H|H];
    [exists None, lx; repeat split|].
  destruct (advance_n_returns _ lx H) as (lx' & Ha & Hs & Hp).
  rewrite (bind_eq _ _ _ _ _ Ha).
  eexists _, lx'. split; [reflexivity|]. split; [exact Hs|].
  pose proof (utf8_char_length_pos (current_char lx)). lia.
Qed.

Lemma read_identifier_loop_returns fuel lx :
  (unread lx < fuel)%nat ->
  exists lx', read_identifier_loop fuel lx = Done tt lx' /\ lexer_ahead lx lx'.
Proof.
  revert lx. induction fuel as [|f IH]; intros lx Hf; [lia|].
  simpl. unfold bind at 1, get at 1.
  destruct (is_eof lx) eqn:E; [exists lx; split; [reflexivity | apply lexer_ahead_refl]|].
  destruct (negb (is_utf8_start (current_char lx))).
  - destruct (negb (is_alnum (current_char lx)));
      [exists lx; split; [reflexivity | apply lexer_ahead_refl]|].
    step_on lx E IH.
  - destruct (read_utf8_char_returns lx) as (u & lx1 & Hu & Hs & Hp).
    rewrite (bind_eq _ _ _ _ _ Hu).
    destruct u as [ch|].
    + destruct (IH lx1) as (lx2 & Hr & Hs2 & Hp2).
      * pose proof (not_eof_unread lx E). unfold unread, source_len in *. rewrite Hs. lia.
      * exists lx2. split; [exact Hr|]. split; [congruence | lia].
    + subst lx1. exists lx. split; [reflexivity | apply lexer_ahead_refl].
Qed.

Lemma read_number_loop_returns fuel lx has_dot :
  (unread lx < fuel)%nat ->
  exists lx', read_number_loop fuel has_dot lx = Done tt lx' /\ lexer_ahead lx lx'.
Proof.
  revert lx has_dot. induction fuel as [|f IH]; intros lx has_dot Hf; [lia|].
  simpl. unfold bind at 1, get at 1.
  destruct (is_eof lx) eqn:E; [exists lx; split; [reflexivity | apply lexer_ahead_refl]|].
  destruct (is_digit (current_char lx)).
  - step_on lx E (fun l => IH l has_dot).
  - destruct (_ && _); [|exists lx; split; [reflexivity | apply lexer_ahead_refl]].
    step_on lx E (fun l => IH l true).
Qed.

Lemma read_string_loop_returns fuel lx :
  (unread lx < fuel)%nat ->
  exists lx', read_string_loop fuel lx = Done tt lx' /\ lexer_ahead lx lx'.
Proof.
  revert lx. induction fuel as [|f IH]; intros lx Hf; [lia|].
  simpl. unfold bind at 1, get at 1.
  destruct (is_eof lx) eqn:E; [exists lx; split; [reflexivity | apply lexer_ahead_refl]|].
  cbn [orb].
  destruct (Ascii.eqb (current_char lx) "034"%char);
    [exists lx; split; [reflexivity | apply lexer_ahead_refl]|].
  destruct (Ascii.eqb (current_char lx) "\"%char).
  - destruct (advance_not_eof lx E) as (lx1 & Ha & Hs & Hp).
    rewrite (bind_eq _ _ _ _ _ Ha). unfold bind at 1, get at 1.
    destruct (is_eof lx1) eqn:E1.
    + exists lx1. split; [reflexivity|]. split; [exact Hs | lia].
    + pose proof (unread_after_step _ _ E Hs Hp).
      assert (Hl : lexer_ahead lx lx1) by (split; [exact Hs | lia]).
      destruct (advance_not_eof lx1 E1) as (lx2 & Ha2 & Hs2 & Hp2).
      rewrite (bind_eq _ _ _ _ _ Ha2).
      pose proof (unread_after_step _ _ E1 Hs2 Hp2).
      destruct (IH lx2) as (lx3 & Hr & Hs3 & Hp3); [lia|].
      exists lx3. split; [exact Hr|]. split; [congruence | lia].
  - step_on lx E IH.
Qed.

Lemma add_token_progress type value l c lx0 lx :
  source lx = source lx0 -> (pos lx0 < pos lx)%nat ->
  exists ok lx', add_token type value l c lx = Done ok lx' /\ source lx' = source lx0
                 /\ (ok = false \/ (pos lx0 < pos lx')%nat).
Proof. intros Hs Hp. eexists _, _. split; [reflexivity|]. split; [exact Hs | right; exact Hp]. Qed.

Lemma one_char_progress type text l c lx :
  is_eof lx = false -> token_progress (advance ;;; add_token type text l c) lx.
Proof.
  intros E. destruct (advance_not_eof lx E) as (lx1 & Ha & Hs & Hp).
  unfold token_progress. rewrite (bind_eq _ _ _ _ _ Ha).
  apply add_token_progress; [exact Hs | lia].
Qed.

Lemma two_char_progress second long short l c lx :
  is_eof lx = false -> token_progress (two_char second long short l c) lx.
Proof.
  intros E. destruct (advance_not_eof lx E) as (lx1 & Ha & Hs & Hp).
  unfold token_progress, two_char. rewrite (bind_eq _ _ _ _ _ Ha).
  unfold bind at 1, get at 1.
  destruct (Ascii.eqb (current_char lx1) second).
  - destruct (advance_any lx1) as (lx2 & Ha2 & Hs2 & Hp2).
    rewrite (bind_eq _ _ _ _ _ Ha2).
    apply add_token_progress; [congruence | lia].
  - apply add_token_progress; [exact Hs | lia].
Qed.

Lemma comment_progress fuel lx :
  is_eof lx = false -> (unread lx < fuel)%nat ->
  token_progress (skip_comment fuel ;;; ret true) lx.
Proof.
  intros E Hf. destruct (advance_not_eof lx E) as (lx1 & Ha & Hs & Hp).
  destruct (skip_comment_loop_returns fuel lx1) as (lx2 & Hr & Hs2 & Hp2).
  { pose proof (unread_after_step _ _ E Hs Hp). lia. }
  exists true, lx2. split; [|split; [congruence | right; lia]].
  unfold skip_comment. unfold bind at 1.
  rewrite (bind_eq _ _ _ _ _ Ha). rewrite Hr. reflexivity.
Qed.

Lemma identifier_progress fuel l c lx :
  is_eof lx = false -> (unread lx < fuel)%nat ->
  token_progress
    (let* identifier := read_identifier fuel in
     match identifier with
     | None => set_error KUNYU_ERROR_LEXER "读取标识符时发生错误" l c ;;; ret false
     | Some id =>
         if 0 <=? is_keyword id
         then add_token KUNYU_TOKEN_KEYWORD id l c
         else add_token KUNYU_TOKEN_IDENTIFIER id l c
     end) lx.
Proof.
  intros E Hf. unfold token_progress, read_identifier.
  unfold bind at 1. unfold bind at 1, get at 1.
  destruct (read_utf8_char_returns lx) as (u & lx1 & Hu & Hs & Hp).
  rewrite (bind_eq _ _ _ _ _ Hu).
  destruct u as [ch|].
  - destruct (read_identifier_loop_returns fuel lx1) as (lx2 & Hr & Hs2 & Hp2).
    { pose proof (not_eof_unread lx E). unfold unread, source_len in *. rewrite Hs. lia. }
    rewrite (bind_eq _ _ _ _ _ Hr). unfold bind at 1, get at 1. unfold ret at 1.
    destruct (0 <=? is_keyword _); apply add_token_progress; solve [congruence | lia].
  - subst lx1. exists false. eexists. split; [reflexivity|]. split; [reflexivity | left; reflexivity].
Qed.

Lemma number_progress fuel l c lx :
  is_eof lx = false -> is_digit (current_char lx) = true -> (unread lx < fuel)%nat ->
  token_progress
    (let* number := read_number fuel in
     match number with
     | None => set_error KUNYU_ERROR_LEXER "读取数字时发生错误" l c ;;; ret false
     | Some n => add_token KUNYU_TOKEN_NUMBER n l c
     end) lx.
Proof.
  intros E Hd Hf. destruct fuel as [|f]; [lia|].
  unfold token_progress, read_number.
  unfold bind at 1. unfold bind at 1, get at 1.
  cbn [read_number_loop]. unfold bind at 1. unfold bind at 1, get at 1.
  rewrite E, Hd.
  destruct (advance_not_eof lx E) as (lx1 & Ha & Hs & Hp).
  rewrite (bind_eq _ _ _ _ _ Ha).
  destruct (read_number_loop_returns f lx1 false) as (lx2 & Hr & Hs2 & Hp2).
  { pose proof (unread_after_step _ _ E Hs Hp). lia. }
  rewrite Hr. unfold bind at 1, get at 1. unfold ret at 1.
  apply add_token_progress; [congruence | lia].
Qed.

Lemma string_progress fuel l c lx :
  is_eof lx = false -> (unread lx < fuel)%nat ->
  token_progress
    (let* str := read_string fuel in
     match str with
     | None => set_error KUNYU_ERROR_LEXER "读取字符串时发生错误" l c ;;; ret false
     | Some s => add_token KUNYU_TOKEN_STRING s l c
     end) lx.
Proof.
  intros E Hf. unfold token_progress, read_string.
  destruct (advance_not_eof lx E) as (lx1 & Ha & Hs & Hp).
  unfold bind at 1. unfold bind at 1. rewrite Ha.
  unfold bind at 1, get at 1.
  destruct (read_string_loop_returns fuel lx1) as (lx2 & Hr & Hs2 & Hp2).
  { pose proof (unread_after_step _ _ E Hs Hp). lia. }
  rewrite (bind_eq _ _ _ _ _ Hr). unfold bind at 1, get at 1.
  destruct (negb (is_eof lx2) && Ascii.eqb (current_char lx2) "034"%char).
  - destruct (advance_any lx2) as (lx3 & Ha3 & Hs3 & Hp3).
    rewrite (bind_eq _ _ _ _ _ Ha3). unfold ret at 1.
    apply add_token_progress; [congruence | lia].
  - unfold bind at 1, ret at 1. unfold ret at 1.
    apply add_token_progress; [congruence | lia].
Qed.

Lemma unknown_progress msg l c lx :
  token_progress (set_error KUNYU_ERROR_LEXER msg l c ;;; advance ;;; ret false) lx.
Proof.
  unfold token_progress. unfold bind at 1, set_error at 1.
  destruct (advance_any
              (mkLexer (source lx) (pos lx) (line lx) (column lx) (tokens lx)
                 (mkError KUNYU_ERROR_LEXER (Libc.snprintf256 msg) l c)))
    as (lx1 & Ha & Hs & Hp).
  rewrite (bind_eq _ _ _ _ _ Ha).
  exists false, lx1. split; [reflexivity|]. split; [exact Hs | left; reflexivity].
Qed.

(** [read_next_token] answers: false, or true with the end-of-file
    token added at the end of the source, or true further on in the
    source. *)
Lemma read_next_token_returns fuel lx :
  (source_len lx < fuel)%nat ->
  exists ok lx',
    read_next_token fuel lx = Done ok lx' /\ source lx' = source lx
    /\ (ok = false
        \/ (exists t, last (tokens lx') = Some t /\ tk_type t = KUNYU_TOKEN_EOF)
        \/ (unread lx' < unread lx)%nat).
Proof.
  intros Hf. unfold read_next_token.
  destruct (skip_whitespace_returns fuel lx) as (lx1 & Hw & Hs1 & Hp1).
  { unfold unread. lia. }
  rewrite (bind_eq _ _ _ _ _ Hw). unfold bind at 1, get at 1.
  destruct (is_eof lx1) eqn:E.
  - eexists _, _. split; [reflexivity|]. split; [exact Hs1|].
    right. left. simpl. rewrite last_snoc. eexists. split; reflexivity.
  - assert (Hf1 : (unread lx1 < fuel)%nat).
    { unfold unread, source_len in *. rewrite Hs1. lia. }
    match goal with
    | |- exists ok lx', ?m lx1 = _ /\ _ => assert (Hm : token_progress m lx1)
    end.
    { repeat match goal with
             | |- token_progress (if is_digit ?c then _ else _) _ =>
                 destruct (is_digit c) eqn:Hd
             | |- token_progress (if ?c then _ else _) _ => destruct c
             end;
        first [ apply comment_progress; assumption
              | apply one_char_progress; assumption
              | apply two_char_progress; assumption
              | apply identifier_progress; assumption
              | apply number_progress; assumption
              | apply string_progress; assumption
              | apply unknown_progress ]. }
    destruct Hm as (ok & lx2 & Hm & Hs2 & Hok).
    exists ok, lx2. split; [exact Hm|]. split; [congruence|].
    destruct Hok as [Hok|Hok]; [left; exact Hok|].
    right. right. pose proof (not_eof_unread lx1 E).
    unfold unread, source_len in *. rewrite Hs2, Hs1 in *. lia.
Qed.

Lemma lexer_tokenize_loop_returns fuel inner lx :
  (source_len lx < inner)%nat -> (unread lx + 1 < fuel)%nat ->
  exists n lx', lexer_tokenize_loop fuel inner lx = Done n lx'.
Proof.
  revert lx. induction fuel as [|f IH]; intros lx Hi Hf; [lia|].
  simpl. destruct (read_next_token_returns inner lx Hi) as (ok & lx1 & Hr & Hs & Hok).
  rewrite (bind_eq _ _ _ _ _ Hr).
  destruct ok; cbn [negb]; [|eexists _, _; reflexivity].
  unfold bind at 1, get at 1.
  assert (Hgo : (unread lx1 < unread lx)%nat ->
                exists n lx', lexer_tokenize_loop f inner lx1 = Done n lx').
  { intros Hlt. apply IH; [unfold source_len in *; rewrite Hs; exact Hi | lia]. }
  destruct Hok as [Hok|[(t & Hlast & Ht)|Hlt]]; [discriminate Hok | |].
  - rewrite Hlast, Ht. eexists _, _; reflexivity.
  - destruct (last (tokens lx1)) as [t|]; [|apply Hgo; exact Hlt].
    destruct (KunyuTokenType_eqb (tk_type t) KUNYU_TOKEN_EOF);
      [eexists _, _; reflexivity | apply Hgo; exact Hlt].
Qed.

Lemma lexer_tokenize_returns src :
  exists n lx, lexer_tokenize (lexer_init src) = Done n lx.
Proof.
  unfold lexer_tokenize. apply lexer_tokenize_loop_returns.
  - unfold source_len. simpl. lia.
  - unfold unread, source_len. simpl. lia.
Qed.

End LexerTermination.

(** X14.  The lexer answers on every source text, and closes the
    tokens with one end-of-file token.  Each loop of the lexer reads at
    least one byte per turn or stops, so [lexer_tokenize] ends on a text
    of any length and content.  Either it answers -1 and leaves a
    lexical error record, or it answers the number of tokens, which is
    positive, and the token array is a run of tokens none of which is an
    end-of-file token, closed by exactly one end-of-file token: the
    sentinel that the parser relies on. *)
Theorem lexer_answers_with_closed_tokens (src : string) :
  exists n lx,
    Lexer.lexer_tokenize (Lexer.lexer_init src) = Done n lx
    /\ ((n = -1 /\ err_code (Lexer.error lx) = KUNYU_ERROR_LEXER)
        \/ (n = Z.of_nat (length (Lexer.tokens lx)) /\ 0 < n
            /\ closed_by_eof (Lexer.tokens lx))).
Proof.
  destruct (lexer_tokenize_returns src) as (n & lx & H).
  exists n, lx. split; [exact H|].
  unfold Lexer.lexer_tokenize in H.
  apply lexer_tokenize_loop_spec in H as (_ & [Hbad|(Hn & Hc)]);
    [left; exact Hbad | | constructor].
  right. split; [exact Hn|]. split; [|exact Hc].
  destruct Hc as (body & t & Heq & _). rewrite Hn, Heq, length_app. simpl. lia.
Qed.

(** The two answers of the lexer: on [1+] three tokens, on [1 ~] a
    lexical error. *)
Example lexer_two_answers :
  Lexer.tokenize "1+"
  = Some (inl [mkToken KUNYU_TOKEN_NUMBER "1" 1 1; mkToken KUNYU_TOKEN_OPERATOR "+" 1 2;
               mkToken KUNYU_TOKEN_EOF "" 1 3])
  /\ Lexer.tokenize "1 ~"
     = Some (inr (mkError KUNYU_ERROR_LEXER "未知字符: ~" 1 3)).
Proof. split; vm_compute; reflexivity. Qed.

(* ================================================================== *)
(** * Further properties of the parser *)

(** ** The parser answers on every token array *)

Section ParserTermination.
Import Parser.

Variable toks : list Token.
Hypothesis toks_end : ends_with_eof toks.

Lemma parser_forward_refl ps : parser_forward ps ps.
Proof. unfold parser_forward. repeat split; lia. Qed.

Lemma parser_forward_trans a b c :
  parser_forward a b -> parser_forward b c -> parser_forward a c.
Proof.
  unfold parser_forward. intros (Ht1 & H1 & H2) (Ht2 & H3 & H4).
  rewrite Ht1 in Ht2, H4. repeat split; [exact Ht2 | lia | lia].
Qed.

Lemma current_token_lt ps t : current_token ps = Some t -> (current ps < length (tokens ps))%nat.
Proof.
  unfold current_token, token_count.
  destruct (Nat.leb_spec (length (tokens ps)) (current ps)); [discriminate | lia].
Qed.

(** A token that is not the end-of-file token is not the last one. *)
Lemma not_last ps t :
  tokens ps = toks -> current_token ps = Some t -> tk_type t <> KUNYU_TOKEN_EOF ->
  (S (current ps) < length toks)%nat.
Proof.
  intros Hps Hcur Hne. pose proof (current_token_lt _ _ Hcur) as Hlt.
  unfold current_token, token_count in Hcur. rewrite Hps in Hcur, Hlt.
  destruct (Nat.leb_spec (length toks) (current ps)); [discriminate|].
  destruct toks_end as (e & Hlast & He).
  destruct (decide (S (current ps) = length toks)) as [Heq|Hneq]; [|lia].
  exfalso. apply Hne. rewrite last_lookup in Hlast.
  replace (Nat.pred (length toks)) with (current ps) in Hlast by lia.
  rewrite Hcur in Hlast. inversion Hlast; subst. exact He.
Qed.

Lemma parser_forward_remaining ps ps' :
  parser_forward ps ps' -> (remaining ps' <= remaining ps)%nat.
Proof. intros (Ht & H1 & H2). unfold remaining. rewrite Ht. lia. Qed.

Lemma consumed_remaining ps ps' :
  parser_forward ps ps' -> (current ps < current ps')%nat ->
  (1 <= remaining ps /\ remaining ps' <= remaining ps - 1)%nat.
Proof. intros (Ht & H1 & H2) Hlt. unfold remaining. rewrite Ht. lia. Qed.

Lemma follows_ret {A} b (a : A) : follows toks b (ret a).
Proof. intros ps _ _. exists a, ps. split; [reflexivity | apply parser_forward_refl]. Qed.

Lemma follows_get b : follows toks b get.
Proof. intros ps _ _. exists ps, ps. split; [reflexivity | apply parser_forward_refl]. Qed.

Lemma follows_mono {A} b b' (m : Ps A) : (b <= b')%nat -> follows toks b' m -> follows toks b m.
Proof. intros Hb Hm ps Hps Hr. apply Hm; [exact Hps | lia]. Qed.

Lemma parses_follows {A} b (m : Ps (option A)) : parses toks b m -> follows toks b m.
Proof.
  intros Hm ps Hps Hr. destruct (Hm ps Hps Hr) as (r & ps' & Hrun & Hfw & _).
  exists r, ps'. split; assumption.
Qed.

Lemma follows_bind {A B} b (m : Ps A) (f : A -> Ps B) :
  follows toks b m -> (forall a, follows toks b (f a)) -> follows toks b (bind m f).
Proof.
  intros Hm Hf ps Hps Hr. destruct (Hm ps Hps Hr) as (a & ps1 & Hrun & Hfw).
  destruct (Hf a ps1) as (c & ps2 & Hrun2 & Hfw2).
  - destruct Hfw as (Ht & _). rewrite Ht. exact Hps.
  - pose proof (parser_forward_remaining _ _ Hfw). lia.
  - exists c, ps2. split; [rewrite (bind_eq _ _ _ _ _ Hrun); exact Hrun2|].
    eapply parser_forward_trans; eassumption.
Qed.

(** After a step that has consumed a token, what follows has one token less. *)
Lemma follows_then {A B} b (m : Ps (option A)) (f : option A -> Ps B) :
  parses toks b m ->
  follows toks b (f None) ->
  (forall a, (1 <= b)%nat -> follows toks (b - 1) (f (Some a))) ->
  follows toks b (bind m f).
Proof.
  intros Hm Hnone Hsome ps Hps Hr.
  destruct (Hm ps Hps Hr) as (r & ps1 & Hrun & Hfw & Hc).
  assert (Ht1 : tokens ps1 = toks) by (destruct Hfw as (Ht & _); rewrite Ht; exact Hps).
  pose proof (parser_forward_remaining _ _ Hfw) as Hrem.
  unfold follows_at. rewrite (bind_eq _ _ _ _ _ Hrun).
  destruct r as [a|].
  - destruct (consumed_remaining _ _ Hfw Hc) as (H1 & H2).
    destruct (Hsome a ltac:(lia) ps1 Ht1 ltac:(lia)) as (c & ps2 & Hrun2 & Hfw2).
    exists c, ps2. split; [exact Hrun2 | eapply parser_forward_trans; eassumption].
  - destruct (Hnone ps1 Ht1 ltac:(lia)) as (c & ps2 & Hrun2 & Hfw2).
    exists c, ps2. split; [exact Hrun2 | eapply parser_forward_trans; eassumption].
Qed.

Lemma parses_then {A B} b (m : Ps (option A)) (f : option A -> Ps (option B)) :
  parses toks b m ->
  f None = ret None ->
  (forall a, (1 <= b)%nat -> follows toks (b - 1) (f (Some a))) ->
  parses toks b (bind m f).
Proof.
  intros Hm Hnone Hsome ps Hps Hr.
  destruct (Hm ps Hps Hr) as (r & ps1 & Hrun & Hfw & Hc).
  assert (Ht1 : tokens ps1 = toks) by (destruct Hfw as (Ht & _); rewrite Ht; exact Hps).
  unfold parses_at. rewrite (bind_eq _ _ _ _ _ Hrun).
  destruct r as [a|].
  - destruct (consumed_remaining _ _ Hfw Hc) as (H1 & H2).
    destruct (Hsome a ltac:(lia) ps1 Ht1 ltac:(lia)) as (c & ps2 & Hrun2 & Hfw2).
    exists c, ps2. split; [exact Hrun2|]. split; [eapply parser_forward_trans; eassumption|].
    simpl in Hc. destruct Hfw2 as (_ & Hle & _).
    destruct c; simpl; [lia | right; lia].
  - rewrite Hnone. exists None, ps1. split; [reflexivity|]. split; [exact Hfw | exact Hc].
Qed.

Lemma follows_advance b : follows toks b advance.
Proof.
  intros ps _ _. unfold follows_at, advance.
  destruct (current_token ps) as [t|] eqn:E.
  - eexists _, _. split; [reflexivity|].
    apply current_token_lt in E. unfold parser_forward; simpl. repeat split; lia.
  - eexists _, _. split; [reflexivity | apply parser_forward_refl].
Qed.

Lemma follows_set_error_here b code msg : follows toks b (set_error_here code msg).
Proof.
  intros ps _ _. eexists _, _. split; [reflexivity|].
  unfold parser_forward; simpl. repeat split; lia.
Qed.

Lemma follows_set_error_code b code msg : follows toks b (set_error_code code msg).
Proof.
  intros ps _ _. eexists _, _. split; [reflexivity|].
  unfold parser_forward; simpl. repeat split; lia.
Qed.

Lemma follows_set_error_at b code msg l c : follows toks b (set_error_at code msg l c).
Proof.
  intros ps _ _. eexists _, _. split; [reflexivity|].
  unfold parser_forward; simpl. repeat split; lia.
Qed.

Lemma advance_on ps t :
  current_token ps = Some t ->
  advance ps = Done (Some t) (mkParser (tokens ps) (S (current ps)) (error ps))
  /\ parser_forward ps (mkParser (tokens ps) (S (current ps)) (error ps)).
Proof.
  intros H. unfold advance. rewrite H. split; [reflexivity|].
  apply current_token_lt in H. unfold parser_forward; simpl. repeat split; lia.
Qed.

Lemma parses_expect b type message : parses toks b (expect type message).
Proof.
  intros ps _ _. unfold parses_at, expect. unfold bind at 1, get at 1.
  destruct (check type ps) eqn:E.
  - unfold check in E. destruct (current_token ps) as [t|] eqn:Hc; [|discriminate].
    destruct (advance_on ps t Hc) as (Ha & Hfw). rewrite Ha.
    eexists _, _. split; [reflexivity|]. split; [exact Hfw | simpl; lia].
  - eexists _, _. split; [reflexivity|]. split.
    + unfold parser_forward; simpl. repeat split; lia.
    + simpl. left. discriminate.
Qed.

Lemma parses_expect_keyword b keyword message : parses toks b (expect_keyword keyword message).
Proof.
  intros ps _ _. unfold parses_at, expect_keyword. unfold bind at 1, get at 1.
  destruct (check_keyword keyword ps) eqn:E.
  - unfold check_keyword in E. destruct (current_token ps) as [t|] eqn:Hc; [|discriminate].
    destruct (advance_on ps t Hc) as (Ha & Hfw). rewrite Ha.
    eexists _, _. split; [reflexivity|]. split; [exact Hfw | simpl; lia].
  - eexists _, _. split; [reflexivity|]. split.
    + unfold parser_forward; simpl. repeat split; lia.
    + simpl. left. discriminate.
Qed.

Ltac follow_step :=
  first
    [ assumption
    | apply follows_ret
    | apply follows_get
    | apply follows_advance
    | apply follows_set_error_here
    | apply follows_set_error_code
    | apply follows_set_error_at
    | apply follows_then;
      [ first [ apply parses_expect | apply parses_expect_keyword ] | | intros ? ? ]
    | apply follows_bind; [ | intros ? ]
    | match goal with
      | |- follows _ _ (match ?x with _ => _ end) => destruct x
      | |- follows _ _ (if ?x then _ else _) => destruct x
      end ].

Lemma follows_match b type : follows toks b (match_ type).
Proof. unfold match_. repeat follow_step. Qed.

Lemma follows_match_keyword b keyword : follows toks b (match_keyword keyword).
Proof. unfold match_keyword. repeat follow_step. Qed.

Lemma follows_skip_newlines b : follows toks b skip_newlines.
Proof.
  assert (Hloop : forall n, follows toks b (skip_newlines_loop n)).
  { induction n; simpl; repeat first [apply follows_match | follow_step]. }
  intros ps Hps Hr. unfold skip_newlines. apply Hloop; assumption.
Qed.

Lemma follows_after_operator {A} b (m1 m2 : Ps A) :
  (forall ps, tokens ps = toks -> (remaining ps <= b)%nat ->
              is_operator (current_token ps) = true -> follows_at m1 ps) ->
  follows toks b m2 ->
  follows toks b (let* ps1 := get in if is_operator (current_token ps1) then m1 else m2).
Proof.
  intros H1 H2 ps Hps Hr. unfold follows_at, bind, get.
  destruct (is_operator (current_token ps)) eqn:E; [apply H1 | apply H2]; assumption.
Qed.

Lemma parses_at_follows_at {A} (m : Ps (option A)) ps : parses_at m ps -> follows_at m ps.
Proof. intros (r & ps' & Hrun & Hfw & _). exists r, ps'. split; assumption. Qed.

(** [advance] on a token that is there, and what follows it. *)
Lemma parses_after_advance {B} b (f : option Token -> Ps (option B)) ps t :
  tokens ps = toks -> (remaining ps <= b)%nat ->
  current_token ps = Some t ->
  ((1 <= b)%nat -> follows toks (b - 1) (f (Some t))) ->
  parses_at (bind advance f) ps.
Proof.
  intros Hps Hr Hc Hf. destruct (advance_on ps t Hc) as (Ha & Hfw).
  unfold parses_at. rewrite (bind_eq _ _ _ _ _ Ha).
  pose proof (current_token_lt _ _ Hc) as Hlt.
  assert (Hb : (1 <= b)%nat) by (unfold remaining in Hr; lia).
  destruct (Hf Hb (mkParser (tokens ps) (S (current ps)) (error ps))) as (c & ps2 & Hrun & Hfw2).
  - exact Hps.
  - unfold remaining in *. simpl. lia.
  - exists c, ps2. split; [exact Hrun|]. split; [eapply parser_forward_trans; eassumption|].
    destruct Hfw2 as (_ & Hle & _). simpl in Hle.
    destruct c; simpl; [lia | right; lia].
Qed.

Lemma parses_at_error {B} (m : Ps (option B)) ps ps' :
  m ps = Done None ps' -> parser_forward ps ps' -> err_code (error ps') <> KUNYU_OK ->
  parses_at m ps.
Proof. intros Hm Hfw He. exists None, ps'. split; [exact Hm|]. split; [exact Hfw | left; exact He]. Qed.

Lemma peek_token_advanced ps u :
  peek_token ps = Some u ->
  current_token (mkParser (tokens ps) (S (current ps)) (error ps)) = Some u.
Proof.
  unfold peek_token, current_token, token_count. simpl.
  rewrite Nat.add_1_r. intros H. exact H.
Qed.

Lemma operator_is_there ps :
  is_operator (current_token ps) = true -> exists t, current_token ps = Some t.
Proof. destruct (current_token ps) as [t|]; [intros _; exists t; reflexivity | discriminate]. Qed.

(** One step through a body: [ih] proves the goals about the functions
    called, [op] the one about [parse_binary_expr] on an operator. *)
Ltac answer_step ih op :=
  first
    [ apply follows_then;
      [ first [ apply parses_expect | apply parses_expect_keyword | ih ]
      | cbn [missing]
      | intros ? ?; cbn [missing] ]
    | apply follows_after_operator; [ intros ? ? ? ?; apply parses_at_follows_at; op | ]
    | apply follows_match | apply follows_match_keyword | apply follows_skip_newlines
    | apply parses_follows; ih
    | ih
    | follow_step ].

Lemma answers_expressions fuel : expressions_answer toks fuel.
Proof.
  induction fuel as [|f (IHe & IHb & IHc & IHa & IHp)].
  - split; [|split; [|split; [|split]]]; intros; lia.
  - split; [|split; [|split; [|split]]].
    + (* parse_expression *)
      intros b Hf ps Hps Hr. cbn [parse_expression]. unfold parses_at.
      unfold bind at 1, get at 1. cbv zeta.
      match goal with
      | |- context [match ?a with Some name => _ | None => bind (parse_primary f) _ end] =>
          destruct a as [name|] eqn:Ha
      end.
      * destruct (check KUNYU_TOKEN_IDENTIFIER ps); [|discriminate Ha].
        destruct (current_token ps) as [t|] eqn:Hc; [|discriminate Ha].
        clear Ha.
        apply (parses_after_advance b _ ps t Hps Hr Hc); intros Hb.
        repeat answer_step
          ltac:(first [apply IHe | apply IHp | apply IHc | apply IHa]; lia)
          ltac:(eapply IHb; cycle 1; [eassumption | eassumption | eassumption | lia]).
      * assert (H : parses toks b
                      (let* expr := parse_primary f in
                       match expr with
                       | None => ret None
                       | Some e =>
                           let* ps1 := get in
                           if is_operator (current_token ps1) then parse_binary_expr f e
                           else ret (Some e)
                       end)).
        { apply parses_then; [apply IHp; lia | reflexivity | intros e Hb].
          repeat answer_step
            ltac:(first [apply IHe | apply IHp | apply IHc | apply IHa]; lia)
            ltac:(eapply IHb; cycle 1; [eassumption | eassumption | eassumption | lia]). }
        exact (H ps Hps Hr).
    + (* parse_binary_expr *)
      intros b left ps Hf Hps Hr Hop. cbn [parse_binary_expr].
      destruct (operator_is_there ps Hop) as (t & Hc).
      apply (parses_after_advance b _ ps t Hps Hr Hc); intros Hb.
      cbv zeta.
      repeat answer_step
        ltac:(first [apply IHe | apply IHp | apply IHc | apply IHa]; lia)
        ltac:(eapply IHb; cycle 1; [eassumption | eassumption | eassumption | lia]).
    + (* parse_function_call *)
      intros b name Hf. cbn [parse_function_call].
      apply parses_then; [apply parses_expect | reflexivity | intros t Hb].
      repeat answer_step
        ltac:(first [apply IHe | apply IHp | apply IHc | apply IHa]; lia)
        ltac:(eapply IHb; cycle 1; [eassumption | eassumption | eassumption | lia]).
    + (* parse_call_args *)
      intros b args Hf. cbn [parse_call_args].
      apply parses_then; [apply IHe; lia | reflexivity | intros a Hb].
      cbv zeta.
      repeat answer_step
        ltac:(first [apply IHe | apply IHp | apply IHc | apply IHa]; lia)
        ltac:(eapply IHb; cycle 1; [eassumption | eassumption | eassumption | lia]).
    + (* parse_primary *)
      intros b Hf ps Hps Hr. cbn [parse_primary]. unfold parses_at.
      unfold bind at 1, get at 1.
      destruct (current_token ps) as [token|] eqn:Hc.
      * repeat match goal with
               | |- context [if ?c then _ else _] => destruct c
               end;
          first
            [ apply (parses_after_advance b _ ps token Hps Hr Hc); intros Hb;
              repeat answer_step
                ltac:(first [apply IHe | apply IHp | apply IHc | apply IHa]; lia)
                ltac:(eapply IHb; cycle 1; [eassumption | eassumption | eassumption | lia])
            | eapply parses_at_error;
              [ reflexivity
              | unfold parser_forward; simpl; repeat split; lia
              | simpl; discriminate ] ].
      * eapply parses_at_error;
          [ reflexivity
          | unfold parser_forward; simpl; repeat split; lia
          | simpl; discriminate ].
Qed.

Lemma answers_parse_expression fuel b :
  (4 * b + 3 <= fuel)%nat -> parses toks b (parse_expression fuel).
Proof. apply answers_expressions. Qed.

Ltac answer_all ih :=
  repeat answer_step ltac:(ih) ltac:(fail).

Lemma answers_parse_print_stmt fuel b :
  (4 * b + 3 <= fuel)%nat -> parses toks b (parse_print_stmt fuel).
Proof.
  intros Hf. unfold parse_print_stmt.
  apply parses_then; [apply parses_expect_keyword | reflexivity | intros t Hb].
  answer_all ltac:(apply answers_parse_expression; lia).
Qed.

Lemma answers_parse_return_stmt fuel b :
  (4 * b + 3 <= fuel)%nat -> parses toks b (parse_return_stmt fuel).
Proof.
  intros Hf. unfold parse_return_stmt.
  apply parses_then; [apply parses_expect_keyword | reflexivity | intros t Hb].
  answer_all ltac:(apply answers_parse_expression; lia).
Qed.

(** [parse_var_decl] where [parse_statement] calls it: on a keyword. *)
Lemma answers_parse_var_decl fuel b ps t :
  (4 * b + 3 <= fuel)%nat -> tokens ps = toks -> (remaining ps <= b)%nat ->
  current_token ps = Some t ->
  parses_at (parse_var_decl fuel) ps.
Proof.
  intros Hf Hps Hr Hc. unfold parse_var_decl. unfold parses_at.
  unfold bind at 1, get at 1. cbv zeta.
  apply (parses_after_advance b _ ps t Hps Hr Hc); intros Hb.
  answer_all ltac:(apply answers_parse_expression; lia).
Qed.

Lemma answers_parse_params fuel :
  forall b params, (b + 1 <= fuel)%nat -> parses toks b (parse_params fuel params).
Proof.
  induction fuel as [|f IH]; intros b params Hf; [lia|].
  cbn [parse_params].
  apply parses_then; [apply parses_expect | reflexivity | intros p Hb].
  cbv zeta. answer_all ltac:(apply IH; lia).
Qed.

(** The tail of an expression statement: the delimiter that [match]
    consumes is not the last token, so there is a token to compare. *)
Lemma follows_expression_tail b e :
  follows toks b
    (let* m := match_ KUNYU_TOKEN_DELIMITER in
     let* bad :=
       if negb m then ret true
       else let* v := current_value in ret (negb (String.eqb v ";")) in
     if bad then
       set_error_here KUNYU_ERROR_PARSER "预期';'作为表达式语句的结束" ;;; ret None
     else
       advance ;;; ret (Some (ExpressionStmt e))).
Proof.
  intros ps Hps Hr. unfold follows_at, match_.
  unfold bind at 1, get at 1. unfold bind at 1.
  destruct (check KUNYU_TOKEN_DELIMITER ps) eqn:Hcheck.
  - unfold check in Hcheck. destruct (current_token ps) as [t|] eqn:Hcur; [|discriminate].
    assert (Hne : tk_type t <> KUNYU_TOKEN_EOF).
    { intros Heq. rewrite Heq in Hcheck. discriminate. }
    pose proof (not_last _ _ Hps Hcur Hne) as Hlt.
    destruct (advance_on ps t Hcur) as (Ha & Hfw).
    rewrite (bind_eq _ _ _ _ _ Ha). unfold ret at 1.
    set (ps1 := mkParser (tokens ps) (S (current ps)) (error ps)) in *.
    assert (Hcur1 : exists u, current_token ps1 = Some u).
    { unfold current_token, token_count, ps1; simpl. rewrite Hps.
      destruct (Nat.leb_spec (length toks) (S (current ps))); [lia|].
      apply lookup_lt_is_Some_2. exact Hlt. }
    destruct Hcur1 as (u & Hu).
    cbn [negb]. unfold bind at 1. unfold bind at 1, current_value at 1. rewrite Hu.
    unfold ret at 1.
    assert (Hrest : forall (m : Ps (option AstNode)), follows toks b m ->
              exists a ps', m ps1 = Done a ps' /\ parser_forward ps ps').
    { intros m Hm. destruct (Hm ps1) as (a & ps2 & Hrun & Hfw2).
      - unfold ps1; simpl; exact Hps.
      - pose proof (parser_forward_remaining _ _ Hfw). lia.
      - exists a, ps2. split; [exact Hrun | eapply parser_forward_trans; eassumption]. }
    destruct (negb (String.eqb (tk_value u) ";")); apply Hrest; repeat follow_step.
  - unfold ret at 1. cbn [negb]. unfold bind at 1, ret at 1.
    assert (Hrest : follows toks b
              (set_error_here KUNYU_ERROR_PARSER "预期';'作为表达式语句的结束" ;;;
               @ret ParserContext (option AstNode) None))
      by (repeat follow_step).
    exact (Hrest ps Hps Hr).
Qed.

Lemma answers_parse_expression_stmt fuel b :
  (4 * b + 3 <= fuel)%nat -> parses toks b (parse_expression_stmt fuel).
Proof.
  intros Hf. unfold parse_expression_stmt.
  apply parses_then; [apply answers_parse_expression; lia | reflexivity | intros e Hb].
  apply follows_expression_tail.
Qed.

Lemma check_keyword_token keyword ps :
  check_keyword keyword ps = true -> exists t, current_token ps = Some t.
Proof.
  unfold check_keyword. destruct (current_token ps) as [t|]; [intros _; exists t; reflexivity|].
  discriminate.
Qed.

Lemma answers_statements fuel : statements_answer toks fuel.
Proof.
  induction fuel as [|f (IHs & IHi & IHl & IHk & IHkl & IHf)].
  - split; [|split; [|split; [|split; [|split]]]]; intros; lia.
  - split; [|split; [|split; [|split; [|split]]]].
    + (* parse_statement *)
      intros b Hf ps Hps Hr. cbn [parse_statement]. unfold parses_at.
      unfold bind at 1, get at 1.
      destruct (check_keyword "输出" ps);
        [apply (answers_parse_print_stmt f b); [lia | exact Hps | exact Hr]|].
      destruct (check_keyword "变量" ps || check_keyword "常量" ps) eqn:Hvar.
      { apply orb_true_iff in Hvar.
        assert (Ht : exists t, current_token ps = Some t)
          by (destruct Hvar as [H|H]; eapply check_keyword_token; exact H).
        destruct Ht as (t & Ht).
        apply (answers_parse_var_decl f b ps t); [lia | exact Hps | exact Hr | exact Ht]. }
      destruct (check_keyword "如果" ps); [apply (IHi b); [lia | exact Hps | exact Hr]|].
      destruct (check_keyword "循环" ps); [apply (IHl b); [lia | exact Hps | exact Hr]|].
      destruct (check_keyword "函数" ps); [apply (IHf b); [lia | exact Hps | exact Hr]|].
      destruct (check_keyword "返回" ps);
        [apply (answers_parse_return_stmt f b); [lia | exact Hps | exact Hr]|].
      apply (answers_parse_expression_stmt f b); [lia | exact Hps | exact Hr].
    + (* parse_if_stmt *)
      intros b Hf. cbn [parse_if_stmt].
      apply parses_then; [apply parses_expect_keyword | reflexivity | intros t Hb].
      answer_all
        ltac:(first [ apply answers_parse_expression | apply IHi | apply IHk ]; lia).
    + (* parse_loop_stmt *)
      intros b Hf. cbn [parse_loop_stmt].
      apply parses_then; [apply parses_expect_keyword | reflexivity | intros t Hb].
      answer_all
        ltac:(first [ apply answers_parse_expression | apply IHk ]; lia).
    + (* parse_block *)
      intros b Hf. cbn [parse_block].
      answer_all ltac:(first [ apply IHkl ]; lia).
    + (* parse_block_loop *)
      intros b statements Hf. cbn [parse_block_loop].
      apply follows_bind; [apply follows_get | intros ps0].
      destruct (check_delimiter "}" ps0); [apply follows_ret|].
      apply follows_then; [apply IHs; lia | apply follows_ret | intros s Hb].
      cbv zeta. answer_all ltac:(first [ apply IHkl ]; lia).
    + (* parse_function_decl *)
      intros b Hf. cbn [parse_function_decl].
      apply parses_then; [apply parses_expect_keyword | reflexivity | intros t Hb].
      answer_all
        ltac:(first [ apply answers_parse_params | apply IHk ]; lia).
Qed.

Lemma answers_parse_program_loop fuel :
  forall b statements ps,
    (4 * b + 6 <= fuel)%nat -> tokens ps = toks -> (remaining ps <= b)%nat ->
    program_answers_at (parse_program_loop fuel statements) ps.
Proof.
  induction fuel as [|f IH]; intros b statements ps Hf Hps Hr; [lia|].
  unfold program_answers_at. cbn [parse_program_loop].
  unfold bind at 1, get at 1.
  destruct ((current ps <? token_count ps)%nat && negb (check KUNYU_TOKEN_EOF ps)).
  - destruct (proj1 (answers_statements f) b ltac:(lia) ps Hps Hr)
      as (r & ps1 & Hrun & Hfw & Hc).
    rewrite (bind_eq _ _ _ _ _ Hrun). unfold bind at 1, get at 1.
    assert (Ht1 : tokens ps1 = toks) by (destruct Hfw as (Ht & _); rewrite Ht; exact Hps).
    assert (Hnext : forall stmts, (current ps < current ps1)%nat ->
              exists root ps',
                (skip_newlines ;;; parse_program_loop f stmts) ps1 = Done root ps'
                /\ parser_forward ps ps'
                /\ match root with
                   | Some node => exists statements, node = Program statements
                   | None => err_code (error ps') <> KUNYU_OK
                   end).
    { intros stmts Hlt. destruct (consumed_remaining _ _ Hfw Hlt) as (H1 & H2).
      destruct (follows_skip_newlines (b - 1) ps1 Ht1 ltac:(lia)) as ([] & ps2 & Hskip & Hfw2).
      rewrite (bind_eq _ _ _ _ _ Hskip).
      assert (Ht2 : tokens ps2 = toks) by (destruct Hfw2 as (Ht & _); rewrite Ht; exact Ht1).
      pose proof (parser_forward_remaining _ _ Hfw2) as Hrem.
      destruct (IH (b - 1)%nat stmts ps2 ltac:(lia) Ht2 ltac:(lia))
        as (root & ps3 & Hloop & Hfw3 & Hroot).
      exists root, ps3. split; [exact Hloop|]. split; [|exact Hroot].
      eapply parser_forward_trans; [exact Hfw|].
      eapply parser_forward_trans; eassumption. }
    destruct r as [s|].
    + apply Hnext. exact Hc.
    + destruct (err_code (error ps1)) eqn:Hcode;
        try (exists None, ps1; split; [reflexivity|]; split; [exact Hfw|];
             rewrite Hcode; discriminate).
      apply Hnext. destruct Hc as [Hc|Hc]; [contradiction | exact Hc].
  - eexists _, ps. split; [reflexivity|]. split; [apply parser_forward_refl|].
    eexists. reflexivity.
Qed.

Lemma answers_parse_program fuel ps :
  (4 * remaining ps + 6 <= fuel)%nat -> tokens ps = toks ->
  program_answers_at (parse_program fuel) ps.
Proof.
  intros Hf Hps. unfold program_answers_at, parse_program.
  destruct (follows_skip_newlines (remaining ps) ps Hps ltac:(lia)) as ([] & ps1 & Hskip & Hfw).
  rewrite (bind_eq _ _ _ _ _ Hskip).
  assert (Ht1 : tokens ps1 = toks) by (destruct Hfw as (Ht & _); rewrite Ht; exact Hps).
  pose proof (parser_forward_remaining _ _ Hfw) as Hrem.
  destruct (answers_parse_program_loop fuel (remaining ps) [] ps1 Hf Ht1 Hrem)
    as (root & ps2 & Hloop & Hfw2 & Hroot).
  exists root, ps2. split; [exact Hloop|]. split; [|exact Hroot].
  eapply parser_forward_trans; eassumption.
Qed.

End ParserTermination.

(** X15.  The parser answers on every token array that the
    lexer can build, and never reads a token that is not there.  With
    four units of fuel for each token (and six more), [parser_parse] ends
    on every array closed by the end-of-file token, whatever stands in it:
    every loop of the parser consumes a token per turn or stops on an
    error.  It answers a program node, or NULL with an error code; it
    leaves the array as it is and its cursor inside it or right behind
    it. *)
Theorem parser_answers_on_every_token_array (fuel : nat) (toks : list Token) :
  ends_with_eof toks ->
  (4 * length toks + 6 <= fuel)%nat ->
  exists root ps,
    Parser.parser_parse fuel toks = Done root ps
    /\ Parser.tokens ps = toks
    /\ (Parser.current ps <= length toks)%nat
    /\ match root with
       | Some node => exists statements, node = Program statements
       | None => err_code (Parser.error ps) <> KUNYU_OK
       end.
Proof.
  intros Hend Hf. unfold Parser.parser_parse.
  destruct toks as [|t toks']; [destruct Hend as (e & He & _); discriminate He|].
  destruct (answers_parse_program _ Hend fuel (Parser.parser_init (t :: toks')))
    as (root & ps & Hrun & (Ht & _ & Hc) & Hroot).
  - unfold remaining. simpl. simpl in Hf. lia.
  - reflexivity.
  - exists root, ps. split; [exact Hrun|]. split; [exact Ht|]. split; [|exact Hroot].
    simpl in Hc |- *. lia.
Qed.

(** X15 at the tokens of [1;], which are a syntax error. *)
Lemma parser_answers_on_every_token_array_witness :
  exists root ps,
    Parser.parser_parse 18
      [mkToken KUNYU_TOKEN_NUMBER "1" 1 1; mkToken KUNYU_TOKEN_DELIMITER ";" 1 2;
       mkToken KUNYU_TOKEN_EOF "" 1 3] = Done root ps
    /\ Parser.tokens ps =
         [mkToken KUNYU_TOKEN_NUMBER "1" 1 1; mkToken KUNYU_TOKEN_DELIMITER ";" 1 2;
          mkToken KUNYU_TOKEN_EOF "" 1 3]
    /\ (Parser.current ps <= 3)%nat
    /\ match root with
       | Some node => exists statements, node = Program statements
       | None => err_code (Parser.error ps) <> KUNYU_OK
       end.
Proof.
  apply (parser_answers_on_every_token_array 18
           [mkToken KUNYU_TOKEN_NUMBER "1" 1 1; mkToken KUNYU_TOKEN_DELIMITER ";" 1 2;
            mkToken KUNYU_TOKEN_EOF "" 1 3]).
  - exists (mkToken KUNYU_TOKEN_EOF "" 1 3). split; reflexivity.
  - simpl. lia.
Defined.

(** Without the closing end-of-file token the statement [1;] runs off
    the array: the text compared with the semicolon is that of a token
    that is not there.  With it, the statement is a syntax error. *)
Example parser_without_eof :
  Parser.parser_parse 18
    [mkToken KUNYU_TOKEN_NUMBER "1" 1 1; mkToken KUNYU_TOKEN_DELIMITER ";" 1 2] = Undefined
  /\ exists ps,
       Parser.parser_parse 18
         [mkToken KUNYU_TOKEN_NUMBER "1" 1 1; mkToken KUNYU_TOKEN_DELIMITER ";" 1 2;
          mkToken KUNYU_TOKEN_EOF "" 1 3] = Done None ps
       /\ Parser.current ps = 2%nat.
Proof. split; [vm_compute; reflexivity | eexists; split; vm_compute; reflexivity]. Qed.

(** ** Print statements and their terminator *)

Section PrintStatements.
Import Parser.

Lemma delimiter_ends_chain delim post :
  tk_type delim = KUNYU_TOKEN_DELIMITER -> String.eqb (tk_value delim) "(" = false ->
  ends_chain (delim :: post) = true.
Proof. intros Hty Hv. unfold ends_chain. rewrite Hty, Hv. reflexivity. Qed.

(** A print statement over a chain, closed by any delimiter: the
    delimiter is consumed, and only a semicolon gives a statement; the
    error record is not written. *)
Lemma parse_print_statement_chain l c first rest delim tail pre err fuel :
  chain_ok first rest = true ->
  tk_type delim = KUNYU_TOKEN_DELIMITER ->
  String.eqb (tk_value delim) "(" = false ->
  (length rest + 3 <= fuel)%nat ->
  parse_statement fuel
    (parser_at pre (print_keyword l c :: chain_tokens first rest ++ delim :: tail) err)
  = Done (if String.eqb (tk_value delim) ";"
          then Some (PrintStmt (chain_node first rest)) else None)
      (parser_at (pre ++ print_keyword l c :: chain_tokens first rest ++ [delim]) tail err).
Proof.
  intros Hok Hty Hparen Hfuel.
  destruct fuel as [|f]; [lia|].
  rewrite parse_statement_unfold. unfold bind at 1, get at 1.
  assert (Hkw : forall post, check_keyword "输出" (parser_at pre (print_keyword l c :: post) err) = true).
  { intros post. unfold check_keyword. rewrite parser_at_current. reflexivity. }
  rewrite Hkw. unfold parse_print_stmt, expect_keyword.
  unfold bind at 1 2, get at 1. rewrite Hkw.
  rewrite parser_at_advance.
  rewrite (bind_eq _ _ _ _ _
             (parse_expression_chain first rest (pre ++ [print_keyword l c]) (delim :: tail) err f
                Hok (delimiter_ends_chain _ _ Hty Hparen) ltac:(lia))).
  unfold expect. unfold bind at 1 2, get at 1.
  assert (Hcheck : check KUNYU_TOKEN_DELIMITER
            (parser_at ((pre ++ [print_keyword l c]) ++ chain_tokens first rest)
               (delim :: tail) err) = true).
  { unfold check. rewrite parser_at_current. rewrite Hty. reflexivity. }
  rewrite Hcheck. rewrite parser_at_advance.
  unfold missing.
  replace (((pre ++ [print_keyword l c]) ++ chain_tokens first rest) ++ [delim])
    with (pre ++ print_keyword l c :: chain_tokens first rest ++ [delim])
    by (rewrite <- !app_assoc; reflexivity).
  destruct (String.eqb (tk_value delim) ";"); reflexivity.
Qed.

End PrintStatements.

(** X16.  A print statement closed by a delimiter that is not a
    semicolon (a parenthesis, a comma, a brace) is no syntax error.
    [parse_print_stmt] consumes the delimiter and answers NULL without
    writing the error record, and [parse_program], which stops only on
    an error code, goes on behind the delimiter with the statements it
    has: the statement silently disappears from the program. *)
Theorem misclosed_print_statement_is_dropped
    (l c : Z) (first : Token) (rest : list (Token * Token)) (delim : Token)
    (tail pre : list Token) (err : KunyuError) (fuel : nat) (statements : list AstNode) :
  chain_ok first rest = true ->
  wrong_terminator delim = true ->
  err_code err = KUNYU_OK ->
  (length rest + 3 <= fuel)%nat ->
  Parser.parse_program_loop (S fuel) statements
    (parser_at pre (print_keyword l c :: chain_tokens first rest ++ delim :: tail) err)
  = (Parser.skip_newlines ;;; Parser.parse_program_loop fuel statements)
      (parser_at (pre ++ print_keyword l c :: chain_tokens first rest ++ [delim]) tail err).
Proof.
  intros Hok Hwrong Herr Hfuel.
  unfold wrong_terminator in Hwrong.
  apply andb_true_iff in Hwrong as [Hwrong Hparen].
  apply andb_true_iff in Hwrong as [Hty Hsemi].
  apply negb_true_iff in Hparen, Hsemi.
  assert (Hty' : tk_type delim = KUNYU_TOKEN_DELIMITER)
    by (destruct (tk_type delim); try discriminate; reflexivity).
  cbn [Parser.parse_program_loop]. unfold bind at 1, get at 1.
  assert (Hhere : (Parser.current
                     (parser_at pre (print_keyword l c :: chain_tokens first rest ++ delim :: tail) err)
                   <? Parser.token_count
                        (parser_at pre (print_keyword l c :: chain_tokens first rest ++ delim :: tail) err))%nat
                  && negb (Parser.check KUNYU_TOKEN_EOF
                             (parser_at pre (print_keyword l c :: chain_tokens first rest ++ delim :: tail) err))
                  = true).
  { apply andb_true_intro. split.
    - apply Nat.ltb_lt. unfold parser_at, Parser.token_count. cbn [Parser.current Parser.tokens].
      rewrite length_app. simpl. lia.
    - unfold Parser.check. rewrite parser_at_current. reflexivity. }
  rewrite Hhere.
  rewrite (bind_eq _ _ _ _ _
             (parse_print_statement_chain l c first rest delim tail pre err fuel
                Hok Hty' Hparen Hfuel)).
  rewrite Hsemi. unfold bind at 1, get at 1.
  unfold parser_at at 1. cbn [Parser.error]. rewrite Herr. reflexivity.
Qed.

Lemma misclosed_print_statement_is_dropped_witness :
  Parser.parse_program_loop 5 []
    (parser_at []
       (print_keyword 1 1 :: chain_tokens (mkToken KUNYU_TOKEN_NUMBER "1" 1 8) []
        ++ mkToken KUNYU_TOKEN_DELIMITER ")" 1 9
           :: [print_keyword 1 11; mkToken KUNYU_TOKEN_NUMBER "2" 1 18;
               mkToken KUNYU_TOKEN_DELIMITER ";" 1 19; mkToken KUNYU_TOKEN_EOF "" 1 20])
       no_error)
  = (Parser.skip_newlines ;;; Parser.parse_program_loop 4 [])
      (parser_at
         ([] ++ print_keyword 1 1 :: chain_tokens (mkToken KUNYU_TOKEN_NUMBER "1" 1 8) []
          ++ [mkToken KUNYU_TOKEN_DELIMITER ")" 1 9])
         [print_keyword 1 11; mkToken KUNYU_TOKEN_NUMBER "2" 1 18;
          mkToken KUNYU_TOKEN_DELIMITER ";" 1 19; mkToken KUNYU_TOKEN_EOF "" 1 20]
         no_error)
  /\ parse_result 20 "输出 1) 输出 2;"
     = Some (Some (Program [PrintStmt (LiteralExpr KUNYU_TOKEN_NUMBER "2")]), no_error)
  /\ run_result 20 "输出 1) 输出 2;" = Some (true, no_error, ("2" ++ newline)%string).
Proof.
  split; [|by_running].
  apply (misclosed_print_statement_is_dropped 1 1 (mkToken KUNYU_TOKEN_NUMBER "1" 1 8) []
           (mkToken KUNYU_TOKEN_DELIMITER ")" 1 9)).
  - reflexivity.
  - reflexivity.
  - reflexivity.
  - simpl. lia.
Defined.

(** ** Assignments in expressions *)

Section Assignments.
Import Parser.

Lemma parse_expression_target f name eq post pre err :
  is_target (name, eq) = true ->
  parse_expression (S f) (parser_at pre (name :: eq :: post) err)
  = (let* value := parse_expression f in
     match value with
     | None => ret None
     | Some v => ret (Some (AssignExpr (tk_value name) v))
     end) (parser_at (pre ++ [name; eq]) post err).
Proof.
  intros Ht. unfold is_target in Ht. cbn [fst snd] in Ht.
  apply andb_true_iff in Ht as [Ht Hv]. apply andb_true_iff in Ht as [Hn He].
  cbn [parse_expression]. unfold bind at 1, get at 1. cbv zeta.
  unfold check. rewrite parser_at_current, parser_at_peek. rewrite Hn, He, Hv. cbn [andb].
  rewrite (bind_eq _ _ _ _ _ (parser_at_advance _ _ _ _)).
  rewrite (bind_eq _ _ _ _ _ (parser_at_advance _ _ _ _)).
  rewrite <- app_assoc. reflexivity.
Qed.

End Assignments.

(** X17.  Assignment groups to the right and takes everything
    behind it.  A run of [name =] in front of a chain of binary operators
    parses to the assignment of the whole chain to the last name, of
    that assignment to the name before it, and so on: [a = b = 1 + 2] is
    [a = (b = (1 + 2))]. *)
Theorem assignments_nest_to_the_right
    (targets : list (Token * Token)) (first : Token) (rest : list (Token * Token))
    (pre tail : list Token) (err : KunyuError) (fuel : nat) :
  forallb is_target targets = true ->
  chain_ok first rest = true ->
  ends_chain tail = true ->
  (length targets + length rest + 2 <= fuel)%nat ->
  Parser.parse_expression fuel
    (parser_at pre (target_tokens targets ++ chain_tokens first rest ++ tail) err)
  = Done (Some (assign_node targets (chain_node first rest)))
      (parser_at (pre ++ target_tokens targets ++ chain_tokens first rest) tail err).
Proof.
  revert first rest pre tail err fuel.
  induction targets as [|[name eq] targets IH]; intros first rest pre tail err fuel Ht Hok Hend Hf.
  - simpl. apply parse_expression_chain; [exact Hok | exact Hend | simpl in Hf; lia].
  - simpl in Ht. apply andb_true_iff in Ht as [Ht Hts].
    destruct fuel as [|f]; [simpl in Hf; lia|].
    unfold target_tokens. cbn [flat_map fst snd app].
    rewrite (parse_expression_target f name eq _ pre err Ht).
    fold (target_tokens targets).
    rewrite (bind_eq _ _ _ _ _
               (IH first rest (pre ++ [name; eq]) tail err f Hts Hok Hend
                  ltac:(simpl in Hf; lia))).
    unfold ret. cbn [assign_node fold_right fst].
    rewrite <- !app_assoc. reflexivity.
Qed.

Lemma assignments_nest_to_the_right_witness :
  Parser.parse_expression 5
    (parser_at []
       (target_tokens
          [(mkToken KUNYU_TOKEN_IDENTIFIER "a" 1 1, mkToken KUNYU_TOKEN_OPERATOR "=" 1 3);
           (mkToken KUNYU_TOKEN_IDENTIFIER "b" 1 5, mkToken KUNYU_TOKEN_OPERATOR "=" 1 7)]
        ++ chain_tokens (mkToken KUNYU_TOKEN_NUMBER "1" 1 9)
             [(mkToken KUNYU_TOKEN_OPERATOR "+" 1 11, mkToken KUNYU_TOKEN_NUMBER "2" 1 13)]
        ++ [mkToken KUNYU_TOKEN_DELIMITER ";" 1 14]) no_error)
  = Done (Some (AssignExpr "a"
                  (AssignExpr "b"
                     (BinaryExpr OP_ADD (LiteralExpr KUNYU_TOKEN_NUMBER "1")
                        (LiteralExpr KUNYU_TOKEN_NUMBER "2")))))
      (parser_at
         ([] ++ target_tokens
            [(mkToken KUNYU_TOKEN_IDENTIFIER "a" 1 1, mkToken KUNYU_TOKEN_OPERATOR "=" 1 3);
             (mkToken KUNYU_TOKEN_IDENTIFIER "b" 1 5, mkToken KUNYU_TOKEN_OPERATOR "=" 1 7)]
          ++ chain_tokens (mkToken KUNYU_TOKEN_NUMBER "1" 1 9)
               [(mkToken KUNYU_TOKEN_OPERATOR "+" 1 11, mkToken KUNYU_TOKEN_NUMBER "2" 1 13)])
         [mkToken KUNYU_TOKEN_DELIMITER ";" 1 14] no_error)
  /\ expression_of_source 10 "a = b = 1 + 2"
     = Some (AssignExpr "a"
               (AssignExpr "b"
                  (BinaryExpr OP_ADD (LiteralExpr KUNYU_TOKEN_NUMBER "1")
                     (LiteralExpr KUNYU_TOKEN_NUMBER "2")))).
Proof.
  split; [|vm_compute; reflexivity].
  apply (assignments_nest_to_the_right
           [(mkToken KUNYU_TOKEN_IDENTIFIER "a" 1 1, mkToken KUNYU_TOKEN_OPERATOR "=" 1 3);
            (mkToken KUNYU_TOKEN_IDENTIFIER "b" 1 5, mkToken KUNYU_TOKEN_OPERATOR "=" 1 7)]
           (mkToken KUNYU_TOKEN_NUMBER "1" 1 9)
           [(mkToken KUNYU_TOKEN_OPERATOR "+" 1 11, mkToken KUNYU_TOKEN_NUMBER "2" 1 13)]
           [] [mkToken KUNYU_TOKEN_DELIMITER ";" 1 14] no_error 5%nat).
  - reflexivity.
  - reflexivity.
  - reflexivity.
  - simpl. lia.
Defined.

(* ================================================================== *)
(** * Further properties of the front end *)

Section TokenCount.
Import Lexer.

















End TokenCount.



(* ================================================================== *)
(** * Further properties of the read-eval-print loop *)

Section ReplRound.
Import Repl.

Lemma is_expression_from_eof before rest :
  ends_with_eof rest -> is_expression_from before rest = true.
Proof.
  revert before. induction rest as [|token rest IH]; intros before (t & Hlast & Ht).
  - discriminate.
  - simpl.
    destruct (KunyuTokenType_eqb (tk_type token) KUNYU_TOKEN_OPERATOR
              && String.eqb (tk_value token) "=" && negb (has_var_keyword before));
      [reflexivity|].
    destruct rest as [|t1 rest1].
    + simpl in Hlast. inversion Hlast; subst. rewrite Ht. reflexivity.
    + cbn [andb]. apply IH. exists t. split; [|exact Ht].
      rewrite last_cons_cons in Hlast. exact Hlast.
Qed.

End ReplRound.

(** X19.  Every input line of the read-eval-print loop is taken for
    an expression.  The test for a missing final semicolon looks at the
    last token, which is always the end-of-file token, so whatever the
    input is (a declaration or a statement that ends in a semicolon as
    well), the round runs the text [输出 <input>;] instead of the input. *)
Theorem repl_wraps_every_input (fuel : nat) (source : string) (tokens : list Token) :
  Lexer.tokenize source = Some (inl tokens) ->
  (length tokens <= 1024)%nat ->
  Repl.is_expression tokens = true /\
  forall c,
    Repl.execute_and_print fuel source c =
    (let* again := Repl.tokenize_or_report (Repl.print_wrapped source) in
     match again with
     | None => ret false
     | Some wrapped => Repl.parse_and_run fuel wrapped
     end) c.
Proof.
  intros Htok Hlen.
  assert (He : Repl.is_expression tokens = true).
  { apply is_expression_from_eof. apply (tokenize_ends_with_eof _ _ Htok). }
  split; [exact He|]. intros c.
  unfold Repl.execute_and_print.
  unfold Repl.tokenize_or_report at 1. rewrite Htok.
  destruct (Nat.ltb_spec 1024 (length tokens)) as [Hbig|_]; [lia|].
  unfold bind at 1, ret at 1. rewrite He. reflexivity.
Qed.

Lemma repl_wraps_every_input_witness :
  Repl.is_expression
    [mkToken KUNYU_TOKEN_KEYWORD "变量" 1 1; mkToken KUNYU_TOKEN_IDENTIFIER "x" 1 8;
     mkToken KUNYU_TOKEN_OPERATOR "=" 1 10; mkToken KUNYU_TOKEN_NUMBER "1" 1 12;
     mkToken KUNYU_TOKEN_DELIMITER ";" 1 13; mkToken KUNYU_TOKEN_EOF "" 1 14] = true /\
  repl_result 20 "变量 x = 1;" =
    Some (false, "",
          ("语法分析错误: 预期表达式但遇到了: 变量 (行 1, 列 8)" ++ newline)%string).
Proof.
  split.
  - apply (repl_wraps_every_input 20 "变量 x = 1;"); [vm_compute; reflexivity | simpl; lia].
  - vm_compute. reflexivity.
Defined.
